(* ===== verification/_CoqProject ===== *)
-Q . S2P
Prelude.v
Float64.v
Sha256.v
Strconv.v
Lines.v
Utf8.v
Json.v
CacheSalt.v
Config.v
Errors.v
RouteContext.v
MetadataGroup.v
Hrw.v
CacheKey.v
Shadow.v
ShadowInv.v
CircuitBreaker.v
Metrics.v
Pool.v
Selection.v
Lifecycle.v
RouteInfo.v
Autoroute.v
Worker.v
TokenCount.v
Headers.v
Billing.v
Citations.v
Annotations.v
Latency.v
InputTokens.v
Coerce.v
Quirks.v
WebSearch.v
Session.v
Events.v
Sse.v
Proxy.v
Base64.v
FileInputs.v
Dispatch.v
Router.v
RouterSpec.v
Prompt.v
ToolLoop.v
ToolLoopSpec.v
ToolLoopRuns.v
Runtime.v
StreamBase.v
StreamToy.v
ResponsesStream.v
ResponsesSpec.v
ChatStream.v
ChatForward.v
ChatSpec.v
Handle.v
