(* ===== verification/Prelude.v ===== *)
(** * A verification of the confidential model router

    The router (a Go program) sits between API clients and backends that run
    language models in attested enclaves.  It admits a request, keys it, picks a
    backend the verifier vouches for, rewrites the body, runs the router's own
    tools when the request asks for them, and streams the answer back, counting
    tokens, citing sources and billing on the way.  This library models the parts
    of it that decide something, as executable definitions named after the Go
    functions, and proves what they promise.

    ** Files and the code they model

    Foundations:
    - [Prelude]: machine integers, times, list lemmas, tactics.  [Float64] is
      IEEE double arithmetic over [SpecFloat]; [Sha256] is SHA-256, hex and
      URL-safe base64; [Base64] is standard base64; [Strconv] is the part of
      strconv and strings the code uses; [Lines] splits byte streams; [Utf8] is
      UTF-8 with the citation code's byte-to-rune offsets; [Json] is decoded JSON
      (objects are finite maps).
    - [Config] (config/config.go), [Errors] (manager/errors.go), [Headers]
      (header handling of the handlers), [Coerce], [Quirks] (toolruntime/coerce.go,
      quirks.go): policies, the error envelope, headers, and the repair of what
      models emit.

    A request on its way to a backend:
    - [Router], [RouterSpec] (main.go): the HTTP handler, from a request to its
      refusal or to the plan of what is run or forwarded, as a computation in a
      state-and-outcome monad; its guarantees, by a small logic of it.
    - [RouteContext] (route_context.go, route_context_cache.go,
      max_output_tokens.go, completion_count.go): admission verdicts of the
      control plane, their byte-bounded cache, their refreshes and their effect
      on a request.  [MetadataGroup]: the callers that share a fetch of a
      credential's identity.
    - [Autoroute] (autoroute/, manager/model_metadata.go, resolveAutoModel of
      main.go): the resolution of the model "auto".
    - [CacheSalt] (cachesalt/, cache_salt.go, identity helpers of main.go): the
      salt that separates tenants' prompt caches in the inference engine.
    - [FileInputs] (responses_file_inputs.go, manager/file_inputs.go): attached
      files and the document service.  [InputTokens] (input_tokens.go): token
      counting requests.
    - [Hrw], [CacheKey], [Shadow], [ShadowInv] (cacheroute/): rendezvous ranking,
      the routing key of a request, the table of recently seen keys, and the
      table's invariants.  [RouteInfo] (cacheroute/metrics.go): the labels that
      publish each model's hosts and mode.  [Worker] (manager/manager.go): the
      rounds that fetch the configuration and renew every host, readiness, the
      status and the scrape targets.
    - [CircuitBreaker], [Metrics], [Pool], [Selection], [Lifecycle] (manager/):
      a backend's breaker and load guards, a model's pool and its reservations,
      the selection of a backend, and how backends enter, are renewed in and
      leave the pool.
    - [Dispatch] (manager/http_client.go): the router's own requests to models.

    The answer on its way back:
    - [Proxy] (manager/proxy.go, retry.go, usage writer): breaker outcomes,
      failover, metered bodies and billing of a proxied request.
    - [TokenCount] (tokencount/, manager/pricing.go), [Billing] (billing/,
      manager/usage_context.go): usage read off an answer, its price, the events
      reported.  [Latency] (latency.go): the first-token service level.
    - [Sse] (toolruntime/sse_reader.go, sse_heartbeat.go): event streams and
      heartbeats.  [Citations], [Annotations] (toolruntime/citations/): citations
      of streamed and of whole answers.

    The tool runtime (toolruntime/):
    - [WebSearch] (options), [Session] (the registry of tool sessions), [Prompt]
      (prompts and the forced final turn), [Events] (what tool calls look like to
      the client), [ToolLoop], [ToolLoopSpec], [ToolLoopRuns] (the loop, its laws,
      its theorems), [Runtime] (its edges).
    - [StreamBase], [ResponsesStream], [ResponsesSpec], [ChatStream],
      [ChatForward], [ChatSpec]: the two streamers over the same loop, the
      invariants of what they write, and what a client makes of it.  [StreamToy]
      is the environment their witnesses run in.  [Handle] composes sessions,
      surfaces, streamers and billing as the runtime's entry does.

    ** How the parts fit

    [Router.handle] calls the parts in the handler's order: [Billing] (customer
    counts), [WebSearch] (options lifted off the body), [RouteContext] (limits and
    the one admission lookup), [Autoroute], [FileInputs], [CacheSalt], then either
    the tool runtime or [Selection] over [Pool]; its [plan] is what [Proxy] serves,
    and [Router.next_replica] is the replay [Proxy] asks for.  A configuration
    ([Config]) gives [Lifecycle] the hosts to verify and [Pool] the reservations;
    [Selection] reads each backend's tier from [Metrics] and claims recovery probes
    from [CircuitBreaker]; the order it prefers backends in comes from [Shadow],
    which ranks with [Hrw] under the key of [CacheKey].  The tool loop's model
    requests go through [Dispatch].  [Worker] drives [Lifecycle] and [RouteInfo]
    with each configuration, beside the requests.

    Interfaces are type classes: [toolLoopAdapter] (a surface of the tool loop, as
    in the code) with its laws [LawfulSurface] and [SurfaceView], so that the loop's
    theorems are proved once and hold for both non-streaming surfaces (the streamed
    runs have theorems of their own);
    [toolProgressEmitter] (how a streamer announces progress); and the
    surroundings [Env], [StreamEnv] and [RouterEnv].

    ** What the theorems show

    - The handler ([RouterSpec]): every request is admitted exactly once
      ([request_admitted_once]); the body belongs to the router
      ([router_owns_body]); in-flight counts are exact, replays included
      ([reservation_released], [replay_moves_reservation]); replicas are the
      caller's ([forwarded_in_callers_pools]).
    - Safety of dispatch: requests go to verified backends only
      ([dispatch_verified]), never to another tenant's reserved ones
      ([serving_respects_reservations]); a replay happens at most once, before
      anything reached the client ([failover_at_most_once]); probes are always
      resolved ([probe_always_resolved], [dispatched_probe_settled]).
    - Isolation: salts and routing keys of different tenants differ unless SHA-256
      collides ([salt_namespaces_disjoint], [routing_key_separates]); a file name
      cannot forge a header ([filename_cannot_forge_headers]); cache-only requests
      never crawl ([cache_only_never_crawls]).
    - Runs of the tool loop, on every surface: bounded ([tool_loop_bounded]), every
      call answered ([every_call_answered]), usage complete
      ([usage_accounts_every_turn], [billed_exactly_once]), no router call shown
      ([no_router_call_escapes]); the streams are single, numbered and coherent
      ([responses_stream_delimited], [chat_stream_coherent]) and a client
      reassembles what was meant for it ([client_reassembles_calls]).  End to end, a
      request is answered once and leaves nothing behind
      ([tool_request_answered_once], [tool_request_settled]).
    - Invariants of state machines: the breaker under every interleaving of its
      atomic instructions ([interleaved_claims_unique]), the admission client
      ([admission_state_bounded], [verdicts_never_regress]) and the callers that
      share its fetches ([metadata_callers_served]), the routing table
      ([reachable_table_wf]) and its published labels ([no_stale_series],
      [round_publishes_config]), the overload events ([overload_events_alternate]).
      Reachability is an inductive closure of a step per locked section or
      atomic instruction.
    - Functional specifications on every branch: selection and retry are sound,
      complete and optimal; verification and configuration do exactly what they
      should; "auto" picks the first healthy candidate of a ranking independent of
      map order; files become parts in place ([files_become_parts]).
    - Refinements and equivalences: the running router is a state of the manager's
      machine ([worker_refines_manager]), whose rounds renew every host and end
      ([round_renews_every_host], [round_terminates], [ready_after_full_round]);
      the breaker is "fewer than three failures since
      the last success" ([breaker_closed_iff]); the incremental first-token detector
      equals a reading of the whole stream ([detector_matches_stream]); heartbeats
      are invisible to readers ([heartbeats_invisible]).
    - Round trips and bounds: attached files and echoed items come back as they
      were, counts and bytes stay within their limits.

    ** Conventions

    A Go [int], [int64] or [uint64] is a [Z], with [wrap64]/[wrap_u64] where the
    code can overflow.  A string is a Coq [string] of bytes (a list of code
    points in [Citations], which works on runes).  A nil pointer is [None]; a
    panic is [None] too, and theorems show where it does not happen.  What a function
    reads from its surroundings is an argument: the clock ([now]), the order Go
    ranges over a map in ([iter], [order]), a random choice ([rnd]).  Code outside the
    repository is a parameter: xxHash, YAML and JSON decoding, net/url, media types,
    Unicode lower-casing, the attestation library's results, the transport's replies.
    Loops that are not structural take fuel that is computed from the state (one
    more than the list or the text left), and the theorems about them show that
    the fuel suffices, so that totality is part of the statement; the tool loop's
    eleven turns are the code's own bound.

    ** What is not modelled

    The Prometheus declarations (manager/prometheus.go and the counters and
    histograms of cacheroute/metrics.go); the program's flags, start-up and shutdown and the
    pages the router serves about itself; net/http, its reverse proxy and the
    dialing of transports and tool sessions beyond what callbacks see of them;
    and the build-tagged harnesses and the command-line client.  Logging and metric counters are left
    out except where they are the subject (overload events, routing-table gauges,
    latency, proxy outcomes).

    This file: shared notation, tactics, hints and generic lemmas. *)

From stdpp Require Export base tactics numbers list sorting option strings gmap.
From Stdlib Require Export ZArith Lia.
From Corelib Require Export SpecFloat.

#[global] Open Scope Z_scope.
#[global] Set Default Goal Selector "!".

(** ** Automation *)

(** Splits every conjunction of the goal and the boolean tests of the context
    that [bool_decide]/[andb]/comparison lemmas turn into propositions. *)
Ltac bool_simp :=
  repeat match goal with
  | H : _ && _ = true |- _ => apply andb_true_iff in H; destruct H
  | H : _ || _ = false |- _ => apply orb_false_iff in H; destruct H
  | H : negb _ = true |- _ => apply negb_true_iff in H
  | H : negb _ = false |- _ => apply negb_false_iff in H
  | H : (_ >? _) = _ |- _ => rewrite Z.gtb_ltb in H
  | H : (_ >=? _) = _ |- _ => rewrite Z.geb_leb in H
  | H : (_ <? _) = true |- _ => apply Z.ltb_lt in H
  | H : (_ <? _) = false |- _ => apply Z.ltb_ge in H
  | H : (_ <=? _) = true |- _ => apply Z.leb_le in H
  | H : (_ <=? _) = false |- _ => apply Z.leb_gt in H
  | H : (_ =? _) = true |- _ => apply Z.eqb_eq in H
  | H : (_ =? _) = false |- _ => apply Z.eqb_neq in H
  | H : bool_decide _ = true |- _ => apply bool_decide_eq_true in H
  | H : bool_decide _ = false |- _ => apply bool_decide_eq_false in H
  end.

(** Case analysis on the next conditional or match scrutinee, keeping its
    equation and discarding impossible branches. *)
Ltac case_step :=
  match goal with
  | |- context [if ?b then _ else _] => destruct b eqn:?
  | |- context [match ?x with _ => _ end] => destruct x eqn:?
  end; simplify_eq/=; bool_simp; try done.

(** The same in a hypothesis. *)
Ltac case_in H :=
  match type of H with
  | context [if ?b then _ else _] => destruct b eqn:?
  | context [match ?x with _ => _ end] => destruct x eqn:?
  end; simplify_eq/=; bool_simp; try done.

Create HintDb router discriminated.

(** ** Machine integers *)

(** Go's [int] and [int64] (64-bit targets) and [uint64]. *)
Definition int64_min : Z := - 2 ^ 63.
Definition int64_max : Z := 2 ^ 63 - 1.
Definition in_int64 (z : Z) : Prop := int64_min <= z <= int64_max.

(** Two's-complement wrap-around of signed 64-bit arithmetic. *)
Definition wrap64 (z : Z) : Z := (z + 2 ^ 63) mod 2 ^ 64 - 2 ^ 63.
Definition wrap_u64 (z : Z) : Z := z mod 2 ^ 64.

Lemma wrap64_id z : in_int64 z -> wrap64 z = z.
Proof.
  unfold in_int64, int64_min, int64_max, wrap64. intros H.
  rewrite Z.mod_small; lia.
Qed.

Lemma wrap64_range z : in_int64 (wrap64 z).
Proof.
  unfold in_int64, int64_min, int64_max, wrap64.
  pose proof (Z.mod_pos_bound (z + 2 ^ 63) (2 ^ 64)). lia.
Qed.

Lemma wrap_u64_id z : 0 <= z < 2 ^ 64 -> wrap_u64 z = z.
Proof. intros. by apply Z.mod_small. Qed.

#[export] Hint Resolve wrap64_range : router.

(** ** Time

    A [time.Time] is its number of nanoseconds since the Unix epoch; the zero
    [time.Time] is January 1 of year 1.  A [time.Duration] is a signed 64-bit
    number of nanoseconds, and [Time.Sub] saturates at the ends of that range. *)
Definition time_zero : Z := - 62135596800 * 1000000000.
Definition IsZero (t : Z) : bool := t =? time_zero.
Definition Second : Z := 1000000000.
Definition Minute : Z := 60 * Second.
Definition Hour : Z := 60 * Minute.

Definition time_sub (a b : Z) : Z := Z.max int64_min (Z.min int64_max (a - b)).

(** [t.Truncate(time.Minute)]: down to a multiple of a minute since the zero time. *)
Definition truncate_minute (t : Z) : Z := t - (t - time_zero) mod Minute.

Lemma time_sub_small a b : in_int64 (a - b) -> time_sub a b = a - b.
Proof. unfold in_int64, time_sub. lia. Qed.

(** The saturated difference compares with a bound the way the exact one does. *)
Lemma time_sub_le a b d : in_int64 d -> d < int64_max -> time_sub a b <= d <-> a - b <= d.
Proof. unfold in_int64, time_sub, int64_min, int64_max. lia. Qed.

Lemma time_sub_lt a b d : int64_min < d <= int64_max -> time_sub a b < d <-> a - b < d.
Proof. unfold time_sub, int64_min, int64_max. lia. Qed.

Lemma truncate_minute_le t : truncate_minute t <= t < truncate_minute t + Minute.
Proof.
  unfold truncate_minute.
  pose proof (Z.mod_pos_bound (t - time_zero) Minute ltac:(done)). lia.
Qed.

(** ** Lists *)

(** An invariant of a left fold; the step may use that its element is in the list. *)
Lemma foldl_inv {A B} (f : A -> B -> A) (I : A -> Prop) l a :
  I a -> (forall a b, b ∈ l -> I a -> I (f a b)) -> I (foldl f a l).
Proof.
  revert a. induction l as [|x l IH]; intros a Ha Hf; simpl; [done|].
  apply IH; [apply Hf; [left|done]|]. intros a' b Hb. apply Hf. by right.
Qed.

(** Two folds whose steps agree on the elements of the list agree. *)
Lemma foldl_ext_elem {A B} (f g : A -> B -> A) l a :
  (forall a b, b ∈ l -> f a b = g a b) -> foldl f a l = foldl g a l.
Proof.
  revert a. induction l as [|x l IH]; intros a Hf; simpl; [done|].
  rewrite Hf by left. apply IH. intros a' b Hb. apply Hf. by right.
Qed.

Lemma filter_StronglySorted {A} (R : relation A) (P : A -> Prop) `{forall x, Decision (P x)} l :
  StronglySorted R l -> StronglySorted R (filter P l).
Proof.
  induction 1 as [|x l Hs IH Hall]; [constructor|]. rewrite filter_cons. case_decide; [|done].
  constructor; [done|]. apply Forall_forall. intros y [_ Hy]%list_elem_of_filter.
  by eapply Forall_forall in Hall.
Qed.

(** Sortedness transfers to a relation implied on the elements of the list. *)
Lemma StronglySorted_impl_elem {A} (R R' : relation A) l :
  (forall a b, a ∈ l -> b ∈ l -> R a b -> R' a b) -> StronglySorted R l -> StronglySorted R' l.
Proof.
  intros HR. induction 1 as [|x l Hs IH Hall]; [constructor|]. constructor.
  - apply IH. intros a b Ha Hb. apply HR; by right.
  - rewrite Forall_forall in *. intros y Hy. apply HR; [left|by right|by apply Hall].
Qed.

(** The last element of a sorted list is related to by every other one. *)
Lemma StronglySorted_last {A} (R : relation A) l x y :
  StronglySorted R l -> last l = Some x -> y ∈ l -> y = x \/ R y x.
Proof.
  induction 1 as [|z l Hs IH Hall]; [done|]. intros Hl [->|Hy]%elem_of_cons.
  - destruct l as [|w l]; [left; by injection Hl|]. right. rewrite Forall_forall in Hall.
    apply Hall. by apply last_Some_elem_of.
  - destruct l as [|w l]; [by apply not_elem_of_nil in Hy|]. by apply IH.
Qed.

(** Moving the element with a given key to the front of a list with distinct keys. *)
Lemma NoDup_key_perm {A B} `{EqDecision B} (f : A -> B) (l : list A) (c : A) :
  NoDup (map f l) -> c ∈ l -> c :: filter (fun x => f x <> f c) l ≡ₚ l.
Proof.
  induction l as [|x l IH]; intros Hnd Hin; [by apply not_elem_of_nil in Hin|].
  inversion Hnd as [|? ? Hx Hnd']; subst. rewrite filter_cons. apply elem_of_cons in Hin as [->|Hin].
  - rewrite decide_False by (intros H; by apply H). f_equiv.
    assert (forall l' : list A, (forall y, y ∈ l' -> f y <> f x) -> filter (fun y => f y <> f x) l' = l') as Hall.
    { induction l' as [|y l' IH']; intros Hy; [done|]. rewrite filter_cons, decide_True by (apply Hy; left).
      f_equal. apply IH'. intros z Hz. apply Hy. by right. }
    rewrite Hall; [done|]. intros y Hy Heq. apply Hx. rewrite <- Heq. by apply list_elem_of_fmap_2.
  - rewrite decide_True by (intros Heq; apply Hx; rewrite Heq; by apply list_elem_of_fmap_2).
    rewrite Permutation_swap. f_equiv. by apply IH.
Qed.

Definition sum_by {A} (f : A -> Z) (l : list A) : Z := foldr (fun x n => f x + n) 0 l.

#[export] Instance sum_by_Permutation {A} (f : A -> Z) : Proper (Permutation ==> eq) (sum_by f).
Proof. induction 1; unfold sum_by in *; simpl in *; lia. Qed.

Lemma sum_by_nonneg {A} (f : A -> Z) l : (forall x, x ∈ l -> 0 <= f x) -> 0 <= sum_by f l.
Proof.
  induction l as [|x l IH]; intros H; simpl; [done|]. specialize (H x ltac:(left)) as Hx.
  specialize (IH ltac:(intros; apply H; by right)). lia.
Qed.

(** ** Machines

    What the stateful components promise their clients in common: a way to
    start and a transition per atomic step.  A component's safety is stated of
    the states reachable in its machine. *)
Class Machine (St : Type) := MkMachine { initial : St -> Prop; transition : St -> St -> Prop }.

#[global] Arguments initial {St} _ _ : assert.
#[global] Arguments transition {St} _ _ _ : assert.

Inductive reachable {St} (M : Machine St) : St -> Prop :=
  | reach_initial s : initial M s -> reachable M s
  | reach_next s s' : reachable M s -> transition M s s' -> reachable M s'.

(** Invariants hold of every reachable state. *)
Lemma reachable_invariant {St} (M : Machine St) (I : St -> Prop) :
  (forall s, initial M s -> I s) -> (forall s s', I s -> transition M s s' -> I s') -> forall s, reachable M s -> I s.
Proof. intros H0 H1 s. induction 1; eauto. Qed.

(** A relation every step respects relates a state to the later ones. *)
Lemma steps_invariant {St} (M : Machine St) (I : St -> Prop) (R : St -> St -> Prop) :
  Reflexive R -> Transitive R -> (forall s s', I s -> transition M s s' -> I s' /\ R s s') ->
  forall s s', I s -> rtc (transition M) s s' -> I s' /\ R s s'.
Proof.
  intros Hr Ht H s s' Hs Hst. induction Hst as [|x y z Hxy _ IH]; [by split|].
  destruct (H _ _ Hs Hxy) as [Hy Hxy']. destruct (IH Hy) as [Hz Hyz]. split; [done|by etrans].
Qed.
