(* ===== verification/Float64.v ===== *)
(** * Go's [float64]

    IEEE 754 binary64 values are the Standard Library's executable [SpecFloat]
    (precision 53, exponent bound 1024), with the operations the router uses:
    arithmetic, comparison, conversion from and to 64-bit integers, and the
    roundings of package [math]. *)

From S2P Require Import Prelude.

Abbreviation float64 := spec_float.

Definition f64_add : float64 -> float64 -> float64 := SFadd 53 1024.
Definition f64_sub : float64 -> float64 -> float64 := SFsub 53 1024.
Definition f64_mul : float64 -> float64 -> float64 := SFmul 53 1024.
Definition f64_div : float64 -> float64 -> float64 := SFdiv 53 1024.

(** Go's [<], [<=], [==]: false on a NaN operand. *)
Definition f64_lt (x y : float64) : bool := SFltb x y.
Definition f64_le (x y : float64) : bool := SFleb x y.
Definition f64_eq (x y : float64) : bool := SFeqb x y.

(** [float64(n)] for an integer [n]. *)
Definition f64_of_int (n : Z) : float64 := binary_normalize 53 1024 n 0 false.

Definition f64_zero : float64 := S754_zero false.

Definition IsNaN (x : float64) : bool := match x with S754_nan => true | _ => false end.
Definition IsInf (x : float64) : bool := match x with S754_infinity _ => true | _ => false end.

(** The integer a finite value rounds to: toward zero, up, and to the nearest
    with halves away from zero ([math.Trunc], [math.Ceil], [math.Round]). *)
Definition signed (s : bool) (n : Z) : Z := if s then - n else n.

Definition trunc_pos (m : positive) (e : Z) : Z :=
  if 0 <=? e then Zpos m * 2 ^ e else Zpos m / 2 ^ (- e).

Definition round_pos (m : positive) (e : Z) : Z :=
  if 0 <=? e then Zpos m * 2 ^ e else (2 * Zpos m + 2 ^ (- e)) / (2 * 2 ^ (- e)).

Definition ceil_pos (m : positive) (e : Z) : Z :=
  if 0 <=? e then Zpos m * 2 ^ e else - (- Zpos m / 2 ^ (- e)).

Definition is_integral (x : float64) : bool :=
  match x with
  | S754_zero _ => true
  | S754_finite _ m e => (0 <=? e) || (Zpos m mod 2 ^ (- e) =? 0)
  | _ => false
  end.

(** [math.Mod]: the exact remainder of the division truncated toward zero, on
    the common exponent. *)
Definition f64_mod (x y : float64) : float64 :=
  match x, y with
  | S754_nan, _ | _, S754_nan | S754_infinity _, _ | _, S754_zero _ => S754_nan
  | _, S754_infinity _ | S754_zero _, _ => x
  | S754_finite s m e, S754_finite _ m' e' =>
      let k := Z.min e e' in
      let r := Z.rem (Zpos m * 2 ^ (e - k)) (Zpos m' * 2 ^ (e' - k)) in
      binary_normalize 53 1024 (signed s r) k s
  end.

Section Conversions.

(** What [int(x)] gives when [x] is not in the range of the type: the language
    leaves it to the implementation. *)
Variable int_out_of_range : float64 -> Z.

Definition clip_int (x : float64) (z : Z) : Z :=
  if (int64_min <=? z) && (z <=? int64_max) then z else int_out_of_range x.

(** [int(x)] *)
Definition int_of_f64 (x : float64) : Z :=
  match x with
  | S754_zero _ => 0
  | S754_finite s m e => clip_int x (signed s (trunc_pos m e))
  | _ => int_out_of_range x
  end.

(** [int(math.Ceil(x))] *)
Definition int_ceil (x : float64) : Z :=
  match x with
  | S754_zero _ => 0
  | S754_finite false m e => clip_int x (ceil_pos m e)
  | S754_finite true m e => clip_int x (- trunc_pos m e)
  | _ => int_out_of_range x
  end.

(** [int(math.Round(x))] and [int64(math.Round(x))] *)
Definition int_round (x : float64) : Z :=
  match x with
  | S754_zero _ => 0
  | S754_finite s m e => clip_int x (signed s (round_pos m e))
  | _ => int_out_of_range x
  end.

End Conversions.

Lemma f64_lt_irrefl_nan x : f64_lt S754_nan x = false /\ f64_le S754_nan x = false.
Proof. done. Qed.

Lemma f64_lt_antisym_le x y : f64_lt x y = true -> f64_le y x = false.
Proof.
  unfold f64_lt, f64_le, SFltb, SFleb, SFcompare.
  destruct x as [sx|sx| |sx mx ex], y as [sy|sy| |sy my ey]; try done; try (by destruct sx); try (by destruct sy);
    try (by destruct sx, sy).
  destruct sx, sy; try done; rewrite (Z.compare_antisym ex ey); destruct (ex ?= ey); simpl; try done;
    change (Pos.compare_cont Eq my mx) with (my ?= mx)%positive;
    change (Pos.compare_cont Eq mx my) with (mx ?= my)%positive;
    rewrite (Pos.compare_antisym mx my); by destruct (mx ?= my)%positive.
Qed.

(** ** Small integers are exact, and compare as integers *)

Lemma digits2_pos_bounds m : 2 ^ (Zpos (digits2_pos m) - 1) <= Zpos m < 2 ^ Zpos (digits2_pos m).
Proof.
  induction m as [m IH|m IH|]; [| |done]; simpl digits2_pos; rewrite Pos2Z.inj_succ;
    replace (Z.succ (Zpos (digits2_pos m)) - 1) with (Z.succ (Zpos (digits2_pos m) - 1)) by lia;
    rewrite !Z.pow_succ_r by lia; lia.
Qed.

Lemma iter_xO k m : Zpos (Pos.iter xO m k) = Zpos m * 2 ^ Zpos k.
Proof.
  induction k as [|k IH] using Pos.peano_ind; [simpl; lia|].
  rewrite Pos.iter_succ, Pos2Z.inj_succ, Z.pow_succ_r by lia. lia.
Qed.

Lemma digits2_iter k m : digits2_pos (Pos.iter xO m k) = (digits2_pos m + k)%positive.
Proof.
  induction k as [|k IH] using Pos.peano_ind; [simpl; lia|].
  rewrite Pos.iter_succ. simpl. rewrite IH. lia.
Qed.

Lemma digits2_small p : Zpos p < 2 ^ 53 -> Zpos (digits2_pos p) <= 53.
Proof.
  intros H. pose proof (digits2_pos_bounds p) as [Hl _].
  apply Z.nlt_ge. intros Hc. assert (2 ^ 53 <= 2 ^ (Zpos (digits2_pos p) - 1)) by (apply Z.pow_le_mono_r; lia). lia.
Qed.

Lemma f64_of_small_pos p :
  Zpos p < 2 ^ 53 ->
  exists m, f64_of_int (Zpos p) = S754_finite false m (Zpos (digits2_pos p) - 53)
    /\ Zpos m = Zpos p * 2 ^ (53 - Zpos (digits2_pos p)).
Proof.
  intros H. pose proof (digits2_small p H) as Hd.
  assert (exists m, shl_align p 0 (fexp 53 1024 (Zpos (digits2_pos p) + 0)) = (m, Zpos (digits2_pos p) - 53)
    /\ Zpos m = Zpos p * 2 ^ (53 - Zpos (digits2_pos p)) /\ Zpos (digits2_pos m) = 53) as (m & Hs & Hm & Hdm).
  { unfold fexp, emin. replace (Z.max _ _) with (Zpos (digits2_pos p) - 53) by lia. unfold shl_align.
    rewrite Z.sub_0_r. destruct (Zpos (digits2_pos p) - 53) as [|q|q] eqn:E; [|lia|].
    - exists p. replace (53 - Zpos (digits2_pos p)) with 0 by lia. repeat split; lia.
    - exists (Pos.iter xO p q). replace (53 - Zpos (digits2_pos p)) with (Zpos q) by lia.
      rewrite iter_xO, digits2_iter. repeat split; lia. }
  exists m. split; [|done]. unfold f64_of_int, binary_normalize, binary_round. rewrite Hs.
  unfold binary_round_aux, shr_fexp, Zdigits2. rewrite Hdm. unfold fexp, emin.
  replace (Z.max _ _ - _) with 0 by lia. cbn [shr shr_record_of_loc shr_m loc_of_shr_record round_nearest_even].
  rewrite Hdm. replace (Z.max _ _ - _) with 0 by lia. cbn [shr shr_record_of_loc shr_m].
  destruct (Z.leb_spec (Zpos (digits2_pos p) - 53) (1024 - 53)); [done|lia].
Qed.

Lemma compare_scaled (a b c : Z) : 0 < c -> (a * c ?= b * c) = (a ?= b).
Proof. intros. destruct (Z.compare_spec a b), (Z.compare_spec (a * c) (b * c)); done || nia. Qed.

Lemma f64_compare_ints a b :
  0 <= a < 2 ^ 53 -> 0 <= b < 2 ^ 53 -> SFcompare (f64_of_int a) (f64_of_int b) = Some (a ?= b).
Proof.
  intros Ha Hb. destruct a as [|p|p]; [| |lia]; destruct b as [|q|q]; try lia; try done.
  - destruct (f64_of_small_pos q) as (m & -> & _); [lia|]. done.
  - destruct (f64_of_small_pos p) as (m & -> & _); [lia|]. done.
  - destruct (f64_of_small_pos p) as (m & -> & Hm); [lia|].
    destruct (f64_of_small_pos q) as (n & -> & Hn); [lia|]. simpl SFcompare. f_equal.
    pose proof (digits2_pos_bounds p) as [Lp Up]. pose proof (digits2_pos_bounds q) as [Lq Uq].
    set (dp := Zpos (digits2_pos p)) in *. set (dq := Zpos (digits2_pos q)) in *.
    destruct (Z.compare_spec (dp - 53) (dq - 53)) as [E|E|E].
    + change (Pos.compare_cont Eq m n) with (Zpos m ?= Zpos n). rewrite Hm, Hn.
      replace dq with dp by lia. apply compare_scaled. apply Z.pow_pos_nonneg; [lia|].
      pose proof (digits2_small p ltac:(lia)). lia.
    + symmetry. apply Z.compare_lt_iff. assert (2 ^ dp <= 2 ^ (dq - 1)) by (apply Z.pow_le_mono_r; lia). lia.
    + symmetry. apply Z.compare_gt_iff. assert (2 ^ dq <= 2 ^ (dp - 1)) by (apply Z.pow_le_mono_r; lia). lia.
Qed.

Lemma f64_le_ints a b : 0 <= a < 2 ^ 53 -> 0 <= b < 2 ^ 53 -> f64_le (f64_of_int a) (f64_of_int b) = (a <=? b).
Proof. intros. unfold f64_le, SFleb, Z.leb. rewrite f64_compare_ints by done. done. Qed.

Lemma f64_lt_ints a b : 0 <= a < 2 ^ 53 -> 0 <= b < 2 ^ 53 -> f64_lt (f64_of_int a) (f64_of_int b) = (a <? b).
Proof. intros. unfold f64_lt, SFltb, Z.ltb. rewrite f64_compare_ints by done. done. Qed.
