(* ===== verification/Sha256.v ===== *)
(** * SHA-256, unpadded URL-safe base64 and length-prefixed framing

    Executable definitions of the Go standard library functions the router's
    key derivations rest on: [crypto/sha256.Sum256],
    [base64.RawURLEncoding.EncodeToString] and [hex.EncodeToString], with the
    injectivity of the encodings. *)

From S2P Require Import Prelude.
From Stdlib Require Import Ascii.
From Stdlib Require String.
#[local] Open Scope Z_scope.
#[local] Open Scope list_scope.

(** Byte strings as lists; Go strings are [string]. *)
Abbreviation bytes := (list ascii).
Definition to_bytes (s : string) : bytes := String.list_ascii_of_string s.
Definition of_bytes (b : bytes) : string := String.string_of_list_ascii b.

Definition byte_val (a : ascii) : Z := Z.of_N (N_of_ascii a).
Definition byte_of (z : Z) : ascii := ascii_of_N (Z.to_N (z mod 256)).

(** ** SHA-256 (FIPS 180-4) on 32-bit words *)

Definition w32 (z : Z) : Z := z mod 2 ^ 32.
Definition rotr (n x : Z) : Z := Z.lor (Z.shiftr x n) (w32 (Z.shiftl x (32 - n))).
Definition not32 (x : Z) : Z := 2 ^ 32 - 1 - x.
Definition xor3 (a b c : Z) : Z := Z.lxor (Z.lxor a b) c.

Definition Ch (x y z : Z) : Z := Z.lxor (Z.land x y) (Z.land (not32 x) z).
Definition Maj (x y z : Z) : Z := xor3 (Z.land x y) (Z.land x z) (Z.land y z).
Definition bsig0 (x : Z) : Z := xor3 (rotr 2 x) (rotr 13 x) (rotr 22 x).
Definition bsig1 (x : Z) : Z := xor3 (rotr 6 x) (rotr 11 x) (rotr 25 x).
Definition ssig0 (x : Z) : Z := xor3 (rotr 7 x) (rotr 18 x) (Z.shiftr x 3).
Definition ssig1 (x : Z) : Z := xor3 (rotr 17 x) (rotr 19 x) (Z.shiftr x 10).

(** The round constants: the first 32 bits of the fractional parts of the cube
    roots of the first 64 primes, computed as [floor (2^32 * cbrt p) mod 2^32]. *)
Definition is_prime (n : Z) : bool :=
  forallb (fun d => negb (n mod Z.of_nat d =? 0)) (seq 2 (Z.to_nat (Z.sqrt n) - 1)).
Definition primes (bound : nat) : list Z := filter (fun n => is_prime n = true) (map Z.of_nat (seq 2 (bound - 1))).

(** The largest [r] with [r^3 <= n], found bit by bit from bit [k - 1]. *)
Fixpoint cube_root (k : nat) (r n : Z) : Z :=
  match k with
  | O => r
  | S k => let r' := r + 2 ^ Z.of_nat k in cube_root k (if r' * r' * r' <=? n then r' else r) n
  end.

Definition sha_K : list Z := Eval vm_compute in map (fun p => w32 (cube_root 36 0 (p * 2 ^ 96))) (primes 311).

Record hstate := HS { ha : Z; hb : Z; hc : Z; hd' : Z; he : Z; hf : Z; hg : Z; hh : Z }.

(** The initial state: the same for the square roots of the first 8 primes. *)
Definition sha_H0 : hstate := Eval vm_compute in
  match map (fun p => w32 (Z.sqrt (p * 2 ^ 64))) (primes 19) with
  | [a; b; c; d; e; f; g; h] => HS a b c d e f g h
  | _ => HS 0 0 0 0 0 0 0 0
  end.

Definition sha_round (s : hstate) (kw : Z * Z) : hstate :=
  let t1 := w32 (hh s + bsig1 (he s) + Ch (he s) (hf s) (hg s) + fst kw + snd kw) in
  let t2 := w32 (bsig0 (ha s) + Maj (ha s) (hb s) (hc s)) in
  HS (w32 (t1 + t2)) (ha s) (hb s) (hc s) (w32 (hd' s + t1)) (he s) (hf s) (hg s).

(** The message schedule, built backwards: the head is the latest word. *)
Fixpoint sha_extend (n : nat) (rev_w : list Z) : list Z :=
  match n with
  | O => rev_w
  | S n =>
      let w i := nth (i - 1) rev_w 0 in
      sha_extend n (w32 (ssig1 (w 2%nat) + w 7%nat + ssig0 (w 15%nat) + w 16%nat) :: rev_w)
  end.

Definition sha_schedule (block : list Z) : list Z := rev (sha_extend 48 (rev block)).

Definition hadd (s t : hstate) : hstate :=
  HS (w32 (ha s + ha t)) (w32 (hb s + hb t)) (w32 (hc s + hc t)) (w32 (hd' s + hd' t))
     (w32 (he s + he t)) (w32 (hf s + hf t)) (w32 (hg s + hg t)) (w32 (hh s + hh t)).

Definition sha_block (s : hstate) (block : list Z) : hstate :=
  hadd s (fold_left sha_round (combine sha_K (sha_schedule block)) s).

Fixpoint words_of_bytes (b : bytes) : list Z :=
  match b with
  | a :: b :: c :: d :: rest =>
      (byte_val a * 2 ^ 24 + byte_val b * 2 ^ 16 + byte_val c * 2 ^ 8 + byte_val d) :: words_of_bytes rest
  | _ => []
  end.

Fixpoint chunk16 (fuel : nat) (ws : list Z) : list (list Z) :=
  match fuel, ws with
  | S fuel, _ :: _ => firstn 16 ws :: chunk16 fuel (skipn 16 ws)
  | _, _ => []
  end.

(** Big-endian 32-bit encoding, [binary.BigEndian.PutUint32]. *)
Definition be32 (n : Z) : bytes := [byte_of (n / 2 ^ 24); byte_of (n / 2 ^ 16); byte_of (n / 2 ^ 8); byte_of n].

Definition sha_pad (m : bytes) : bytes :=
  let len := Z.of_nat (length m) in
  m ++ byte_of 128 :: repeat (byte_of 0) (Z.to_nat ((55 - len) mod 64)) ++
  be32 (8 * len / 2 ^ 32) ++ be32 (8 * len).

Definition bytes_of_hstate (s : hstate) : bytes :=
  be32 (ha s) ++ be32 (hb s) ++ be32 (hc s) ++ be32 (hd' s) ++ be32 (he s) ++ be32 (hf s) ++ be32 (hg s) ++ be32 (hh s).

(** [sha256.Sum256] *)
Definition sha256 (m : bytes) : bytes :=
  let ws := words_of_bytes (sha_pad m) in
  bytes_of_hstate (fold_left sha_block (chunk16 (length ws) ws) sha_H0).

(** ** Encodings *)

Definition hex_digit (d : Z) : ascii := byte_of (if d <? 10 then 48 + d else 87 + d).

(** [hex.EncodeToString] *)
Definition hex_encode (b : bytes) : string :=
  of_bytes (flat_map (fun a => [hex_digit (byte_val a / 16); hex_digit (byte_val a mod 16)]) b).

Definition b64_alphabet : bytes :=
  to_bytes "ABCDEFGHIJKLMNOPQRSTUVWXYZabcdefghijklmnopqrstuvwxyz0123456789-_".

Definition b64_char (d : Z) : ascii := nth (Z.to_nat d) b64_alphabet zero.

(** [base64.RawURLEncoding]: groups of three bytes as four 6-bit digits, and a
    final group of one or two bytes as two or three digits, without padding. *)
Fixpoint b64_digits (b : bytes) : list Z :=
  match b with
  | [] => []
  | [x] => let n := byte_val x * 2 ^ 16 in [n / 2 ^ 18; n / 2 ^ 12 mod 64]
  | [x; y] =>
      let n := byte_val x * 2 ^ 16 + byte_val y * 2 ^ 8 in
      [n / 2 ^ 18; n / 2 ^ 12 mod 64; n / 2 ^ 6 mod 64]
  | x :: y :: z :: rest =>
      let n := byte_val x * 2 ^ 16 + byte_val y * 2 ^ 8 + byte_val z in
      n / 2 ^ 18 :: n / 2 ^ 12 mod 64 :: n / 2 ^ 6 mod 64 :: n mod 64 :: b64_digits rest
  end.

Definition b64_encode (b : bytes) : string := of_bytes (map b64_char (b64_digits b)).

(** ** Lemmas *)

Example sha256_abc :
  hex_encode (sha256 (to_bytes "abc"))
  = "ba7816bf8f01cfea414140de5dae2223b00361a396177a9cb410ff61f20015ad"%string.
Proof. vm_compute. reflexivity. Qed.

Lemma sha256_length m : length (sha256 m) = 32%nat.
Proof. done. Qed.

Lemma byte_val_range a : 0 <= byte_val a < 256.
Proof. unfold byte_val. pose proof (N_ascii_bounded a). lia. Qed.

Lemma byte_val_inj a b : byte_val a = byte_val b -> a = b.
Proof.
  unfold byte_val. intros H%N2Z.inj. rewrite <- (ascii_N_embedding a), <- (ascii_N_embedding b). by rewrite H.
Qed.

Lemma byte_val_byte_of z : byte_val (byte_of z) = z mod 256.
Proof.
  unfold byte_val, byte_of. pose proof (Z.mod_pos_bound z 256).
  rewrite N_ascii_embedding by lia. lia.
Qed.

Lemma be32_inj n m : 0 <= n < 2 ^ 32 -> 0 <= m < 2 ^ 32 -> be32 n = be32 m -> n = m.
Proof.
  intros Hn Hm H. unfold be32 in H. injection H as H1 H2 H3 H4.
  apply (f_equal byte_val) in H1, H2, H3, H4. rewrite !byte_val_byte_of in *.
  change (2 ^ 24) with 16777216 in *. change (2 ^ 16) with 65536 in *. change (2 ^ 8) with 256 in *.
  change (2 ^ 32) with 4294967296 in *. Z.to_euclidean_division_equations. lia.
Qed.

Lemma to_bytes_inj s t : to_bytes s = to_bytes t -> s = t.
Proof.
  intros H. rewrite <- (String.string_of_list_ascii_of_string s), <- (String.string_of_list_ascii_of_string t).
  unfold to_bytes in H. by rewrite H.
Qed.

Lemma of_bytes_inj a b : of_bytes a = of_bytes b -> a = b.
Proof.
  intros H. rewrite <- (String.list_ascii_of_string_of_list_ascii a), <- (String.list_ascii_of_string_of_list_ascii b).
  unfold of_bytes in H. by rewrite H.
Qed.

Lemma to_of_bytes b : to_bytes (of_bytes b) = b.
Proof. apply String.list_ascii_of_string_of_list_ascii. Qed.

Lemma to_bytes_app s t : to_bytes (s ++ t) = to_bytes s ++ to_bytes t.
Proof. unfold to_bytes. induction s as [|a s IH]; simpl; [done|]. by rewrite IH. Qed.

Lemma b64_digits_range b : Forall (fun d => 0 <= d < 64) (b64_digits b).
Proof.
  remember (length b) as n eqn:Hn. revert b Hn.
  induction n as [n IH] using (well_founded_induction lt_wf). intros b ->.
  destruct b as [|x [|y [|z rest]]]; cbn [b64_digits].
  1: constructor.
  1-3: pose proof (byte_val_range x); try pose proof (byte_val_range y); try pose proof (byte_val_range z).
  1-3: repeat (constructor; [Z.to_euclidean_division_equations; lia|]); try done.
  apply (IH (length rest)); simpl; lia.
Qed.

Lemma b64_digits_inj a b : b64_digits a = b64_digits b -> a = b.
Proof.
  remember (length a) as n eqn:Hn. revert a b Hn.
  induction n as [n IH] using (well_founded_induction lt_wf). intros a b -> H.
  destruct a as [|x [|y [|z ra]]], b as [|x' [|y' [|z' rb]]]; cbn [b64_digits] in H; try done.
  all: try (destruct rb as [|? [|? [|? ?]]]; done).
  all: try (destruct ra as [|? [|? [|? ?]]]; done).
  all: pose proof (byte_val_range x); try pose proof (byte_val_range y); try pose proof (byte_val_range z).
  all: pose proof (byte_val_range x'); try pose proof (byte_val_range y'); try pose proof (byte_val_range z').
  all: injection H; clear H; intros.
  3: assert (ra = rb) as -> by (eapply (IH (length ra)); [simpl; lia|done|done]).
  all: repeat f_equal; apply byte_val_inj; Z.to_euclidean_division_equations; lia.
Qed.

Definition b64_index (a : ascii) : Z :=
  match list_find (fun c => c = a) b64_alphabet with Some (i, _) => Z.of_nat i | None => 64 end.

Lemma b64_index_char d : 0 <= d < 64 -> b64_index (b64_char d) = d.
Proof.
  assert (forallb (fun i => b64_index (b64_char (Z.of_nat i)) =? Z.of_nat i) (seq 0 64) = true) as Hall
    by (vm_compute; reflexivity).
  intros Hd. rewrite forallb_forall in Hall. specialize (Hall (Z.to_nat d)).
  rewrite Z2Nat.id in Hall by lia. apply Z.eqb_eq, Hall, in_seq. lia.
Qed.

Lemma b64_encode_inj a b : b64_encode a = b64_encode b -> a = b.
Proof.
  unfold b64_encode. intros H%of_bytes_inj. apply b64_digits_inj.
  pose proof (b64_digits_range a) as Ra. pose proof (b64_digits_range b) as Rb.
  apply (f_equal (map b64_index)) in H. rewrite !map_map in H.
  assert (forall l, Forall (fun d => 0 <= d < 64) l -> map (fun d => b64_index (b64_char d)) l = l) as Hid.
  { induction 1; simpl; [done|]. by f_equal; [apply b64_index_char|]. }
  by rewrite !Hid in H.
Qed.

(** Clients reason about digests by name only. *)
#[global] Opaque sha256.
