(* ===== verification/Strconv.v ===== *)
(** * Decimal integers and trimming ([strconv], [strings])

    The standard-library functions the router reads and prints numbers with,
    on bytes. *)

From S2P Require Import Prelude Sha256.
From Stdlib Require Import Ascii.
#[local] Open Scope string_scope.
#[local] Open Scope list_scope.
#[local] Open Scope Z_scope.

(** ** Formatting *)

Definition digit_char (d : Z) : ascii := byte_of (48 + d).

Fixpoint dec_digits (fuel : nat) (n : Z) (acc : bytes) : bytes :=
  match fuel with
  | O => acc
  | S fuel =>
      if n <? 10 then digit_char n :: acc
      else dec_digits fuel (n / 10) (digit_char (n mod 10) :: acc)
  end.

Definition FormatUint (n : Z) : bytes := dec_digits (S (Z.to_nat (Z.log2 n))) n [].

(** [strconv.FormatInt(n, 10)] and [strconv.Itoa] *)
Definition FormatInt (n : Z) : string :=
  of_bytes (if n <? 0 then byte_of 45 :: FormatUint (- n) else FormatUint n).

(** ** Parsing *)

Definition digit_value (c : ascii) : option Z :=
  let v := byte_val c in if (48 <=? v) && (v <=? 57) then Some (v - 48) else None.

Definition digits_from (v : option Z) (s : bytes) : option Z :=
  foldl (fun v c => v ← v; d ← digit_value c; Some (v * 10 + d)) v s.

(** [strconv.ParseUint(s, 10, 64)]; [None] is an error. *)
Definition ParseUint (s : bytes) : option Z :=
  match s with
  | [] => None
  | _ => n ← digits_from (Some 0) s; if n <? 2 ^ 64 then Some n else None
  end.

(** [strconv.ParseInt(s, 10, 64)] and [strconv.Atoi] *)
Definition ParseInt (s : bytes) : option Z :=
  match s with
  | [] => None
  | c :: rest =>
      let neg := byte_val c =? 45 in
      n ← ParseUint (if neg || (byte_val c =? 43) then rest else s);
      if neg then (if n <=? 2 ^ 63 then Some (- n) else None)
      else (if n <? 2 ^ 63 then Some n else None)
  end.

(** ** Trimming *)

(** The UTF-8 encodings of [unicode.IsSpace]. *)
Definition is_ascii_space (v : Z) : bool := (v =? 32) || ((9 <=? v) && (v <=? 13)).
Definition is_space2 (a b : Z) : bool := (a =? 194) && ((b =? 133) || (b =? 160)).
Definition is_space3 (a b c : Z) : bool :=
  ((a =? 225) && (b =? 154) && (c =? 128))
  || ((a =? 226) && (b =? 128) && (((128 <=? c) && (c <=? 138)) || (c =? 168) || (c =? 169) || (c =? 175)))
  || ((a =? 226) && (b =? 129) && (c =? 159))
  || ((a =? 227) && (b =? 128) && (c =? 128)).

Fixpoint trim_left (fuel : nat) (s : bytes) : bytes :=
  match fuel with
  | O => s
  | S fuel =>
      match s with
      | a :: t1 =>
          if is_ascii_space (byte_val a) then trim_left fuel t1
          else match t1 with
               | b :: t2 =>
                   if is_space2 (byte_val a) (byte_val b) then trim_left fuel t2
                   else match t2 with
                        | c :: t3 => if is_space3 (byte_val a) (byte_val b) (byte_val c) then trim_left fuel t3 else s
                        | [] => s
                        end
               | [] => s
               end
      | [] => []
      end
  end.

(** On the reversed bytes. *)
Fixpoint trim_right_rev (fuel : nat) (s : bytes) : bytes :=
  match fuel with
  | O => s
  | S fuel =>
      match s with
      | a :: t1 =>
          if is_ascii_space (byte_val a) then trim_right_rev fuel t1
          else match t1 with
               | b :: t2 =>
                   if is_space2 (byte_val b) (byte_val a) then trim_right_rev fuel t2
                   else match t2 with
                        | c :: t3 => if is_space3 (byte_val c) (byte_val b) (byte_val a) then trim_right_rev fuel t3 else s
                        | [] => s
                        end
               | [] => s
               end
      | [] => []
      end
  end.

Definition TrimSpaceBytes (s : bytes) : bytes :=
  let l := trim_left (length s) s in rev (trim_right_rev (length l) (rev l)).

Definition TrimSpace (s : string) : string := of_bytes (TrimSpaceBytes (to_bytes s)).

(** ** Round trip *)

Lemma byte_val_of z : 0 <= z < 256 -> byte_val (byte_of z) = z.
Proof.
  intros H. rewrite byte_val_byte_of. by apply Z.mod_small.
Qed.

Lemma digit_value_char d : 0 <= d < 10 -> digit_value (digit_char d) = Some d.
Proof.
  intros H. unfold digit_value, digit_char. rewrite byte_val_of by lia.
  replace ((48 <=? 48 + d) && (48 + d <=? 57)) with true by (symmetry; apply andb_true_iff; lia). f_equal. lia.
Qed.

Lemma digits_from_dec fuel : forall n acc,
  0 <= n < 10 ^ Z.of_nat fuel -> digits_from (Some 0) (dec_digits fuel n acc) = digits_from (Some n) acc.
Proof.
  induction fuel as [|fuel IH]; intros n acc Hn; [change (10 ^ Z.of_nat 0) with 1 in Hn; by replace n with 0 by lia|].
  cbn [dec_digits]. destruct (n <? 10) eqn:E; bool_simp.
  - unfold digits_from. cbn [foldl mbind option_bind]. rewrite digit_value_char by lia. reflexivity.
  - rewrite Nat2Z.inj_succ, Z.pow_succ_r in Hn by lia.
    rewrite IH by (split; [apply Z.div_pos; lia|apply Z.div_lt_upper_bound; lia]).
    unfold digits_from. cbn [foldl mbind option_bind]. rewrite digit_value_char by (apply Z.mod_pos_bound; lia).
    cbn [mbind option_bind]. do 2 f_equal. rewrite (Z.div_mod n 10) at 3 by lia. lia.
Qed.

Lemma log2_pow10 n : 0 <= n -> n < 10 ^ Z.of_nat (S (Z.to_nat (Z.log2 n))).
Proof.
  intros Hn. rewrite Nat2Z.inj_succ, Z2Nat.id by apply Z.log2_nonneg.
  destruct (Z.eq_dec n 0) as [->|Hnz]; [done|].
  pose proof (Z.log2_spec n ltac:(lia)) as [_ Hlt]. eapply Z.lt_le_trans; [exact Hlt|].
  apply Z.pow_le_mono_l. lia.
Qed.

Lemma ParseUint_FormatUint n : 0 <= n < 2 ^ 64 -> ParseUint (FormatUint n) = Some n.
Proof.
  intros Hn. assert (digits_from (Some 0) (FormatUint n) = Some n) as Hd.
  { unfold FormatUint. rewrite digits_from_dec; [done|]. split; [lia|]. apply log2_pow10. lia. }
  unfold ParseUint. destruct (FormatUint n) eqn:E.
  - exfalso. revert E. unfold FormatUint. cbn [dec_digits]. destruct (n <? 10); [done|]. clear.
    generalize (Z.to_nat (Z.log2 n)) (n / 10) (digit_char (n mod 10)). intros f.
    assert (forall k m l, l <> [] -> dec_digits k m l <> []) as H.
    { induction k; intros m l Hl; simpl; [done|]. case_step. by apply IHk. }
    intros m c. by apply H.
  - rewrite Hd. cbn [mbind option_bind]. destruct (n <? 2 ^ 64) eqn:E'; bool_simp; [done|lia].
Qed.

Lemma dec_digits_head fuel n acc c rest :
  0 <= n < 10 ^ Z.of_nat fuel -> (0 < fuel)%nat -> dec_digits fuel n acc = c :: rest -> 48 <= byte_val c <= 57.
Proof.
  revert n acc. induction fuel as [|fuel IH]; intros n acc Hn Hf H; [lia|]. cbn [dec_digits] in H.
  destruct (n <? 10) eqn:E; bool_simp.
  - injection H as <- _. unfold digit_char. rewrite byte_val_of; lia.
  - rewrite Nat2Z.inj_succ, Z.pow_succ_r in Hn by lia. destruct fuel as [|fuel]; [simpl in Hn; lia|].
    eapply IH; [|lia|exact H]. split; [apply Z.div_pos; lia|apply Z.div_lt_upper_bound; lia].
Qed.

Lemma ParseInt_FormatInt n : in_int64 n -> ParseInt (to_bytes (FormatInt n)) = Some n.
Proof.
  unfold in_int64, int64_min, int64_max, FormatInt. intros Hn. rewrite to_of_bytes.
  destruct (n <? 0) eqn:E; bool_simp; unfold ParseInt.
  - rewrite byte_val_of by lia. cbn [Z.eqb orb Pos.eqb]. rewrite ParseUint_FormatUint by lia. cbn [mbind option_bind].
    destruct (- n <=? 2 ^ 63) eqn:E'; bool_simp; [f_equal; lia|lia].
  - pose proof (ParseUint_FormatUint n ltac:(lia)) as Hp. destruct (FormatUint n) as [|c rest] eqn:Ef; [done|].
    apply dec_digits_head in Ef; [|split; [lia|by apply log2_pow10]|lia].
    replace (byte_val c =? 45) with false by (symmetry; apply Z.eqb_neq; lia).
    replace (byte_val c =? 43) with false by (symmetry; apply Z.eqb_neq; lia).
    cbn [orb]. rewrite Hp. cbn [mbind option_bind]. destruct (n <? 2 ^ 63) eqn:E'; bool_simp; [done|lia].
Qed.

Lemma digits_from_nonneg s : forall v n, 0 <= v -> digits_from (Some v) s = Some n -> 0 <= n.
Proof.
  induction s as [|c s IH]; intros v n Hv H; [by simplify_eq/=|]. unfold digits_from in *. cbn [foldl mbind option_bind] in H.
  destruct (digit_value c) as [d|] eqn:Ed; cbn [mbind option_bind] in H.
  - eapply (IH (v * 10 + d)); [|exact H]. unfold digit_value in Ed. case_in Ed. simplify_eq. lia.
  - clear IH. induction s; [done|]. by apply IHs.
Qed.

Lemma ParseInt_range s n : ParseInt s = Some n -> in_int64 n.
Proof.
  unfold ParseInt, in_int64, int64_min, int64_max. destruct s as [|c s]; [done|].
  destruct (ParseUint _) as [u|] eqn:Eu; [|done]. cbn [mbind option_bind].
  assert (0 <= u) as Hu.
  { unfold ParseUint in Eu. destruct (if _ : bool then _ else _); [done|]. destruct (digits_from _ _) as [w|] eqn:Ew; [|done].
    cbn [mbind option_bind] in Eu. destruct (w <? 2 ^ 64); [|done]. injection Eu as <-.
    eapply digits_from_nonneg; [|exact Ew]. done. }
  intros H. repeat case_in H; simplify_eq; lia.
Qed.

Example parse_examples :
  ParseInt (to_bytes "-42") = Some (-42) /\ ParseInt (to_bytes "+7") = Some 7 /\ ParseInt (to_bytes "1_0") = None
  /\ ParseInt (to_bytes "9223372036854775808") = None /\ FormatInt 1205 = "1205"
  /\ TrimSpace "  a b " = "a b".
Proof. vm_compute. repeat split. Qed.

(** *** Digits *)

Definition is_digit (c : ascii) : Prop := 48 <= byte_val c <= 57.

Lemma dec_digits_are_digits fuel : forall n acc, 0 <= n -> Forall is_digit acc -> Forall is_digit (dec_digits fuel n acc).
Proof.
  induction fuel as [|fuel IH]; intros n acc Hn Ha; cbn [dec_digits]; [done|]. unfold is_digit in *.
  destruct (n <? 10) eqn:E; bool_simp.
  - constructor; [|done]. unfold digit_char. rewrite byte_val_of; lia.
  - apply IH; [by apply Z.div_pos|]. constructor; [|done]. pose proof (Z.mod_pos_bound n 10 ltac:(lia)).
    unfold digit_char. rewrite byte_val_of; lia.
Qed.

Lemma dec_digits_length fuel : forall k n acc,
  (0 < k)%nat -> 0 <= n < 10 ^ Z.of_nat k -> (length (dec_digits fuel n acc) <= k + length acc)%nat.
Proof.
  induction fuel as [|fuel IH]; intros k n acc Hk Hn; cbn [dec_digits]; [lia|].
  destruct (n <? 10) eqn:E; bool_simp; [simpl; lia|]. destruct k as [|[|k]]; [lia|simpl in Hn; lia|].
  specialize (IH (S k) (n / 10) (digit_char (n mod 10) :: acc) ltac:(lia)). rewrite Nat2Z.inj_succ, Z.pow_succ_r in Hn by lia.
  simpl length in IH. enough (0 <= n / 10 < 10 ^ Z.of_nat (S k)) by (specialize (IH ltac:(done)); lia).
  split; [by apply Z.div_pos; lia|apply Z.div_lt_upper_bound; lia].
Qed.

Lemma FormatUint_digits n : 0 <= n -> Forall is_digit (FormatUint n).
Proof. intros. by apply dec_digits_are_digits; [|constructor]. Qed.

Lemma FormatUint_value n : 0 <= n -> digits_from (Some 0) (FormatUint n) = Some n.
Proof. intros Hn. unfold FormatUint. rewrite digits_from_dec; [done|]. split; [lia|by apply log2_pow10]. Qed.

Lemma FormatInt_nonneg n : 0 <= n -> to_bytes (FormatInt n) = FormatUint n.
Proof. intros Hn. unfold FormatInt. rewrite to_of_bytes. destruct (n <? 0) eqn:E; bool_simp; [lia|done]. Qed.

Lemma byte_of_val c : byte_of (byte_val c) = c.
Proof.
  unfold byte_of, byte_val. pose proof (N_ascii_bounded c).
  rewrite Z.mod_small by lia. rewrite N2Z.id. apply ascii_N_embedding.
Qed.
