(* ===== verification/Lines.v ===== *)
(** * Lines of a byte stream

    What a line reader yields, shared by the readers of event streams: the
    complete lines and the unterminated rest, a carriage return dropped at the
    end of a line, and values joined by newlines. *)

From Stdlib Require Import Ascii.
From S2P Require Import Prelude Sha256.
#[local] Open Scope list_scope.
#[local] Open Scope Z_scope.

Definition newline : ascii := byte_of 10.

(** [bytes.TrimSuffix(line, "\r")] *)
Definition trim_cr (l : bytes) : bytes :=
  match last l with Some c => if Ascii.eqb c (byte_of 13) then removelast l else l | None => l end.

(** The complete lines of a byte sequence, and the unterminated rest. *)
Fixpoint lines_of (s : bytes) : list bytes * bytes :=
  match s with
  | [] => ([], [])
  | c :: s =>
      let '(ls, r) := lines_of s in
      if Ascii.eqb c newline then ([] :: ls, r)
      else match ls with [] => ([], c :: r) | l :: ls => ((c :: l) :: ls, r) end
  end.

(** [strings.Join(vs, newline)]: values joined by newlines. *)
Fixpoint join_values (vs : list bytes) : bytes :=
  match vs with [] => [] | [v] => v | v :: vs => v ++ newline :: join_values vs end.

(** The lines completed by [p] when [l] of a line has been seen. *)
Definition lines_from (l p : bytes) : list bytes * bytes :=
  match lines_of p with ([], r) => ([], l ++ r) | (l' :: ls, r) => ((l ++ l') :: ls, r) end.

Lemma lines_from_nil p : lines_from [] p = lines_of p.
Proof. unfold lines_from. by destruct (lines_of p) as [[]]. Qed.

Lemma lines_of_app p q :
  lines_of (p ++ q) = let '(ls, r) := lines_of p in let '(ls', r') := lines_from r q in (ls ++ ls', r').
Proof.
  induction p as [|c p IH]; simpl; [by rewrite lines_from_nil; destruct (lines_of q)|].
  rewrite IH. unfold lines_from.
  destruct (lines_of p) as [ls r], (lines_of q) as [ls' r'], (Ascii.eqb c newline);
    destruct ls' as [|l' ls']; simpl; [done..| |]; destruct ls; done.
Qed.

Lemma lines_from_app l p q :
  lines_from l (p ++ q) = let '(ls, r) := lines_from l p in let '(ls', r') := lines_from r q in (ls ++ ls', r').
Proof.
  unfold lines_from at 1. rewrite lines_of_app. unfold lines_from.
  destruct (lines_of p) as [ls r], (lines_of q) as [[|l' ls'] r']; destruct ls as [|l0 ls];
    simpl; rewrite ?app_nil_r, ?app_assoc; done.
Qed.

Lemma join_values_snoc vs v : join_values (vs ++ [v]) = match vs with [] => v | _ => join_values vs ++ newline :: v end.
Proof.
  induction vs as [|w vs IH]; [done|]. destruct vs as [|w' vs]; [done|].
  cbn [app join_values] in *. rewrite IH. by rewrite <- app_assoc.
Qed.
