(* ===== verification/Utf8.v ===== *)
(** * UTF-8, and byte offsets into rune offsets

    Go strings are bytes; the citation code counts runes.  This file gives
    [unicode/utf8]'s decoding (an invalid byte is one U+FFFD) and encoding,
    that they are inverse on valid code points, and the cached translation of
    byte offsets of [toolruntime/citations/state.go]. *)

From S2P Require Import Prelude Sha256 Strconv.
From Stdlib Require Import Ascii.
#[local] Open Scope list_scope.
#[local] Open Scope Z_scope.

Abbreviation text := (list Z).

(** ** Runes *)

Definition RuneError : Z := 0xFFFD.
Definition surrogate (r : Z) : bool := (0xD800 <=? r) && (r <=? 0xDFFF).
Definition valid_rune (r : Z) : bool := (0 <=? r) && (r <=? 0x10FFFF) && negb (surrogate r).

(** [utf8.AppendRune] *)
Definition encode_rune (r : Z) : bytes :=
  let r := if valid_rune r then r else RuneError in
  if r <? 0x80 then [byte_of r]
  else if r <? 0x800 then [byte_of (0xC0 + r / 64); byte_of (0x80 + r mod 64)]
  else if r <? 0x10000 then [byte_of (0xE0 + r / 4096); byte_of (0x80 + r / 64 mod 64); byte_of (0x80 + r mod 64)]
  else [byte_of (0xF0 + r / 262144); byte_of (0x80 + r / 4096 mod 64); byte_of (0x80 + r / 64 mod 64); byte_of (0x80 + r mod 64)].

Definition encode (t : text) : bytes := flat_map encode_rune t.

(** The range of the second byte after each leading one. *)
Definition accept_range (b0 : Z) : Z * Z :=
  if b0 =? 0xE0 then (0xA0, 0xBF) else if b0 =? 0xED then (0x80, 0x9F)
  else if b0 =? 0xF0 then (0x90, 0xBF) else if b0 =? 0xF4 then (0x80, 0x8F) else (0x80, 0xBF).

Definition within (lo hi b : Z) : bool := (lo <=? b) && (b <=? hi).
Definition continuation (b : Z) : bool := within 0x80 0xBF b.

(** [utf8.DecodeRune] of a nonempty string: the rune and its width. *)
Definition decode_rune (c0 : ascii) (s : bytes) : Z * nat :=
  let b0 := byte_val c0 in
  if b0 <? 0x80 then (b0, 1%nat)
  else if (b0 <? 0xC2) || (0xF4 <? b0) then (RuneError, 1%nat)
  else
    let '(lo, hi) := accept_range b0 in
    match s with
    | c1 :: s =>
        let b1 := byte_val c1 in
        if negb (within lo hi b1) then (RuneError, 1%nat)
        else if b0 <? 0xE0 then ((b0 - 0xC0) * 64 + (b1 - 0x80), 2%nat)
        else
          match s with
          | c2 :: s =>
              let b2 := byte_val c2 in
              if negb (continuation b2) then (RuneError, 1%nat)
              else if b0 <? 0xF0 then ((b0 - 0xE0) * 4096 + (b1 - 0x80) * 64 + (b2 - 0x80), 3%nat)
              else
                match s with
                | c3 :: _ =>
                    let b3 := byte_val c3 in
                    if negb (continuation b3) then (RuneError, 1%nat)
                    else ((b0 - 0xF0) * 262144 + (b1 - 0x80) * 4096 + (b2 - 0x80) * 64 + (b3 - 0x80), 4%nat)
                | [] => (RuneError, 1%nat)
                end
          | [] => (RuneError, 1%nat)
          end
    | [] => (RuneError, 1%nat)
    end.

(** The runes of a string; every rune takes a byte or more, so the length is
    enough. *)
Fixpoint decode_loop (fuel : nat) (s : bytes) : text :=
  match fuel, s with
  | S fuel, c :: s => let '(r, w) := decode_rune c s in r :: decode_loop fuel (drop w (c :: s))
  | _, _ => []
  end.

Definition decode (s : bytes) : text := decode_loop (length s) s.

Definition text_of (s : string) : text := decode (to_bytes s).
Definition string_of (t : text) : string := of_bytes (encode t).

Definition RuneCountInString (s : bytes) : nat := length (decode s).

(** ** Round trip *)

Ltac rune_bytes :=
  repeat match goal with |- context [byte_val (byte_of ?z)] =>
    rewrite (byte_val_of z) by (Z.div_mod_to_equations; lia) end.

Ltac decide_tests :=
  repeat first [progress cbv iota | match goal with
  | |- context [?a <? ?b] => first [rewrite (proj2 (Z.ltb_lt a b)) by (Z.div_mod_to_equations; lia)
                                   |rewrite (proj2 (Z.ltb_ge a b)) by (Z.div_mod_to_equations; lia)]
  | |- context [?a =? ?b] => first [rewrite (proj2 (Z.eqb_eq a b)) by (Z.div_mod_to_equations; lia)
                                   |rewrite (proj2 (Z.eqb_neq a b)) by (Z.div_mod_to_equations; lia)]
  | |- context [within ?lo ?hi ?b] =>
      replace (within lo hi b) with true by (symmetry; unfold within; apply andb_true_iff; rewrite !Z.leb_le; Z.div_mod_to_equations; lia)
  end]; cbn [orb andb negb].

Lemma valid_rune_spec r : valid_rune r = true <-> 0 <= r <= 0x10FFFF /\ ~ 0xD800 <= r <= 0xDFFF.
Proof.
  unfold valid_rune, surrogate. split.
  - intros H. bool_simp. destruct (_ && _) eqn:E; [done|]. apply andb_false_iff in E as [E|E]; bool_simp; lia.
  - intros [H Hs]. apply andb_true_iff. split; [apply andb_true_iff; split; apply Z.leb_le; lia|].
    destruct (_ && _) eqn:E; [bool_simp; lia|done].
Qed.

(** Decoding reads back an encoded rune whatever follows it. *)
Lemma decode_encode_rune r s : valid_rune r = true ->
  exists c s', encode_rune r ++ s = c :: s' /\ decode_rune c s' = (r, length (encode_rune r)).
Proof.
  intros Hv. unfold encode_rune. rewrite Hv. apply valid_rune_spec in Hv as [Hr Hs].
  destruct (r <? 0x80) eqn:E1; bool_simp; [|destruct (r <? 0x800) eqn:E2; bool_simp; [|destruct (r <? 0x10000) eqn:E3; bool_simp]];
    (eexists; eexists; split; [reflexivity|]); unfold decode_rune, continuation; rune_bytes.
  - decide_tests. done.
  - unfold accept_range. decide_tests. f_equal. Z.div_mod_to_equations; lia.
  - assert (E4 : 0xE0 <= 0xE0 + r / 4096 < 0xF0) by (Z.div_mod_to_equations; lia).
    unfold accept_range.
    destruct (0xE0 + r / 4096 =? 0xE0) eqn:Ea; bool_simp; [|destruct (0xE0 + r / 4096 =? 0xED) eqn:Eb; bool_simp];
      decide_tests; (f_equal; Z.div_mod_to_equations; lia).
  - assert (E4 : 0xF0 <= 0xF0 + r / 262144 <= 0xF4) by (Z.div_mod_to_equations; lia).
    unfold accept_range.
    destruct (0xF0 + r / 262144 =? 0xF0) eqn:Ea; bool_simp; [|destruct (0xF0 + r / 262144 =? 0xF4) eqn:Eb; bool_simp];
      decide_tests; (f_equal; Z.div_mod_to_equations; lia).
Qed.

Lemma encode_rune_nonempty r : encode_rune r <> [].
Proof. unfold encode_rune. by repeat case_match. Qed.

Lemma encode_app t1 t2 : encode (t1 ++ t2) = encode t1 ++ encode t2.
Proof. apply flat_map_app. Qed.

Lemma decode_width c s : (1 <= (decode_rune c s).2)%nat.
Proof. unfold decode_rune. destruct (accept_range _). repeat case_match; simpl; lia. Qed.

Lemma decode_loop_enough n : forall s, (length s <= n)%nat -> decode_loop n s = decode s.
Proof.
  assert (forall n m s, (length s <= n)%nat -> (length s <= m)%nat -> decode_loop n s = decode_loop m s) as H.
  2:{ intros s Hs. unfold decode. by apply H. }
  clear n. induction n as [|n IH]; intros m s Hn Hm.
  { destruct s; [by destruct m|simpl in Hn; lia]. }
  destruct m as [|m]; [destruct s; [done|simpl in Hm; lia]|]. destruct s as [|c s]; [done|]. cbn [decode_loop].
  pose proof (decode_width c s) as Hw. destruct (decode_rune c s) as [r w]. simpl in *. f_equal.
  apply IH; rewrite length_drop; simpl in *; lia.
Qed.

Lemma decode_cons c s : decode (c :: s) = let '(r, w) := decode_rune c s in r :: decode (drop w (c :: s)).
Proof.
  unfold decode at 1. cbn [length decode_loop]. pose proof (decode_width c s) as Hw.
  destruct (decode_rune c s) as [r w]. simpl in *. f_equal. apply decode_loop_enough.
  rewrite length_drop. simpl. lia.
Qed.

(** Valid text survives the round trip through bytes. *)
Lemma decode_encode_app t s : forallb valid_rune t = true -> decode (encode t ++ s) = t ++ decode s.
Proof.
  induction t as [|r t IH]; [done|]. simpl. intros [Hr Ht]%andb_true_iff. rewrite <- app_assoc.
  destruct (decode_encode_rune r (encode t ++ s) Hr) as (c & s' & E & D). rewrite E, decode_cons, D, <- E, drop_app_length.
  by rewrite IH.
Qed.

Lemma decode_encode t : forallb valid_rune t = true -> decode (encode t) = t.
Proof. intros H. rewrite <- (app_nil_r (encode t)), decode_encode_app by done. apply app_nil_r. Qed.

Lemma text_of_string_of t : forallb valid_rune t = true -> text_of (string_of t) = t.
Proof.
  intros H. unfold text_of, string_of. rewrite to_of_bytes.
  by apply decode_encode.
Qed.

(** Whatever the bytes, decoding yields valid code points. *)
Lemma decode_rune_valid c s : valid_rune (decode_rune c s).1 = true.
Proof.
  pose proof (byte_val_range c) as H0. assert (valid_rune RuneError = true) as He by done. unfold decode_rune, continuation.
  destruct (byte_val c <? 0x80) eqn:E0; bool_simp; [apply valid_rune_spec; simpl; lia|].
  destruct ((byte_val c <? 0xC2) || (0xF4 <? byte_val c)) eqn:E1; [done|]. bool_simp.
  destruct (accept_range (byte_val c)) as [lo hi] eqn:Ea.
  destruct s as [|c1 s]; [done|]. destruct (within lo hi (byte_val c1)) eqn:E2; [|done]. cbn [negb].
  assert (0x80 <= lo /\ hi <= 0xBF /\ (byte_val c = 0xE0 -> lo = 0xA0) /\ (byte_val c = 0xED -> hi = 0x9F)
    /\ (byte_val c = 0xF0 -> lo = 0x90) /\ (byte_val c = 0xF4 -> hi = 0x8F)) as (Hlo & Hhi & Ha1 & Ha2 & Ha3 & Ha4).
  { unfold accept_range in Ea. repeat case_in Ea; lia. }
  unfold within in E2. bool_simp.
  destruct (byte_val c <? 0xE0) eqn:E3; bool_simp; [apply valid_rune_spec; simpl; lia|].
  destruct s as [|c2 s]; [done|]. destruct (within 0x80 0xBF (byte_val c2)) eqn:E4; [|done]. unfold within in E4. bool_simp. cbn [negb].
  destruct (byte_val c <? 0xF0) eqn:E5; bool_simp; [apply valid_rune_spec; simpl; split; [lia|]; destruct (decide (byte_val c = 0xE0)), (decide (byte_val c = 0xED)); lia|].
  destruct s as [|c3 s]; [done|]. destruct (within 0x80 0xBF (byte_val c3)) eqn:E6; [|done]. unfold within in E6. bool_simp. cbn [negb].
  apply valid_rune_spec. simpl. destruct (decide (byte_val c = 0xF0)), (decide (byte_val c = 0xF4)); lia.
Qed.

Lemma decode_valid s : forallb valid_rune (decode s) = true.
Proof.
  unfold decode. generalize (length s) as fuel. intros fuel. revert s.
  induction fuel as [|fuel IH]; intros s; [done|]. destruct s as [|c s]; [done|]. cbn [decode_loop].
  pose proof (decode_rune_valid c s) as Hv. destruct (decode_rune c s) as [r w]. simpl in *. by rewrite Hv, IH.
Qed.

(** ** Byte offsets

    The cache of [byteToRuneIndex]: the last offset translated. *)
Record byteToRuneIndex := MkIndex { b_text : bytes; lastByte : nat; lastRune : nat }.

Definition newByteToRuneIndex (t : bytes) : byteToRuneIndex := MkIndex t 0 0.

(** The loop of [convert]; it makes a byte of progress at every turn. *)
Fixpoint convert_loop (fuel off : nat) (b : byteToRuneIndex) : byteToRuneIndex :=
  match fuel with
  | O => b
  | S fuel =>
      if (lastByte b <? off)%nat && (lastByte b <? length (b_text b))%nat then
        match drop (lastByte b) (b_text b) with
        | c :: s => convert_loop fuel off (MkIndex (b_text b) (lastByte b + (decode_rune c s).2) (S (lastRune b)))
        | [] => b
        end
      else b
  end.

Definition convert (byteOffset : nat) (b : byteToRuneIndex) : nat * byteToRuneIndex :=
  let b := if (byteOffset <=? lastByte b)%nat then MkIndex (b_text b) 0 0 else b in
  let b := convert_loop (length (b_text b)) byteOffset b in
  (lastRune b, b).

(** A position the cache can hold: the end of the first runes of the text. *)
Definition at_boundary (b : byteToRuneIndex) (t : text) : Prop :=
  (lastRune b <= length t)%nat /\ lastByte b = length (encode (take (lastRune b) t)) /\ b_text b = encode t.

Lemma drop_encode t n : drop (length (encode (take n t))) (encode t) = encode (drop n t).
Proof. rewrite <- (take_drop n t) at 2. by rewrite encode_app, drop_app_length. Qed.

Lemma encode_take_mono t i j : (i < j <= length t)%nat ->
  (length (encode (take i t)) < length (encode (take j t)))%nat.
Proof.
  revert i j. induction t as [|r t IH]; intros i j Hij; cbn [length] in Hij; [lia|]. destruct j as [|j]; [lia|].
  assert (1 <= length (encode_rune r))%nat as Hr.
  { pose proof (encode_rune_nonempty r). by destruct (encode_rune r); simpl; [|lia]. }
  unfold encode in *. destruct i as [|i]; simpl; rewrite !length_app; [lia|]. specialize (IH i j ltac:(lia)). lia.
Qed.

Lemma encode_length t : (length t <= length (encode t))%nat.
Proof.
  induction t as [|r t IH]; [done|]. unfold encode in *. simpl. rewrite length_app.
  pose proof (encode_rune_nonempty r). destruct (encode_rune r); [done|]. simpl. lia.
Qed.

(** From a boundary at or before rune [k], the loop reaches it. *)
Lemma convert_loop_spec t k fuel : forallb valid_rune t = true -> (k <= length t)%nat ->
  forall b, at_boundary b t -> (lastRune b <= k)%nat -> (k - lastRune b <= fuel)%nat ->
  let b' := convert_loop fuel (length (encode (take k t))) b in at_boundary b' t /\ lastRune b' = k.
Proof.
  intros Hv Hk. induction fuel as [|fuel IH]; intros b Hb Hle Hf.
  { simpl. split; [done|lia]. }
  destruct Hb as (Hr & Hl & Ht). cbn [convert_loop]. destruct (decide (lastRune b = k)) as [Heq|Hne].
  { rewrite Hl, Heq, Nat.ltb_irrefl. simpl. by rewrite <- Heq. }
  assert (lastRune b < k)%nat as Hlt by lia.
  pose proof (encode_take_mono t (lastRune b) k ltac:(lia)) as Hm.
  pose proof (encode_take_mono t (lastRune b) (length t) ltac:(lia)) as Hm'. rewrite (take_ge t (length t)) in Hm' by lia.
  assert ((lastByte b <? length (encode (take k t)))%nat = true) as -> by (apply Nat.ltb_lt; lia).
  assert ((lastByte b <? length (b_text b))%nat = true) as -> by (apply Nat.ltb_lt; rewrite Ht; lia). cbn [andb].
  rewrite Ht, Hl, drop_encode. destruct (lookup_lt_is_Some_2 t (lastRune b)) as [r Hrk]; [lia|].
  rewrite (drop_S t r (lastRune b)) by done. cbn [encode flat_map].
  assert (valid_rune r = true) as Hvr.
  { rewrite forallb_forall in Hv. apply Hv, list_elem_of_In. by eapply list_elem_of_lookup_2. }
  destruct (decode_encode_rune r (encode (drop (S (lastRune b)) t)) Hvr) as (c & s' & E & D).
  unfold encode in E. rewrite E, D. cbn [snd]. apply IH; cbn [lastRune]; [|lia..].
  split; [simpl; lia|]. split; [|done]. cbn [lastByte lastRune].
  rewrite (take_S_r t (lastRune b) r) by done. rewrite encode_app, length_app. simpl. by rewrite app_nil_r.
Qed.

(** A run of calls, as [MatchesFor] makes them. *)
Fixpoint convert_all (offsets : list nat) (b : byteToRuneIndex) : list nat :=
  match offsets with
  | [] => []
  | off :: offsets => let '(n, b) := convert off b in n :: convert_all offsets b
  end.

Lemma convert_boundary t k b : forallb valid_rune t = true -> (k <= length t)%nat -> at_boundary b t ->
  let '(n, b') := convert (length (encode (take k t))) b in n = k /\ at_boundary b' t.
Proof.
  intros Hv Hk Hb. unfold convert.
  set (b0 := if (length (encode (take k t)) <=? lastByte b)%nat then MkIndex (b_text b) 0 0 else b).
  assert (at_boundary b0 t /\ (lastRune b0 <= k)%nat) as [Hb0 Hle].
  { unfold b0. destruct (_ <=? _)%nat eqn:E.
    - destruct Hb as (_ & _ & Ht). split; [split; [simpl; lia|by split]|simpl; lia].
    - split; [done|]. apply Nat.leb_gt in E. destruct Hb as (Hr & Hl & Ht).
      destruct (decide (lastRune b <= k)%nat); [done|]. pose proof (encode_take_mono t k (lastRune b) ltac:(lia)). lia. }
  destruct (convert_loop_spec t k (length (b_text b0)) Hv Hk b0 Hb0 Hle) as [Hb' Hn]; [|by split].
  destruct Hb0 as (_ & _ & ->). pose proof (encode_length t). lia.
Qed.

(** The cached translation of byte offsets agrees with counting the runes
    before the offset, in whatever order the offsets are asked for. *)
Theorem convert_counts_runes t ks : forallb valid_rune t = true -> Forall (fun k => (k <= length t)%nat) ks ->
  convert_all (map (fun k => length (encode (take k t))) ks) (newByteToRuneIndex (encode t)) = ks.
Proof.
  intros Hv Hks. assert (at_boundary (newByteToRuneIndex (encode t)) t) as Hb by (split; [simpl; lia|by split]).
  revert Hb. generalize (newByteToRuneIndex (encode t)). induction Hks as [|k ks Hk _ IH]; intros b Hb; [done|].
  cbn [map convert_all]. pose proof (convert_boundary t k b Hv Hk Hb) as H. destruct (convert _ b) as [n b'].
  destruct H as [-> Hb']. f_equal. by apply IH.
Qed.

Lemma convert_counts_runes_witness :
  convert_all [5%nat; 1%nat; 8%nat] (newByteToRuneIndex (encode [0x61; 0x2020; 0x62; 0x3010; 0x63])) = [3%nat; 1%nat; 4%nat].
Proof.
  apply (convert_counts_runes [0x61; 0x2020; 0x62; 0x3010; 0x63] [3%nat; 1%nat; 4%nat]); [reflexivity|repeat constructor].
Defined.

Example invalid_bytes_are_errors : decode (map byte_of [0xC0; 0x61; 0xE2; 0x80; 0xED; 0xA0; 0x80]) = [RuneError; 0x61; RuneError; RuneError; RuneError; RuneError; RuneError].
Proof. vm_compute. reflexivity. Qed.
