(* ===== verification/Json.v ===== *)
(** * Go [any] values as the router meets them in decoded JSON

    [encoding/json] decodes into [nil], [bool], [float64] (or [json.Number]
    when the decoder keeps numbers), [string], [[]any] and [map[string]any];
    the router itself adds Go integers.  Maps are stdpp's [gmap]: unordered,
    one value per key, extensionally equal. *)

From S2P Require Import Prelude Float64.

Inductive json :=
  | JNull
  | JBool (b : bool)
  | JFloat (f : float64)
  | JNumber (lit : string)
  | JInt (z : Z)
  | JStr (s : string)
  | JArr (l : list json)
  | JObj (m : gmap string json).

Abbreviation object := (gmap string json).

(** ** Type assertions: [v.(T)] with the comma-ok form *)

Definition as_string (v : json) : option string := match v with JStr s => Some s | _ => None end.
Definition as_array (v : json) : option (list json) := match v with JArr l => Some l | _ => None end.
Definition as_object (v : json) : option object := match v with JObj m => Some m | _ => None end.

(** [body[k]] on a [map[string]any]: a missing key reads as nil. *)
Definition get (k : string) (m : object) : json := default JNull (m !! k).

(** [s, _ := m[k].(string)] *)
Definition get_string (k : string) (m : object) : string := default ""%string (as_string (get k m)).

Definition is_nil (v : json) : bool := match v with JNull => true | _ => false end.

Lemma get_insert k v (m : object) : get k (<[k := v]> m) = v.
Proof. unfold get. by rewrite lookup_insert_eq. Qed.

Lemma get_insert_ne k k' v (m : object) : k <> k' -> get k' (<[k := v]> m) = get k' m.
Proof. intros. unfold get. by rewrite lookup_insert_ne. Qed.

(** ** Induction

    The induction principle that reaches inside arrays and objects. *)
Section Induction.
Context (P : json -> Prop).
Context (Hnull : P JNull) (Hbool : forall b, P (JBool b)) (Hfloat : forall f, P (JFloat f))
  (Hnum : forall lit, P (JNumber lit)) (Hint : forall z, P (JInt z)) (Hstr : forall s, P (JStr s))
  (Harr : forall l, Forall P l -> P (JArr l))
  (Hobj : forall m : object, map_Forall (fun _ => P) m -> P (JObj m)).

Fixpoint json_size (v : json) : nat :=
  match v with
  | JArr l => S (foldr (fun v n => (json_size v + n)%nat) 0%nat l)
  | JObj m => S (map_fold (fun _ v n => (json_size v + n)%nat) 0%nat m)
  | _ => 1%nat
  end.

Lemma json_size_elem (l : list json) v :
  v ∈ l -> (json_size v <= foldr (fun v n => (json_size v + n)%nat) 0%nat l)%nat.
Proof. induction l; [by intros ?%not_elem_of_nil|]. intros [->|?]%elem_of_cons; simpl; [lia|]. specialize (IHl ltac:(done)). lia. Qed.

Lemma json_size_lookup (m : object) k v :
  m !! k = Some v -> (json_size v <= map_fold (fun _ v n => (json_size v + n)%nat) 0%nat m)%nat.
Proof.
  intros Hk. rewrite (map_fold_delete_L _ _ k v m); [lia| |done].
  intros j1 j2 z1 z2 y ? ? ?. lia.
Qed.

Lemma json_ind' v : P v.
Proof.
  remember (json_size v) as n eqn:Hn. revert v Hn.
  induction n as [n IH] using (well_founded_induction lt_wf). intros v ->.
  destruct v; auto.
  - apply Harr, Forall_forall. intros v Hv. eapply IH; [|done]. apply json_size_elem in Hv. simpl. lia.
  - apply Hobj. intros k v Hk. eapply IH; [|done]. apply json_size_lookup in Hk. simpl. lia.
Qed.

End Induction.
