(* ===== verification/CacheSalt.v ===== *)
(** * Cache-salt derivation and injection ([cachesalt/cachesalt.go],
    [cache_salt.go], and the identity functions of [main.go])

    The salt partitions the inference engine's prefix cache between
    principals; the properties are that distinct principals hash distinct
    preimages and that a client never chooses its salt. *)

From S2P Require Import Prelude Sha256 Json.
From Stdlib Require Import Ascii.
From Stdlib Require String.
#[local] Open Scope string_scope.
#[local] Open Scope list_scope.
#[local] Open Scope Z_scope.

(** ** Data *)

Definition SaltDomainTag : string := "tinfoil/cache-salt/v1".
Definition KeyDomainTag : string := "tinfoil/route-key/v1".

Inductive Mode := ModeNone | ModeTenant | ModeUser.

#[export] Instance Mode_eq_dec : EqDecision Mode.
Proof. solve_decision. Defined.

Definition MaxUint32 : Z := 2 ^ 32 - 1.

(** ** Operations *)

Definition strlen (s : string) : Z := Z.of_nat (length (to_bytes s)).

(** [lp(x) = uint32_be(len(x)) ‖ x] *)
Definition lp (f : string) : bytes := be32 (strlen f) ++ to_bytes f.
Arguments lp : simpl never.

(** The bytes [Sum] writes to the hash; [None] is the panic on a field beyond
    the framing limit. *)
Fixpoint sum_fields (fields : list string) : option bytes :=
  match fields with
  | [] => Some []
  | f :: fields =>
      if strlen f >? MaxUint32 then None
      else rest ← sum_fields fields; Some (lp f ++ rest)
  end.

Definition sum_preimage (tag : string) (fields : list string) : option bytes :=
  rest ← sum_fields fields; Some (to_bytes tag ++ rest).

Definition Sum (tag : string) (fields : list string) : option bytes :=
  sha256 <$> sum_preimage tag fields.

Definition Derive (tenantID userCacheSecret : string) : option (string * Mode) :=
  if String.eqb tenantID "" then Some ("", ModeNone)
  else if String.eqb userCacheSecret "" then
    sum ← Sum SaltDomainTag [tenantID]; Some (b64_encode sum, ModeTenant)
  else
    sum ← Sum SaltDomainTag [tenantID; userCacheSecret]; Some (b64_encode sum, ModeUser).

(** ** Identity of the caller *)

(** [strings.Split(s, ".")] *)
Fixpoint split_dot (s : bytes) : list bytes :=
  match s with
  | [] => [[]]
  | c :: s =>
      match split_dot s with
      | part :: rest => if Ascii.eqb c "."%char then [] :: part :: rest else (c :: part) :: rest
      | [] => [[c]]
      end
  end.

(** [base64.RawURLEncoding.DecodeString]: carriage returns and newlines are
    skipped, a lone trailing digit and any other character are errors, and
    the unused low bits of a partial group are ignored. *)
Definition b64_value (c : ascii) : option Z :=
  let d := b64_index c in if d <? 64 then Some d else None.

Fixpoint b64_group (ds : list Z) : option bytes :=
  match ds with
  | [] => Some []
  | [_] => None
  | [a; b] => Some [byte_of ((a * 2 ^ 18 + b * 2 ^ 12) / 2 ^ 16)]
  | [a; b; c] =>
      let n := a * 2 ^ 18 + b * 2 ^ 12 + c * 2 ^ 6 in Some [byte_of (n / 2 ^ 16); byte_of (n / 2 ^ 8)]
  | a :: b :: c :: d :: ds =>
      let n := a * 2 ^ 18 + b * 2 ^ 12 + c * 2 ^ 6 + d in
      rest ← b64_group ds; Some (byte_of (n / 2 ^ 16) :: byte_of (n / 2 ^ 8) :: byte_of n :: rest)
  end.

Definition b64_decode (s : bytes) : option bytes :=
  let s := filter (fun c => c <> byte_of 10 /\ c <> byte_of 13) s in
  ds ← mapM b64_value s; b64_group ds.

(** [strings.ToLower] as far as equality with an ASCII string goes: the two
    non-ASCII letters whose lower case is ASCII are U+0130 and U+212A; every
    other non-ASCII rune stays non-ASCII. *)
Definition lower_ascii (c : ascii) : ascii :=
  let v := byte_val c in if (65 <=? v) && (v <=? 90) then byte_of (v + 32) else c.

Fixpoint to_lower (s : bytes) : bytes :=
  match s with
  | a :: ((b :: s'') as s') =>
      if (byte_val a =? 0xC4) && (byte_val b =? 0xB0) then "i"%char :: to_lower s''
      else match s'' with
           | c :: s''' =>
               if (byte_val a =? 0xE2) && (byte_val b =? 0x84) && (byte_val c =? 0xAA)
               then "k"%char :: to_lower s''' else lower_ascii a :: to_lower s'
           | [] => lower_ascii a :: to_lower s'
           end
  | a :: s' => lower_ascii a :: to_lower s'
  | [] => []
  end.

Fixpoint trim_prefix (p s : bytes) : option bytes :=
  match p, s with
  | [], _ => Some s
  | a :: p, b :: s => if Ascii.eqb a b then trim_prefix p s else None
  | _ :: _, [] => None
  end.

(** [strings.TrimPrefix] *)
Definition TrimPrefix (s p : bytes) : bytes := default s (trim_prefix p s).

Section Identity.

(** [json.Unmarshal] of a document into a struct with one string field of the
    given JSON name: [None] is an error, an absent field is [""]. *)
Context (unmarshal_field : string -> bytes -> option string).

Definition jwtSubject (s : string) : string :=
  match split_dot (to_bytes s) with
  | [p0; p1; p2] =>
      if (bool_decide (p0 = []) || bool_decide (p1 = []) || bool_decide (p2 = [])) then ""
      else match b64_decode p2 with
      | None | Some [] => ""
      | Some _ =>
          match b64_decode p0 with
          | None => ""
          | Some header =>
              match unmarshal_field "typ" header with
              | None => ""
              | Some typ =>
                  if bool_decide (TrimPrefix (to_lower (to_bytes typ)) (to_bytes "application/") = to_bytes "at+jwt")
                  then match b64_decode p1 with
                       | None => ""
                       | Some payload => default "" (unmarshal_field "sub" payload)
                       end
                  else ""
              end
          end
      end
  | _ => ""
  end.

Definition cacheSaltIdentity (apiKey : string) : string :=
  let sub := jwtSubject apiKey in
  if negb (String.eqb sub "") then sub else apiKey.

Definition cacheSaltPaths : list string :=
  ["/v1/chat/completions"; "/v1/completions"; "/v1/responses"; "/v1/decisions"].

(** The result is the body left behind and the mode; [None] is the framing
    panic of a field over 4 GiB, and a nil body is [None] inside. *)
Definition applyCacheSalt (body : option object) (path apiKey : string) (enabled : bool)
  : option (option object * Mode) :=
  match body with
  | None => Some (None, ModeNone)
  | Some body =>
      let secret := get_string "user_cache_secret" body in
      let body := delete "user_cache_secret" body in
      let body := delete "cache_salt" body in
      if negb enabled || negb (bool_decide (path ∈ cacheSaltPaths)) then Some (Some body, ModeNone)
      else
        '(salt, mode) ← Derive (cacheSaltIdentity apiKey) secret;
        if String.eqb salt "" then Some (Some body, ModeNone)
        else Some (Some (<["cache_salt" := JStr salt]> body), mode)
  end.

End Identity.

(** ** Framing lemmas *)

Lemma lp_inj f g r r' :
  strlen f <= MaxUint32 -> strlen g <= MaxUint32 -> lp f ++ r = lp g ++ r' -> f = g /\ r = r'.
Proof.
  unfold lp. intros Hf Hg H. rewrite <- !app_assoc in H.
  apply app_inj_1 in H as [Hlen H]; [|done].
  apply be32_inj in Hlen; [|unfold strlen, MaxUint32 in *; lia..].
  apply app_inj_1 in H as [Hfg ->]; [|unfold strlen in Hlen; lia].
  by apply to_bytes_inj in Hfg.
Qed.

Lemma lp_nonempty f r : lp f ++ r <> [].
Proof. done. Qed.

(** The framing of a whole field list is injective: no sequence of framed
    fields reads as a different sequence. *)
Lemma sum_fields_inj fs : forall gs b, sum_fields fs = Some b -> sum_fields gs = Some b -> fs = gs.
Proof.
  induction fs as [|f fs IH]; intros [|g gs] b Hf Hg; simpl in *; try done.
  - simplify_eq. case_in Hg. destruct (sum_fields gs); simplify_eq/=.
  - simplify_eq. case_in Hf. destruct (sum_fields fs); simplify_eq/=.
  - destruct (strlen f >? MaxUint32) eqn:Ef; [done|]. destruct (strlen g >? MaxUint32) eqn:Eg; [done|].
    destruct (sum_fields fs) as [bf|] eqn:Hbf, (sum_fields gs) as [bg|] eqn:Hbg; simpl in *; try done.
    apply (inj Some) in Hf, Hg. subst b. apply lp_inj in Hg as [-> ->]; [|lia..].
    f_equal. eauto.
Qed.

Lemma sum_preimage_inj tag fs gs b :
  sum_preimage tag fs = Some b -> sum_preimage tag gs = Some b -> fs = gs.
Proof.
  unfold sum_preimage. intros Hf Hg.
  destruct (sum_fields fs) as [bf|] eqn:Ef, (sum_fields gs) as [bg|] eqn:Eg; simplify_eq/=.
  eapply sum_fields_inj; [done|]. by rewrite Eg; f_equal; eapply app_inv_head.
Qed.

(** A collision of SHA-256 on two explicit messages. *)
Definition collision (m m' : bytes) : Prop := m <> m' /\ sha256 m = sha256 m'.

Lemma Sum_Some tag fs d : Sum tag fs = Some d -> exists m, sum_preimage tag fs = Some m /\ sha256 m = d.
Proof. intros (m & ? & ->)%fmap_Some_1. eauto. Qed.

Lemma Sum_inj_or_collision tag fs gs d :
  Sum tag fs = Some d -> Sum tag gs = Some d -> fs = gs \/ exists m m', collision m m'.
Proof.
  intros (bf & Ef & Hf)%Sum_Some (bg & Eg & Hg)%Sum_Some.
  destruct (decide (bf = bg)) as [->|Hne]; [left; by eapply sum_preimage_inj|].
  right. exists bf, bg. split; [done|]. by rewrite Hf, Hg.
Qed.

Lemma Derive_some t s salt mode :
  t <> "" -> Derive t s = Some (salt, mode) ->
  exists d, Sum SaltDomainTag (t :: if String.eqb s "" then [] else [s]) = Some d /\ salt = b64_encode d
            /\ mode <> ModeNone.
Proof.
  intros Ht. unfold Derive. destruct (String.eqb_spec t ""); [done|].
  destruct (String.eqb s ""); [destruct (Sum SaltDomainTag [t]) as [d|]|destruct (Sum SaltDomainTag [t; s]) as [d|]];
    cbn [mbind option_bind]; intros Hd; try done; exists d; by inversion Hd.
Qed.

Lemma Derive_salt_nonempty t s salt mode :
  t <> "" -> Derive t s = Some (salt, mode) -> salt <> "" /\ mode <> ModeNone.
Proof.
  intros Ht Hd. destruct (Derive_some t s salt mode Ht Hd) as (d & Hs & -> & Hm). split; [|done].
  apply Sum_Some in Hs as (m & _ & <-).
  intros H. apply (b64_encode_inj _ []) in H. pose proof (sha256_length m) as Hl. by rewrite H in Hl.
Qed.

Lemma Derive_mode t s salt : Derive t s = Some (salt, ModeNone) -> salt = "".
Proof.
  intros H. destruct (decide (t = "")) as [->|Ht]; [cbn in H; congruence|].
  by destruct (Derive_salt_nonempty _ _ _ _ Ht H).
Qed.

(** ** Test vectors of [cachesalt/testdata/vectors.json] *)

Example derive_vectors :
  Derive "org_12345" "" = Some ("_1Jm3ACF8algKU89HHA1hZ57regn5axC7TwCDAkVZNY", ModeTenant)
  /\ Derive "org_1" "2345" = Some ("pzER3wZKUaTw_ibSyQ5JOh0XepQ0MbQq0Nnp9Ff9VIo", ModeUser)
  /\ Derive "tenant-a" "secret-1" = Some ("sX2EgM7N_jfzz0nOEZk-1MDMHsKqz0ieYtvUq2F3kZs", ModeUser).
Proof. vm_compute. repeat split. Qed.

(** ** Properties *)



(** A client never chooses the cache salt. Whatever the request body held
    under [cache_salt], the body that leaves [applyCacheSalt] is the same; its
    [cache_salt] is the derived salt or absent (exactly when the mode is
    [ModeNone]), [user_cache_secret] is gone, and every other field is as the
    client sent it. *)
Theorem client_never_chooses_salt unm (body : object) path apiKey enabled body' mode v :
  applyCacheSalt unm (Some body) path apiKey enabled = Some (Some body', mode) ->
  applyCacheSalt unm (Some (<["cache_salt" := v]> body)) path apiKey enabled = Some (Some body', mode)
  /\ body' !! "user_cache_secret" = None
  /\ (mode = ModeNone <-> body' !! "cache_salt" = None)
  /\ (forall salt, body' !! "cache_salt" = Some salt ->
        exists d, salt = JStr d /\ Derive (cacheSaltIdentity unm apiKey) (get_string "user_cache_secret" body) = Some (d, mode))
  /\ (forall k, k <> "user_cache_secret" -> k <> "cache_salt" -> body' !! k = body !! k).
Proof.
  intros H. split.
  { rewrite <- H. unfold applyCacheSalt, get_string, get.
    rewrite lookup_insert_ne by done. rewrite (delete_insert_ne _ _ "cache_salt") by done.
    by rewrite delete_insert_eq. }
  unfold applyCacheSalt in H. destruct (negb enabled || _) eqn:Eg.
  - simplify_eq. rewrite lookup_delete_eq.
    split; [by rewrite lookup_delete_ne, lookup_delete_eq|]. split; [done|]. split; [done|].
    intros k ? ?. by rewrite !lookup_delete_ne.
  - destruct (Derive _ _) as [[salt m]|] eqn:Ed; simplify_eq/=.
    destruct (String.eqb_spec salt "") as [->|Hne]; simplify_eq/=.
    + rewrite lookup_delete_eq. split; [by rewrite lookup_delete_ne, lookup_delete_eq|].
      split; [done|]. split; [done|]. intros k ? ?. by rewrite !lookup_delete_ne.
    + rewrite lookup_insert_eq. split; [by rewrite lookup_insert_ne, lookup_delete_ne, lookup_delete_eq|].
      split. { split; [|done]. intros ->. apply Derive_mode in Ed; congruence. }
      split; [intros ? [= <-]; eauto|].
      intros k ? ?. by rewrite lookup_insert_ne, !lookup_delete_ne.
Qed.

Lemma client_never_chooses_salt_witness :
  applyCacheSalt (fun _ _ => None) (Some (<["cache_salt" := JStr "mine"]> {["model" := JStr "m"]}))
    "/v1/responses" "org_12345" true
  = Some (Some (<["cache_salt" := JStr "_1Jm3ACF8algKU89HHA1hZ57regn5axC7TwCDAkVZNY"]> {["model" := JStr "m"]}), ModeTenant).
Proof.
  apply (client_never_chooses_salt (fun _ _ => None) {["model" := JStr "m"]} "/v1/responses" "org_12345" true
    _ ModeTenant (JStr "mine")).
  vm_compute. reflexivity.
Defined.
