(* ===== verification/Config.v ===== *)
(** * Runtime configuration ([config/config.go])

    Overload policies and their resolution, the consistency check on
    reservations, the pinned-digest URL syntax and the integrity check of a
    loaded configuration. *)

From S2P Require Import Prelude Float64 Sha256 CacheSalt.
From Stdlib Require Import Ascii.
From Stdlib Require String.
#[local] Open Scope string_scope.
#[local] Open Scope list_scope.
#[local] Open Scope Z_scope.

(** ** Data *)

Record OverloadConfig := {
  MaxRequestsWaiting : Z;
  ClearRequestsWaiting : Z;
  SoftMaxRequestsRunning : Z;
  RetryAfterMinutes : Z
}.

#[export] Instance OverloadConfig_eq_dec : EqDecision OverloadConfig.
Proof. solve_decision. Defined.

Record CacheRouteConfig := {
  cr_Mode : string;
  RetentionWindowMinutes : Z;
  cr_MinPromptBytes : Z;
  cr_SplitThresholdRPM : float64;
  cr_MaxInflightDelta : option Z
}.

(** A nil pointer is [None]. *)
Record ReservationConfig := {
  OrgIDs : list string;
  res_Enclaves : list string;
  res_Overload : option OverloadConfig
}.

Record Model := {
  Repo : string;
  Hostnames : list string;
  Overload : option OverloadConfig;
  CacheRoute : option CacheRouteConfig;
  Reservations : list ReservationConfig
}.

(** ** Overload policies *)

Definition Enabled (c : option OverloadConfig) : bool :=
  match c with
  | None => false
  | Some c => (MaxRequestsWaiting c >? 0) || (SoftMaxRequestsRunning c >? 0)
  end.

(** The trip and clear marks; Go's integer division truncates. *)
Definition Marks (c : OverloadConfig) : Z * Z :=
  let trip := MaxRequestsWaiting c in
  let clear := ClearRequestsWaiting c in
  (trip, if (clear <=? 0) || (clear >=? trip) then Z.quot trip 2 else clear).

Definition defaultRetryAfterMinutes : Z := 1.

Definition zeroOverload : OverloadConfig := Build_OverloadConfig 0 0 0 0.

Definition normalized (c : option OverloadConfig) : OverloadConfig :=
  match c with
  | None => zeroOverload
  | Some c =>
      let soft := Z.max (SoftMaxRequestsRunning c) 0 in
      if MaxRequestsWaiting c >? 0 then
        let (trip, clear) := Marks c in
        Build_OverloadConfig trip clear soft
          (if RetryAfterMinutes c <=? 0 then defaultRetryAfterMinutes else RetryAfterMinutes c)
      else Build_OverloadConfig 0 0 soft 0
  end.

(** [time.Duration(minutes) * time.Minute], a 64-bit product. *)
Definition RetryAfter (c : option OverloadConfig) : Z :=
  wrap64 (RetryAfterMinutes (normalized c) * Minute).

(** ** Reservation consistency *)

(** The policy a reservation gives its organizations. *)
Definition reservation_policy (model : Model) (r : ReservationConfig) : option OverloadConfig :=
  match res_Overload r with Some o => Some o | None => Overload model end.

(** The inner loop over one reservation's organizations; [None] is the error. *)
Fixpoint check_orgs (resolved : OverloadConfig) (orgs : list string) (byOrg : gmap string OverloadConfig)
  : option (gmap string OverloadConfig) :=
  match orgs with
  | [] => Some byOrg
  | org :: orgs =>
      match byOrg !! org with
      | Some previous => if decide (previous = resolved) then check_orgs resolved orgs (<[org := resolved]> byOrg) else None
      | None => check_orgs resolved orgs (<[org := resolved]> byOrg)
      end
  end.

Fixpoint check_reservations (model : Model) (rs : list ReservationConfig) (byOrg : gmap string OverloadConfig)
  : option (gmap string OverloadConfig) :=
  match rs with
  | [] => Some byOrg
  | r :: rs =>
      byOrg' ← check_orgs (normalized (reservation_policy model r)) (OrgIDs r) byOrg;
      check_reservations model rs byOrg'
  end.

(** The loop over the configuration's models in the order Go's map iteration
    gave; the error names the first inconsistent model met. *)
Fixpoint check_models (models : list (string * Model)) : option string :=
  match models with
  | [] => None
  | (name, model) :: models =>
      match check_reservations model (Reservations model) ∅ with
      | None => Some name
      | Some _ => check_models models
      end
  end.

Inductive load_error :=
  | ErrParse
  | ErrTierPolicy (model : string)
  | ErrShaRequired
  | ErrPlainHTTP
  | ErrRead
  | ErrShaMismatch.

Section Load.

(** [yaml.Unmarshal] into the configuration, its models listed in iteration
    order; reading a file, and fetching over HTTPS (status 200 and the whole
    body, or an error). *)
Context (yaml_models : bytes -> option (list (string * Model))).
Context (readFile httpsGet : string -> option bytes).

Definition FromBytes (data : bytes) : load_error + list (string * Model) :=
  match yaml_models data with
  | None => inl ErrParse
  | Some models =>
      match check_models models with
      | Some name => inl (ErrTierPolicy name)
      | None => inr models
      end
  end.

(** [strings.SplitN(input, "@", 2)] as the text before and, if any, after. *)
Fixpoint cut_at (input : bytes) : bytes * option bytes :=
  match input with
  | [] => ([], None)
  | c :: rest =>
      if Ascii.eqb c "@"%char then ([], Some rest)
      else let (a, b) := cut_at rest in (c :: a, b)
  end.

Definition sha_prefix : bytes := to_bytes "sha256:".

Definition parseURLWithSHA (input : string) : string * string :=
  match cut_at (to_bytes input) with
  | (_, None) => (input, "")
  | (url, Some fragment) =>
      match trim_prefix sha_prefix (to_lower fragment) with
      | Some _ => (of_bytes url, of_bytes (drop 7 fragment))
      | None => (of_bytes url, "")
      end
  end.

(** [strings.EqualFold] against lower-case hexadecimal digits: no letter
    outside ASCII folds to one of them. *)
Definition EqualFold (s t : string) : bool :=
  bool_decide (map lower_ascii (to_bytes s) = map lower_ascii (to_bytes t)).

Definition has_prefix (p s : string) : bool :=
  bool_decide (is_Some (trim_prefix (to_bytes p) (to_bytes s))).

Definition LoadContext (url : string) (sha256_required : bool) : load_error + list (string * Model) :=
  let (cleanURL, expectedSHA) := parseURLWithSHA url in
  if sha256_required && bool_decide (expectedSHA = "") then inl ErrShaRequired
  else
    let fetched :=
      if negb (has_prefix "https" cleanURL) then
        if has_prefix "http" cleanURL then inl ErrPlainHTTP
        else match readFile cleanURL with Some d => inr d | None => inl ErrRead end
      else match httpsGet cleanURL with Some d => inr d | None => inl ErrRead end in
    match fetched with
    | inl e => inl e
    | inr data =>
        if bool_decide (expectedSHA = "") then FromBytes data
        else if EqualFold (hex_encode (sha256 data)) expectedSHA then FromBytes data
        else inl ErrShaMismatch
    end.

End Load.

(** ** Lemmas *)

Lemma Marks_band c trip clear : Marks c = (trip, clear) -> 0 < trip -> 0 <= clear < trip.
Proof.
  unfold Marks. intros [= <- <-] H. destruct (_ || _) eqn:E; [|bool_simp; lia].
  rewrite Z.quot_div_nonneg by lia. Z.to_euclidean_division_equations; lia.
Qed.

Lemma normalized_Marks c :
  0 < MaxRequestsWaiting c -> Marks (normalized (Some c)) = Marks c.
Proof.
  intros H. pose proof (Marks_band c _ _ eq_refl H) as Hb. unfold normalized.
  destruct (MaxRequestsWaiting c >? 0) eqn:E; [|lia]. unfold Marks in *. simpl in *.
  f_equal. destruct (_ || _) eqn:E1 in |- *; [|done].
  apply orb_true_iff in E1 as [E1|E1]; [bool_simp|lia].
  destruct ((ClearRequestsWaiting c <=? 0) || (ClearRequestsWaiting c >=? MaxRequestsWaiting c)) eqn:E2; [done|].
  bool_simp. lia.
Qed.

Lemma check_orgs_spec resolved orgs : forall byOrg byOrg',
  check_orgs resolved orgs byOrg = Some byOrg' ->
  byOrg ⊆ byOrg' /\ forall org, org ∈ orgs -> byOrg' !! org = Some resolved.
Proof.
  induction orgs as [|o orgs IH]; intros byOrg byOrg' H; simpl in H.
  { simplify_eq. split; [done|]. by intros ? ?%not_elem_of_nil. }
  destruct (byOrg !! o) as [p|] eqn:Ho.
  - case_decide; [|done]. subst. apply IH in H as [Hsub Horg]. split.
    + etrans; [|done]. by rewrite insert_id.
    + intros org [->|Hin]%elem_of_cons; [|auto]. eapply lookup_weaken; [|done]. by simplify_map_eq.
  - apply IH in H as [Hsub Horg]. split.
    + etrans; [by apply insert_subseteq|done].
    + intros org [->|Hin]%elem_of_cons; [|auto]. eapply lookup_weaken; [|done]. by simplify_map_eq.
Qed.

Lemma check_reservations_spec model rs : forall byOrg byOrg',
  check_reservations model rs byOrg = Some byOrg' ->
  byOrg ⊆ byOrg' /\
  forall r org, r ∈ rs -> org ∈ OrgIDs r -> byOrg' !! org = Some (normalized (reservation_policy model r)).
Proof.
  induction rs as [|r rs IH]; intros byOrg byOrg' H; simpl in H.
  { simplify_eq. split; [done|]. by intros ? ? ?%not_elem_of_nil. }
  destruct (check_orgs _ _ _) as [b|] eqn:E; [|done]. simpl in H.
  apply check_orgs_spec in E as [Hs1 Ho1]. apply IH in H as [Hs2 Ho2].
  split; [by etrans|]. intros r' org [->|Hin]%elem_of_cons Horg; [|eauto].
  eapply lookup_weaken; [|done]. auto.
Qed.

Lemma check_models_spec models :
  check_models models = None ->
  forall name model, (name, model) ∈ models -> is_Some (check_reservations model (Reservations model) ∅).
Proof.
  induction models as [|[n m] models IH]; simpl; intros H name model Hin; [by apply not_elem_of_nil in Hin|].
  destruct (check_reservations m (Reservations m) ∅) eqn:E; [|done].
  apply elem_of_cons in Hin as [[= -> ->]|Hin]; [by rewrite E|eauto].
Qed.

(** ** Properties *)

(** For a policy with a positive trip mark, the clear mark lies in
    [0, trip) (so the two thresholds always leave a hysteresis band), and
    normalizing a policy changes neither whether it is enabled nor its marks
    nor its retry hint; normalizing twice is normalizing once. *)
Theorem normalized_policy_equivalent c :
  Enabled (Some (normalized (Some c))) = Enabled (Some c)
  /\ (0 < MaxRequestsWaiting c ->
      let (trip, clear) := Marks c in
      0 <= clear < trip /\ Marks (normalized (Some c)) = (trip, clear))
  /\ RetryAfter (Some (normalized (Some c))) = RetryAfter (Some c)
  /\ normalized (Some (normalized (Some c))) = normalized (Some c).
Proof.
  assert (Hidem : normalized (Some (normalized (Some c))) = normalized (Some c)).
  { destruct (Z.lt_ge_cases 0 (MaxRequestsWaiting c)) as [H|H].
    - pose proof (normalized_Marks c H) as Hm. unfold normalized at 1. rewrite Hm.
      unfold normalized, Marks. simpl. destruct (MaxRequestsWaiting c >? 0) eqn:E; [|lia]. simpl.
      rewrite E. f_equal; [lia|]. destruct (RetryAfterMinutes c <=? 0) eqn:Er; simpl; [done|by rewrite Er].
    - unfold normalized. destruct (MaxRequestsWaiting c >? 0) eqn:E; [lia|]. simpl. f_equal. lia. }
  split; [|split; [|split; [|done]]].
  - unfold Enabled, normalized. destruct (MaxRequestsWaiting c >? 0) eqn:E; simpl; [by rewrite E|].
    destruct (SoftMaxRequestsRunning c >? 0) eqn:E'; lia.
  - intros H. destruct (Marks c) as [trip clear] eqn:Em.
    assert (trip = MaxRequestsWaiting c) as -> by (unfold Marks in Em; congruence).
    split; [by eapply Marks_band|]. by rewrite normalized_Marks.
  - unfold RetryAfter. by rewrite Hidem.
Qed.

(** A configuration that parses assigns every organization one tier
    policy per model: any two reservations of a model that name the same
    organization resolve to the same normalized policy. *)
Theorem one_policy_per_org yaml data models name model r1 r2 org :
  FromBytes yaml data = inr models ->
  (name, model) ∈ models ->
  r1 ∈ Reservations model -> r2 ∈ Reservations model -> org ∈ OrgIDs r1 -> org ∈ OrgIDs r2 ->
  normalized (reservation_policy model r1) = normalized (reservation_policy model r2).
Proof.
  intros HF Hm Hr1 Hr2 Ho1 Ho2. unfold FromBytes in HF.
  destruct (yaml data) as [ms|]; [|done]. destruct (check_models ms) eqn:Ec; simplify_eq.
  destruct (check_models_spec _ Ec _ _ Hm) as [b Hb].
  apply check_reservations_spec in Hb as [_ Hb].
  pose proof (Hb _ _ Hr1 Ho1). pose proof (Hb _ _ Hr2 Ho2). congruence.
Qed.

Lemma one_policy_per_org_witness :
  let o := Build_OverloadConfig 8 0 0 0 in
  let r1 := Build_ReservationConfig ["acme"] ["h1"] (Some o) in
  let r2 := Build_ReservationConfig ["acme"] ["h2"] (Some (Build_OverloadConfig 8 4 0 1)) in
  let m := Build_Model "repo" ["h1"; "h2"] None None [r1; r2] in
  normalized (reservation_policy m r1) = normalized (reservation_policy m r2).
Proof.
  set (o := Build_OverloadConfig 8 0 0 0).
  set (r1 := Build_ReservationConfig ["acme"] ["h1"] (Some o)).
  set (r2 := Build_ReservationConfig ["acme"] ["h2"] (Some (Build_OverloadConfig 8 4 0 1))).
  set (m := Build_Model "repo" ["h1"; "h2"] None None [r1; r2]).
  apply (one_policy_per_org (fun _ => Some [("llama", m)]) [] [("llama", m)] "llama" m r1 r2 "acme");
    [vm_compute; reflexivity|set_solver..].
Defined.

(** A configuration loaded with a pinned digest is the one pinned: when
    [LoadContext] succeeds on a URL that carries a digest, the bytes it parsed
    hash to that digest; when a digest is required, a URL without one is
    refused; and a plain-HTTP URL never loads. *)
Theorem loaded_config_matches_pin yaml readFile httpsGet url required models cleanURL expected :
  LoadContext yaml readFile httpsGet url required = inr models ->
  parseURLWithSHA url = (cleanURL, expected) ->
  (required = true -> expected <> "")
  /\ (has_prefix "http" cleanURL = true -> has_prefix "https" cleanURL = true)
  /\ exists data, (if has_prefix "https" cleanURL then httpsGet cleanURL else readFile cleanURL) = Some data
      /\ FromBytes yaml data = inr models
      /\ (expected <> "" -> EqualFold (hex_encode (sha256 data)) expected = true).
Proof.
  intros H Hp. unfold LoadContext in H. rewrite Hp in H.
  destruct (required && bool_decide (expected = "")) eqn:Er; [done|].
  split. { intros -> ->. done. }
  destruct (has_prefix "https" cleanURL); simpl in H.
  - split; [done|]. destruct (httpsGet cleanURL) as [data|]; [|done]. exists data.
    case_bool_decide; [done|]. destruct (EqualFold _ _); done.
  - destruct (has_prefix "http" cleanURL); [done|]. split; [done|].
    destruct (readFile cleanURL) as [data|]; [|done]. exists data.
    case_bool_decide; [done|]. destruct (EqualFold _ _); done.
Qed.

Lemma loaded_config_matches_pin_witness :
  EqualFold (hex_encode (sha256 (to_bytes "abc")))
    "BA7816bf8f01cfea414140de5dae2223b00361a396177a9cb410ff61f20015ad" = true.
Proof.
  edestruct (loaded_config_matches_pin (fun _ => Some []) (fun _ => Some (to_bytes "abc")) (fun _ => None)
    "config.yml@SHA256:BA7816bf8f01cfea414140de5dae2223b00361a396177a9cb410ff61f20015ad" true [])
    as (_ & _ & data & Hd & _ & H); [vm_compute; reflexivity|vm_compute; reflexivity|].
  assert (data = to_bytes "abc") as -> by (vm_compute in Hd; vm_compute; congruence).
  apply H. done.
Defined.
