(* ===== verification/Errors.v ===== *)
(** * API errors ([manager/errors.go])

    The OpenAI-shaped error values, their copies with a field replaced, the
    JSON envelope, and the normalization of a backend's error response.

    [json.Unmarshal] into a map and [http.ParseTime] are parameters; formatted
    messages are functions of their arguments. *)

From S2P Require Import Prelude Sha256 Strconv Json.
#[local] Open Scope string_scope.
#[local] Open Scope list_scope.
#[local] Open Scope Z_scope.

(** [http.Header]: canonical name to values. Every name the router uses is
    already canonical. *)
Abbreviation Header := (gmap string (list string)).
Definition Values (h : Header) (name : string) : list string := default [] (h !! name).

(** ** Vocabulary *)

Definition ErrTypeInvalidRequest := "invalid_request_error".
Definition ErrTypeRateLimit := "rate_limit_error".
Definition ErrTypeServiceUnavailable := "service_unavailable_error".
Definition ErrTypeServer := "server_error".
Definition ErrTypeInsufficientQuota := "insufficient_quota".
Definition ErrTypeAuthentication := "authentication_error".
Definition ErrTypePermission := "permission_error".

Definition ErrCodeMissingAPIKey := "missing_api_key".
Definition ErrCodeModelNotFound := "model_not_found".
Definition ErrCodeModelMismatch := "model_mismatch".
Definition ErrCodeModelUnavailable := "model_unavailable".
Definition ErrCodeRateLimitExceeded := "rate_limit_exceeded".
Definition ErrCodeServerOverloaded := "server_is_overloaded".
Definition ErrCodeUpstreamError := "upstream_error".

Definition ErrCodeInvalidJSON := "invalid_json".
Definition ErrCodeBodyReadFailed := "body_read_failed".
Definition ErrCodeRequestTooLarge := "request_too_large".

Definition ErrMsgBodyTooLarge := "Request body is too large.".
Definition ErrMsgBodyReadFailed := "Could not read request body.".
Definition ErrMsgInvalidBody := "Invalid request body.".
Definition ErrMsgModelMismatch := "The model in the request body does not match the X-Tinfoil-Model header.".
Definition ErrMsgServerError := "The server had an error while processing your request.".
Definition ErrMsgMissingAPIKey := "You didn't provide an API key.".
Definition ErrMsgRateLimited (n : Z) : string := "Rate limit reached for requests. Retry after " +:+ FormatInt n +:+ " seconds.".
Definition ErrMsgTokenRateLimited (n : Z) : string := "Rate limit reached for tokens. Retry after " +:+ FormatInt n +:+ " seconds.".
Definition ErrMsgMissingParam (p : string) : string := "Missing required parameter: '" +:+ p +:+ "'.".
Definition ErrMsgOverloaded (model : string) (n : Z) : string :=
  "The model '" +:+ model +:+ "' is currently overloaded. Retry after " +:+ FormatInt n +:+ " seconds.".
Definition ErrMsgModelUnavailable (model : string) : string :=
  "The model '" +:+ model +:+ "' is temporarily unavailable. Please try again later.".
Definition ErrMsgModelNotFound (model : string) : string :=
  "The model '" +:+ model +:+ "' does not exist or you do not have access to it.".
Definition ErrMsgInvalidMaxTokensHeader :=
  "Invalid X-Tinfoil-Max-Output-Tokens header: must be a single positive integer.".
Definition ErrMsgInvalidCompletionCountHeader :=
  "Invalid X-Tinfoil-Completion-Count header: must be a single positive integer.".

(** ** Values *)

Record APIError := MkAPIError {
  Status : Z;
  err_Type : string;
  Code : string;
  Param : string;
  Message : string;
  err_RetryAfter : string
}.

Definition WithMessage (e : APIError) (message : string) : APIError :=
  MkAPIError (Status e) (err_Type e) (Code e) (Param e) message (err_RetryAfter e).
Definition WithParam (e : APIError) (param : string) : APIError :=
  MkAPIError (Status e) (err_Type e) (Code e) param (Message e) (err_RetryAfter e).
Definition WithStatus (e : APIError) (status : Z) : APIError :=
  MkAPIError status (err_Type e) (Code e) (Param e) (Message e) (err_RetryAfter e).

Definition ErrServer := MkAPIError 500 ErrTypeServer "" "" ErrMsgServerError "".
Definition ErrUpstream := MkAPIError 502 ErrTypeServer ErrCodeUpstreamError "" ErrMsgServerError "".
Definition ErrServerOverloaded := MkAPIError 503 ErrTypeServiceUnavailable ErrCodeServerOverloaded "" "" "".
Definition ErrModelUnavailable := MkAPIError 503 ErrTypeServiceUnavailable ErrCodeModelUnavailable "" "" "".
Definition ErrModelNotFound := MkAPIError 404 ErrTypeInvalidRequest ErrCodeModelNotFound "model" "" "".
Definition ErrRateLimited := MkAPIError 429 ErrTypeRateLimit ErrCodeRateLimitExceeded "" "" "".
Definition ErrMissingAPIKey := MkAPIError 401 ErrTypeInvalidRequest ErrCodeMissingAPIKey "" ErrMsgMissingAPIKey "".
Definition ErrModelMismatch := MkAPIError 400 ErrTypeInvalidRequest ErrCodeModelMismatch "model" ErrMsgModelMismatch "".
Definition ErrBodyTooLarge := MkAPIError 413 ErrTypeInvalidRequest ErrCodeRequestTooLarge "" ErrMsgBodyTooLarge "".
Definition ErrBodyReadFailed := MkAPIError 400 ErrTypeInvalidRequest ErrCodeBodyReadFailed "" ErrMsgBodyReadFailed "".
Definition ErrInvalidJSON := MkAPIError 400 ErrTypeInvalidRequest ErrCodeInvalidJSON "" ErrMsgInvalidBody "".
Definition ErrInvalidRequest := MkAPIError 400 ErrTypeInvalidRequest "" "" "" "".

(** ** Envelope *)

Definition nullableString (s : string) : option string := if String.eqb s "" then None else Some s.

Record ErrorBody := MkErrorBody {
  eb_Message : string;
  eb_Type : string;
  eb_Param : option string;
  eb_Code : option string
}.

Definition Envelope (e : APIError) : ErrorBody :=
  MkErrorBody (Message e) (err_Type e) (nullableString (Param e)) (nullableString (Code e)).

Definition or_null (o : option string) : json := match o with Some s => JStr s | None => JNull end.

Definition ErrorBody_Map (b : ErrorBody) : object :=
  <["code" := or_null (eb_Code b)]> (<["param" := or_null (eb_Param b)]>
    {["message" := JStr (eb_Message b); "type" := JStr (eb_Type b)]}).

(** What [WriteAPIError] sends: status, [Retry-After] when set, body. *)
Definition WriteAPIError (e : APIError) : Z * option string * ErrorBody :=
  (Status e, nullableString (err_RetryAfter e), Envelope e).

(** ** Retry-After *)

Section Upstream.
Context (unmarshal : bytes -> option object) (ParseTime : string -> bool).

Definition RetryAfterFromHeader (h : Header) : string :=
  match Values h "Retry-After" with
  | [v] =>
      let value := TrimSpace v in
      match ParseUint (to_bytes value) with
      | Some _ => value
      | None => if ParseTime value then value else ""
      end
  | _ => ""
  end.

Definition WithRetryAfter (e : APIError) (h : Header) : APIError :=
  MkAPIError (Status e) (err_Type e) (Code e) (Param e) (Message e) (RetryAfterFromHeader h).

(** ** Backend errors *)

Definition MaxUpstreamErrorBodyBytes : Z := Z.shiftl 64 10.

Definition upstreamErrorTypes : gmap string string :=
  list_to_map [
    ("BadRequestError", ErrTypeInvalidRequest);
    ("NotFoundError", ErrTypeInvalidRequest);
    ("ValidationError", ErrTypeInvalidRequest);
    ("UnprocessableEntityError", ErrTypeInvalidRequest);
    ("InternalServerError", ErrTypeServer);
    ("ServiceUnavailableError", ErrTypeServiceUnavailable);
    ("RateLimitError", ErrTypeRateLimit)].

Definition openAIErrorTypes : list string :=
  [ErrTypeInvalidRequest; ErrTypeRateLimit; ErrTypeServiceUnavailable; ErrTypeServer;
   ErrTypeInsufficientQuota; ErrTypeAuthentication; ErrTypePermission; "not_found_error"].

Definition errTypeForStatus (status : Z) : string :=
  if status =? 401 then ErrTypeAuthentication
  else if status =? 403 then ErrTypePermission
  else if status =? 402 then ErrTypeInsufficientQuota
  else if status =? 429 then ErrTypeRateLimit
  else if status =? 503 then ErrTypeServiceUnavailable
  else if status >=? 500 then ErrTypeServer
  else ErrTypeInvalidRequest.

Definition NormalizeUpstreamError (status : Z) (body : bytes) : APIError * bool :=
  let unrecognized := (WithStatus ErrUpstream status, false) in
  match unmarshal body with
  | None => unrecognized
  | Some parsed =>
      let fields :=
        match get "error" parsed with
        | JObj inner => Some inner
        | _ => if String.eqb (get_string "object" parsed) "error" then Some parsed else None
        end in
      match fields with
      | None => unrecognized
      | Some fields =>
          let message := get_string "message" fields in
          if String.eqb message "" then unrecognized
          else
            let errType := get_string "type" fields in
            let errType :=
              match upstreamErrorTypes !! errType with
              | Some mapped => mapped
              | None => if bool_decide (errType ∈ openAIErrorTypes) then errType else errTypeForStatus status
              end in
            (MkAPIError status errType (get_string "code" fields) (get_string "param" fields) message "", true)
      end
  end.

(** ** Lemmas *)

Lemma errTypeForStatus_known status : errTypeForStatus status ∈ openAIErrorTypes.
Proof. unfold errTypeForStatus. repeat case_step; apply (bool_decide_unpack _); vm_compute; exact I. Qed.

Lemma upstreamErrorTypes_known t mapped : upstreamErrorTypes !! t = Some mapped -> mapped ∈ openAIErrorTypes.
Proof.
  intros H. revert t mapped H.
  apply (map_Forall_to_list (fun _ mapped => mapped ∈ openAIErrorTypes) upstreamErrorTypes).
  apply (bool_decide_unpack _). vm_compute. exact I.
Qed.

(** ** Properties *)

(** Whatever a backend sends, the normalized error keeps the response's
    status, its type is one of the documented OpenAI types, and the only
    strings of the body that reach the client are the message, the type, the
    code and the parameter of a recognized error object; an unrecognized body
    yields the fixed upstream error. *)
Theorem normalized_error_classifiable status body e recognized :
  NormalizeUpstreamError status body = (e, recognized) ->
  Status e = status /\ err_Type e ∈ openAIErrorTypes /\ Message e <> ""
  /\ (recognized = false -> e = WithStatus ErrUpstream status)
  /\ (recognized = true -> exists parsed fields,
        unmarshal body = Some parsed /\ (fields = parsed \/ get "error" parsed = JObj fields)
        /\ Message e = get_string "message" fields /\ Code e = get_string "code" fields
        /\ Param e = get_string "param" fields /\ err_RetryAfter e = "").
Proof.
  unfold NormalizeUpstreamError. intros H.
  assert (forall e, (WithStatus ErrUpstream status, false) = (e, recognized) ->
    Status e = status /\ err_Type e ∈ openAIErrorTypes /\ Message e <> ""
    /\ recognized = false /\ e = WithStatus ErrUpstream status) as Hun.
  { intros e' [= <- <-]. split_and!; try done. apply (bool_decide_unpack _). vm_compute. exact I. }
  destruct (unmarshal body) as [parsed|]; [|destruct (Hun _ H) as (? & ? & ? & -> & ?); by split_and!].
  destruct (match get "error" parsed with JObj inner => Some inner | _ => _ end) as [fields|] eqn:Ef;
    [|destruct (Hun _ H) as (? & ? & ? & -> & ?); by split_and!].
  destruct (String.eqb_spec (get_string "message" fields) "") as [|Hne];
    [destruct (Hun _ H) as (? & ? & ? & -> & ?); by split_and!|].
  injection H as <- <-. cbn [Status err_Type Message Code Param err_RetryAfter]. split_and!; try done.
  - destruct (upstreamErrorTypes !! _) eqn:Eu; [by eapply upstreamErrorTypes_known|].
    case_bool_decide; [done|apply errTypeForStatus_known].
  - intros _. exists parsed, fields. split_and!; try done.
    destruct (get "error" parsed); repeat case_in Ef; simplify_eq; auto.
Qed.

End Upstream.

Lemma normalized_error_classifiable_witness :
  err_Type (NormalizeUpstreamError (fun _ => Some {["object" := JStr "error"; "message" := JStr "boom"; "type" := JStr "RateLimitError"]})
    500 []).1 ∈ openAIErrorTypes.
Proof.
  apply (normalized_error_classifiable
    (fun _ => Some {["object" := JStr "error"; "message" := JStr "boom"; "type" := JStr "RateLimitError"]}) 500 []
    _ true). vm_compute. reflexivity.
Defined.
