(* ===== verification/RouteContext.v ===== *)
(** * Admission contexts from the control plane
    ([route_context.go], [route_context_cache.go], [max_output_tokens.go],
    [completion_count.go])

    The byte-bounded LRU cache of admission verdicts, the lookup that applies
    them and starts background refreshes, the reading of a control-plane
    response, and the body fields the verdict and the limit headers own.

    Parameters: the JSON decoders and [http.ParseTime].  What the HTTP client
    returned is an argument of [fetch].  Metrics and logs are left out.
    [Metadata]'s fetch and its slot are here; the group of callers that share one
    fetch is in [MetadataGroup]. *)

From S2P Require Import Prelude Sha256 Strconv Json Errors CacheSalt.
#[local] Open Scope string_scope.
#[local] Open Scope list_scope.
#[local] Open Scope Z_scope.

(** ** Data *)

Record routeQuota := MkQuota { Limit : option Z; Used : option Z }.

Record routeRateLimit := MkRateLimit {
  Decision : string;
  Reason : string;
  RetryAfterSeconds : option Z;
  Requests : option routeQuota;
  Tokens : option routeQuota;
  observedAt : Z
}.

Record routeContext := MkContext {
  Priority : option Z;
  OrgID : string;
  RateLimit : option routeRateLimit;
  unavailable : bool;
  refreshedAt : Z
}.

Record routeContextError := MkCtxError { apiError : APIError; retryAfter : string }.

Definition emptyContext : routeContext := MkContext None "" None false time_zero.
Definition unavailableContext : routeContext := MkContext None "" None true time_zero.

Definition set_rate (c : routeContext) (r : option routeRateLimit) : routeContext :=
  MkContext (Priority c) (OrgID c) r (unavailable c) (refreshedAt c).
Definition set_refreshed (c : routeContext) (t : Z) : routeContext :=
  MkContext (Priority c) (OrgID c) (RateLimit c) (unavailable c) t.

Definition decisionAllowed := "allowed".
Definition decisionDemote := "demote".
Definition decisionRejected := "rejected".
Definition rateReasonRequests := "requests".
Definition rateReasonTokens := "tokens".
Definition demotedPriority : Z := 1.
Definition routeContextMaxRefreshes : Z := 256.

(** ** The decision contract *)

Definition nonneg (o : option Z) : bool := match o with Some z => z >=? 0 | None => false end.

Definition quota_valid (q : option routeQuota) : bool :=
  match q with None => true | Some q => nonneg (Limit q) && nonneg (Used q) end.

Definition valid (r : option routeRateLimit) : bool :=
  match r with
  | None => false
  | Some r =>
      match RetryAfterSeconds r with
      | None => false
      | Some retry =>
          if (retry <? 0) || negb (quota_valid (Requests r)) || negb (quota_valid (Tokens r)) then false
          else if negb (String.eqb (Reason r) "") && negb (String.eqb (Reason r) rateReasonRequests)
                  && negb (String.eqb (Reason r) rateReasonTokens) then false
          else if String.eqb (Decision r) decisionAllowed then String.eqb (Reason r) ""
          else if String.eqb (Decision r) decisionDemote then String.eqb (Reason r) rateReasonRequests
          else if String.eqb (Decision r) decisionRejected then negb (String.eqb (Reason r) "") && (retry >? 0)
          else false
      end
  end.

(** ** The cache *)

Abbreviation routeContextCacheKey := (bytes * bytes)%type.

Definition routeContextKey (apiKey model : string) : routeContextCacheKey :=
  (sha256 (to_bytes apiKey), sha256 (to_bytes model)).

Record routeContextCacheEntry := MkCacheEntry {
  ce_key : routeContextCacheKey;
  resolved : routeContext;
  ce_err : option routeContextError;
  sequence : Z;
  ce_bytes : Z
}.

(** [lru] is the list of element values, front first; an element is found by
    its entry's key. *)
Record routeContextCache := MkCache {
  entries : gmap routeContextCacheKey routeContextCacheEntry;
  lru : list routeContextCacheEntry;
  bytes_ : Z;
  maxBytes : Z;
  evictedSequence : Z
}.

Definition routeContextCacheMaxBytes : Z := 50 * 2 ^ 20.
Definition routeContextCacheEntryOverhead : Z := 1024.
Definition routeContextCacheStringOverhead : Z := 2.

Definition newCache : routeContextCache := MkCache ∅ [] 0 routeContextCacheMaxBytes 0.

Definition drop_key (k : routeContextCacheKey) (l : list routeContextCacheEntry) : list routeContextCacheEntry :=
  filter (fun e => ce_key e <> k) l.

(** A cached rejection counts down; [None] is the nil dereference of a
    rejection without a delay. *)
Definition age_decision (now : Z) (c : routeContext) : option routeContext :=
  match RateLimit c with
  | None => Some c
  | Some d =>
      if String.eqb (Decision d) decisionRejected then
        retry ← RetryAfterSeconds d;
        let remaining := wrap64 (retry - Z.quot (time_sub now (observedAt d)) Second) in
        Some (if remaining <=? 0 then set_rate c None
              else set_rate c (Some (MkRateLimit (Decision d) (Reason d) (Some remaining) (Requests d) (Tokens d) (observedAt d))))
      else Some c
  end.

Definition cache_get (now : Z) (c : routeContextCache) (key : routeContextCacheKey)
  : option (routeContextCache * (routeContext * option routeContextError)) :=
  match entries c !! key with
  | None => Some (c, (emptyContext, None))
  | Some e =>
      let c' := MkCache (entries c) (e :: drop_key key (lru c)) (bytes_ c) (maxBytes c) (evictedSequence c) in
      aged ← age_decision now (resolved e);
      Some (c', (aged, ce_err e))
  end.

Definition entry_size (r : routeContext) (err : option routeContextError) : Z :=
  let size := strlen (OrgID r) in
  let size := match RateLimit r with Some d => size + strlen (Decision d) + strlen (Reason d) | None => size end in
  let size := match err with
              | Some e => size + strlen (retryAfter e) + strlen (err_Type (apiError e)) + strlen (Code (apiError e))
                          + strlen (Param (apiError e)) + strlen (Message (apiError e))
              | None => size
              end in
  routeContextCacheEntryOverhead + routeContextCacheStringOverhead * size.

(** The eviction loop; [None] is the panic on an empty list, and the fuel is
    one more than the list's length. *)
Fixpoint make_room (fuel : nat) (c : routeContextCache) (size : Z) : option routeContextCache :=
  match fuel with
  | O => None
  | S fuel =>
      if bytes_ c + size >? maxBytes c then
        oldest ← last (lru c);
        make_room fuel
          (MkCache (delete (ce_key oldest) (entries c)) (drop_key (ce_key oldest) (lru c)) (bytes_ c - ce_bytes oldest)
             (maxBytes c) (Z.max (evictedSequence c) (sequence oldest))) size
      else Some c
  end.

(** The end of [put]: make room, then insert at the front. *)
Definition store (c : routeContextCache) (key : routeContextCacheKey) (r : routeContext) (err : option routeContextError) (seq : Z)
  : option routeContextCache :=
  c ← make_room (S (length (lru c))) c (entry_size r err);
  let e := MkCacheEntry key r err seq (entry_size r err) in
  Some (MkCache (<[key := e]> (entries c)) (e :: lru c) (bytes_ c + entry_size r err) (maxBytes c) (evictedSequence c)).

Definition cache_put (c : routeContextCache) (key : routeContextCacheKey) (r : routeContext) (err : option routeContextError)
    (seq : Z) : option routeContextCache :=
  if entry_size r err >? maxBytes c then Some c
  else
    match entries c !! key with
    | Some e =>
        if seq <? sequence e then Some c
        else store (MkCache (delete key (entries c)) (drop_key key (lru c)) (bytes_ c - ce_bytes e) (maxBytes c) (evictedSequence c))
               key r err seq
    | None => if seq <=? evictedSequence c then Some c else store c key r err seq
    end.

(** ** Verdicts *)

Definition applyRateDecision (decision : routeRateLimit) : option (option routeContextError) :=
  if negb (String.eqb (Decision decision) decisionRejected) then Some None
  else
    retry ← RetryAfterSeconds decision;
    let message := if String.eqb (Reason decision) rateReasonTokens then ErrMsgTokenRateLimited retry else ErrMsgRateLimited retry in
    Some (Some (MkCtxError (WithMessage ErrRateLimited message) (FormatInt retry))).

Definition skipsQueue (r : routeContext) : bool := match Priority r with Some _ => true | None => false end.

Definition priorityPaths : list string := ["/v1/chat/completions"; "/v1/completions"; "/v1/responses"].

(** A nil body stays nil. *)
Definition applyPriority (r : routeContext) (body : option object) (path : string) : option object :=
  body ← body;
  let body := delete "priority" body in
  if negb (bool_decide (path ∈ priorityPaths)) then Some body
  else
    match Priority r with
    | Some p => Some (<["priority" := JInt p]> body)
    | None =>
        match RateLimit r with
        | Some d => if String.eqb (Decision d) decisionDemote then Some (<["priority" := JInt demotedPriority]> body) else Some body
        | None => Some body
        end
    end.

(** ** Limit headers *)

Definition MaxOutputTokensRequestHeader := "X-Tinfoil-Max-Output-Tokens".
Definition CompletionCountRequestHeader := "X-Tinfoil-Completion-Count".

Definition maxOutputTokensFields (path : string) : option (list string) :=
  if String.eqb path "/v1/chat/completions" then Some ["max_completion_tokens"; "max_tokens"]
  else if String.eqb path "/v1/completions" then Some ["max_tokens"]
  else if String.eqb path "/v1/responses" then Some ["max_output_tokens"]
  else None.

(** [None] is [ok = false]; an absent header is [Some 0]. *)
Definition positiveIntHeader (h : Header) (name : string) : option Z :=
  match Values h name with
  | [] => Some 0
  | [v] => n ← ParseInt (TrimSpaceBytes (to_bytes v)); if n <? 1 then None else Some n
  | _ => None
  end.

Definition applyMaxOutputTokensHeader (h : Header) (path : string) (body : object) : object * option APIError :=
  match maxOutputTokensFields path with
  | None => (body, None)
  | Some fields =>
      match positiveIntHeader h MaxOutputTokensRequestHeader with
      | None => (body, Some (WithMessage ErrInvalidRequest ErrMsgInvalidMaxTokensHeader))
      | Some limit =>
          if limit =? 0 then (body, None)
          else
            let body := foldl (fun body f => delete f body) body fields in
            match fields with
            | f0 :: _ => (<[f0 := JInt limit]> body, None)
            | [] => (body, None)
            end
      end
  end.

Definition applyCompletionCountHeader (h : Header) (path : string) (body : object) : object * option APIError :=
  if negb (String.eqb path "/v1/chat/completions") then (body, None)
  else
    match positiveIntHeader h CompletionCountRequestHeader with
    | None => (body, Some (WithMessage ErrInvalidRequest ErrMsgInvalidCompletionCountHeader))
    | Some count => if count =? 0 then (body, None) else (<["n" := JInt count]> body, None)
    end.

(** ** The client *)

Section Client.
(** [json.Unmarshal] into a map, into a one-string-field struct, and into a
    [routeContext] (whose untagged fields stay zero). *)
Context (unmarshal : bytes -> option object) (unmarshal_field : string -> bytes -> option string)
  (unmarshal_context : bytes -> option routeContext) (ParseTime : string -> bool).

(** What [client.Do] and reading the body gave: a transport error, or a status
    with headers and, unless reading failed or ran over the limit, the data. *)
Inductive transport :=
  | TransportError
  | Response (status : Z) (header : Header) (data : option bytes).

Definition StatusText (status : Z) : string :=
  if status =? 401 then "Unauthorized"
  else if status =? 403 then "Forbidden"
  else if status =? 402 then "Payment Required"
  else "Too Many Requests".

Definition is_denial (status : Z) : bool := (status =? 401) || (status =? 403) || (status =? 402) || (status =? 429).

Definition credentialDenial (status : Z) (header : Header) (data : option bytes) : option routeContextError :=
  if negb (is_denial status) then None
  else
    let quota := status =? 429 in
    let base := if quota then WithMessage ErrRateLimited (StatusText status)
                else WithMessage (WithStatus ErrInvalidRequest status) (StatusText status) in
    let apiErr :=
      match data with
      | None => base
      | Some data =>
          match NormalizeUpstreamError unmarshal status data with
          | (normalized, true) => normalized
          | (_, false) =>
              if quota then base
              else match unmarshal_field "error" data with
                   | Some e => if String.eqb e "" then base else WithMessage base e
                   | None => base
                   end
          end
      end in
    Some (MkCtxError apiErr (if quota then RetryAfterFromHeader ParseTime header else "")).

(** [configured] is false for a nil or incomplete client. *)
Definition fetch (configured : bool) (apiKey model : string) (startedAt : Z) (tr : transport)
  : routeContext * option routeContextError :=
  if negb (String.eqb (jwtSubject unmarshal_field apiKey) "") then (emptyContext, None)
  else if String.eqb apiKey "" then (emptyContext, Some (MkCtxError ErrMissingAPIKey ""))
  else if negb configured then (unavailableContext, None)
  else
    match tr with
    | TransportError => (unavailableContext, None)
    | Response status header data =>
        match credentialDenial status header data with
        | Some denial => (emptyContext, Some denial)
        | None =>
            if negb (status =? 200) then (unavailableContext, None)
            else
              match data ≫= unmarshal_context with
              | None => (unavailableContext, None)
              | Some resolved =>
                  if negb (String.eqb model "") && negb (valid (RateLimit resolved)) then (unavailableContext, None)
                  else if negb (String.eqb model "") then
                    (match RateLimit resolved with
                     | Some d => set_rate resolved (Some (MkRateLimit (Decision d) (Reason d) (RetryAfterSeconds d)
                                                            (Requests d) (Tokens d) startedAt))
                     | None => resolved
                     end, None)
                  else (resolved, None)
              end
        end
    end.

(** A background refresh, or the fetch of [Metadata] over what was cached, holds
    a slot from its start until its last store. *)
Inductive refreshing :=
  | Fetching (apiKey model : string) (seq : Z)
  | StoringMetadata (apiKey : string) (r : routeContext) (seq : Z)
  | LoadingMetadata (apiKey : string) (previous : routeContext) (seq : Z).

Record client := MkClient {
  cache : routeContextCache;
  inflight : list refreshing;
  seqno : Z
}.

Definition newClient : client := MkClient newCache [] 0.

Definition refresh (c : client) (apiKey model : string) : client :=
  if Z.of_nat (length (inflight c)) <? routeContextMaxRefreshes then
    let seq := wrap_u64 (seqno c + 1) in
    MkClient (cache c) (Fetching apiKey model seq :: inflight c) seq
  else c.

(** [None] is a panic. *)
Definition Lookup (now : Z) (c : client) (apiKey model : string) : option (client * (routeContext * option routeContextError)) :=
  if String.eqb apiKey "" then Some (c, (emptyContext, Some (MkCtxError ErrMissingAPIKey "")))
  else if String.eqb model "" then
    Some (c, (emptyContext, Some (MkCtxError (WithMessage (WithParam ErrInvalidRequest "model") (ErrMsgMissingParam "model")) "")))
  else if negb (String.eqb (jwtSubject unmarshal_field apiKey) "") then Some (c, (emptyContext, None))
  else
    '(cache', (resolved, err)) ← cache_get now (cache c) (routeContextKey apiKey model);
    let c := refresh (MkClient cache' (inflight c) (seqno c)) apiKey model in
    match err with
    | Some err => Some (c, (emptyContext, Some err))
    | None =>
        match RateLimit resolved with
        | None => Some (c, (resolved, None))
        | Some d => verdict ← applyRateDecision d; Some (c, (resolved, verdict))
        end
    end.

(** ** Metadata *)

Definition routeMetadataRefreshTTL : Z := Minute.

Definition fresh_metadata (now : Z) (r : routeContext) : bool := time_sub now (refreshedAt r) <? routeMetadataRefreshTTL.

(** The shared call of [Metadata] starts: it is answered by the cache or for want
    of a slot, or takes one. *)
Definition begin_metadata (now : Z) (c : client) (apiKey : string) : option (client * option routeContext) :=
  '(cache', (resolved, _)) ← cache_get now (cache c) (routeContextKey apiKey "");
  if fresh_metadata now resolved then Some (MkClient cache' (inflight c) (seqno c), Some resolved)
  else if Z.of_nat (length (inflight c)) <? routeContextMaxRefreshes then
    let seq := wrap_u64 (seqno c + 1) in
    Some (MkClient cache' (LoadingMetadata apiKey resolved seq :: inflight c) seq, None)
  else Some (MkClient cache' (inflight c) (seqno c), Some unavailableContext).

(** Its fetch: the answer, and what is stored. *)
Definition load_metadata (apiKey : string) (previous : routeContext) (startedAt now : Z) (tr : transport)
  : (routeContextError + routeContext) * option routeContext :=
  match fetch true apiKey "" startedAt tr with
  | (_, Some err) => (inl err, Some emptyContext)
  | (fetched, None) =>
      let resolved := if unavailable fetched && negb (IsZero (refreshedAt previous)) then previous else fetched in
      if unavailable resolved then (inr resolved, None)
      else let resolved := set_rate (set_refreshed resolved now) None in (inr resolved, Some resolved)
  end.

(** The goroutine of refresh [i] makes its next step: the fetch with its first
    store, or the metadata store. Other requests run in between. *)
Definition refresh_step (i : nat) (startedAt now : Z) (tr : transport) (c : client) : option client :=
  job ← inflight c !! i;
  let rest := take i (inflight c) ++ drop (S i) (inflight c) in
  match job with
  | Fetching apiKey model seq =>
      let '(r, err) := fetch true apiKey model startedAt tr in
      match err, RateLimit r with
      | None, None => Some (MkClient (cache c) rest (seqno c))
      | _, _ =>
          let r := set_refreshed r now in
          cache' ← cache_put (cache c) (routeContextKey apiKey model) r err seq;
          match err with
          | Some _ => Some (MkClient cache' rest (seqno c))
          | None => Some (MkClient cache' (StoringMetadata apiKey (set_rate r None) seq :: rest) (seqno c))
          end
      end
  | StoringMetadata apiKey r seq =>
      cache' ← cache_put (cache c) (routeContextKey apiKey "") r None seq;
      Some (MkClient cache' rest (seqno c))
  | LoadingMetadata apiKey previous seq =>
      match (load_metadata apiKey previous startedAt now tr).2 with
      | None => Some (MkClient (cache c) rest (seqno c))
      | Some r => cache' ← cache_put (cache c) (routeContextKey apiKey "") r None seq; Some (MkClient cache' rest (seqno c))
      end
  end.

(** A read of the cache moves the entry to the front. *)
Definition read_cache (now : Z) (c : client) (key : routeContextCacheKey) : option (client * (routeContext * option routeContextError)) :=
  '(cache', res) ← cache_get now (cache c) key; Some (MkClient cache' (inflight c) (seqno c), res).

Inductive step : client -> client -> Prop :=
  | step_lookup now c apiKey model c' res : Lookup now c apiKey model = Some (c', res) -> step c c'
  | step_read now c key c' res : read_cache now c key = Some (c', res) -> step c c'
  | step_metadata now c apiKey c' res : begin_metadata now c apiKey = Some (c', res) -> step c c'
  | step_refresh i startedAt now tr c c' : refresh_step i startedAt now tr c = Some c' -> step c c'.

Definition admission : Machine client := {| initial c := c = newClient; transition := step |}.

End Client.

(** ** Cache invariant *)

Record cache_ok (c : routeContextCache) : Prop := {
  ok_nodup : NoDup (map ce_key (lru c));
  ok_map : forall k e, entries c !! k = Some e <-> e ∈ lru c /\ ce_key e = k;
  ok_bytes : bytes_ c = sum_by ce_bytes (lru c);
  ok_bound : bytes_ c <= maxBytes c;
  ok_size : forall e, e ∈ lru c -> routeContextCacheEntryOverhead <= ce_bytes e;
  ok_valid : forall e d, e ∈ lru c -> RateLimit (resolved e) = Some d -> valid (Some d) = true
}.

Lemma cache_perm c k e : cache_ok c -> entries c !! k = Some e -> e :: drop_key k (lru c) ≡ₚ lru c.
Proof.
  intros Hok [Hin <-]%ok_map; [|done]. apply (NoDup_key_perm ce_key); [apply Hok|done].
Qed.

Lemma cache_ok_detach c k e ev :
  cache_ok c -> entries c !! k = Some e ->
  cache_ok (MkCache (delete k (entries c)) (drop_key k (lru c)) (bytes_ c - ce_bytes e) (maxBytes c) ev).
Proof.
  intros Hok Hk. pose proof (cache_perm _ _ _ Hok Hk) as Hp. destruct Hok as [Hn Hm Hb Hbd Hs Hv].
  assert (Hsub : forall x, x ∈ drop_key k (lru c) <-> ce_key x <> k /\ x ∈ lru c) by (intros; unfold drop_key; by rewrite list_elem_of_filter).
  pose proof (Hs e ltac:(by apply (Hm k e))) as Hpos. unfold routeContextCacheEntryOverhead in *. split; simpl.
  - eapply sublist_NoDup; [exact Hn|]. apply (fmap_sublist ce_key), sublist_filter.
  - intros k' e'. rewrite Hsub. destruct (decide (k = k')) as [<-|Hne].
    + rewrite lookup_delete_eq. split; [done|]. by intros [[? ?] ?].
    + rewrite lookup_delete_ne, Hm by done. naive_solver.
  - pose proof (sum_by_Permutation ce_bytes _ _ Hp) as Hsum. simpl in Hsum. lia.
  - lia.
  - intros x [_ Hx]%Hsub. by apply Hs.
  - intros x d [_ Hx]%Hsub. by apply Hv.
Qed.

Lemma cache_ok_attach c e :
  cache_ok c -> entries c !! ce_key e = None -> bytes_ c + ce_bytes e <= maxBytes c ->
  routeContextCacheEntryOverhead <= ce_bytes e ->
  (forall d, RateLimit (resolved e) = Some d -> valid (Some d) = true) ->
  cache_ok (MkCache (<[ce_key e := e]> (entries c)) (e :: lru c) (bytes_ c + ce_bytes e) (maxBytes c) (evictedSequence c)).
Proof.
  intros [Hn Hm Hb Hbd Hs Hv] Hnone Hfit Hsize Hval.
  assert (Hfresh : forall x, x ∈ lru c -> ce_key x <> ce_key e).
  { intros x Hx Heq. assert (entries c !! ce_key e = Some x) by (by apply Hm). congruence. }
  split; simpl.
  - constructor; [|done]. intros (x & Heq & Hx)%list_elem_of_fmap. by apply (Hfresh x Hx).
  - intros k x. rewrite elem_of_cons. destruct (decide (ce_key e = k)) as [<-|Hne].
    + rewrite lookup_insert_eq. split; [intros [= <-]; auto|]. intros [[->|Hx] Heq]; [done|]. by apply Hfresh in Hx.
    + rewrite lookup_insert_ne, Hm by done. naive_solver.
  - lia.
  - done.
  - intros x [->|Hx]%elem_of_cons; auto.
  - intros x d [->|Hx]%elem_of_cons; eauto.
Qed.

(** [c'] keeps a subset of the entries of [c], and what left it is covered by
    the sequence watermark. *)
Record evicted (c c' : routeContextCache) : Prop := {
  ev_sub : entries c' ⊆ entries c;
  ev_mark : evictedSequence c <= evictedSequence c';
  ev_gone : forall k e, entries c !! k = Some e -> entries c' !! k = None -> sequence e <= evictedSequence c';
  ev_max : maxBytes c' = maxBytes c
}.

Lemma make_room_ok fuel : forall c size,
  cache_ok c -> size <= maxBytes c -> (length (lru c) < fuel)%nat ->
  exists c', make_room fuel c size = Some c' /\ cache_ok c' /\ bytes_ c' + size <= maxBytes c /\ evicted c c'.
Proof.
  induction fuel as [|fuel IH]; intros c size Hok Hsize Hf; [lia|]. cbn [make_room].
  destruct (bytes_ c + size >? maxBytes c) eqn:E; bool_simp.
  2:{ exists c. split_and!; [done|done|lia|]. split; [done|done|congruence|done]. }
  destruct (last (lru c)) as [oldest|] eqn:El.
  2:{ apply last_None in El. rewrite (ok_bytes _ Hok), El in E. simpl in E. lia. }
  cbn [mbind option_bind]. assert (entries c !! ce_key oldest = Some oldest) as Hk.
  { apply (ok_map _ Hok). split; [by apply last_Some_elem_of|done]. }
  set (c1 := MkCache _ _ _ _ _).
  destruct (IH c1 size) as (c' & -> & Hok' & Hfit & [Hsub Hmark Hgone Hmax]).
  - by apply cache_ok_detach.
  - done.
  - pose proof (Permutation_length (cache_perm _ _ _ Hok Hk)) as Hl. simpl in *. lia.
  - exists c'. split_and!; [done|done|done|]. simpl in *. split; [etrans; [exact Hsub|apply delete_subseteq]|lia| |done].
    intros k e Hke Hnone. destruct (decide (k = ce_key oldest)) as [->|Hne].
    + rewrite Hk in Hke. simplify_eq. lia.
    + eapply Hgone; [|done]. by rewrite lookup_delete_ne.
Qed.

(** A result of sequence at least [q] is stored for [k], or every result stored
    for [k] from now on will be newer than [q]. *)
Definition fresh_for (k : routeContextCacheKey) (q : Z) (c : routeContextCache) : Prop :=
  match entries c !! k with Some e => q <= sequence e | None => q <= evictedSequence c end.

Lemma strlen_nonneg s : 0 <= strlen s.
Proof. unfold strlen. lia. Qed.

Lemma entry_size_overhead r err : routeContextCacheEntryOverhead <= entry_size r err.
Proof.
  unfold entry_size, routeContextCacheStringOverhead. pose proof (strlen_nonneg (OrgID r)).
  destruct (RateLimit r) as [d|]; [pose proof (strlen_nonneg (Decision d)); pose proof (strlen_nonneg (Reason d))|];
    (destruct err as [e|]; [|lia]);
    pose proof (strlen_nonneg (retryAfter e)); pose proof (strlen_nonneg (err_Type (apiError e)));
    pose proof (strlen_nonneg (Code (apiError e))); pose proof (strlen_nonneg (Param (apiError e)));
    pose proof (strlen_nonneg (Message (apiError e))); lia.
Qed.

Lemma store_ok c key r err seq :
  cache_ok c -> entries c !! key = None -> entry_size r err <= maxBytes c ->
  (forall d, RateLimit r = Some d -> valid (Some d) = true) ->
  exists c', store c key r err seq = Some c' /\ cache_ok c' /\ maxBytes c' = maxBytes c
    /\ (forall e, entries c' !! key = Some e -> sequence e = seq) /\ is_Some (entries c' !! key)
    /\ forall k q, k <> key -> fresh_for k q c -> fresh_for k q c'.
Proof.
  intros Hok Hnone Hsize Hval. unfold store.
  destruct (make_room_ok (S (length (lru c))) c (entry_size r err) Hok Hsize ltac:(lia)) as (c1 & -> & Hok1 & Hfit & [Hsub Hmark Hgone Hmax]).
  cbn [mbind option_bind]. set (e := MkCacheEntry key r err seq (entry_size r err)).
  exists (MkCache (<[key := e]> (entries c1)) (e :: lru c1) (bytes_ c1 + entry_size r err) (maxBytes c1) (evictedSequence c1)).
  assert (entries c1 !! key = None) as Hnone1.
  { destruct (entries c1 !! key) eqn:E; [|done]. eapply lookup_weaken in E; [|exact Hsub]. congruence. }
  split_and!; simpl; [done| |done| | |].
  - apply (cache_ok_attach c1 e Hok1); simpl; [done|lia|apply entry_size_overhead|exact Hval].
  - intros e'. rewrite lookup_insert_eq. by intros [= <-].
  - rewrite lookup_insert_eq. by eexists.
  - intros k q Hne. unfold fresh_for. simpl. rewrite lookup_insert_ne by done.
    destruct (entries c !! k) as [e0|] eqn:E0, (entries c1 !! k) as [e1|] eqn:E1; intros Hq.
    + eapply lookup_weaken in E1; [|exact Hsub]. simplify_eq. congruence.
    + specialize (Hgone _ _ E0 E1). lia.
    + eapply lookup_weaken in E1; [|exact Hsub]. congruence.
    + lia.
Qed.

Lemma cache_put_ok c key r err seq :
  cache_ok c -> (forall d, RateLimit r = Some d -> valid (Some d) = true) ->
  exists c', cache_put c key r err seq = Some c' /\ cache_ok c' /\ maxBytes c' = maxBytes c
    /\ forall k q, fresh_for k q c -> fresh_for k q c'.
Proof.
  intros Hok Hval. unfold cache_put.
  destruct (entry_size r err >? maxBytes c) eqn:Es; bool_simp; [by exists c|].
  destruct (entries c !! key) as [e|] eqn:Hk.
  - destruct (seq <? sequence e) eqn:Eq; bool_simp; [by exists c|].
    set (c1 := MkCache _ _ _ _ _).
    destruct (store_ok c1 key r err seq) as (c' & -> & Hok' & Hmax & Hseq & [e' He'] & Hfresh); auto.
    { by apply cache_ok_detach. }
    { simpl. by rewrite lookup_delete_eq. }
    exists c'. split_and!; [done|done|done|]. intros k q Hq. destruct (decide (k = key)) as [->|Hne].
    + unfold fresh_for in *. rewrite Hk in Hq. rewrite He'. rewrite (Hseq _ He'). lia.
    + apply Hfresh; [done|]. unfold fresh_for in *. simpl. by rewrite lookup_delete_ne.
  - destruct (seq <=? evictedSequence c) eqn:Eq; bool_simp; [by exists c|].
    destruct (store_ok c key r err seq) as (c' & -> & Hok' & Hmax & Hseq & [e' He'] & Hfresh); auto.
    exists c'. split_and!; [done|done|done|]. intros k q Hq. destruct (decide (k = key)) as [->|Hne]; [|by apply Hfresh].
    unfold fresh_for in *. rewrite Hk in Hq. rewrite He'. rewrite (Hseq _ He'). lia.
Qed.

Lemma valid_retry d : valid (Some d) = true -> exists retry, RetryAfterSeconds d = Some retry /\ 0 <= retry.
Proof. simpl. destruct (RetryAfterSeconds d) as [retry|]; [|done]. intros H. exists retry. split; [done|]. repeat case_in H; lia. Qed.

Lemma cache_get_ok now c key :
  cache_ok c ->
  exists c' r err, cache_get now c key = Some (c', (r, err)) /\ cache_ok c' /\ maxBytes c' = maxBytes c
    /\ entries c' = entries c /\ evictedSequence c' = evictedSequence c.
Proof.
  intros Hok. unfold cache_get. destruct (entries c !! key) as [e|] eqn:Hk; [|by eexists _, _, _].
  pose proof (cache_perm _ _ _ Hok Hk) as Hp. destruct (proj1 (ok_map _ Hok _ _) Hk) as [Hin Hkey].
  assert (is_Some (age_decision now (resolved e))) as [r ->].
  { unfold age_decision. destruct (RateLimit (resolved e)) as [d|] eqn:Hd; [|by eexists].
    destruct (valid_retry d) as (retry & -> & _); [by eapply ok_valid|].
    destruct (String.eqb _ _); by eexists. }
  eexists _, r, (ce_err e). split; [done|]. split; [|done]. destruct Hok as [Hn Hm Hb Hbd Hs Hv]. split; simpl.
  - change (NoDup (ce_key <$> e :: drop_key key (lru c))). by rewrite Hp.
  - intros k x. rewrite Hm. by rewrite Hp.
  - pose proof (sum_by_Permutation ce_bytes _ _ Hp) as Hsum. simpl in Hsum. lia.
  - done.
  - intros x. rewrite Hp. apply Hs.
  - intros x d. rewrite Hp. apply Hv.
Qed.

(** ** Client invariant *)

Section ClientInv.
Context (unmarshal : bytes -> option object) (unmarshal_field : string -> bytes -> option string)
  (unmarshal_context : bytes -> option routeContext) (ParseTime : string -> bool).
Notation fetch := (fetch unmarshal unmarshal_field unmarshal_context ParseTime).
Notation Lookup := (Lookup unmarshal_field).
Notation load_metadata := (load_metadata unmarshal unmarshal_field unmarshal_context ParseTime).
Notation refresh_step := (refresh_step unmarshal unmarshal_field unmarshal_context ParseTime).
Notation step := (step unmarshal unmarshal_field unmarshal_context ParseTime).
Notation admission := (admission unmarshal unmarshal_field unmarshal_context ParseTime).

Definition job_ok (j : refreshing) : Prop :=
  match j with Fetching _ model _ => model <> "" | StoringMetadata _ r _ => RateLimit r = None | LoadingMetadata _ _ _ => True end.

Record client_ok (c : client) : Prop := {
  co_cache : cache_ok (cache c);
  co_slots : Z.of_nat (length (inflight c)) <= routeContextMaxRefreshes;
  co_jobs : Forall job_ok (inflight c);
  co_max : maxBytes (cache c) = routeContextCacheMaxBytes
}.

(** Only a valid decision is ever read for a model. *)
Lemma fetch_valid apiKey model startedAt tr r err d :
  model <> "" -> fetch true apiKey model startedAt tr = (r, err) -> RateLimit r = Some d -> valid (Some d) = true.
Proof.
  intros Hm%String.eqb_neq Hf Hd. unfold RouteContext.fetch in Hf. rewrite Hm in Hf.
  destruct (negb _); [by simplify_eq|]. destruct (String.eqb apiKey ""); [by simplify_eq|]. cbn [negb] in Hf.
  destruct tr as [|status header data]; [by simplify_eq|].
  destruct (credentialDenial _ _ _ _ _ _); [by simplify_eq|]. destruct (negb (status =? 200)); [by simplify_eq|].
  destruct (data ≫= unmarshal_context) as [ctx|]; [|by simplify_eq]. cbn [andb negb] in Hf.
  destruct (valid (RateLimit ctx)) eqn:Hv; cbn [negb] in Hf; [|by simplify_eq].
  destruct (RateLimit ctx) as [d0|] eqn:Hd0; [|done]. injection Hf as <- <-. simpl in Hd. injection Hd as <-. exact Hv.
Qed.

Lemma inflight_remove i (l : list refreshing) j :
  l !! i = Some j -> Forall job_ok l ->
  length (take i l ++ drop (S i) l) = pred (length l) /\ Forall job_ok (take i l ++ drop (S i) l) /\ (0 < length l)%nat.
Proof.
  intros Hi Hall. pose proof (lookup_lt_Some _ _ _ Hi). split_and!; [| |lia].
  - rewrite length_app, length_take, length_drop. lia.
  - apply Forall_app. split; [by apply Forall_take|by apply Forall_drop].
Qed.

Lemma Lookup_ok now c apiKey model :
  client_ok c ->
  exists c' res, Lookup now c apiKey model = Some (c', res) /\ client_ok c'
    /\ forall k q, fresh_for k q (cache c) -> fresh_for k q (cache c').
Proof.
  intros [Hc Hs Hj Hm]. unfold RouteContext.Lookup. destruct (String.eqb apiKey ""); [by eexists _, _|].
  destruct (String.eqb_spec model "") as [|Hne]; [by eexists _, _|]. destruct (negb _); [by eexists _, _|].
  destruct (cache_get_ok now (cache c) (routeContextKey apiKey model) Hc) as (c1 & r & err & Hget & Hc1 & Hm1 & He1 & Hev1).
  rewrite Hget. cbn [mbind option_bind].
  assert (client_ok (refresh (MkClient c1 (inflight c) (seqno c)) apiKey model)) as Hok.
  { unfold refresh. simpl. destruct (_ <? routeContextMaxRefreshes) eqn:E; bool_simp; split; simpl; try done; try congruence;
      [|by constructor]. unfold routeContextMaxRefreshes in *. lia. }
  assert (cache (refresh (MkClient c1 (inflight c) (seqno c)) apiKey model) = c1) as Hcache.
  { unfold refresh. by case_step. }
  assert (forall k q, fresh_for k q (cache c) -> fresh_for k q c1) as Hfresh.
  { intros k q. unfold fresh_for. by rewrite He1, Hev1. }
  destruct err; [by eexists _, _; rewrite Hcache|].
  destruct (RateLimit r) as [d|] eqn:Hd; [|by eexists _, _; rewrite Hcache].
  assert (is_Some (applyRateDecision d)) as [v ->]; [|by eexists _, _; rewrite Hcache].
  unfold applyRateDecision. destruct (negb _); [by eexists|].
  unfold cache_get in Hget. destruct (entries (cache c) !! _) as [e|] eqn:Hk; [|by simplify_eq].
  destruct (proj1 (ok_map _ Hc _ _) Hk) as [Hin _]. unfold age_decision in Hget.
  destruct (RateLimit (resolved e)) as [d0|] eqn:Hd0; [|by simplify_eq/=].
  destruct (valid_retry d0 (ok_valid _ Hc _ _ Hin Hd0)) as (retry & Hr & _). rewrite Hr in Hget.
  destruct (String.eqb (Decision d0) _); cbn [mbind option_bind] in Hget.
  - destruct (_ <=? 0); simplify_eq/=. by eexists.
  - simplify_eq. rewrite Hr. by eexists.
Qed.

Lemma load_metadata_rate apiKey previous startedAt now tr r : (load_metadata apiKey previous startedAt now tr).2 = Some r -> RateLimit r = None.
Proof.
  unfold RouteContext.load_metadata. destruct (fetch _ _ _ _ _) as [fetched [err|]]; cbn; [by intros [= <-]|].
  destruct (unavailable (if _ : bool then _ else _)); cbn; [done|by intros [= <-]].
Qed.

Lemma read_cache_ok now c key : client_ok c -> exists c' res, read_cache now c key = Some (c', res) /\ client_ok c'
  /\ inflight c' = inflight c /\ entries (cache c') = entries (cache c) /\ forall k q, fresh_for k q (cache c) -> fresh_for k q (cache c').
Proof.
  intros [Hc Hs Hj Hm]. destruct (cache_get_ok now (cache c) key Hc) as (c1 & r & err & Hget & Hc1 & Hm1 & He1 & Hev1).
  unfold read_cache. rewrite Hget. eexists _, _. split; [done|]. split; [split; cbn; try done; congruence|]. split; [done|]. split; [done|].
  intros k q. unfold fresh_for. cbn. by rewrite He1, Hev1.
Qed.

Lemma begin_metadata_ok now c apiKey : client_ok c ->
  exists c' res, begin_metadata now c apiKey = Some (c', res) /\ client_ok c' /\ entries (cache c') = entries (cache c)
    /\ (forall k q, fresh_for k q (cache c) -> fresh_for k q (cache c'))
    /\ match res with Some _ => inflight c' = inflight c | None => exists previous, inflight c' = LoadingMetadata apiKey previous (seqno c') :: inflight c end.
Proof.
  intros [Hc Hs Hj Hm]. destruct (cache_get_ok now (cache c) (routeContextKey apiKey "") Hc) as (c1 & r & err & Hget & Hc1 & Hm1 & He1 & Hev1).
  unfold begin_metadata. rewrite Hget. cbn [mbind option_bind].
  assert (forall k q, fresh_for k q (cache c) -> fresh_for k q c1) as Hf by (intros k q; unfold fresh_for; by rewrite He1, Hev1).
  destruct (fresh_metadata now r); [|destruct (_ <? routeContextMaxRefreshes) eqn:E; bool_simp].
  1,3: eexists _, _; split; [done|]; split; [split; cbn; try done; congruence|done].
  eexists _, _. split; [done|]. split; [|split; [done|split; [done|by eexists]]].
  split; cbn; [done|unfold routeContextMaxRefreshes in *; lia|by constructor|congruence].
Qed.

(** A lookup adds at most a refresh of its own. *)
Lemma Lookup_inflight now c apiKey model c' res : Lookup now c apiKey model = Some (c', res) ->
  inflight c' = inflight c \/ exists seq, inflight c' = Fetching apiKey model seq :: inflight c.
Proof.
  unfold RouteContext.Lookup. destruct (String.eqb apiKey ""); [intros [= <- _]; by left|]. destruct (String.eqb model ""); [intros [= <- _]; by left|].
  destruct (negb _); [intros [= <- _]; by left|]. destruct (cache_get _ _ _) as [[c1 [r err]]|]; [|done]. cbn [mbind option_bind]. intros H.
  assert (c' = refresh (MkClient c1 (inflight c) (seqno c)) apiKey model) as ->.
  { destruct err; [by injection H|]. destruct (RateLimit r) as [d|]; [|by injection H]. destruct (applyRateDecision d); [|done]. by injection H. }
  unfold refresh. destruct (_ <? _); [right; by eexists|by left].
Qed.

(** A refresh gives its slot back, or keeps it for the store of the metadata. *)
Lemma refresh_step_inflight i startedAt now tr c c' : refresh_step i startedAt now tr c = Some c' ->
  let rest := take i (inflight c) ++ drop (S i) (inflight c) in
  inflight c' = rest \/ exists apiKey r seq, inflight c' = StoringMetadata apiKey r seq :: rest.
Proof.
  unfold RouteContext.refresh_step. destruct (inflight c !! i) as [j|]; [|done]. cbn [mbind option_bind]. destruct j.
  - destruct (fetch _ _ _ _ _) as [r err]. destruct err, (RateLimit r); try (intros [= <-]; by left);
      destruct (cache_put _ _ _ _ _); try done; intros [= <-]; [by left..|right; by eexists _, _, _].
  - destruct (cache_put _ _ _ _ _); [|done]. intros [= <-]. by left.
  - destruct (load_metadata _ _ _ _ _).2; [destruct (cache_put _ _ _ _ _); [|done]|]; intros [= <-]; by left.
Qed.

Lemma refresh_step_ok i startedAt now tr c :
  client_ok c -> (i < length (inflight c))%nat ->
  exists c', refresh_step i startedAt now tr c = Some c' /\ client_ok c'
    /\ forall k q, fresh_for k q (cache c) -> fresh_for k q (cache c').
Proof.
  intros [Hc Hs Hj Hm] [j Hi]%lookup_lt_is_Some. unfold RouteContext.refresh_step. rewrite Hi. cbn [mbind option_bind].
  destruct (inflight_remove _ _ _ Hi Hj) as (Hlen & Hall & Hpos). rewrite Forall_forall in Hj.
  specialize (Hj j ltac:(by eapply list_elem_of_lookup_2)).
  set (rest := take i (inflight c) ++ drop (S i) (inflight c)) in *. destruct j as [apiKey model seq|apiKey r seq|apiKey previous seq]; simpl in Hj.
  - destruct (fetch true apiKey model startedAt tr) as [r err] eqn:Hf.
    destruct (cache_put_ok (cache c) (routeContextKey apiKey model) (set_refreshed r now) err seq Hc) as (c1 & Hput & Hc1 & Hm1 & Hfr).
    { intros d Hd. by eapply fetch_valid. }
    rewrite Hput. cbn [mbind option_bind].
    destruct err as [err|]; [|destruct (RateLimit r)]; eexists; split; try done;
      (split; [split; simpl; try done; try congruence; try lia|done]). by constructor.
  - destruct (cache_put_ok (cache c) (routeContextKey apiKey "") r None seq Hc) as (c1 & Hput & Hc1 & Hm1 & Hfr); [congruence|].
    rewrite Hput. cbn [mbind option_bind]. eexists; split; [done|]. split; [|done]. split; simpl; try done; try congruence; lia.
  - destruct (load_metadata apiKey previous startedAt now tr).2 as [r|] eqn:Hr;
      [|eexists; split; [done|]; split; [|done]; split; simpl; try done; lia].
    destruct (cache_put_ok (cache c) (routeContextKey apiKey "") r None seq Hc) as (c1 & Hput & Hc1 & Hm1 & Hfr); [by rewrite (load_metadata_rate _ _ _ _ _ _ Hr)|].
    rewrite Hput. cbn [mbind option_bind]. eexists; split; [done|]. split; [|done]. split; simpl; try done; try congruence; lia.
Qed.

Lemma step_ok c c' : client_ok c -> step c c' -> client_ok c' /\ forall k q, fresh_for k q (cache c) -> fresh_for k q (cache c').
Proof.
  intros Hok Hst. revert Hok. destruct Hst as [now c0 apiKey model c1 res Hl|now c0 key c1 res Hl|now c0 apiKey c1 res Hl|i st now tr c0 c1 Hr]; intros Hok.
  - destruct (Lookup_ok now c0 apiKey model Hok) as (c2 & res2 & Hl2 & ?). rewrite Hl in Hl2. by simplify_eq.
  - destruct (read_cache_ok now c0 key Hok) as (c2 & res2 & Hl2 & ? & _ & _ & ?). rewrite Hl in Hl2. by simplify_eq.
  - destruct (begin_metadata_ok now c0 apiKey Hok) as (c2 & res2 & Hl2 & ? & _ & ? & _). rewrite Hl in Hl2. by simplify_eq.
  - assert (i < length (inflight c0))%nat as Hi.
    { unfold RouteContext.refresh_step in Hr. destruct (inflight c0 !! i) eqn:E; [|done]. by apply lookup_lt_Some in E. }
    destruct (refresh_step_ok i st now tr c0 Hok Hi) as (c2 & Hr2 & ?). rewrite Hr in Hr2. by simplify_eq.
Qed.

(** No key's verdicts regress. *)
Definition no_regress (c c' : client) : Prop := forall k q, fresh_for k q (cache c) -> fresh_for k q (cache c').

Lemma steps_ok c c' : client_ok c -> rtc step c c' -> client_ok c' /\ no_regress c c'.
Proof.
  apply (steps_invariant admission client_ok no_regress); unfold no_regress; [by intros ?|intros ? ? ?; naive_solver|apply step_ok].
Qed.

Lemma newClient_ok : client_ok newClient.
Proof. split; simpl; try done. split; simpl; try done; try constructor; try set_solver. Qed.

Lemma admission_reachable_ok c : reachable admission c -> client_ok c.
Proof. apply reachable_invariant; [intros ? ->; apply newClient_ok|]. intros ? ? H1 H2. by apply (step_ok _ _ H1 H2). Qed.

(** ** Properties *)

(** C28: in every reachable state, however lookups and background refreshes
    interleave, the cache accounts exactly for the bytes of its entries and
    stays within 50 MiB (so it holds at most 51200 verdicts), at most 256
    refreshes are in flight, and neither a lookup nor a refresh can panic. *)
Theorem admission_state_bounded c :
  reachable admission c ->
  bytes_ (cache c) = sum_by ce_bytes (lru (cache c)) /\ bytes_ (cache c) <= routeContextCacheMaxBytes
  /\ Z.of_nat (length (lru (cache c))) <= 51200
  /\ Z.of_nat (length (inflight c)) <= routeContextMaxRefreshes
  /\ (forall now apiKey model, is_Some (Lookup now c apiKey model))
  /\ (forall i startedAt now tr, (i < length (inflight c))%nat -> is_Some (refresh_step i startedAt now tr c)).
Proof.
  intros Hr. pose proof (admission_reachable_ok _ Hr) as Hok. pose proof Hok as [Hc Hs Hj Hm].
  pose proof (ok_bound _ Hc) as Hb. rewrite Hm in Hb. split_and!; [apply Hc|done| |done| |].
  - assert (forall l, (forall e, e ∈ l -> routeContextCacheEntryOverhead <= ce_bytes e) -> 1024 * Z.of_nat (length l) <= sum_by ce_bytes l) as Hl.
    { induction l as [|e l IH]; intros He; simpl; [lia|]. specialize (He e ltac:(left)) as He0.
      specialize (IH ltac:(intros; apply He; by right)). unfold routeContextCacheEntryOverhead in *. lia. }
    specialize (Hl _ (ok_size _ Hc)). rewrite <- (ok_bytes _ Hc) in Hl. unfold routeContextCacheMaxBytes in *. lia.
  - intros. destruct (Lookup_ok now c apiKey model Hok) as (c' & res & -> & _). by eexists.
  - intros. destruct (refresh_step_ok i startedAt now tr c Hok) as (c' & -> & _); [done|]. by eexists.
Qed.

(** Verdicts never regress. Refreshes finish in any order and entries are
    evicted for space, yet whatever a key's cached verdict is at some point, no
    later cached verdict for that key stems from an older refresh. *)
Theorem verdicts_never_regress c c' k e e' :
  reachable admission c -> rtc step c c' ->
  entries (cache c) !! k = Some e -> entries (cache c') !! k = Some e' -> sequence e <= sequence e'.
Proof.
  intros Hr Hs He He'. pose proof (admission_reachable_ok _ Hr) as Hok.
  destruct (steps_ok _ _ Hok Hs) as [_ Hf]. specialize (Hf k (sequence e)). unfold fresh_for in Hf.
  rewrite He, He' in Hf. by apply Hf.
Qed.

(** A cached rejection is enforced exactly for its window, whatever
    priority the organization has. A lookup is refused with status 429 iff
    fewer than the granted seconds have passed since the control plane was
    asked; the Retry-After it carries is positive, at most the granted delay,
    and long enough to reach the end of the window. *)
Theorem rejection_window now c apiKey model e d retry :
  reachable admission c -> apiKey <> "" -> model <> "" -> jwtSubject unmarshal_field apiKey = "" ->
  entries (cache c) !! routeContextKey apiKey model = Some e -> ce_err e = None ->
  RateLimit (resolved e) = Some d -> Decision d = decisionRejected -> RetryAfterSeconds d = Some retry ->
  retry <= int64_max -> 0 <= now - observedAt d <= int64_max ->
  exists c' r v, Lookup now c apiKey model = Some (c', (r, v)) /\ Priority r = Priority (resolved e)
    /\ (is_Some v <-> now - observedAt d < retry * Second)
    /\ (v = None -> RateLimit r = None)
    /\ forall err, v = Some err -> Status (apiError err) = 429 /\ exists n,
         retryAfter err = FormatInt n /\ 0 < n <= retry /\ observedAt d + retry * Second <= now + n * Second.
Proof.
  intros Hr Ha Hmo Hj Hk Herr Hd Hdec Hret Hmax Hnow.
  destruct (admission_reachable_ok _ Hr) as [Hc _ _ _].
  destruct (proj1 (ok_map _ Hc _ _) Hk) as [Hin _].
  destruct (valid_retry d (ok_valid _ Hc _ _ Hin Hd)) as (retry' & Hret' & Hpos). rewrite Hret in Hret'. injection Hret' as <-.
  unfold RouteContext.Lookup. apply String.eqb_neq in Ha, Hmo. rewrite Ha, Hmo, Hj. cbn [String.eqb negb].
  unfold cache_get. rewrite Hk. unfold age_decision. rewrite Hd, Hdec, String.eqb_refl, Hret. cbn [mbind option_bind].
  rewrite time_sub_small by (unfold in_int64, int64_min, int64_max in *; lia).
  rewrite Z.quot_div_nonneg by (unfold Second; lia). set (q := (now - observedAt d) / Second).
  assert (q * Second <= now - observedAt d < (q + 1) * Second) as Hq.
  { subst q. unfold Second. pose proof (Z.div_mod (now - observedAt d) 1000000000). pose proof (Z.mod_pos_bound (now - observedAt d) 1000000000). lia. }
  assert (0 <= q) by (apply Z.div_pos; unfold Second; lia).
  rewrite wrap64_id by (unfold in_int64, int64_min, int64_max, Second in *; lia).
  rewrite Herr. unfold Second in *. destruct (retry - q <=? 0) eqn:E; bool_simp; cbn [set_rate RateLimit Priority].
  - eexists _, _, _. split; [done|]. split_and!; try done. split; [by intros [? ?]|lia].
  - unfold applyRateDecision. cbn [Decision RetryAfterSeconds Reason]. rewrite ?Hdec, String.eqb_refl. cbn [negb mbind option_bind]. eexists _, _, _. split; [done|]. split_and!; try done.
    + split; [lia|]. intros _. by eexists.
    + intros err [= <-]. split; [done|]. exists (retry - q). split; [done|]. lia.
Qed.

End ClientInv.

(** A client never chooses its scheduling priority. Whatever the body held
    under [priority], the forwarded body is the same; it carries a priority only
    on the generation endpoints, and then the organization's configured one, or
    the demotion when only that applies; every other field is untouched. *)
Theorem client_never_chooses_priority r (body : object) path v :
  applyPriority r (Some (<["priority" := v]> body)) path = applyPriority r (Some body) path
  /\ exists body', applyPriority r (Some body) path = Some body'
      /\ (forall k, k <> "priority" -> body' !! k = body !! k)
      /\ (forall p, body' !! "priority" = Some p ->
            path ∈ priorityPaths
            /\ (p = JInt demotedPriority /\ Priority r = None
                /\ (exists d, RateLimit r = Some d /\ Decision d = decisionDemote)
                \/ exists z, Priority r = Some z /\ p = JInt z))
      /\ (path ∈ priorityPaths -> skipsQueue r = true -> is_Some (body' !! "priority")).
Proof.
  unfold applyPriority. cbn [mbind option_bind]. rewrite delete_insert_eq. split; [done|].
  case_bool_decide as Hp; cbn [negb].
  - unfold skipsQueue. destruct (Priority r) as [z|] eqn:Hz.
    + eexists. split; [done|]. rewrite lookup_insert_eq. split_and!; [|naive_solver|by eexists].
      intros k ?. by rewrite lookup_insert_ne, lookup_delete_ne.
    + destruct (RateLimit r) as [d|] eqn:Hd; [destruct (String.eqb_spec (Decision d) decisionDemote)|]; eexists; (split; [done|]);
        rewrite ?lookup_insert_eq, ?lookup_delete_eq; split_and!; try done;
        try (intros k ?; by rewrite ?lookup_insert_ne, lookup_delete_ne by done).
      intros p [= <-]. split; [done|]. left. split_and!; eauto.
  - eexists. split; [done|]. rewrite lookup_delete_eq. split_and!; try done.
    intros k ?. by rewrite lookup_delete_ne.
Qed.

(** The output-token header governs the body on every generation endpoint.
    A single positive integer replaces every limit field the endpoint reads;
    anything else in the header is refused and leaves the body as it was, and
    so does an absent header. *)
Theorem output_limit_header_governs h path (body : object) fields :
  maxOutputTokensFields path = Some fields ->
  match positiveIntHeader h MaxOutputTokensRequestHeader with
  | None => exists err, applyMaxOutputTokensHeader h path body = (body, Some err) /\ Status err = 400
  | Some n =>
      exists body', applyMaxOutputTokensHeader h path body = (body', None)
        /\ (n = 0 -> body' = body)
        /\ (n <> 0 -> 0 < n <= int64_max
             /\ (forall f, f ∈ fields -> body' !! f = None \/ body' !! f = Some (JInt n))
             /\ (exists f, f ∈ fields /\ body' !! f = Some (JInt n))
             /\ forall f, f ∉ fields -> body' !! f = body !! f)
  end.
Proof.
  intros Hf. unfold applyMaxOutputTokensHeader. rewrite Hf.
  destruct (positiveIntHeader h MaxOutputTokensRequestHeader) as [n|] eqn:Hn; [|by eexists].
  destruct (n =? 0) eqn:E; bool_simp; [subst; eexists; split; [done|]; by split|].
  assert (0 < n <= int64_max) as Hrange.
  { unfold positiveIntHeader in Hn. destruct (Values h _) as [|v [|]]; simplify_eq.
    destruct (ParseInt _) as [m|] eqn:Hp; [|done]. cbn [mbind option_bind] in Hn. repeat case_in Hn. simplify_eq.
    apply ParseInt_range in Hp. unfold in_int64 in Hp. lia. }
  unfold maxOutputTokensFields in Hf. repeat case_in Hf; simplify_eq; simpl; (eexists; split; [done|]; split; [done|]; intros _);
    (split; [done|]); rewrite ?lookup_insert_eq; (split; [|split]).
  all: try (eexists; split; [left|]; by rewrite lookup_insert_eq).
  all: try (intros f Hnf; rewrite lookup_insert_ne, !lookup_delete_ne by set_solver; done).
  all: intros f Hin; repeat (apply elem_of_cons in Hin as [->|Hin]; [rewrite ?lookup_insert_eq; auto|]);
    try by apply not_elem_of_nil in Hin.
  left. by rewrite lookup_insert_ne, lookup_delete_eq.
Qed.

(** ** Witnesses *)

Definition w_rate : routeRateLimit := MkRateLimit "rejected" "tokens" (Some 30) None None time_zero.
Definition w_ctx (_ : bytes) : option routeContext := Some (MkContext (Some 0) "org" (Some w_rate) false time_zero).
Definition w_obj (_ : bytes) : option object := None.
Definition w_field (_ : string) (_ : bytes) : option string := None.
Definition w_time (_ : string) : bool := false.

(** One lookup on a cold cache, then its refresh with the rejection above. *)
Definition w_client1 : client := match Lookup w_field 1000 newClient "sk" "m" with Some (c, _) => c | None => newClient end.
Definition w_client2 : client :=
  match refresh_step w_obj w_field w_ctx w_time 0 2000 3000 (Response 200 ∅ (Some [])) w_client1 with Some c => c | None => newClient end.

Lemma w_step1 : step w_obj w_field w_ctx w_time newClient w_client1.
Proof.
  apply (step_lookup _ _ _ _ 1000 _ "sk" "m" _ (emptyContext, None)).
  vm_cast_no_check (@eq_refl _ (Some (w_client1, (emptyContext, @None routeContextError)))).
Qed.

Lemma w_step2 : step w_obj w_field w_ctx w_time w_client1 w_client2.
Proof.
  apply (step_refresh _ _ _ _ 0 2000 3000 (Response 200 ∅ (Some []))).
  vm_cast_no_check (@eq_refl _ (Some w_client2)).
Qed.

Lemma w_reachable : reachable (admission w_obj w_field w_ctx w_time) w_client2.
Proof. eapply reach_next; [eapply reach_next; [by constructor|apply w_step1]|apply w_step2]. Qed.

(** Then a second lookup and its refresh, with the same answer. *)
Definition w_look3 : client * (routeContext * option routeContextError) :=
  default (newClient, (emptyContext, None)) (Lookup w_field 4000 w_client2 "sk" "m").
Definition w_client3 : client := w_look3.1.
Definition w_client4 : client :=
  default newClient (refresh_step w_obj w_field w_ctx w_time 0 5000 6000 (Response 200 ∅ (Some [])) w_client3).

Lemma w_step3 : step w_obj w_field w_ctx w_time w_client2 w_client3.
Proof.
  apply (step_lookup w_obj w_field w_ctx w_time 4000 w_client2 "sk" "m" w_client3 w_look3.2).
  vm_cast_no_check (@eq_refl _ (Some (w_client3, w_look3.2))).
Qed.

Lemma w_step4 : step w_obj w_field w_ctx w_time w_client3 w_client4.
Proof.
  apply (step_refresh w_obj w_field w_ctx w_time 0 5000 6000 (Response 200 ∅ (Some [])) w_client3 w_client4).
  vm_cast_no_check (@eq_refl _ (Some w_client4)).
Qed.

Lemma w_later : rtc (step w_obj w_field w_ctx w_time) w_client2 w_client4.
Proof. exact (rtc_l _ _ _ _ w_step3 (rtc_l _ _ _ _ w_step4 (rtc_refl _ _))). Qed.

Definition w_cached : routeContextCacheEntry :=
  default (MkCacheEntry ([], []) emptyContext None 0 0) (entries (cache w_client2) !! routeContextKey "sk" "m").

Lemma admission_state_bounded_witness : bytes_ (cache w_client2) <= routeContextCacheMaxBytes /\ bytes_ (cache w_client2) = 1058.
Proof.
  split; [exact (proj1 (proj2 (admission_state_bounded w_obj w_field w_ctx w_time w_client2 w_reachable)))|].
  vm_compute. reflexivity.
Defined.

Definition w_cached4 : routeContextCacheEntry :=
  default (MkCacheEntry ([], []) emptyContext None 0 0) (entries (cache w_client4) !! routeContextKey "sk" "m").

Lemma verdicts_never_regress_witness : sequence w_cached <= sequence w_cached4 /\ sequence w_cached < sequence w_cached4.
Proof.
  split; [|vm_compute; reflexivity].
  apply (verdicts_never_regress w_obj w_field w_ctx w_time w_client2 w_client4 (routeContextKey "sk" "m") w_cached w_cached4).
  - exact w_reachable.
  - exact w_later.
  - vm_compute. reflexivity.
  - vm_compute. reflexivity.
Defined.

Lemma rejection_window_witness :
  exists c' r v, Lookup w_field (2000 + 5 * Second) w_client2 "sk" "m" = Some (c', (r, v)) /\ is_Some v.
Proof.
  destruct (rejection_window w_obj w_field w_ctx w_time (2000 + 5 * Second) w_client2 "sk" "m" w_cached
    (MkRateLimit "rejected" "tokens" (Some 30) None None 2000) 30) as (c' & r & v & H & _ & Hv & _).
  - exact w_reachable.
  - discriminate.
  - discriminate.
  - vm_compute. reflexivity.
  - vm_compute. reflexivity.
  - vm_compute. reflexivity.
  - vm_compute. reflexivity.
  - reflexivity.
  - reflexivity.
  - vm_compute. discriminate.
  - vm_compute. split; discriminate.
  - exists c', r, v. split; [exact H|]. apply Hv. vm_compute. reflexivity.
Defined.

Lemma output_limit_header_governs_witness :
  exists body', applyMaxOutputTokensHeader {["X-Tinfoil-Max-Output-Tokens" := [" 64 "]]} "/v1/chat/completions"
    {["max_tokens" := JInt 9000]} = (body', None)
  /\ (64 <> 0 -> 0 < 64 <= int64_max
       /\ (forall f, f ∈ ["max_completion_tokens"; "max_tokens"] -> body' !! f = None \/ body' !! f = Some (JInt 64))
       /\ (exists f, f ∈ ["max_completion_tokens"; "max_tokens"] /\ body' !! f = Some (JInt 64))
       /\ forall f, f ∉ ["max_completion_tokens"; "max_tokens"] -> body' !! f = ({["max_tokens" := JInt 9000]} : object) !! f).
Proof.
  destruct (output_limit_header_governs {["X-Tinfoil-Max-Output-Tokens" := [" 64 "]]} "/v1/chat/completions"
    {["max_tokens" := JInt 9000]} ["max_completion_tokens"; "max_tokens"] eq_refl) as (b & Hb & _ & Hn).
  exists b. split; [exact Hb|exact Hn].
Defined.
