(* ===== verification/MetadataGroup.v ===== *)
(** * Callers that share a metadata fetch ([Metadata] of [route_context.go])

    Token counting and reservation routing ask for the caller's identity without
    an admission.  Callers of one credential share one fetch at a time
    ([singleflight]); a caller that has a stale identity uses it meanwhile, and
    one that has none waits.

    [singleflight] is modelled as it is documented: one call per key is in
    flight, duplicate callers get its result, and a caller that comes after it
    starts a new one.  The shared call runs in two steps, up to its fetch and
    from there; a caller blocks, and is woken by the result or leaves when its
    request is canceled. *)

From S2P Require Import Prelude Sha256 Strconv Json CacheSalt Config Errors RouteContext.
#[local] Open Scope string_scope.
#[local] Open Scope list_scope.
#[local] Open Scope Z_scope.

Definition metadata_answer : Type := routeContextError + routeContext.

(** The key of a call is the credential's half of the cache key. *)
Definition credential (apiKey : string) : bytes := (routeContextKey apiKey "").1.

(** A shared call before its fetch, or in it, by its sequence number. *)
Inductive flight := Starting (apiKey : string) | Loading (apiKey : string) (seq : Z).

(** A blocked caller, with the result once it was sent. *)
Record waiter := MkWaiter { w_key : string; w_result : option metadata_answer }.

Record group := MkGroup { g_client : client; g_flights : gmap bytes flight; g_waiting : list waiter }.

Definition set_client (c : client) (g : group) : group := MkGroup c (g_flights g) (g_waiting g).

Section Group.
Context (unmarshal : bytes -> option object) (unmarshal_field : string -> bytes -> option string)
  (unmarshal_context : bytes -> option routeContext) (ParseTime : string -> bool).
Abbreviation load_metadata := (load_metadata unmarshal unmarshal_field unmarshal_context ParseTime).
Abbreviation refresh_step := (refresh_step unmarshal unmarshal_field unmarshal_context ParseTime).
Abbreviation Lookup := (Lookup unmarshal_field).

(** The result is sent to the callers of the credential, and the call is over. *)
Definition send_result (cred : bytes) (result : metadata_answer) (g : group) : group :=
  MkGroup (g_client g) (delete cred (g_flights g))
    (map (fun w => if decide (credential (w_key w) = cred) then MkWaiter (w_key w) (Some (default result (w_result w))) else w) (g_waiting g)).

(** [DoChan] *)
Definition join_call (apiKey : string) (g : group) : group :=
  match g_flights g !! credential apiKey with
  | Some _ => g
  | None => MkGroup (g_client g) (<[credential apiKey := Starting apiKey]> (g_flights g)) (g_waiting g)
  end.

(** [Metadata], up to where it blocks: the answer, or [None] for a caller that
    waits. *)
Definition Metadata (now : Z) (apiKey : string) (g : group) : option (group * option metadata_answer) :=
  if String.eqb apiKey "" || negb (String.eqb (jwtSubject unmarshal_field apiKey) "") then
    let '(r, err) := fetch unmarshal unmarshal_field unmarshal_context ParseTime true apiKey "" now TransportError in
    Some (g, Some (match err with Some e => inl e | None => inr r end))
  else
    '(c, (cached, _)) ← read_cache now (g_client g) (routeContextKey apiKey "");
    let g := set_client c g in
    if fresh_metadata now cached then Some (g, Some (inr cached))
    else
      let g := join_call apiKey g in
      if negb (IsZero (refreshedAt cached)) then Some (g, Some (inr cached))
      else Some (MkGroup (g_client g) (g_flights g) (g_waiting g ++ [MkWaiter apiKey None]), None).

(** The shared call of a credential begins. *)
Definition call_begins (now : Z) (cred : bytes) (g : group) : option group :=
  match g_flights g !! cred with
  | Some (Starting apiKey) =>
      '(c, answer) ← begin_metadata now (g_client g) apiKey;
      let g := set_client c g in
      Some (match answer with
            | Some r => send_result cred (inr r) g
            | None => MkGroup (g_client g) (<[cred := Loading apiKey (seqno c)]> (g_flights g)) (g_waiting g)
            end)
  | _ => None
  end.

Definition is_load (apiKey : string) (seq : Z) (j : refreshing) : bool :=
  match j with LoadingMetadata k _ s => String.eqb k apiKey && (s =? seq) | _ => false end.

Fixpoint position (f : refreshing -> bool) (l : list refreshing) : option nat :=
  match l with [] => None | j :: l => if f j then Some O else S <$> position f l end.

(** Its fetch ends. *)
Definition call_ends (startedAt now : Z) (tr : transport) (cred : bytes) (g : group) : option group :=
  match g_flights g !! cred with
  | Some (Loading apiKey seq) =>
      i ← position (is_load apiKey seq) (inflight (g_client g));
      match inflight (g_client g) !! i with
      | Some (LoadingMetadata _ previous _) =>
          c ← refresh_step i startedAt now tr (g_client g);
          Some (send_result cred (load_metadata apiKey previous startedAt now tr).1 (set_client c g))
      | _ => None
      end
  | _ => None
  end.

(** A caller that was sent a result reads the cache again. *)
Definition caller_wakes (now : Z) (n : nat) (g : group) : option (group * metadata_answer) :=
  match g_waiting g !! n with
  | Some (MkWaiter apiKey (Some result)) =>
      '(c, (current, err)) ← read_cache now (g_client g) (routeContextKey apiKey "");
      Some (MkGroup c (g_flights g) (take n (g_waiting g) ++ drop (S n) (g_waiting g)),
            if negb (IsZero (refreshedAt current)) then match err with Some e => inl e | None => inr current end else result)
  | _ => None
  end.

(** A caller whose request is canceled. *)
Definition caller_leaves (n : nat) (g : group) : option (group * metadata_answer) :=
  match g_waiting g !! n with
  | Some _ => Some (MkGroup (g_client g) (g_flights g) (take n (g_waiting g) ++ drop (S n) (g_waiting g)), inr unavailableContext)
  | None => None
  end.

(** The rest of the client runs beside: admissions and their refreshes. *)
Inductive group_step : group -> group -> Prop :=
  | group_lookup now g apiKey model c res : Lookup now (g_client g) apiKey model = Some (c, res) -> group_step g (set_client c g)
  | group_refresh i startedAt now tr g c j : inflight (g_client g) !! i = Some j -> (forall k p s, j <> LoadingMetadata k p s) ->
      refresh_step i startedAt now tr (g_client g) = Some c -> group_step g (set_client c g)
  | group_call now apiKey g g' res : Metadata now apiKey g = Some (g', res) -> group_step g g'
  | group_begins now cred g g' : call_begins now cred g = Some g' -> group_step g g'
  | group_ends startedAt now tr cred g g' : call_ends startedAt now tr cred g = Some g' -> group_step g g'
  | group_wakes now n g g' res : caller_wakes now n g = Some (g', res) -> group_step g g'
  | group_leaves n g g' res : caller_leaves n g = Some (g', res) -> group_step g g'.

Definition sharing : Machine group := {| initial g := g = MkGroup newClient ∅ []; transition := group_step |}.

(** ** Invariant *)

(** The fetches of a credential. *)
Definition load_of (cred : bytes) (j : refreshing) : option (string * Z) :=
  match j with LoadingMetadata k _ s => if decide (credential k = cred) then Some (k, s) else None | _ => None end.
Definition loads (cred : bytes) (l : list refreshing) : list (string * Z) := omap (load_of cred) l.

Definition flight_key (f : flight) : string := match f with Starting k | Loading k _ => k end.
Definition flight_loads (f : option flight) : list (string * Z) := match f with Some (Loading k s) => [(k, s)] | _ => [] end.

Record group_ok (g : group) : Prop := {
  go_client : client_ok (g_client g);
  go_loads : forall cred, loads cred (inflight (g_client g)) = flight_loads (g_flights g !! cred);
  go_keys : forall cred f, g_flights g !! cred = Some f -> credential (flight_key f) = cred;
  go_waiting : forall w, w ∈ g_waiting g -> w_result w = None -> is_Some (g_flights g !! credential (w_key w))
}.

Lemma loads_cons cred j l : loads cred (j :: l) = match load_of cred j with Some x => x :: loads cred l | None => loads cred l end.
Proof. done. Qed.

Lemma loads_remove cred i l j : l !! i = Some j -> load_of cred j = None -> loads cred (take i l ++ drop (S i) l) = loads cred l.
Proof. intros Hi Hj. rewrite <- (take_drop_middle l i j Hi) at 3. unfold loads. rewrite !omap_app. cbn. by rewrite Hj. Qed.

Lemma loads_single cred i l k p s : l !! i = Some (LoadingMetadata k p s) -> loads cred l = (if decide (credential k = cred) then [(k, s)] else loads cred l) ->
  loads cred (take i l ++ drop (S i) l) = if decide (credential k = cred) then [] else loads cred l.
Proof.
  intros Hi Hl. destruct (decide (credential k = cred)) as [Hc|Hc]; [|apply (loads_remove _ _ _ _ Hi); cbn; by rewrite decide_False].
  rewrite <- (take_drop_middle l i _ Hi) in Hl. unfold loads in *. rewrite omap_app in Hl. cbn in Hl. rewrite decide_True in Hl by done.
  rewrite omap_app. apply (f_equal length) in Hl. rewrite length_app in Hl. cbn in Hl.
  destruct (omap _ (take i l)); [|cbn in Hl; lia]. destruct (omap _ (drop (S i) l)); [done|cbn in Hl; lia].
Qed.

(** The client moved, and no fetch of a credential came or went. *)
Lemma group_ok_client g c : group_ok g -> client_ok c -> (forall cred, loads cred (inflight c) = loads cred (inflight (g_client g))) -> group_ok (set_client c g).
Proof. intros [H1 H2 H3 H4] Hc Hl. split; cbn; try done. intros cred. by rewrite Hl. Qed.

Lemma join_ok apiKey g : group_ok g -> group_ok (join_call apiKey g) /\ is_Some (g_flights (join_call apiKey g) !! credential apiKey).
Proof.
  intros Hok. pose proof Hok as [H1 H2 H3 H4]. unfold join_call. destruct (g_flights g !! credential apiKey) as [f|] eqn:E; [by rewrite E|].
  split; [|cbn; by rewrite lookup_insert_eq]. split; cbn; [done| | |].
  - intros cred. rewrite H2. destruct (decide (credential apiKey = cred)) as [<-|Hne]; [by rewrite lookup_insert_eq, E|by rewrite lookup_insert_ne].
  - intros cred f Hf. apply lookup_insert_Some in Hf as [[<- <-]|[_ Hf]]; [done|by apply H3].
  - intros w Hw Hr. apply lookup_insert_is_Some. destruct (decide (credential apiKey = credential (w_key w))); [by left|right; split; [done|by apply H4]].
Qed.

Lemma send_ok cred result g : client_ok (g_client g) -> loads cred (inflight (g_client g)) = [] ->
  (forall c, c <> cred -> loads c (inflight (g_client g)) = flight_loads (g_flights g !! c)) ->
  (forall c f, g_flights g !! c = Some f -> credential (flight_key f) = c) ->
  (forall w, w ∈ g_waiting g -> w_result w = None -> is_Some (g_flights g !! credential (w_key w))) -> group_ok (send_result cred result g).
Proof.
  intros H1 H2 H3 H4 H5. split; cbn; [done| | |].
  - intros c. destruct (decide (cred = c)) as [<-|Hne]; [by rewrite lookup_delete_eq|]. rewrite lookup_delete_ne by done. by apply H3.
  - intros c f Hf. apply lookup_delete_Some in Hf as [_ Hf]. by apply H4.
  - intros w Hw Hr. apply list_elem_of_fmap in Hw as (w0 & -> & Hw). case_decide as Hc; cbn in Hr |- *; [done|].
    rewrite lookup_delete_ne by done. by apply H5.
Qed.

Lemma begins_ok now cred g apiKey : group_ok g -> g_flights g !! cred = Some (Starting apiKey) ->
  exists g', call_begins now cred g = Some g' /\ group_ok g'
    /\ ((exists seq, g_flights g' !! cred = Some (Loading apiKey seq) /\ g_waiting g' = g_waiting g)
        \/ exists r c, g' = send_result cred (inr r) (set_client c g)).
Proof.
  intros Hok Hf. pose proof Hok as [H1 H2 H3 H4]. unfold call_begins. rewrite Hf.
  destruct (begin_metadata_ok now (g_client g) apiKey H1) as (c & res & -> & Hc & _ & _ & Hres). cbn [mbind option_bind].
  pose proof (H3 _ _ Hf) as Hcred. cbn [flight_key] in Hcred. eexists. split; [done|]. destruct res as [r|].
  - split; [|right; by eexists _, _]. apply send_ok; cbn; rewrite ?Hres; try done. by rewrite H2, Hf.
  - destruct Hres as [previous Hi]. split; [|left; cbn; rewrite lookup_insert_eq; by eexists].
    split; cbn; [done| | |].
    + intros c'. rewrite Hi, loads_cons. unfold load_of. case_decide as Hd.
      * rewrite Hcred in Hd. subst c'. rewrite lookup_insert_eq, H2, Hf. done.
      * rewrite lookup_insert_ne by congruence. apply H2.
    + intros c' f Hf'. apply lookup_insert_Some in Hf' as [[<- <-]|[_ Hf']]; [done|by apply H3].
    + intros w Hw Hr. apply lookup_insert_is_Some. destruct (decide (cred = credential (w_key w))); [by left|right; split; [done|by apply H4]].
Qed.

Lemma position_found k s l : (k, s) ∈ loads (credential k) l -> exists i p, position (is_load k s) l = Some i /\ l !! i = Some (LoadingMetadata k p s).
Proof.
  induction l as [|j l IH]; [by intros ?%not_elem_of_nil|]. rewrite loads_cons. cbn [position]. intros Hin.
  destruct (is_load k s j) eqn:Ej.
  - destruct j as [| |k' p s']; try done. cbn in Ej. apply andb_true_iff in Ej as [->%String.eqb_eq ->%Z.eqb_eq]. by exists 0%nat, p.
  - destruct (load_of (credential k) j) as [[k' s']|] eqn:El.
    + apply elem_of_cons in Hin as [[= -> ->]|Hin].
      * destruct j as [| |k1 p s1]; try done. unfold load_of in El. cbn in Ej. case_decide; [|done]. injection El as -> ->. by rewrite String.eqb_refl, Z.eqb_refl in Ej.
      * destruct (IH Hin) as (i & p & -> & Hl). by exists (S i), p.
    + destruct (IH Hin) as (i & p & -> & Hl). by exists (S i), p.
Qed.

Lemma ends_ok startedAt now tr cred g apiKey seq : group_ok g -> g_flights g !! cred = Some (Loading apiKey seq) ->
  exists g' i previous c, call_ends startedAt now tr cred g = Some g' /\ group_ok g' /\ inflight (g_client g) !! i = Some (LoadingMetadata apiKey previous seq)
    /\ refresh_step i startedAt now tr (g_client g) = Some c
    /\ g' = send_result cred (load_metadata apiKey previous startedAt now tr).1 (set_client c g).
Proof.
  intros Hok Hf. pose proof Hok as [H1 H2 H3 H4]. pose proof (H3 _ _ Hf) as Hcred. cbn [flight_key] in Hcred. pose proof (H2 cred) as Hl. rewrite Hf in Hl. cbn in Hl.
  destruct (position_found apiKey seq (inflight (g_client g))) as (i & previous & Hpos & Hi); [rewrite Hcred, Hl; left|].
  destruct (refresh_step_ok unmarshal unmarshal_field unmarshal_context ParseTime i startedAt now tr (g_client g) H1) as (c & Hr & Hc & _); [by eapply lookup_lt_Some|].
  unfold call_ends. rewrite Hf, Hpos. cbn [mbind option_bind]. rewrite Hi, Hr. cbn [mbind option_bind].
  eexists _, i, previous, c. split; [done|]. split; [|done].
  assert (inflight c = take i (inflight (g_client g)) ++ drop (S i) (inflight (g_client g))) as Hin.
  { unfold RouteContext.refresh_step in Hr. rewrite Hi in Hr. cbn [mbind option_bind] in Hr.
    destruct (RouteContext.load_metadata _ _ _ _ _ _ _ _ _).2; [destruct (cache_put _ _ _ _ _); [|done]|]; by injection Hr as <-. }
  assert (forall c0, loads c0 (inflight c) = if decide (credential apiKey = c0) then [] else loads c0 (inflight (g_client g))) as Hloads.
  { intros c0. rewrite Hin. eapply loads_single; [exact Hi|]. case_decide as Hd; [|done]. by rewrite <- Hd, Hcred. }
  apply send_ok; cbn; try done.
  - rewrite Hloads. by rewrite decide_True.
  - intros c0 Hne. rewrite Hloads, decide_False by congruence. apply H2.
Qed.


Lemma leave_ok n g : group_ok g -> group_ok (MkGroup (g_client g) (g_flights g) (take n (g_waiting g) ++ drop (S n) (g_waiting g))).
Proof.
  intros [H1 H2 H3 H4]. split; cbn; try done. intros w [Hw|Hw]%elem_of_app; apply H4; [eapply subseteq_take, Hw|eapply subseteq_drop, Hw].
Qed.

(** What a call of [Metadata] answers at once, and what it leaves. *)
Lemma call_ok now apiKey g : group_ok g -> exists g' res, Metadata now apiKey g = Some (g', res) /\ group_ok g'
  /\ inflight (g_client g') = inflight (g_client g)
  /\ (apiKey = "" \/ jwtSubject unmarshal_field apiKey <> "" \/ is_Some (g_flights g' !! credential apiKey)
      \/ exists r, res = Some (inr r) /\ fresh_metadata now r = true).
Proof.
  intros Hok. unfold Metadata. destruct (String.eqb_spec apiKey "") as [->|Ha]; cbn [orb].
  { destruct (fetch _ _ _ _ _ _ _ _ _). eexists _, _. split; [done|]. split; [done|]. split; [done|by left]. }
  destruct (String.eqb_spec (jwtSubject unmarshal_field apiKey) "") as [Hj|Hj]; cbn [negb].
  2:{ destruct (fetch _ _ _ _ _ _ _ _ _). eexists _, _. split; [done|]. split; [done|]. split; [done|]. right. by left. }
  destruct (read_cache_ok now (g_client g) (routeContextKey apiKey "") (go_client _ Hok)) as (c & [r err] & -> & Hc & Hi & _). cbn [mbind option_bind].
  assert (group_ok (set_client c g)) as Hok1 by (apply group_ok_client; [done|done|by rewrite Hi]).
  destruct (fresh_metadata now r) eqn:Ef.
  { eexists _, _. split; [done|]. split; [done|]. split; [done|]. right. right. right. by exists r. }
  destruct (join_ok apiKey (set_client c g) Hok1) as [Hok2 Hfl].
  assert (g_client (join_call apiKey (set_client c g)) = c) as Hcl by (unfold join_call; by case_match).
  destruct (negb (IsZero (refreshedAt r))); eexists _, _; (split; [done|]).
  - split; [done|]. split; [by rewrite Hcl|]. right. right. by left.
  - split; [|split; [cbn; by rewrite Hcl|right; right; by left]].
    destruct Hok2 as [H1 H2 H3 H4]. split; cbn; try done. intros w [Hw|Hw]%elem_of_app; [by apply H4|]. by apply list_elem_of_singleton in Hw as ->.
Qed.

Lemma group_step_ok g g' : group_ok g -> group_step g g' -> group_ok g'.
Proof.
  intros Hok Hst. revert Hok. destruct Hst as [now g apiKey model c res Hl|i st now tr g c j Hi Hj Hr|now apiKey g g' res Hm|now cred g g' Hb|st now tr cred g g' He|now n g g' res Hw|n g g' res Hl];
    intros Hok; pose proof (go_client _ Hok) as Hc.
  - destruct (Lookup_ok unmarshal_field now (g_client g) apiKey model Hc) as (c' & res' & Hl' & Hc' & _). rewrite Hl in Hl'. simplify_eq.
    apply group_ok_client; [done|done|]. intros cred. by destruct (Lookup_inflight _ _ _ _ _ _ _ Hl) as [-> |[s ->]].
  - destruct (refresh_step_ok unmarshal unmarshal_field unmarshal_context ParseTime i st now tr (g_client g) Hc) as (c' & Hr' & Hc' & _); [by eapply lookup_lt_Some|].
    rewrite Hr in Hr'. simplify_eq. apply group_ok_client; [done|done|]. intros cred. apply refresh_step_inflight in Hr. cbn zeta in Hr.
    assert (load_of cred j = None) as Hn by (destruct j; try done; by destruct (Hj apiKey previous seq)).
    destruct Hr as [-> |(k & r & s & ->)]; [|rewrite loads_cons; cbn [load_of]]; by eapply loads_remove.
  - destruct (call_ok now apiKey g Hok) as (g1 & res1 & Hm1 & Hok1 & _). rewrite Hm in Hm1. by simplify_eq.
  - unfold call_begins in Hb. destruct (g_flights g !! cred) as [[apiKey|]|] eqn:Ef; try done.
    destruct (begins_ok now cred g apiKey Hok Ef) as (g1 & Hb1 & Hok1 & _). unfold call_begins in Hb1. rewrite Ef in Hb1. rewrite Hb in Hb1. by simplify_eq.
  - destruct (g_flights g !! cred) as [[|apiKey seq]|] eqn:Ef; try (unfold call_ends in He; by rewrite Ef in He).
    destruct (ends_ok st now tr cred g apiKey seq Hok Ef) as (g1 & i & previous & c & He1 & Hok1 & _). rewrite He in He1. by simplify_eq.
  - unfold caller_wakes in Hw. destruct (g_waiting g !! n) as [[apiKey [result|]]|]; try done.
    destruct (read_cache_ok now (g_client g) (routeContextKey apiKey "") Hc) as (c & [r err] & Hrd & Hc' & Hi & _). rewrite Hrd in Hw. cbn [mbind option_bind] in Hw.
    injection Hw as <- _. apply (leave_ok n (set_client c g)). apply group_ok_client; [done|done|by rewrite Hi].
  - unfold caller_leaves in Hl. destruct (g_waiting g !! n); [|done]. injection Hl as <- _. by apply leave_ok.
Qed.

Lemma sharing_ok g : reachable sharing g -> group_ok g.
Proof.
  apply reachable_invariant; [|intros ? ?; apply group_step_ok]. intros ? ->. split; cbn; [apply newClient_ok|done|done|by intros ? ?%not_elem_of_nil].
Qed.

(** ** Properties *)

(** C30: a credential's metadata is fetched once for all its callers, and no caller
    is left waiting. In every reachable state, however calls, admissions, their
    refreshes and cancellations interleave, at most one fetch per credential is in
    flight, within the slots it shares with the refreshes; and every caller that
    waits has a shared call that needs at most two steps of its own, which nothing
    can block, to send it a result. *)
Theorem metadata_callers_served g n apiKey :
  reachable sharing g -> g_waiting g !! n = Some (MkWaiter apiKey None) ->
  (forall cred, (length (loads cred (inflight (g_client g))) <= 1)%nat) /\ Z.of_nat (length (inflight (g_client g))) <= routeContextMaxRefreshes
  /\ forall begins startedAt ends tr, exists g' result,
       (call_begins begins (credential apiKey) g = Some g' \/ call_ends startedAt ends tr (credential apiKey) g = Some g'
        \/ exists g1, call_begins begins (credential apiKey) g = Some g1 /\ call_ends startedAt ends tr (credential apiKey) g1 = Some g')
       /\ g_waiting g' !! n = Some (MkWaiter apiKey (Some result)).
Proof.
  intros Hr%sharing_ok Hn. split; [|split; [apply (go_client _ Hr)|]].
  { intros cred. rewrite (go_loads _ Hr). destruct (g_flights g !! cred) as [[]|]; cbn; lia. }
  intros begins startedAt ends tr. destruct (go_waiting _ Hr (MkWaiter apiKey None)) as [f Hf]; [by eapply list_elem_of_lookup_2|done|].
  cbn [w_key] in Hf. set (cred := credential apiKey) in *.
  assert (forall result g1, g_waiting g1 !! n = Some (MkWaiter apiKey None) -> g_waiting (send_result cred result g1) !! n = Some (MkWaiter apiKey (Some result))) as Hd.
  { intros result g1 H1. unfold send_result. cbn [g_waiting]. rewrite list_lookup_fmap, H1. cbn [fmap option_fmap option_map w_key w_result]. by rewrite decide_True. }
  assert (forall g1 k s, group_ok g1 -> g_flights g1 !! cred = Some (Loading k s) -> g_waiting g1 !! n = Some (MkWaiter apiKey None) ->
    exists g' result, call_ends startedAt ends tr cred g1 = Some g' /\ g_waiting g' !! n = Some (MkWaiter apiKey (Some result))) as He.
  { intros g1 k s Hok1 Hf1 Hn1. destruct (ends_ok startedAt ends tr cred g1 k s Hok1 Hf1) as (g' & i & previous & c & He & _ & _ & _ & ->).
    eexists _, _. split; [exact He|]. by apply Hd. }
  destruct f as [k|k s].
  - destruct (begins_ok begins cred g k Hr Hf) as (g1 & Hb & Hok1 & [(s & Hf1 & Hw)|(r & c & ->)]).
    + destruct (He g1 k s Hok1 Hf1) as (g' & result & H1 & H2); [by rewrite Hw|]. exists g', result. split; [|exact H2]. right. right. by exists g1.
    + eexists _, _. split; [left; exact Hb|]. by apply Hd.
  - destruct (He g k s Hr Hf Hn) as (g' & result & H1 & H2). exists g', result. split; [|exact H2]. right. by left.
Qed.

(** Asking for metadata admits nobody, and a stale identity is used only while it
    is refreshed. A call of [Metadata] cannot panic and starts no lookup of a
    model, whatever its outcome; unless the credential needs none, it is answered
    with an identity of the last minute or a shared call is under way. *)
Theorem metadata_never_admits g now apiKey :
  reachable sharing g ->
  exists g' res, Metadata now apiKey g = Some (g', res) /\ inflight (g_client g') = inflight (g_client g)
    /\ (apiKey = "" \/ jwtSubject unmarshal_field apiKey <> "" \/ is_Some (g_flights g' !! credential apiKey)
        \/ exists r, res = Some (inr r) /\ fresh_metadata now r = true)
    /\ forall begins g1 j, call_begins begins (credential apiKey) g' = Some g1 -> j ∈ inflight (g_client g1) ->
         j ∈ inflight (g_client g) \/ exists k previous s, j = LoadingMetadata k previous s.
Proof.
  intros Hr%sharing_ok. destruct (call_ok now apiKey g Hr) as (g' & res & Hm & Hok & Hi & Hs). exists g', res. split; [done|]. split; [done|]. split; [done|].
  intros begins g1 j Hb Hj. unfold call_begins in Hb. destruct (g_flights g' !! _) as [[k|]|]; try done.
  destruct (begin_metadata_ok begins (g_client g') k (go_client _ Hok)) as (c & r & Hbm & _ & _ & _ & Hin). rewrite Hbm in Hb. cbn [mbind option_bind] in Hb.
  injection Hb as <-. destruct r as [r|]; cbn in Hj.
  - rewrite Hin, Hi in Hj. by left.
  - destruct Hin as [previous Hin]. rewrite Hin, Hi in Hj. apply elem_of_cons in Hj as [->|Hj]; [right; by eexists _, _, _|by left].
Qed.

Lemma store_replaces c key r seq c' e : store c key r None seq = Some c' -> entries c' !! key = Some e -> resolved e = r.
Proof.
  unfold store. destruct (make_room _ _ _) as [c1|]; [|done]. cbn [mbind option_bind]. intros [= <-]. cbn [entries]. rewrite lookup_insert_eq. by intros [= <-].
Qed.

(** What is stored is there afterwards, or something newer. *)
Lemma put_replaces c key r seq c' e : entry_size r None <= maxBytes c -> cache_put c key r None seq = Some c' -> entries c' !! key = Some e ->
  resolved e = r \/ seq < sequence e.
Proof.
  intros Hsize. unfold cache_put. destruct (entry_size r None >? maxBytes c) eqn:E; bool_simp; [lia|].
  destruct (entries c !! key) as [e0|] eqn:He0.
  - destruct (seq <? sequence e0) eqn:Es; bool_simp; [|intros Hs He; left; by eapply store_replaces].
    intros [= <-] He. rewrite He0 in He. injection He as <-. by right.
  - destruct (seq <=? evictedSequence c); [intros [= <-] He; congruence|intros Hs He; left; by eapply store_replaces].
Qed.

(** C31: a denied credential loses its identity. When the control plane refuses the
    credential of a shared call, every caller that waits for it is sent the
    refusal, and the identity cached before is gone: what the cache holds for the
    credential afterwards, if anything, is no identity or the result of a newer
    call. *)
Theorem denied_identity_discarded g cred apiKey seq startedAt now tr err :
  reachable sharing g -> g_flights g !! cred = Some (Loading apiKey seq) ->
  (fetch unmarshal unmarshal_field unmarshal_context ParseTime true apiKey "" startedAt tr).2 = Some err ->
  exists g', call_ends startedAt now tr cred g = Some g'
    /\ (forall e, entries (cache (g_client g')) !! routeContextKey apiKey "" = Some e -> refreshedAt (resolved e) = time_zero \/ seq < sequence e)
    /\ forall n k, g_waiting g !! n = Some (MkWaiter k None) -> credential k = cred -> g_waiting g' !! n = Some (MkWaiter k (Some (inl err))).
Proof.
  intros Hr%sharing_ok Hf Hden. destruct (ends_ok startedAt now tr cred g apiKey seq Hr Hf) as (g' & i & previous & c & He & Hok' & Hi & Hs & ->).
  assert (load_metadata apiKey previous startedAt now tr = (inl err, Some emptyContext)) as Hl.
  { unfold RouteContext.load_metadata. destruct (fetch _ _ _ _ _ _ _ _ _) as [r e]. cbn in Hden. by subst e. }
  eexists. split; [exact He|]. rewrite Hl. cbn [fst send_result g_client g_waiting set_client]. split.
  - intros e Hk. unfold RouteContext.refresh_step in Hs. rewrite Hi in Hs. cbn [mbind option_bind] in Hs. rewrite Hl in Hs. cbn [snd] in Hs.
    destruct (cache_put _ _ _ _ _) as [c1|] eqn:Ep; [|done]. cbn [mbind option_bind] in Hs. injection Hs as <-. cbn [cache] in Hk.
    assert (entry_size emptyContext None <= maxBytes (cache (g_client g))) as Hsize by (rewrite (co_max _ (go_client _ Hr)); vm_compute; discriminate).
    destruct (put_replaces _ _ _ _ _ _ Hsize Ep Hk) as [Hres|?]; [left; by rewrite Hres|by right].
  - intros n k Hn Hc. unfold send_result. cbn [g_waiting]. rewrite list_lookup_fmap, Hn. cbn [fmap option_fmap option_map w_key w_result]. by rewrite decide_True.
Qed.
End Group.

(** ** A small group *)

(** Two callers of one credential, neither of which is known yet. *)
Definition w_call (g : group) : group :=
  match Metadata (fun _ => None) (fun _ _ => None) (fun _ => None) (fun _ => true) 1000 "sk" g with Some (g, _) => g | None => g end.
Definition w_group : group := w_call (w_call (MkGroup newClient ∅ [])).
Definition w_begun : group := match call_begins 1000 (credential "sk") w_group with Some g => g | None => w_group end.

Abbreviation w_step := (group_step (fun _ => None) (fun _ _ => None) (fun _ => None) (fun _ => true)).
Abbreviation w_sharing := (sharing (fun _ => None) (fun _ _ => None) (fun _ => None) (fun _ => true)).

Lemma w_called g : (match Metadata (fun _ => None) (fun _ _ => None) (fun _ => None) (fun _ => true) 1000 "sk" g with Some _ => true | None => false end) = true ->
  w_step g (w_call g).
Proof. unfold w_call. destruct (Metadata _ _ _ _ _ _ g) as [[g' res]|] eqn:E; [|done]. intros _. by eapply group_call. Qed.

Lemma w_group_reachable : reachable w_sharing w_group.
Proof.
  eapply reach_next; [eapply reach_next; [by apply reach_initial|]|]; apply w_called; vm_compute; reflexivity.
Qed.

Lemma w_begun_reachable : reachable w_sharing w_begun.
Proof.
  eapply reach_next; [apply w_group_reachable|]. unfold w_begun. assert (is_Some (call_begins 1000 (credential "sk") w_group)) as [g' Hg].
  { destruct (begins_ok 1000 (credential "sk") w_group "sk") as (g' & -> & _); [by eapply sharing_ok, w_group_reachable|vm_compute; reflexivity|by eexists]. }
  rewrite Hg. by eapply group_begins.
Qed.

Lemma metadata_callers_served_witness :
  exists g' result, g_waiting g' !! 1%nat = Some (MkWaiter "sk" (Some result)).
Proof.
  destruct (metadata_callers_served (fun _ => None) (fun _ _ => None) (fun _ => None) (fun _ => true) w_group 1 "sk" w_group_reachable
    ltac:(vm_compute; reflexivity)) as (_ & _ & H).
  destruct (H 1000 1000 1001 TransportError) as (g' & result & _ & Hw). by exists g', result.
Defined.

Lemma metadata_never_admits_witness : is_Some (g_flights (w_call w_group) !! credential "sk").
Proof.
  destruct (metadata_never_admits (fun _ => None) (fun _ _ => None) (fun _ => None) (fun _ => true) w_group 1000 "sk" w_group_reachable)
    as (g' & res & Hm & _ & [?|[H|[H|(r & Hr & _)]]] & _).
  - discriminate.
  - exfalso. apply H. vm_compute. reflexivity.
  - unfold w_call. rewrite Hm. exact H.
  - exfalso. assert (match Metadata (fun _ => None) (fun _ _ => None) (fun _ => None) (fun _ => true) 1000 "sk" w_group with Some (_, None) => true | _ => false end = true) as Hw
      by (vm_compute; reflexivity). rewrite Hm, Hr in Hw. discriminate Hw.
Defined.

Lemma denied_identity_discarded_witness :
  exists g', (forall k, g_waiting g' !! 0%nat = Some k -> exists err, w_result k = Some (inl err)).
Proof.
  destruct (denied_identity_discarded (fun _ => None) (fun _ _ => None) (fun _ => None) (fun _ => true) w_begun (credential "sk") "sk" 1 1000 1001 (Response 401 ∅ None)
    (MkCtxError (WithMessage (WithStatus ErrInvalidRequest 401) "Unauthorized") "") w_begun_reachable ltac:(vm_compute; reflexivity) ltac:(vm_compute; reflexivity))
    as (g' & _ & _ & H). exists g'. intros k Hk. rewrite (H 0%nat "sk" ltac:(vm_compute; reflexivity) eq_refl) in Hk. injection Hk as <-. by eexists.
Defined.
