(* ===== verification/Hrw.v ===== *)
(** * Rendezvous ranking and capped picks ([cacheroute/hrw.go])

    The hash [xxhash64] is a third-party function and a parameter; no property
    below assumes anything about it. *)

From S2P Require Import Prelude Float64 Sha256.
#[local] Open Scope string_scope.
#[local] Open Scope list_scope.
#[local] Open Scope Z_scope.

(** ** Data *)

Record Candidate := Cand { c_Host : string; InFlight : Z }.
Record Pool := MkPool { Size : Z; Candidates : list Candidate }.

#[export] Instance Candidate_eq_dec : EqDecision Candidate.
Proof. solve_decision. Defined.

(** [type Key [32]byte] *)
Abbreviation Key := bytes.

Section Hrw.
Context (xxhash64 : bytes -> Z).

(** ** Operations *)

Definition score (key : Key) (h : string) : Z := xxhash64 (key ++ to_bytes h).

(** The order the comparison function of [rank] sorts by: higher score first,
    ties to the lexicographically smaller host. *)
Definition ranks_before (key : Key) (a b : Candidate) : Prop :=
  score key (c_Host b) < score key (c_Host a)
  \/ (score key (c_Host a) = score key (c_Host b) /\ String.le (c_Host a) (c_Host b)).

#[export] Instance ranks_before_dec key a b : Decision (ranks_before key a b).
Proof. unfold ranks_before. apply _. Defined.

Definition rank (key : Key) (candidates : list Candidate) : list Candidate :=
  merge_sort (ranks_before key) candidates.

Section Factor.
Context (int_out_of_range : float64 -> Z).

Definition replicationFactor (rpm thresholdRPM : float64) (poolSize : Z) : Z :=
  if f64_le thresholdRPM f64_zero || (poolSize <=? 1) then 1
  else
    let r := int_ceil int_out_of_range (f64_div rpm thresholdRPM) in
    let r := if r <? 1 then 1 else r in
    if r >? poolSize then poolSize else r.

End Factor.

(** The scans below start from the first element; on an empty list the code
    panics ([None]). *)
Definition leastLoaded (ranked : list Candidate) : option Candidate :=
  match ranked with
  | [] => None
  | c :: rest => Some (foldl (fun best c => if InFlight c <? InFlight best then c else best) c rest)
  end.

Definition minInFlight (candidates : list Candidate) : option Z :=
  match candidates with
  | [] => None
  | c :: rest => Some (foldl (fun m c => if InFlight c <? m then InFlight c else m) (InFlight c) rest)
  end.

(** The loop over [ranked[:r]] with the best within-limit candidate so far. *)
Definition best_within (limit : Z) (warm : list Candidate) : option Candidate :=
  foldl (fun best c =>
    if (InFlight c <=? limit)
       && match best with None => true | Some b => InFlight c <? InFlight b end
    then Some c else best) None warm.

Definition cappedPick (ranked : list Candidate) (r delta : Z) : option (string * bool) :=
  if delta <? 0 then
    c ← leastLoaded (take (Z.to_nat r) ranked); Some (c_Host c, false)
  else
    m ← minInFlight ranked;
    match best_within (wrap64 (m + delta)) (take (Z.to_nat r) ranked) with
    | Some c => Some (c_Host c, false)
    | None => c ← leastLoaded ranked; Some (c_Host c, true)
    end.

(** ** Lemmas *)

#[export] Instance ranks_before_trans key : Transitive (ranks_before key).
Proof.
  intros a b c [H1|[H1 H1']] [H2|[H2 H2']]; [left; lia|left; lia|left; lia|].
  right. split; [lia|]. by etrans.
Qed.

#[export] Instance ranks_before_total key : Total (ranks_before key).
Proof.
  intros a b. unfold ranks_before. destruct (total String.le (c_Host a) (c_Host b));
  destruct (Z.lt_total (score key (c_Host a)) (score key (c_Host b))) as [?|[?|?]]; auto.
Qed.

Lemma ranks_before_antisym key a b : ranks_before key a b -> ranks_before key b a -> c_Host a = c_Host b.
Proof. intros [?|[? ?]] [?|[? ?]]; try lia. by apply (anti_symm String.le). Qed.

Lemma rank_Permutation key cs : rank key cs ≡ₚ cs.
Proof. apply merge_sort_Permutation. Qed.

Lemma rank_sorted key cs : StronglySorted (ranks_before key) (rank key cs).
Proof. apply StronglySorted_merge_sort; apply _. Qed.

(** Candidates with distinct hosts have one sorted arrangement. *)
Lemma ranked_unique key l1 l2 :
  NoDup (map c_Host l1) -> l1 ≡ₚ l2 ->
  StronglySorted (ranks_before key) l1 -> StronglySorted (ranks_before key) l2 -> l1 = l2.
Proof.
  intros Hnd Hp H1 H2. eapply (StronglySorted_unique_strong (ranks_before key)); [|done..].
  intros a b Ha Hb Hab Hba. pose proof (ranks_before_antisym _ _ _ Hab Hba) as Heq.
  rewrite <- Hp in Hb. rewrite list_elem_of_lookup in Ha, Hb. destruct Ha as [i Hi], Hb as [j Hj].
  assert (i = j) as ->; [|congruence].
  eapply (NoDup_lookup (map c_Host l1)); [done|by rewrite list_lookup_fmap, Hi|by rewrite list_lookup_fmap, Hj, Heq].
Qed.

Lemma leastLoaded_fold l : forall c,
  let best := foldl (fun best c => if InFlight c <? InFlight best then c else best) c l in
  best ∈ c :: l /\ forall x, x ∈ c :: l -> InFlight best <= InFlight x.
Proof.
  induction l as [|d l IH]; intros c; simpl; [set_solver by lia|].
  destruct (InFlight d <? InFlight c) eqn:E; bool_simp.
  - destruct (IH d) as [H1 H2]. split; [set_solver|].
    intros x [Hx|Hx]%elem_of_cons; [subst x|auto]. specialize (H2 d ltac:(left)). lia.
  - destruct (IH c) as [H1 H2]. split; [set_solver|].
    intros x [Hx|[Hx|Hx]%elem_of_cons]%elem_of_cons; try subst x; [apply H2; left| |apply H2; by right].
    specialize (H2 c ltac:(left)). lia.
Qed.

Lemma leastLoaded_spec l b :
  leastLoaded l = Some b -> b ∈ l /\ forall x, x ∈ l -> InFlight b <= InFlight x.
Proof. destruct l as [|c l]; [done|]. intros [= <-]. apply leastLoaded_fold. Qed.

Lemma minInFlight_leastLoaded l : minInFlight l = InFlight <$> leastLoaded l.
Proof.
  destruct l as [|c l]; [done|]. simpl. f_equal. revert c.
  induction l as [|d l IH]; intros c; simpl; [done|]. rewrite <- IH. by destruct (InFlight d <? InFlight c).
Qed.

Definition within_acc (limit : Z) (l : list Candidate) (best : option Candidate) : Prop :=
  match best with
  | Some b => b ∈ l /\ InFlight b <= limit /\ forall x, x ∈ l -> InFlight x <= limit -> InFlight b <= InFlight x
  | None => forall x, x ∈ l -> limit < InFlight x
  end.

Lemma best_within_spec limit l : within_acc limit l (best_within limit l).
Proof.
  unfold best_within. induction l as [|c l IH] using rev_ind; [by intros x ?%not_elem_of_nil|].
  rewrite foldl_app. simpl. set (best := foldl _ None l) in *. unfold within_acc in *.
  destruct (InFlight c <=? limit) eqn:El; bool_simp; simpl; destruct best as [b|].
  - destruct IH as (Hin & Hle & Hmin). destruct (InFlight c <? InFlight b) eqn:Eb; bool_simp.
    + split; [set_solver|]. split; [done|]. intros x [Hx|Hx%list_elem_of_singleton]%elem_of_app Hxl; [|subst; lia].
      specialize (Hmin x Hx Hxl). lia.
    + split; [set_solver|]. split; [done|]. intros x [Hx|Hx%list_elem_of_singleton]%elem_of_app Hxl; [auto|subst; lia].
  - split; [set_solver|]. split; [done|]. intros x [Hx|Hx%list_elem_of_singleton]%elem_of_app Hxl; [|subst; lia].
    specialize (IH x Hx). lia.
  - destruct IH as (Hin & Hle & Hmin). split; [set_solver|]. split; [done|].
    intros x [Hx|Hx%list_elem_of_singleton]%elem_of_app Hxl; [auto|subst; lia].
  - intros x [Hx|Hx%list_elem_of_singleton]%elem_of_app; [auto|subst; lia].
Qed.

Lemma leastLoaded_is_Some l : l <> [] -> is_Some (leastLoaded l).
Proof. destruct l; [done|]. intros _. by eexists. Qed.

(** ** Properties *)

(** Rendezvous ranking has minimal disruption: for distinct hosts, ranking
    what is left after replicas go away is the old ranking with the departed
    replicas deleted, so no surviving replica changes its order relative to
    another, and a key whose home survives keeps its home. The order does not
    depend on the order the candidates are listed in. *)
Theorem rank_minimal_disruption key cs cs' (P : Candidate -> Prop) `{forall x, Decision (P x)} :
  NoDup (map c_Host cs) -> cs' ≡ₚ filter P cs -> rank key cs' = filter P (rank key cs).
Proof.
  intros Hnd Hp. symmetry. eapply ranked_unique.
  - apply (sublist_NoDup _ (c_Host <$> rank key cs)); [by rewrite rank_Permutation|].
    apply (fmap_sublist c_Host), sublist_filter.
  - by rewrite !rank_Permutation, Hp.
  - apply filter_StronglySorted, rank_sorted.
  - apply rank_sorted.
Qed.

(** The warm set has at least one replica and never more than the pool,
    whatever the rate estimate is (infinities and NaN included). *)
Lemma replicationFactor_bounds oor rpm threshold poolSize :
  1 <= replicationFactor oor rpm threshold poolSize <= Z.max 1 poolSize.
Proof. unfold replicationFactor. repeat case_step; try rewrite orb_false_iff in *; bool_simp; lia. Qed.

(** The capped pick over a warm set [ranked[:r]] with [1 <= r <= len]: it
    always returns a host; unless the cap is disabled the host is at most
    [delta] requests deeper than the least loaded replica; it is demoted
    exactly when every warm replica is over that limit, and then it is the
    least loaded replica of the whole ranking; a pick that is not demoted is a
    least-loaded warm replica. *)
Theorem cappedPick_spec ranked r delta m :
  1 <= r <= Z.of_nat (length ranked) ->
  minInFlight ranked = Some m -> in_int64 (m + delta) ->
  let warm := take (Z.to_nat r) ranked in
  exists c demoted,
    cappedPick ranked r delta = Some (c_Host c, demoted) /\ c ∈ ranked
    /\ (0 <= delta -> InFlight c <= m + delta)
    /\ (demoted = true <-> 0 <= delta /\ forall x, x ∈ warm -> m + delta < InFlight x)
    /\ (demoted = true -> InFlight c = m)
    /\ (demoted = false -> c ∈ warm /\ forall x, x ∈ warm -> InFlight c <= InFlight x).
Proof.
  intros Hr Hm Hov warm. unfold cappedPick. rewrite Hm. simpl. rewrite (wrap64_id _ Hov).
  assert (warm <> []) as Hne.
  { subst warm. intros He%(f_equal length). rewrite length_take in He. simpl in He. lia. }
  assert (Hsub : forall x, x ∈ warm -> x ∈ ranked) by (intros x; apply subseteq_take).
  destruct (delta <? 0) eqn:Ed; bool_simp.
  - destruct (leastLoaded_is_Some warm Hne) as [c Hc]. fold warm. rewrite Hc. simpl.
    destruct (leastLoaded_spec _ _ Hc). exists c, false. split_and!; try done; [by apply Hsub|lia|].
    split; [done|lia].
  - pose proof (best_within_spec (m + delta) warm) as Hb. fold warm. destruct (best_within (m + delta) warm) as [c|] eqn:Eb.
    + destruct Hb as (Hin & Hle & Hmin). exists c, false.
      split_and!; try done; [by apply Hsub| |].
      * split; [done|]. intros [_ Hall]. specialize (Hall c Hin). lia.
      * intros _. split; [done|]. intros x Hx. destruct (Z.le_gt_cases (InFlight x) (m + delta)); [auto|lia].
    + rewrite minInFlight_leastLoaded in Hm. destruct (leastLoaded ranked) as [c|] eqn:Hc; [|done].
      simplify_eq/=. destruct (leastLoaded_spec _ _ Hc). exists c, true.
      split_and!; try done; lia.
Qed.

End Hrw.

(** ** Witnesses *)

Definition toy_hash (b : bytes) : Z := foldl (fun h c => (h * 31 + byte_val c) mod 1009) 7 b.
Definition cs3 : list Candidate := [Cand "a" 5; Cand "b" 2; Cand "c" 9].

Lemma rank_minimal_disruption_witness :
  rank toy_hash [] [Cand "c" 9; Cand "a" 5] = filter (fun c => c_Host c <> "b") (rank toy_hash [] cs3).
Proof.
  apply (rank_minimal_disruption toy_hash [] cs3 [Cand "c" 9; Cand "a" 5] (fun c => c_Host c <> "b")).
  - vm_compute. repeat (constructor; [set_solver|]). constructor.
  - change (filter _ cs3) with [Cand "a" 5; Cand "c" 9]. apply perm_swap.
Defined.

Lemma cappedPick_spec_witness : cappedPick cs3 1 2 = Some ("b", true) /\
  exists c demoted, cappedPick cs3 1 2 = Some (c_Host c, demoted) /\ c ∈ cs3.
Proof.
  split; [reflexivity|].
  destruct (cappedPick_spec cs3 1 2 2) as (c & d & H1 & H2 & _);
    [vm_compute; split; discriminate|reflexivity|vm_compute; split; discriminate|].
  by exists c, d.
Defined.
