(* ===== verification/CacheKey.v ===== *)
(** * Routing-key derivation ([cacheroute/cacheroute.go])

    From the decoded request body to the funnel outcome and the routing key:
    the prompt fields per endpoint, the prompt size, the bounded flattening of
    the fields into the prefix window, and the key itself.

    The process-wide secret is an argument of [SettingsFrom]; the standard
    library's shortest rendering of a float, [strconv.FormatFloat(x, 'g', -1,
    64)], is a parameter about which nothing is assumed.  The elapsed-time
    field of a request, which only feeds a metric, is left out. *)

From S2P Require Import Prelude Float64 Sha256 Json CacheSalt Config.
#[local] Open Scope string_scope.
#[local] Open Scope list_scope.
#[local] Open Scope Z_scope.

(** ** Data *)

Inductive Mode := ModeOff | ModeShadow | ModeEnforced.

#[export] Instance Mode_eq_dec : EqDecision Mode.
Proof. solve_decision. Defined.

Inductive Outcome :=
  | OutcomeKeyed | OutcomeNoSalt | OutcomeNoPrefix | OutcomeBelowFloor | OutcomePoolTooSmall | OutcomeError.

#[export] Instance Outcome_eq_dec : EqDecision Outcome.
Proof. solve_decision. Defined.

Record Settings := {
  s_Mode : Mode;
  Retention : Z;
  MinPromptBytes : Z;
  SplitThresholdRPM : float64;
  MaxInflightDelta : Z;
  Secret : string
}.

(** [Key] is meaningful only for [OutcomeKeyed]; otherwise it is the zero array. *)
Record Request := MkRequest {
  req_Outcome : Outcome;
  req_Key : bytes;
  PromptBytes : Z
}.

Definition prefixWindowCap : Z := 1024.
Definition DefaultRetention : Z := 10 * Minute.
Definition DefaultMinPromptBytes : Z := 4096.
Definition DefaultSplitThresholdRPM : float64 := f64_of_int 15.
Definition zeroKey : bytes := replicate 32 (byte_of 0).

(** ** Settings *)

Definition resolveMode (raw : string) : Mode :=
  if String.eqb raw "shadow" then ModeShadow
  else if String.eqb raw "enforced" then ModeEnforced
  else ModeOff.

Definition SettingsFrom (secret : string) (c : option CacheRouteConfig) : Settings :=
  match c with
  | None => Build_Settings ModeOff DefaultRetention DefaultMinPromptBytes DefaultSplitThresholdRPM (-1) secret
  | Some c =>
      {| s_Mode := resolveMode (cr_Mode c);
         Retention := if RetentionWindowMinutes c >? 0 then wrap64 (RetentionWindowMinutes c * Minute) else DefaultRetention;
         MinPromptBytes := if cr_MinPromptBytes c >? 0 then cr_MinPromptBytes c else DefaultMinPromptBytes;
         SplitThresholdRPM := if f64_lt f64_zero (cr_SplitThresholdRPM c) then cr_SplitThresholdRPM c else DefaultSplitThresholdRPM;
         MaxInflightDelta := match cr_MaxInflightDelta c with Some d => if d >=? 0 then d else -1 | None => -1 end;
         Secret := secret |}
  end.

(** ** Prompt fields *)

Definition content_of_role (roles : list string) (m : json) : option json :=
  msg ← as_object m;
  if bool_decide (get_string "role" msg ∈ roles) then Some (get "content" msg) else None.

Fixpoint firstMessageContent (messages : list json) (roles : list string) : json :=
  match messages with
  | [] => JNull
  | m :: messages =>
      match content_of_role roles m with
      | Some content => content
      | None => firstMessageContent messages roles
      end
  end.

(** The triple (tools, system, user). *)
Definition promptFields (body : object) (path : string) : json * json * json :=
  let tools := get "tools" body in
  if String.eqb path "/v1/responses" then
    let user := match get "input" body with
                | JStr s => JStr s
                | JArr input => firstMessageContent input ["user"]
                | _ => JNull
                end in
    (tools, get "instructions" body, user)
  else if String.eqb path "/v1/completions" then (tools, JNull, get "prompt" body)
  else
    match get "messages" body with
    | JArr messages =>
        (tools, firstMessageContent messages ["system"; "developer"], firstMessageContent messages ["user"])
    | _ => (tools, JNull, JNull)
    end.

(** ** Prompt size *)

Fixpoint valueLen (v : json) : Z :=
  match v with
  | JStr s => strlen s
  | JArr l => foldr (fun e n => valueLen e + n) 0 l
  | JObj m => map_fold (fun _ e n => valueLen e + n) 0 m
  | _ => 0
  end.

Definition message_len (m : json) : Z :=
  match as_object m with Some msg => valueLen (get "content" msg) | None => 0 end.

Definition messageContentLen (v : json) : Z :=
  match v with
  | JArr l => foldr (fun m n => message_len m + n) 0 l
  | _ => valueLen v
  end.

Definition promptLen (body : object) (path : string) (tools : json) : Z :=
  valueLen tools +
  if String.eqb path "/v1/responses" then valueLen (get "instructions" body) + messageContentLen (get "input" body)
  else if String.eqb path "/v1/completions" then valueLen (get "prompt" body)
  else messageContentLen (get "messages" body).

(** ** The prefix window *)

Definition blen (b : bytes) : Z := Z.of_nat (length b).

Definition appendFramed (buf : bytes) (s : string) (budget : Z) : bytes :=
  let room := budget - blen buf - 4 in
  if room <=? 0 then buf
  else
    let s := if strlen s >? room then take (Z.to_nat room) (to_bytes s) else to_bytes s in
    buf ++ be32 (blen s) ++ s.

Definition sortedKeys {A} (m : gmap string A) : list string := merge_sort String.le (map_to_list m).*1.

Definition FormatBool (b : bool) : string := if b then "true" else "false".

Section Key.
Context (FormatFloat : float64 -> string).

(** The loops stop once the budget is spent. *)
Fixpoint appendFlattened (buf : bytes) (v : json) (budget : Z) {struct v} : bytes :=
  if blen buf >=? budget then buf
  else
    match v with
    | JNull => buf
    | JStr s => appendFramed buf s budget
    | JBool b => appendFramed buf (FormatBool b) budget
    | JFloat f => appendFramed buf (FormatFloat f) budget
    | JArr l =>
        foldl (fun buf e => if blen buf >=? budget then buf else appendFlattened buf e budget) buf l
    | JObj m =>
        let append_at := (fun e buf => appendFlattened buf e budget) <$> m in
        foldl (fun buf k =>
          if blen buf >=? budget then buf
          else
            let buf := appendFramed buf k budget in
            match append_at !! k with Some f => f buf | None => buf end) buf (sortedKeys m)
    | JNumber lit => appendFramed buf lit budget
    | JInt _ => buf
    end.

Definition flattenValue (v : json) (budget : Z) : bytes :=
  if budget <=? 0 then [] else appendFlattened [] v budget.

(** [None] is the panic of [Sum] on an oversized field. *)
Definition deriveKey (secret salt promptCacheKey : string) (tools system user : json) : option bytes :=
  let budget := prefixWindowCap in
  let toolsB := flattenValue tools budget in
  let budget := budget - blen toolsB in
  let systemB := flattenValue system budget in
  let budget := budget - blen systemB in
  let userB := flattenValue user budget in
  Sum KeyDomainTag [secret; salt; promptCacheKey; of_bytes toolsB; of_bytes systemB; of_bytes userB].

Definition ExtractRequest (body : object) (path salt : string) (s : Settings) : Request :=
  let promptCacheKey := get_string "prompt_cache_key" body in
  let '(tools, system, user) := promptFields body path in
  let n := promptLen body path tools in
  if String.eqb salt "" then MkRequest OutcomeNoSalt zeroKey n
  else if is_nil tools && is_nil system && is_nil user && String.eqb promptCacheKey "" then
    MkRequest OutcomeNoPrefix zeroKey n
  else if (n <? MinPromptBytes s) && String.eqb promptCacheKey "" then
    MkRequest OutcomeBelowFloor zeroKey n
  else
    match deriveKey (Secret s) salt promptCacheKey tools system user with
    | Some key => MkRequest OutcomeKeyed key n
    | None => MkRequest OutcomeError zeroKey n
    end.

(** ** Flattening: budget and extension *)

Lemma blen_app a b : blen (a ++ b) = blen a + blen b.
Proof. unfold blen. rewrite length_app. lia. Qed.

Lemma blen_be32 n : blen (be32 n) = 4.
Proof. done. Qed.

(** [out] extends [buf] and stays within [budget] (or adds nothing). *)
Definition extends_within (budget : Z) (buf out : bytes) : Prop :=
  (exists t, out = buf ++ t) /\ blen out <= Z.max budget (blen buf).

Lemma extends_refl budget buf : extends_within budget buf buf.
Proof. split; [exists []; by rewrite app_nil_r|lia]. Qed.

Lemma extends_trans budget a b c :
  extends_within budget a b -> extends_within budget b c -> extends_within budget a c.
Proof.
  intros [[t ->] Hb] [[u ->] Hc]. split; [exists (t ++ u); by rewrite app_assoc|].
  rewrite !blen_app in *. lia.
Qed.

Lemma appendFramed_extends buf s budget : extends_within budget buf (appendFramed buf s budget).
Proof.
  unfold appendFramed. destruct (_ <=? 0) eqn:E; bool_simp; [apply extends_refl|].
  set (p := if _ : bool then _ else _). assert (blen p <= budget - blen buf - 4).
  { subst p. unfold blen in *. case_step; rewrite ?length_take; unfold strlen in *; lia. }
  split; [by eexists|]. rewrite !blen_app, blen_be32. lia.
Qed.

Lemma appendFlattened_extends v : forall buf budget, extends_within budget buf (appendFlattened buf v budget).
Proof.
  induction v as [| | | | | |l IH|m IH] using json_ind'; intros buf budget; simpl;
    destruct (blen buf >=? budget) eqn:E; try apply extends_refl; try apply appendFramed_extends.
  - rewrite Forall_forall in IH. apply foldl_inv; [apply extends_refl|].
    intros a e He Ha. case_step. eapply extends_trans; [exact Ha|]. by apply IH.
  - apply foldl_inv; [apply extends_refl|]. intros a k Hk Ha. case_step.
    eapply extends_trans; [exact Ha|]. eapply extends_trans; [apply appendFramed_extends|].
    rewrite lookup_fmap. destruct (m !! k) as [e|] eqn:Ek; simpl; [by eapply IH|apply extends_refl].
Qed.

Lemma flattenValue_bound v budget : blen (flattenValue v budget) <= Z.max 0 budget.
Proof.
  unfold flattenValue. case_step; [unfold blen; simpl; lia|].
  destruct (appendFlattened_extends v [] budget) as [_ H]. unfold blen in *. simpl in *. lia.
Qed.

(** ** What lies beyond the window *)

(** [v] with every string cut to its first [n] bytes. *)
Fixpoint clip (n : nat) (v : json) : json :=
  match v with
  | JStr s => JStr (of_bytes (take n (to_bytes s)))
  | JArr l => JArr (map (clip n) l)
  | JObj m => JObj (clip n <$> m)
  | v => v
  end.

Lemma appendFramed_clip buf s budget n :
  budget - blen buf - 4 <= Z.of_nat n ->
  appendFramed buf (of_bytes (take n (to_bytes s))) budget = appendFramed buf s budget.
Proof.
  intros Hn. unfold appendFramed, strlen. rewrite !to_of_bytes. destruct (_ <=? 0) eqn:E0; bool_simp; [done|].
  destruct (Z.of_nat (length (to_bytes s)) >? _) eqn:E1.
  - rewrite length_take. destruct (Z.of_nat (_ `min` _) >? _) eqn:E2.
    + bool_simp. by rewrite take_take, Nat.min_l by lia.
    + bool_simp.
      replace (Z.to_nat (budget - blen buf - 4)) with n by lia. done.
  - bool_simp. rewrite take_ge by lia. destruct (_ >? _) eqn:E2; bool_simp; [lia|done].
Qed.

Lemma sortedKeys_fmap {A B} (f : A -> B) (m : gmap string A) : sortedKeys (f <$> m) = sortedKeys m.
Proof.
  unfold sortedKeys. rewrite map_to_list_fmap, <- list_fmap_compose. by f_equal.
Qed.

Lemma appendFlattened_clip v n : forall buf budget,
  budget - blen buf - 4 <= Z.of_nat n ->
  appendFlattened buf (clip n v) budget = appendFlattened buf v budget.
Proof.
  induction v as [| | | | |s|l IH|m IH] using json_ind'; intros buf budget Hn; simpl; try done;
    destruct (blen buf >=? budget) eqn:E; try done.
  - by apply appendFramed_clip.
  - clear E. revert buf Hn. induction IH as [|v l Hv _ IHl]; intros buf Hn; simpl; [done|].
    destruct (blen buf >=? budget) eqn:E; [by apply IHl|].
    rewrite Hv by done. apply IHl. destruct (appendFlattened_extends v buf budget) as [[t Ht] _].
    rewrite Ht, blen_app. unfold blen in *. lia.
  - rewrite sortedKeys_fmap. clear E. generalize (sortedKeys m). intros ks. revert buf Hn.
    induction ks as [|k ks IHk]; intros buf Hn; simpl; [done|].
    destruct (blen buf >=? budget) eqn:E; [by apply IHk|].
    set (buf' := appendFramed buf k budget).
    assert (budget - blen buf' - 4 <= Z.of_nat n) as Hn'.
    { destruct (appendFramed_extends buf k budget) as [[t Ht] _]. subst buf'. rewrite Ht, blen_app. unfold blen in *. lia. }
    rewrite !lookup_fmap. destruct (m !! k) as [e|] eqn:Ek; simpl; [|by apply IHk].
    rewrite (IH k e Ek) by done. apply IHk.
    destruct (appendFlattened_extends e buf' budget) as [[t Ht] _]. rewrite Ht, blen_app. unfold blen in *. lia.
Qed.

Lemma flattenValue_clip v budget n :
  budget - 4 <= Z.of_nat n -> flattenValue (clip n v) budget = flattenValue v budget.
Proof. intros. unfold flattenValue. case_step. apply appendFlattened_clip. unfold blen. simpl. lia. Qed.

(** ** Growing conversations *)

Definition has_role (roles : list string) (messages : list json) : Prop :=
  exists m, m ∈ messages /\ is_Some (content_of_role roles m).

Lemma firstMessageContent_app roles l l' :
  has_role roles l -> firstMessageContent (l ++ l') roles = firstMessageContent l roles.
Proof.
  intros (m & Hm & Hc). induction l as [|x l IH]; [by apply not_elem_of_nil in Hm|]. simpl.
  destruct (content_of_role roles x) eqn:Ex; [done|]. apply IH.
  apply elem_of_cons in Hm as [->|?]; [|done]. destruct Hc. congruence.
Qed.

Lemma valueLen_nonneg v : 0 <= valueLen v.
Proof.
  induction v as [| | | | |s|l IH|m IH] using json_ind'; simpl; try lia.
  - unfold strlen. lia.
  - induction IH; simpl; lia.
  - revert m IH. refine (map_fold_weak_ind (fun n m => map_Forall (fun _ v => 0 <= valueLen v) m -> 0 <= n) _ _ _ _); [done|].
    intros k v m n Hk IHm Hall. apply map_Forall_insert in Hall as [? ?]; [|done]. specialize (IHm ltac:(done)). lia.
Qed.

Lemma message_len_nonneg m : 0 <= message_len m.
Proof. unfold message_len. destruct (as_object m); [apply valueLen_nonneg|done]. Qed.

Lemma messageContentLen_app l l' : messageContentLen (JArr l) <= messageContentLen (JArr (l ++ l')).
Proof.
  simpl. rewrite foldr_app.
  assert (0 <= foldr (fun m n => message_len m + n) 0 l') as H0.
  { induction l'; simpl; [lia|]. pose proof (message_len_nonneg a). lia. }
  revert H0. generalize (foldr (fun m n => message_len m + n) 0 l'). intros z Hz.
  induction l; simpl; lia.
Qed.

(** ** Properties *)

(** The three prompt fields spend at most the window between them, and
    bytes beyond it cannot influence the key: cutting every string inside the
    tools, the system prompt and the user message to its first 1020 bytes
    leaves the key unchanged. *)
Theorem key_ignores_bytes_beyond_window secret salt pck tools system user :
  let toolsB := flattenValue tools prefixWindowCap in
  let systemB := flattenValue system (prefixWindowCap - blen toolsB) in
  let userB := flattenValue user (prefixWindowCap - blen toolsB - blen systemB) in
  blen toolsB + blen systemB + blen userB <= prefixWindowCap
  /\ deriveKey secret salt pck (clip 1020 tools) (clip 1020 system) (clip 1020 user)
     = deriveKey secret salt pck tools system user.
Proof.
  intros toolsB systemB userB.
  pose proof (flattenValue_bound tools prefixWindowCap) as Ht. fold toolsB in Ht.
  pose proof (flattenValue_bound system (prefixWindowCap - blen toolsB)) as Hs. fold systemB in Hs.
  pose proof (flattenValue_bound user (prefixWindowCap - blen toolsB - blen systemB)) as Hu. fold userB in Hu.
  assert (forall b, 0 <= blen b) by (unfold blen; lia).
  pose proof (H toolsB). pose proof (H systemB). pose proof (H userB). unfold prefixWindowCap in *.
  split; [lia|]. unfold deriveKey, prefixWindowCap.
  rewrite (flattenValue_clip tools) by lia. fold toolsB.
  rewrite (flattenValue_clip system) by lia. fold systemB. by rewrite (flattenValue_clip user) by lia.
Qed.

(** Two requests share a routing key only if they agree on the secret, the
    salt, the [prompt_cache_key] and the flattened window of each of the three
    fields, or SHA-256 collides on two explicit messages. *)
Theorem routing_key_separates s1 salt1 p1 t1 y1 u1 s2 salt2 p2 t2 y2 u2 k :
  deriveKey s1 salt1 p1 t1 y1 u1 = Some k -> deriveKey s2 salt2 p2 t2 y2 u2 = Some k ->
  let tB t := flattenValue t prefixWindowCap in
  let yB t y := flattenValue y (prefixWindowCap - blen (tB t)) in
  let uB t y u := flattenValue u (prefixWindowCap - blen (tB t) - blen (yB t y)) in
  (s1 = s2 /\ salt1 = salt2 /\ p1 = p2 /\ tB t1 = tB t2 /\ yB t1 y1 = yB t2 y2 /\ uB t1 y1 u1 = uB t2 y2 u2)
  \/ exists a b, collision a b.
Proof.
  intros H1 H2 tB yB uB. destruct (Sum_inj_or_collision _ _ _ _ H1 H2) as [H|H]; [left|by right].
  injection H as -> -> -> Ht Hy Hu. by apply of_bytes_inj in Ht, Hy, Hu.
Qed.

(** A growing conversation keeps its routing key. If a chat request with a
    system (or developer) message and a user message is keyed, then so is every
    later request of the conversation, with the same key: messages appended at
    the end and any other body field (sampling parameters included) do not
    matter. *)
Theorem growing_conversation_keeps_key (body body' : object) msgs more path salt s :
  path <> "/v1/responses" -> path <> "/v1/completions" ->
  get "messages" body = JArr msgs -> get "messages" body' = JArr (msgs ++ more) ->
  get "tools" body' = get "tools" body -> get "prompt_cache_key" body' = get "prompt_cache_key" body ->
  has_role ["system"; "developer"] msgs -> has_role ["user"] msgs ->
  req_Outcome (ExtractRequest body path salt s) = OutcomeKeyed ->
  req_Outcome (ExtractRequest body' path salt s) = OutcomeKeyed
  /\ req_Key (ExtractRequest body' path salt s) = req_Key (ExtractRequest body path salt s).
Proof.
  intros Hp1 Hp2 Hm Hm' Ht Hk Hsys Husr. unfold ExtractRequest, promptFields, promptLen, get_string.
  apply String.eqb_neq in Hp1, Hp2. rewrite Hp1, Hp2, Hm, Hm', Ht, Hk, !firstMessageContent_app by done.
  pose proof (messageContentLen_app msgs more).
  generalize dependent (messageContentLen (JArr (msgs ++ more))). generalize (messageContentLen (JArr msgs)).
  intros n n' Hn. set (pck := default "" _). destruct (String.eqb salt ""); [done|].
  destruct (is_nil _ && _ && _ && _); [done|]. destruct (String.eqb pck ""); rewrite ?andb_false_r, ?andb_true_r.
  - destruct (_ + n <? _) eqn:E1; [done|]. bool_simp. destruct (_ + n' <? _) eqn:E2; bool_simp; [lia|].
    by destruct (deriveKey _ _ _ _ _ _).
  - by destruct (deriveKey _ _ _ _ _ _).
Qed.

End Key.

(** ** Test vectors ([TestDeriveKeyPinned], [TestDeriveKeyPinnedSecret]) and witnesses *)

Definition msg (role content : string) : json := JObj {["role" := JStr role; "content" := JStr content]}.
Definition pinned_messages : list json := [msg "system" "sys prompt"; msg "user" "user prompt"].
Definition pinned_body : object := {["messages" := JArr pinned_messages; "prompt_cache_key" := JStr "group-1"]}.
Definition testSalt : string := "0000000000000000000000000000000000000000000".
Definition pinned_settings (secret : string) : Settings :=
  Build_Settings ModeShadow DefaultRetention 1 DefaultSplitThresholdRPM 0 secret.

Example deriveKey_pinned :
  let r := ExtractRequest (fun _ => "") pinned_body "/v1/chat/completions" testSalt (pinned_settings "") in
  req_Outcome r = OutcomeKeyed
  /\ hex_encode (req_Key r) = "f3f6287264aaf4d7fe1a8ded41fdf7e78b7ebac31ebe0e15fc029599ccd6b4e4".
Proof. vm_compute. by split. Qed.

Example deriveKey_pinned_secret :
  let r := ExtractRequest (fun _ => "") pinned_body "/v1/chat/completions" testSalt
             (pinned_settings "test-routing-secret-0123456789abcdef") in
  hex_encode (req_Key r) = "6e6be0988ec76eb2e5d4c4b23ae0a4cecadcf4fbd27911570e164b894b6bf0a3".
Proof. by vm_compute. Qed.

Lemma routing_key_separates_witness :
  let k := Sum KeyDomainTag [""; "s"; ""; ""; ""; of_bytes (lp "hi")] in
  is_Some k /\ (("s" = "s") \/ exists a b, collision a b).
Proof.
  split; [vm_compute; by eexists|].
  destruct (Sum KeyDomainTag [""; "s"; ""; ""; ""; of_bytes (lp "hi")]) as [k|] eqn:E; [|by left].
  destruct (routing_key_separates (fun _ => "") "" "s" "" JNull JNull (JStr "hi") "" "s" "" JNull JNull (JStr "hi") k)
    as [(_ & H & _)|H]; [exact E|exact E|by left|by right].
Defined.

Lemma growing_conversation_keeps_key_witness :
  req_Outcome (ExtractRequest (fun _ => "")
    {["messages" := JArr (pinned_messages ++ [msg "assistant" "hello"; msg "user" "more"]);
      "prompt_cache_key" := JStr "group-1"; "temperature" := JFloat f64_zero]}
    "/v1/chat/completions" testSalt (pinned_settings "")) = OutcomeKeyed.
Proof.
  apply (growing_conversation_keeps_key (fun _ => "") pinned_body _ pinned_messages [msg "assistant" "hello"; msg "user" "more"]);
    [done|done|reflexivity|reflexivity|reflexivity|reflexivity| | |vm_compute; reflexivity].
  - exists (msg "system" "sys prompt"). split; [left|by eexists].
  - exists (msg "user" "user prompt"). split; [right; left|by eexists].
Defined.
