(* ===== verification/Shadow.v ===== *)
(** * The cache-aware routing table ([cacheroute/shadow.go])

    The bounded, evicting table of routing keys with its per-retention LRU
    lists and per-group counts, the routing decision, the landing observation
    and the sweeper.

    A [container/list] list is the list of its table keys, front first: a key
    has one element, so [MoveToFront] and [Remove] act on the key.  Where Go
    ranges over the map of lists, the order is an argument.  Every access that
    would panic is [None]; [observeKeyed_total] and [sweep] below show that
    reachable tables never do.  Prometheus counters become the list of
    increments a call makes; timings ([elapsed]) are left out. *)

From S2P Require Import Prelude Float64 Sha256 Hrw CacheKey.
#[local] Open Scope string_scope.
#[local] Open Scope list_scope.
#[local] Open Scope Z_scope.

(** ** Data *)

Definition DefaultMaxKeys : Z := 100000.
Definition retentionFactor : Z := 4.
Definition sweepChunk : Z := 1024.

Inductive Reuse := ReuseFirstSeen | ReuseRepeatWarm | ReuseRepeatCold.

Record group := Group { g_model : string; g_home : string; g_r : Z }.

#[export] Instance group_eq_dec : EqDecision group.
Proof. solve_decision. Defined.

#[export] Instance group_countable : Countable group.
Proof.
  refine (inj_countable' (fun g => (g_model g, g_home g, g_r g)) (fun '(m, h, r) => Group m h r) _).
  by intros [].
Defined.

Record entry := Entry {
  e_model : string;
  lastSeen : Z;
  expiry : Z;
  warm : gmap string Z;
  windowStart : Z;
  prevCount : Z;
  curCount : Z;
  e_home : string;
  e_r : Z;
  e_retention : Z
}.

Record Shadow := MkShadow {
  entries : gmap string entry;
  lists : gmap Z (list string);
  counts : gmap group Z;
  maxKeys : Z
}.

Record Decision := MkDecision {
  Order : list string;
  d_pool : Pool;
  d_home : string;
  d_r : Z;
  d_demoted : bool
}.

Record keyedResult := KeyedResult {
  reuse : Reuse;
  repeat_ : bool;
  interval : Z;
  rpm : float64;
  pick : string;
  demoted : bool;
  r_ : Z
}.

Definition NewShadow (maxKeys : Z) : Shadow := MkShadow ∅ ∅ ∅ maxKeys.

(** [model + "\x00" + string(key[:])] *)
Definition tableKey (model : string) (key : Key) : string := model +:+ String Ascii.zero (of_bytes key).

(** ** Sliding-window request rate *)

(** [Duration.Seconds] *)
Definition Seconds (d : Z) : float64 :=
  f64_add (f64_of_int (Z.quot d Second)) (f64_div (f64_of_int (Z.rem d Second)) (f64_of_int 1000000000)).

Definition window_frac (now : Z) : float64 :=
  f64_div (Seconds (time_sub now (truncate_minute now))) (f64_of_int 60).

Definition interpolate (prev cur : Z) (frac : float64) : float64 :=
  f64_add (f64_mul (f64_of_int prev) (f64_sub (f64_of_int 1) frac)) (f64_of_int cur).

Definition set_window (e : entry) (start prev cur : Z) : entry :=
  Entry (e_model e) (lastSeen e) (expiry e) (warm e) start prev cur (e_home e) (e_r e) (e_retention e).

Definition bumpRate (e : entry) (now : Z) : entry * float64 :=
  let minute := truncate_minute now in
  let e :=
    if windowStart e =? minute then set_window e (windowStart e) (prevCount e) (curCount e + 1)
    else if time_sub minute (windowStart e) =? Minute then set_window e minute (curCount e) 1
    else set_window e minute 0 1 in
  (e, interpolate (prevCount e) (curCount e) (window_frac now)).

Definition entry_peekRate (e : entry) (now : Z) : float64 :=
  let minute := truncate_minute now in
  let frac := window_frac now in
  if windowStart e =? minute then interpolate (prevCount e) (curCount e) frac
  else if time_sub minute (windowStart e) =? Minute then
    f64_mul (f64_of_int (curCount e)) (f64_sub (f64_of_int 1) frac)
  else f64_zero.

Definition peekRate (s : Shadow) (model : string) (key : Key) (now : Z) : float64 :=
  match entries s !! tableKey model key with
  | Some e => entry_peekRate e now
  | None => f64_zero
  end.

(** ** Table maintenance (callers hold [s.mu]) *)

Definition dec_count (g : group) (counts : gmap group Z) : gmap group Z :=
  let n := default 0 (counts !! g) - 1 in
  if n <=? 0 then delete g counts else <[g := n]> counts.

Definition inc_count (g : group) (counts : gmap group Z) : gmap group Z :=
  <[g := default 0 (counts !! g) + 1]> counts.

Definition shiftCountLocked (counts : gmap group Z) (model oldHome : string) (oldR : Z) (newHome : string) (newR : Z)
  : gmap group Z :=
  if String.eqb oldHome newHome && (oldR =? newR) then counts
  else
    let counts := if String.eqb oldHome "" then counts else dec_count (Group model oldHome oldR) counts in
    if String.eqb newHome "" then counts else inc_count (Group model newHome newR) counts.

Definition remove_key (k : string) (l : list string) : list string := filter (fun x => x <> k) l.

(** [listFor(retention).PushFront(k)] *)
Definition push_front (k : string) (retention : Z) (lists : gmap Z (list string)) : gmap Z (list string) :=
  <[retention := k :: default [] (lists !! retention)]> lists.

(** The entry's retention field changes with it; the caller stores the entry. *)
Definition touchLocked (lists : gmap Z (list string)) (k : string) (e : entry) (retention : Z) : gmap Z (list string) :=
  if e_retention e =? retention then alter (fun l => k :: remove_key k l) (e_retention e) lists
  else push_front k retention (alter (remove_key k) (e_retention e) lists).

Definition evictLocked (s : Shadow) (k : string) : option Shadow :=
  e ← entries s !! k;
  Some (MkShadow (delete k (entries s)) (alter (remove_key k) (e_retention e) (lists s))
          (shiftCountLocked (counts s) (e_model e) (e_home e) (e_r e) "" 0) (maxKeys s)).

(** The least recently seen among the back elements of the lists; [order] is
    the order Go ranges over the lists in. *)
Fixpoint oldest_back (s : Shadow) (order : list Z) (oldest : option (string * Z)) : option (option (string * Z)) :=
  match order with
  | [] => Some oldest
  | retention :: order =>
      match lists s !! retention ≫= last with
      | None => oldest_back s order oldest
      | Some back =>
          e ← entries s !! back;
          let seen := lastSeen e in
          let replace := match oldest with None => true | Some (_, oldestSeen) => seen <? oldestSeen end in
          oldest_back s order (if replace then Some (back, seen) else oldest)
      end
  end.

Definition zeroEntry (model : string) (retention : Z) : entry :=
  Entry model time_zero time_zero ∅ time_zero 0 0 "" 0 retention.

Definition evict_oldest (order : list Z) (s : Shadow) : option Shadow :=
  if Z.of_nat (size (entries s)) >=? maxKeys s then
    oldest ← oldest_back s order None;
    match oldest with
    | Some (back, _) => evictLocked s back
    | None => Some s
    end
  else Some s.

Definition insertLocked (order : list Z) (s : Shadow) (model k : string) (retention : Z) : option (Shadow * entry) :=
  s ← evict_oldest order s;
  let e := zeroEntry model retention in
  Some (MkShadow (<[k := e]> (entries s)) (push_front k retention (lists s)) (counts s) (maxKeys s), e).

Section Engine.
Context (xxhash64 : bytes -> Z) (int_out_of_range : float64 -> Z).

(** ** Decisions *)

Definition over_cap (ranked : list Candidate) (delta limit : Z) (pick : string) : list string :=
  let others := filter (fun c => c_Host c <> pick) ranked in
  if delta >=? 0 then
    map c_Host (filter (fun c => InFlight c <= limit) others) ++ map c_Host (filter (fun c => limit < InFlight c) others)
  else map c_Host others.

Definition Decide (s : Shadow) (now : Z) (model : string) (req : option Request) (pool : Pool) (cfg : Settings)
  : option Decision :=
  req ← req;
  if negb (bool_decide (req_Outcome req = OutcomeKeyed)) || (Size pool <? 2)
     || (Z.of_nat (length (Candidates pool)) =? 0) then None
  else
    let ranked := rank xxhash64 (req_Key req) (Candidates pool) in
    let r := replicationFactor int_out_of_range (peekRate s model (req_Key req) now) (SplitThresholdRPM cfg)
               (Z.of_nat (length ranked)) in
    pd ← cappedPick ranked r (MaxInflightDelta cfg);
    m ← minInFlight ranked;
    home ← head ranked;
    Some {| Order := pd.1 :: over_cap ranked (MaxInflightDelta cfg) (wrap64 (m + MaxInflightDelta cfg)) pd.1;
            d_pool := pool; d_home := c_Host home; d_r := r; d_demoted := pd.2 |}.

(** ** Observations *)

Definition prune_warm (now retention : Z) (w : gmap string Z) : gmap string Z :=
  filter (fun p => time_sub now p.2 <= retention) w.

Definition classify (w : gmap string Z) (actualHost : string) : Reuse :=
  if Z.of_nat (size w) =? 0 then ReuseFirstSeen
  else if negb (IsZero (default time_zero (w !! actualHost))) then ReuseRepeatWarm
  else ReuseRepeatCold.

(** The lookup branch of [observeKeyed]: the table, the entry being updated,
    and the [reuse], [repeat] and [interval] results. *)
Definition lookup_or_insert (order : list Z) (s : Shadow) (now : Z) (model k actualHost : string) (cfg : Settings)
  : option (Shadow * entry * (Reuse * bool * Z)) :=
  match entries s !! k with
  | None =>
      se ← insertLocked order s model k (Retention cfg);
      Some (se.1, se.2, (ReuseFirstSeen, false, 0))
  | Some e =>
      let ls := touchLocked (lists s) k e (Retention cfg) in
      let w := prune_warm now (Retention cfg) (warm e) in
      let e' := Entry (e_model e) (lastSeen e) (expiry e) w (windowStart e) (prevCount e) (curCount e)
                  (e_home e) (e_r e) (Retention cfg) in
      Some (MkShadow (<[k := e']> (entries s)) ls (counts s) (maxKeys s), e',
            (classify w actualHost, true, time_sub now (lastSeen e)))
  end.

(** The decision's home and factor, or the shadow simulation of them:
    (home, r, demoted, pick). *)
Definition home_and_pick (key : Key) (candidates : list Candidate) (d : option Decision) (rpm : float64) (cfg : Settings)
  : option (string * Z * bool * string) :=
  match d with
  | Some d => Some (d_home d, d_r d, d_demoted d, "")
  | None =>
      let ranked := rank xxhash64 key candidates in
      let r := replicationFactor int_out_of_range rpm (SplitThresholdRPM cfg) (Z.of_nat (length ranked)) in
      pd ← cappedPick ranked r (MaxInflightDelta cfg);
      home ← head ranked;
      Some (c_Host home, r, pd.2, pd.1)
  end.

Definition observeKeyed (order : list Z) (s : Shadow) (now : Z) (model : string) (key : Key) (candidates : list Candidate)
    (actualHost : string) (d : option Decision) (cfg : Settings) : option (Shadow * keyedResult) :=
  let k := tableKey model key in
  se ← lookup_or_insert order s now model k actualHost cfg;
  let '(s, e, (reuse, repeat_, interval)) := se in
  let '(e, rpm) := bumpRate e now in
  hp ← home_and_pick key candidates d rpm cfg;
  let '(home, r, demoted, pick) := hp in
  let counts := shiftCountLocked (counts s) model (e_home e) (e_r e) home r in
  let e := Entry (e_model e) now (now + wrap64 (retentionFactor * Retention cfg)) (<[actualHost := now]> (warm e))
             (windowStart e) (prevCount e) (curCount e) home r (e_retention e) in
  Some (MkShadow (<[k := e]> (entries s)) (lists s) counts (maxKeys s),
        KeyedResult reuse repeat_ interval rpm pick demoted r).

(** The counters and histograms one observation feeds. *)
Inductive metric :=
  | RequestsTotal (o : Outcome)
  | ReuseTotal (u : Reuse)
  | ReusePromptBytesTotal (u : Reuse) (n : Z)
  | RepeatIntervalSeconds (d : Z)
  | KeyRPM (f : float64)
  | LoadDemotionsTotal
  | PicksTotal (host : string) (r : Z)
  | RandomMatchTotal.

Definition hostIn (candidates : list Candidate) (host : string) : bool :=
  existsb (fun c => String.eqb (c_Host c) host) candidates.

Definition pick_metrics (res : keyedResult) (candidates : list Candidate) (actualHost : string) (d : option Decision)
    (cfg : Settings) : list metric :=
  if negb (hostIn candidates actualHost) then []
  else if match d with Some _ => true | None => bool_decide (s_Mode cfg = ModeEnforced) end then
    [PicksTotal actualHost (r_ res)]
  else PicksTotal (pick res) (r_ res) :: (if String.eqb (pick res) actualHost then [RandomMatchTotal] else []).

(** A panic of [observeKeyed] is recovered into [OutcomeError]. *)
Definition observe (order : list Z) (s : Shadow) (now : Z) (model : string) (req : option Request) (pool : Pool)
    (actualHost : string) (d : option Decision) (cfg : Settings) : Shadow * list metric :=
  match req with
  | None => (s, [RequestsTotal OutcomeError])
  | Some req =>
      if negb (bool_decide (req_Outcome req = OutcomeKeyed)) then (s, [RequestsTotal (req_Outcome req)])
      else if Size pool <? 2 then (s, [RequestsTotal OutcomePoolTooSmall])
      else if Z.of_nat (length (Candidates pool)) =? 0 then (s, [RequestsTotal OutcomePoolTooSmall])
      else
        match observeKeyed order s now model (req_Key req) (Candidates pool) actualHost d cfg with
        | None => (s, [RequestsTotal OutcomeError])
        | Some (s, res) =>
            (s, [RequestsTotal OutcomeKeyed; ReuseTotal (reuse res); ReusePromptBytesTotal (reuse res) (PromptBytes req)]
                ++ (if repeat_ res then [RepeatIntervalSeconds (interval res)] else [])
                ++ [KeyRPM (rpm res)]
                ++ (if demoted res then [LoadDemotionsTotal] else [])
                ++ pick_metrics res (Candidates pool) actualHost d cfg)
        end
  end.

Definition Observe order s now model req pool actualHost cfg :=
  observe order s now model req pool actualHost None cfg.

Definition ObserveLanding order s now model req (d : Decision) actualHost cfg :=
  observe order s now model req (d_pool d) actualHost (Some d) cfg.

End Engine.

(** ** Sweeping *)

(** Pops expired entries from the back of one list while the chunk lasts;
    [fuel] bounds the list's length. *)
Fixpoint sweep_list (fuel : nat) (s : Shadow) (now retention evicted : Z) : option (Shadow * Z) :=
  match fuel with
  | O => Some (s, evicted)
  | S fuel =>
      if evicted >=? sweepChunk then Some (s, evicted)
      else
        match lists s !! retention ≫= last with
        | None => Some (s, evicted)
        | Some back =>
            e ← entries s !! back;
            if expiry e >? now then Some (s, evicted)
            else s ← evictLocked s back; sweep_list fuel s now retention (evicted + 1)
        end
  end.

Definition drop_if_empty (retention : Z) (s : Shadow) : Shadow :=
  match lists s !! retention with
  | Some [] => MkShadow (entries s) (delete retention (lists s)) (counts s) (maxKeys s)
  | _ => s
  end.

(** One lock acquisition: every list in the order Go ranges over them. *)
Fixpoint sweep_pass (order : list Z) (s : Shadow) (now evicted : Z) : option (Shadow * Z) :=
  match order with
  | [] => Some (s, evicted)
  | retention :: order =>
      se ← sweep_list (S (length (default [] (lists s !! retention)))) s now retention evicted;
      sweep_pass order (drop_if_empty retention se.1) now se.2
  end.

(** The outer loop; [clock i] is the time read by pass [i] and [iter] the order
    a pass ranges over the lists in. The result carries the last pass. *)
Fixpoint sweep (iter : gmap Z (list string) -> list Z) (clock : nat -> Z) (fuel pass : nat) (s : Shadow)
  : option (Shadow * nat) :=
  match fuel with
  | O => None
  | S fuel =>
      se ← sweep_pass (iter (lists s)) s (clock pass) 0;
      if se.2 <? sweepChunk then Some (se.1, pass) else sweep iter clock fuel (S pass) se.1
  end.

(** ** Collection: one sample per group *)
Definition Collect (s : Shadow) : list (group * Z) := map_to_list (counts s).
