(* ===== verification/ShadowInv.v ===== *)
(** * Invariants of the cache-aware routing table ([cacheroute/shadow.go])

    The LRU lists partition the table and are in order of last sighting (so in
    order of expiry), the group counts are the sizes of the groups, the table
    respects its capacity; every operation preserves this under a clock that
    does not run backwards, capacity evictions take the least recently seen
    key, and a sweep removes exactly the expired entries. *)

From S2P Require Import Prelude Float64 Sha256 Hrw CacheKey Shadow.
#[local] Open Scope string_scope.
#[local] Open Scope list_scope.
#[local] Open Scope Z_scope.

Implicit Types (m : gmap string entry) (ls : gmap Z (list string)).

(** ** The invariant *)

(** [b] was last seen no later than [a]. *)
Definition older m (a b : string) : Prop :=
  forall ea eb, m !! a = Some ea -> m !! b = Some eb -> lastSeen eb <= lastSeen ea.

Definition entry_ok (t : Z) (k : string) (e : entry) : Prop :=
  lastSeen e <= t /\ expiry e = lastSeen e + wrap64 (retentionFactor * e_retention e)
  /\ exists key, length key = 32%nat /\ k = tableKey (e_model e) key.

Record table_ok (t : Z) m ls : Prop := {
  tk_entry : forall k e, m !! k = Some e -> entry_ok t k e;
  tk_listed : forall k e, m !! k = Some e -> exists l, ls !! e_retention e = Some l /\ k ∈ l;
  tk_tabled : forall r l k, ls !! r = Some l -> k ∈ l -> exists e, m !! k = Some e /\ e_retention e = r;
  tk_nodup : forall r l, ls !! r = Some l -> NoDup l;
  tk_lru : forall r l, ls !! r = Some l -> StronglySorted (older m) l
}.

(** The gauge series an entry belongs to. *)
Definition series (model home : string) (r : Z) : option group :=
  if String.eqb home "" then None else Some (Group model home r).
Definition series_of (e : entry) : option group := series (e_model e) (e_home e) (e_r e).

Definition tracked m (g : group) : nat := size (filter (fun p => series_of p.2 = Some g) m).
Definition pos_count (n : nat) : option Z := if decide (n = 0%nat) then None else Some (Z.of_nat n).
Definition counts_ok (f : group -> nat) (c : gmap group Z) : Prop := forall g, c !! g = pos_count (f g).

Record Inv (t : Z) (s : Shadow) : Prop := {
  inv_table : table_ok t (entries s) (lists s);
  inv_counts : counts_ok (tracked (entries s)) (counts s);
  inv_size : Z.of_nat (size (entries s)) <= Z.max 1 (maxKeys s)
}.

(** ** Lists of keys *)

Lemma elem_of_remove_key x k l : x ∈ remove_key k l <-> x <> k /\ x ∈ l.
Proof. unfold remove_key. by rewrite list_elem_of_filter. Qed.

Lemma older_subseteq m m' a b : m' ⊆ m -> older m a b -> older m' a b.
Proof. intros Hs H ea eb Ha Hb. eapply H; by eapply lookup_weaken. Qed.

(** ** The table and its lists *)

Lemma table_ok_detach t m ls k e :
  table_ok t m ls -> m !! k = Some e -> table_ok t (delete k m) (alter (remove_key k) (e_retention e) ls).
Proof.
  intros [He Hl Ht Hn Hr] Hk. pose proof (delete_subseteq m k) as Hsub. split.
  - intros k' e' H. apply He. by eapply lookup_weaken.
  - intros k' e' H. apply lookup_delete_Some in H as [Hne H]. destruct (Hl _ _ H) as (l & Hls & Hin).
    destruct (decide (e_retention e' = e_retention e)) as [Heq|Hr'].
    + rewrite Heq in *. exists (remove_key k l). rewrite lookup_alter_eq, Hls. split; [done|]. by apply elem_of_remove_key.
    + exists l. by rewrite lookup_alter_ne.
  - intros r l k' Hls Hin. apply lookup_alter_Some in Hls as [(<- & l0 & Hl0 & ->)|(Hne & Hls)].
    + apply elem_of_remove_key in Hin as [Hkk Hin]. destruct (Ht _ _ _ Hl0 Hin) as (e' & ? & ?).
      exists e'. by rewrite lookup_delete_ne.
    + destruct (Ht _ _ _ Hls Hin) as (e' & Hm & He'). exists e'. split; [|done].
      rewrite lookup_delete_ne; [done|]. intros ->. congruence.
  - intros r l Hls. apply lookup_alter_Some in Hls as [(<- & l0 & Hl0 & ->)|(Hne & Hls)]; [|eauto].
    apply NoDup_filter. eauto.
  - intros r l Hls. apply lookup_alter_Some in Hls as [(<- & l0 & Hl0 & ->)|(Hne & Hls)].
    + eapply StronglySorted_impl_elem; [|eapply filter_StronglySorted, Hr, Hl0].
      intros a b _ _. by apply older_subseteq.
    + eapply StronglySorted_impl_elem; [|by eapply Hr]. intros a b _ _. by apply older_subseteq.
Qed.

Lemma table_ok_attach t now m ls k e :
  table_ok t m ls -> m !! k = None -> t <= now -> lastSeen e = now -> entry_ok now k e ->
  table_ok now (<[k := e]> m) (push_front k (e_retention e) ls).
Proof.
  intros [He Hl Ht Hn Hr] Hk Htn Hseen Hok. unfold push_front.
  assert (Hfresh : forall r l, ls !! r = Some l -> k ∉ l).
  { intros r l Hls Hin. destruct (Ht _ _ _ Hls Hin) as (? & ? & _). congruence. }
  assert (Hlru : forall r l, ls !! r = Some l -> StronglySorted (older (<[k := e]> m)) l).
  { intros r l Hls. eapply StronglySorted_impl_elem; [|by eapply Hr].
    intros a b Ha Hb Hab ea eb. specialize (Hfresh _ _ Hls).
    rewrite !lookup_insert_ne by (intros ->; done). apply Hab. }
  split.
  - intros k' e' H. apply lookup_insert_Some in H as [(<- & <-)|(Hne & H)]; [done|].
    destruct (He _ _ H) as (? & ? & ?). split; [lia|done].
  - intros k' e' H. apply lookup_insert_Some in H as [(<- & <-)|(Hne & H)].
    + eexists. rewrite lookup_insert_eq. split; [done|]. left.
    + destruct (Hl _ _ H) as (l & Hls & Hin). destruct (decide (e_retention e = e_retention e')) as [Heq|].
      * eexists. rewrite Heq, lookup_insert_eq. split; [done|]. rewrite Hls. by right.
      * exists l. by rewrite lookup_insert_ne.
  - intros r l k' Hls Hin. apply lookup_insert_Some in Hls as [(<- & <-)|(Hne & Hls)].
    + apply elem_of_cons in Hin as [->|Hin]; [exists e; by rewrite lookup_insert_eq|].
      destruct (ls !! e_retention e) as [l|] eqn:Hls; simpl in Hin; [|by apply not_elem_of_nil in Hin].
      destruct (Ht _ _ _ Hls Hin) as (e' & ? & ?). exists e'. rewrite lookup_insert_ne; [done|]. by intros ->; eapply Hfresh.
    + destruct (Ht _ _ _ Hls Hin) as (e' & ? & ?). exists e'. rewrite lookup_insert_ne; [done|]. by intros ->; eapply Hfresh.
  - intros r l Hls. apply lookup_insert_Some in Hls as [(<- & <-)|(Hne & Hls)]; [|eauto].
    destruct (ls !! e_retention e) as [l|] eqn:Hls; simpl; [|repeat constructor; by apply not_elem_of_nil].
    constructor; [by eapply Hfresh|by eapply Hn].
  - intros r l Hls. apply lookup_insert_Some in Hls as [(<- & <-)|(Hne & Hls)]; [|eauto].
    destruct (ls !! e_retention e) as [l|] eqn:Hls; simpl; [|repeat constructor].
    constructor; [by eapply Hlru|]. apply Forall_forall. intros b Hb ea eb.
    rewrite lookup_insert_eq. intros [= <-]. rewrite lookup_insert_ne by (by intros ->; eapply Hfresh).
    intros Hm. destruct (He _ _ Hm) as (? & _). lia.
Qed.

Lemma touch_push_front t m ls k e r :
  table_ok t m ls -> m !! k = Some e ->
  touchLocked ls k e r = push_front k r (alter (remove_key k) (e_retention e) ls).
Proof.
  intros [He Hl Ht Hn Hr] Hk. unfold touchLocked. case_step. subst r. unfold push_front.
  destruct (Hl _ _ Hk) as (l & Hls & _). rewrite lookup_alter_eq, Hls. simpl.
  apply map_eq. intros i. destruct (decide (i = e_retention e)) as [->|].
  - by rewrite lookup_alter_eq, lookup_insert_eq, Hls.
  - by rewrite lookup_alter_ne, lookup_insert_ne, lookup_alter_ne.
Qed.

(** ** Group counts *)

Definition indicator (o : option group) (g : group) : nat := if decide (o = Some g) then 1 else 0.

Lemma tracked_insert m k e g :
  m !! k = None -> tracked (<[k := e]> m) g = (tracked m g + indicator (series_of e) g)%nat.
Proof.
  intros Hk. unfold tracked, indicator. rewrite map_filter_insert. simpl. case_decide as Hs.
  - rewrite map_size_insert_None; [lia|]. apply map_lookup_filter_None. by left.
  - rewrite delete_id by done. lia.
Qed.

Lemma tracked_delete m k e g :
  m !! k = Some e -> tracked m g = (tracked (delete k m) g + indicator (series_of e) g)%nat.
Proof.
  intros Hk. rewrite <- (insert_delete_id m k e Hk) at 1. apply tracked_insert. by rewrite lookup_delete_eq.
Qed.

Lemma pos_count_dec n : default 0 (pos_count n) = Z.of_nat n.
Proof. unfold pos_count. case_decide; simpl; lia. Qed.

Lemma dec_count_ok f c g :
  counts_ok f c -> (1 <= f g)%nat -> counts_ok (fun g' => (f g' - indicator (Some g) g')%nat) (dec_count g c).
Proof.
  intros Hc Hg g'. unfold dec_count, indicator. rewrite Hc, pos_count_dec.
  destruct (decide (Some g = Some g')) as [[= <-]|Hne].
  - case_step; [rewrite lookup_delete_eq|rewrite lookup_insert_eq]; unfold pos_count; case_decide; simplify_option_eq; try done; try lia. rewrite Hc, pos_count_dec. f_equal. lia.
  - rewrite Nat.sub_0_r. case_step; [rewrite lookup_delete_ne|rewrite lookup_insert_ne]; auto; congruence.
Qed.

Lemma inc_count_ok f c g :
  counts_ok f c -> counts_ok (fun g' => (f g' + indicator (Some g) g')%nat) (inc_count g c).
Proof.
  intros Hc g'. unfold inc_count, indicator. rewrite Hc, pos_count_dec.
  destruct (decide (Some g = Some g')) as [[= <-]|Hne].
  - rewrite lookup_insert_eq. unfold pos_count. case_decide; [lia|]. f_equal. lia.
  - rewrite Nat.add_0_r, lookup_insert_ne by congruence. apply Hc.
Qed.

Lemma counts_ok_ext f f' c : (forall g, f g = f' g) -> counts_ok f c -> counts_ok f' c.
Proof. intros Hf Hc g. by rewrite <- Hf. Qed.

(** Moving an entry between series. *)
Lemma shiftCount_ok f c model oh or nh nr :
  counts_ok f c -> (forall g, series model oh or = Some g -> (1 <= f g)%nat) ->
  counts_ok (fun g => (f g - indicator (series model oh or) g + indicator (series model nh nr) g)%nat)
    (shiftCountLocked c model oh or nh nr).
Proof.
  intros Hc Hold. unfold shiftCountLocked. destruct (String.eqb oh nh && (or =? nr)) eqn:E.
  - bool_simp. apply String.eqb_eq in H as ->. subst. eapply counts_ok_ext; [|exact Hc].
    intros g. unfold indicator. case_decide as Hs; [specialize (Hold g Hs)|]; lia.
  - clear E. assert (counts_ok (fun g => (f g - indicator (series model oh or) g)%nat)
              (if String.eqb oh "" then c else dec_count (Group model oh or) c)) as Hc'.
    { unfold series in *. destruct (String.eqb oh ""); [|apply dec_count_ok; eauto].
      eapply counts_ok_ext; [|exact Hc]. intros g. unfold indicator. case_decide; [done|lia]. }
    revert Hc'. generalize (if String.eqb oh "" then c else dec_count (Group model oh or) c). intros c' Hc'.
    unfold series at 2. destruct (String.eqb nh "").
    + eapply counts_ok_ext; [|exact Hc']. intros g. simpl. unfold indicator. case_decide; done || lia.
    + by apply (inc_count_ok (fun g => (f g - indicator (series model oh or) g)%nat)).
Qed.

Lemma tracked_pos m k e g : m !! k = Some e -> series_of e = Some g -> (1 <= tracked m g)%nat.
Proof.
  intros Hk Hs. rewrite (tracked_delete m k e g Hk). unfold indicator. case_decide; [lia|done].
Qed.

(** ** Eviction *)

Lemma evictLocked_ok t s k e :
  Inv t s -> entries s !! k = Some e ->
  exists s', evictLocked s k = Some s' /\ Inv t s' /\ entries s' = delete k (entries s) /\ maxKeys s' = maxKeys s.
Proof.
  intros [Ht Hc Hs] Hk. unfold evictLocked. rewrite Hk. simpl. eexists. split; [done|]. split; [|done].
  split; simpl; [by apply table_ok_detach| |].
  - eapply counts_ok_ext; [|apply (shiftCount_ok _ _ (e_model e) (e_home e) (e_r e) "" 0 Hc)].
    + intros g. simpl. rewrite (tracked_delete _ _ _ g Hk). unfold series_of, indicator at 3.
      case_decide; [done|]. lia.
    + intros g Hg. by eapply tracked_pos.
  - rewrite map_size_delete_Some by done. lia.
Qed.

(** What the scan for the eviction victim keeps true of the lists it has seen. *)
Definition scan_ok (s : Shadow) (seen : list Z) (acc : option (string * Z)) : Prop :=
  (forall b t0, acc = Some (b, t0) -> exists e, entries s !! b = Some e /\ lastSeen e = t0)
  /\ (forall k e, entries s !! k = Some e -> e_retention e ∈ seen ->
        exists b t0, acc = Some (b, t0) /\ t0 <= lastSeen e).

Lemma list_back_oldest t m ls r l back eb :
  table_ok t m ls -> ls !! r = Some l -> last l = Some back -> m !! back = Some eb ->
  forall k e, m !! k = Some e -> e_retention e = r -> lastSeen eb <= lastSeen e.
Proof.
  intros Hok Hl Hb Heb k e Hk Hr. destruct (tk_listed _ _ _ Hok _ _ Hk) as (l' & Hl' & Hin).
  rewrite Hr, Hl in Hl'. injection Hl' as <-.
  destruct (StronglySorted_last _ _ _ _ (tk_lru _ _ _ Hok _ _ Hl) Hb Hin) as [->|Ho].
  - simplify_eq. done.
  - by apply Ho.
Qed.

Lemma list_back_tabled t m ls r l back :
  table_ok t m ls -> ls !! r = Some l -> last l = Some back -> exists e, m !! back = Some e /\ e_retention e = r.
Proof. intros Hok Hl Hb. eapply tk_tabled; [done|done|]. by apply last_Some_elem_of. Qed.

Lemma oldest_back_ok t s order : forall seen acc,
  table_ok t (entries s) (lists s) -> scan_ok s seen acc ->
  exists res, oldest_back s order acc = Some res /\ scan_ok s (seen ++ order) res.
Proof.
  induction order as [|r order IH]; intros seen acc Hok Hscan; simpl; [rewrite app_nil_r; eauto|].
  rewrite cons_middle, app_assoc. destruct Hscan as [H1 H2].
  destruct (lists s !! r) as [l|] eqn:Hl; simpl; [destruct (last l) as [back|] eqn:Hb; simpl|].
  - destruct (list_back_tabled _ _ _ _ _ _ Hok Hl Hb) as (eb & Heb & Hr). rewrite Heb. simpl. apply IH; [done|].
    pose proof (list_back_oldest _ _ _ _ _ _ _ Hok Hl Hb Heb) as Hold. split.
    + intros b t0. destruct acc as [[b0 s0]|]; [destruct (_ <? _)|]; intros [= <- <-]; eauto.
    + intros k e Hk Hin. destruct acc as [[b0 s0]|]; [destruct (lastSeen eb <? s0) eqn:E; bool_simp|].
      * exists back, (lastSeen eb). split; [done|]. apply elem_of_app in Hin as [Hin|Hin%list_elem_of_singleton].
        { destruct (H2 _ _ Hk Hin) as (? & ? & [= <- <-] & ?). lia. }
        by eapply Hold.
      * exists b0, s0. split; [done|]. apply elem_of_app in Hin as [Hin|Hin%list_elem_of_singleton].
        { destruct (H2 _ _ Hk Hin) as (? & ? & [= <- <-] & ?). lia. }
        specialize (Hold _ _ Hk Hin). lia.
      * exists back, (lastSeen eb). split; [done|]. apply elem_of_app in Hin as [Hin|Hin%list_elem_of_singleton].
        { by destruct (H2 _ _ Hk Hin) as (? & ? & ? & ?). }
        by eapply Hold.
  - apply IH; [done|]. split; [done|]. intros k e Hk [Hin|Hin%list_elem_of_singleton]%elem_of_app; [eauto|].
    destruct (tk_listed _ _ _ Hok _ _ Hk) as (l' & Hl' & Hel). apply last_None in Hb. subst l.
    rewrite Hin, Hl in Hl'. injection Hl' as <-. by apply not_elem_of_nil in Hel.
  - apply IH; [done|]. split; [done|]. intros k e Hk [Hin|Hin%list_elem_of_singleton]%elem_of_app; [eauto|].
    destruct (tk_listed _ _ _ Hok _ _ Hk) as (l' & Hl' & Hel). congruence.
Qed.

(** The order in which Go ranges over the map of lists visits every key once. *)
Definition ranges_over (order : list Z) (ls : gmap Z (list string)) : Prop := order ≡ₚ (map_to_list ls).*1.

Lemma ranges_over_elem order ls r l : ranges_over order ls -> ls !! r = Some l -> r ∈ order.
Proof.
  intros Ho Hl. rewrite Ho. apply list_elem_of_fmap. exists (r, l). split; [done|]. by apply elem_of_map_to_list.
Qed.

(** At capacity the least recently seen entry leaves; below it nothing does. *)
Lemma evict_oldest_ok t order s :
  Inv t s -> ranges_over order (lists s) ->
  exists s', evict_oldest order s = Some s' /\ Inv t s' /\ maxKeys s' = maxKeys s
    /\ Z.of_nat (size (entries s')) < Z.max 1 (maxKeys s)
    /\ (Z.of_nat (size (entries s)) < maxKeys s -> s' = s)
    /\ (maxKeys s <= Z.of_nat (size (entries s)) -> entries s <> ∅ ->
        exists k e, entries s !! k = Some e /\ entries s' = delete k (entries s)
          /\ forall k' e', entries s !! k' = Some e' -> lastSeen e <= lastSeen e').
Proof.
  intros Hinv Ho. pose proof (inv_table _ _ Hinv) as Hok. unfold evict_oldest.
  destruct (Z.of_nat (size (entries s)) >=? maxKeys s) eqn:E; bool_simp.
  - destruct (oldest_back_ok t s order [] None Hok) as (res & Hres & H1 & H2); [by split; [|intros ? ? ? ?%not_elem_of_nil]|].
    assert (Hall : forall k e, entries s !! k = Some e -> exists b t0, res = Some (b, t0) /\ t0 <= lastSeen e).
    { intros k e Hk. apply (H2 k e Hk). destruct (tk_listed _ _ _ Hok _ _ Hk) as (l & Hl & _). by eapply ranges_over_elem. }
    rewrite Hres. simpl. destruct res as [[b t0]|].
    + destruct (H1 _ _ eq_refl) as (eb & Heb & <-).
      destruct (evictLocked_ok t s b eb Hinv Heb) as (s' & -> & Hinv' & Hent & Hmax).
      exists s'. split_and!; [done|done|done| |lia|].
      * rewrite Hent, map_size_delete_Some by done. pose proof (inv_size _ _ Hinv).
        assert (size (entries s) <> 0%nat) by (intros H0%map_size_empty_inv; by rewrite H0 in Heb). lia.
      * intros _ _. exists b, eb. split_and!; try done. intros k' e' Hk'. by destruct (Hall _ _ Hk') as (? & ? & [= <- <-] & ?).
    + assert (entries s = ∅) as He.
      { apply map_empty. intros k. destruct (entries s !! k) eqn:Hk; [|done]. by destruct (Hall _ _ Hk) as (? & ? & ? & ?). }
      exists s. split_and!; [done|done|done| |done|done]. rewrite He, map_size_empty. lia.
  - exists s. split_and!; try done; [lia|]. intros. lia.
Qed.

(** ** Observations *)

Lemma tableKey_inj (m1 m2 : string) (k1 k2 : bytes) :
  length k1 = length k2 -> tableKey m1 k1 = tableKey m2 k2 -> m1 = m2 /\ k1 = k2.
Proof.
  unfold tableKey. intros Hl H. apply (f_equal to_bytes) in H.
  rewrite !to_bytes_app in H. apply app_inj_2 in H as [Hm H].
  - apply to_bytes_inj in Hm. split; [done|]. change (Ascii.zero :: to_bytes (of_bytes k1) = Ascii.zero :: to_bytes (of_bytes k2)) in H.
    rewrite !to_of_bytes in H. by injection H.
  - change (length (Ascii.zero :: to_bytes (of_bytes k1)) = length (Ascii.zero :: to_bytes (of_bytes k2))).
    rewrite !to_of_bytes. simpl. by rewrite Hl.
Qed.

Lemma bumpRate_fields e now :
  let e' := (bumpRate e now).1 in
  e_model e' = e_model e /\ lastSeen e' = lastSeen e /\ expiry e' = expiry e /\ warm e' = warm e
  /\ e_home e' = e_home e /\ e_r e' = e_r e /\ e_retention e' = e_retention e.
Proof. unfold bumpRate. simpl. by repeat case_step. Qed.

#[local] Arguments bumpRate : simpl never.

Section Observe.
Context (xxhash64 : bytes -> Z) (oor : float64 -> Z).

Lemma cappedPick_is_Some ranked r delta :
  1 <= r -> ranked <> [] -> is_Some (cappedPick ranked r delta).
Proof.
  intros Hr Hne. unfold cappedPick. destruct (leastLoaded_is_Some ranked Hne) as [c Hc].
  assert (take (Z.to_nat r) ranked <> []) as Ht.
  { destruct ranked; [done|]. by replace (Z.to_nat r) with (S (Z.to_nat (r - 1))) by lia. }
  destruct (leastLoaded_is_Some _ Ht) as [c' Hc']. rewrite minInFlight_leastLoaded, Hc, Hc'. simpl.
  destruct (delta <? 0); [by eexists|]. destruct (best_within _ _); by eexists.
Qed.

Lemma home_and_pick_is_Some key cs d rate cfg :
  cs <> [] -> is_Some (home_and_pick xxhash64 oor key cs d rate cfg).
Proof.
  intros Hne. unfold home_and_pick. destruct d as [d|]; [by eexists|].
  assert (rank xxhash64 key cs <> []) as Hr.
  { intros He. pose proof (rank_Permutation xxhash64 key cs) as Hp. rewrite He in Hp. by apply Permutation_nil_l in Hp. }
  destruct (cappedPick_is_Some (rank xxhash64 key cs) (replicationFactor oor rate (SplitThresholdRPM cfg)
    (Z.of_nat (length (rank xxhash64 key cs)))) (MaxInflightDelta cfg)) as [pd ->]; [|done|].
  - unfold replicationFactor. repeat case_step; lia.
  - destruct (rank xxhash64 key cs); [done|]. by eexists.
Qed.

(** The entry an observation leaves in the table. *)
Definition landed (k : string) (e : entry) (now : Z) (model : string) (cfg : Settings) : Prop :=
  lastSeen e = now /\ e_model e = model /\ e_retention e = Retention cfg
  /\ expiry e = now + wrap64 (retentionFactor * Retention cfg).

Lemma observe_existing t s now model key e e' counts' cfg :
  Inv t s -> t <= now -> length key = 32%nat -> entries s !! tableKey model key = Some e ->
  landed (tableKey model key) e' now model cfg ->
  counts' = shiftCountLocked (counts s) model (e_home e) (e_r e) (e_home e') (e_r e') ->
  Inv now (MkShadow (<[tableKey model key := e']> (entries s)) (touchLocked (lists s) (tableKey model key) e (Retention cfg))
             counts' (maxKeys s)).
Proof.
  intros [Ht Hc Hs] Htn Hlen Hk (Hseen & Hm & Hret & Hexp) ->. set (k := tableKey model key) in *.
  assert (e_model e = model) as Hme.
  { destruct (tk_entry _ _ _ Ht _ _ Hk) as (_ & _ & key' & Hl' & Heq).
    eapply tableKey_inj in Heq; [|congruence]. by destruct Heq. }
  split; simpl.
  - rewrite (touch_push_front _ _ _ _ _ _ Ht Hk), <- insert_delete_eq, <- Hret.
    eapply table_ok_attach; [by apply table_ok_detach|by rewrite lookup_delete_eq|done|done|].
    split; [lia|]. split; [by rewrite Hexp, Hseen, Hret|]. exists key. by rewrite Hm.
  - eapply counts_ok_ext; [|apply (shiftCount_ok _ _ _ _ _ _ _ Hc)].
    + intros g. simpl. rewrite <- insert_delete_eq, tracked_insert by (by rewrite lookup_delete_eq).
      rewrite (tracked_delete _ _ _ g Hk). unfold series_of. rewrite Hme, Hm. lia.
    + intros g Hg. eapply tracked_pos; [exact Hk|]. unfold series_of. by rewrite Hme.
  - rewrite map_size_insert_Some by eauto. done.
Qed.

Lemma observe_fresh t s now model key e' counts' cfg :
  Inv t s -> t <= now -> length key = 32%nat -> entries s !! tableKey model key = None ->
  Z.of_nat (size (entries s)) < Z.max 1 (maxKeys s) ->
  landed (tableKey model key) e' now model cfg ->
  counts' = shiftCountLocked (counts s) model "" 0 (e_home e') (e_r e') ->
  Inv now (MkShadow (<[tableKey model key := e']> (entries s)) (push_front (tableKey model key) (Retention cfg) (lists s))
             counts' (maxKeys s)).
Proof.
  intros [Ht Hc Hs] Htn Hlen Hk Hsz (Hseen & Hm & Hret & Hexp) ->. set (k := tableKey model key) in *.
  split; simpl.
  - rewrite <- Hret. eapply table_ok_attach; [done..|].
    split; [lia|]. split; [by rewrite Hexp, Hseen, Hret|]. exists key. by rewrite Hm.
  - eapply counts_ok_ext; [|by apply (shiftCount_ok _ _ model "" 0 (e_home e') (e_r e') Hc)].
    intros g. simpl. rewrite tracked_insert by done. unfold series_of. rewrite Hm. unfold indicator at 1. case_decide; [done|]. lia.
  - rewrite map_size_insert_None by done. lia.
Qed.

Lemma evict_oldest_fresh order s s' k :
  evict_oldest order s = Some s' -> entries s !! k = None -> entries s' !! k = None.
Proof.
  unfold evict_oldest. intros H Hk. destruct (_ >=? _); [|by simplify_eq].
  destruct (oldest_back _ _ _) as [[[b ?]|]|]; simplify_eq/=; try done.
  unfold evictLocked in H. destruct (entries s !! b); simplify_eq/=. by rewrite lookup_delete_None; right.
Qed.

(** Observing a keyed request never panics on a reachable table and keeps it well formed. *)
Lemma observeKeyed_ok t order s now model key cs host d cfg :
  Inv t s -> t <= now -> ranges_over order (lists s) -> length key = 32%nat -> cs <> [] ->
  exists s' res, observeKeyed xxhash64 oor order s now model key cs host d cfg = Some (s', res)
    /\ Inv now s' /\ maxKeys s' = maxKeys s.
Proof.
  intros Hinv Htn Ho Hlen Hne. unfold observeKeyed, lookup_or_insert.
  set (k := tableKey model key). destruct (entries s !! k) as [e|] eqn:Hk; cbn [mbind option_bind].
  - set (e1 := Entry _ _ _ _ _ _ _ _ _ _). pose proof (bumpRate_fields e1 now) as Hb.
    destruct (bumpRate e1 now) as [e2 rate]. simpl in Hb. destruct Hb as (Hbm & _ & _ & _ & Hbh & Hbr & Hbt).
    destruct (home_and_pick_is_Some key cs d rate cfg Hne) as [[[[home r] dem] pk] ->]. simpl.
    eexists _, _. split; [done|]. split; [|done]. rewrite insert_insert_eq.
    eapply observe_existing; eauto.
    + assert (e_model e = model) as Hme; [|by rewrite <- Hme in *].
      destruct (tk_entry _ _ _ (inv_table _ _ Hinv) _ _ Hk) as (_ & _ & key' & Hl' & Heq).
      eapply tableKey_inj in Heq; [|congruence]. by destruct Heq.
    + simpl. by rewrite Hbh, Hbr.
  - destruct (evict_oldest_ok t order s Hinv Ho) as (s1 & He & Hinv1 & Hmax & Hsz & _).
    unfold insertLocked. rewrite He. cbn [mbind option_bind fst snd]. pose proof (evict_oldest_fresh _ _ _ _ He Hk) as Hk1.
    set (e1 := zeroEntry _ _). pose proof (bumpRate_fields e1 now) as Hb.
    destruct (bumpRate e1 now) as [e2 rate]. simpl in Hb. destruct Hb as (Hbm & _ & _ & _ & Hbh & Hbr & Hbt).
    destruct (home_and_pick_is_Some key cs d rate cfg Hne) as [[[[home r] dem] pk] ->]. simpl.
    eexists _, _. split; [done|]. split; [|done]. rewrite insert_insert_eq, Hbh, Hbr.
    eapply observe_fresh; eauto; [by rewrite Hmax|]. by rewrite Hbm, Hbt.
Qed.

End Observe.

(** ** Sweeping *)

(** [s'] is [s] with [n] entries expired at [now] removed. *)
Record swept (t now : Z) (s s' : Shadow) (n : Z) : Prop := {
  sw_inv : Inv t s';
  sw_sub : entries s' ⊆ entries s;
  sw_expired : forall k e, entries s !! k = Some e -> entries s' !! k = None -> expiry e <= now;
  sw_size : Z.of_nat (size (entries s)) = Z.of_nat (size (entries s')) + n;
  sw_max : maxKeys s' = maxKeys s
}.

Lemma swept_refl t now s : Inv t s -> swept t now s s 0.
Proof. intros. split; [done|done| |lia|done]. congruence. Qed.

Lemma swept_trans t now1 now s1 s2 s3 n1 n2 :
  now1 <= now -> swept t now1 s1 s2 n1 -> swept t now s2 s3 n2 -> swept t now s1 s3 (n1 + n2).
Proof.
  intros Hn [_ Hs1 He1 Hz1 Hm1] [Hi Hs2 He2 Hz2 Hm2]. split; [done|by etrans| |lia|congruence].
  intros k e Hk Hk3. destruct (entries s2 !! k) as [e2|] eqn:Hk2.
  - assert (e2 = e) as -> by (eapply lookup_weaken in Hk2; [|exact Hs1]; congruence). by eapply He2.
  - specialize (He1 _ _ Hk Hk2). lia.
Qed.

(** No entry of retention [r] is expired. *)
Definition clean (now : Z) m (r : Z) : Prop := forall k e, m !! k = Some e -> e_retention e = r -> now < expiry e.

Lemma clean_subseteq now m m' r : m' ⊆ m -> clean now m r -> clean now m' r.
Proof. intros Hs Hc k e Hk. apply (Hc k). by eapply lookup_weaken. Qed.

(** The back of a list expires first. *)
Lemma back_unexpired_clean t m ls r l back eb now :
  table_ok t m ls -> ls !! r = Some l -> last l = Some back -> m !! back = Some eb -> now < expiry eb -> clean now m r.
Proof.
  intros Hok Hl Hb Heb Hexp k e Hk Hr. pose proof (list_back_oldest _ _ _ _ _ _ _ Hok Hl Hb Heb k e Hk Hr) as Hle.
  destruct (list_back_tabled _ _ _ _ _ _ Hok Hl Hb) as (eb' & Heb' & Hrb). simplify_eq.
  destruct (tk_entry _ _ _ Hok _ _ Hk) as (_ & He & _). destruct (tk_entry _ _ _ Hok _ _ Heb) as (_ & He' & _).
  rewrite He, He' in *. rewrite Hrb in *. lia.
Qed.

Lemma no_back_clean t m ls r now : table_ok t m ls -> ls !! r ≫= last = None -> clean now m r.
Proof.
  intros Hok Hb k e Hk Hr. destruct (tk_listed _ _ _ Hok _ _ Hk) as (l & Hl & Hin).
  rewrite <- Hr, Hl in Hb. simpl in Hb. apply last_None in Hb as ->. by apply not_elem_of_nil in Hin.
Qed.

Lemma evict_list_shrinks s k e s' l :
  entries s !! k = Some e -> evictLocked s k = Some s' -> lists s !! e_retention e = Some l -> k ∈ l ->
  (length (default [] (lists s' !! e_retention e)) < length l)%nat.
Proof.
  intros Hk He Hl Hin. unfold evictLocked in He. rewrite Hk in He. injection He as <-. simpl.
  rewrite lookup_alter_eq, Hl. simpl. unfold remove_key. eapply length_filter_lt; [exact Hin|]. by intros ?.
Qed.

Lemma sweep_list_ok t now r fuel : forall s evicted,
  Inv t s -> (length (default [] (lists s !! r)) < fuel)%nat ->
  exists s' evicted', sweep_list fuel s now r evicted = Some (s', evicted')
    /\ swept t now s s' (evicted' - evicted) /\ evicted <= evicted'
    /\ (evicted' < sweepChunk -> clean now (entries s') r).
Proof.
  induction fuel as [|fuel IH]; intros s ev Hinv Hf; [lia|]. pose proof (inv_table _ _ Hinv) as Hok.
  cbn [sweep_list]. destruct (ev >=? sweepChunk) eqn:Ec; bool_simp.
  { exists s, ev. rewrite Z.sub_diag. split_and!; [done|by apply swept_refl|lia|lia]. }
  destruct (lists s !! r ≫= last) as [back|] eqn:Hb.
  2:{ exists s, ev. rewrite Z.sub_diag. split_and!; [done|by apply swept_refl|lia|]. intros _. by eapply no_back_clean. }
  destruct (lists s !! r) as [l|] eqn:Hl; [|done]. simpl in Hb.
  destruct (list_back_tabled _ _ _ _ _ _ Hok Hl Hb) as (eb & Heb & Hr). rewrite Heb. cbn [mbind option_bind].
  destruct (expiry eb >? now) eqn:Ee; bool_simp.
  { exists s, ev. rewrite Z.sub_diag. split_and!; [done|by apply swept_refl|lia|].
    intros _. by eapply back_unexpired_clean. }
  destruct (evictLocked_ok t s back eb Hinv Heb) as (s1 & Hs1 & Hinv1 & Hent & Hmax). rewrite Hs1. cbn [mbind option_bind].
  destruct (IH s1 (ev + 1) Hinv1) as (s' & ev' & -> & Hsw & Hle & Hclean).
  { rewrite <- Hr in *. eapply evict_list_shrinks in Hs1; [|done|exact Hl|by apply last_Some_elem_of]. simpl in Hf. lia. }
  exists s', ev'. split_and!; [done| |lia|done].
  replace (ev' - ev) with (1 + (ev' - (ev + 1))) by lia. eapply swept_trans; [done| |exact Hsw].
  split; [done|rewrite Hent; apply delete_subseteq| |rewrite Hent, map_size_delete_Some by done|done].
  - intros k e Hk Hnone. rewrite Hent in Hnone. apply lookup_delete_None in Hnone as [<-|Hnone]; [|congruence].
    by simplify_eq.
  - assert (size (entries s) <> 0%nat) by (intros H0%map_size_empty_inv; by rewrite H0 in Heb). lia.
Qed.

Lemma drop_if_empty_ok t r s : Inv t s -> Inv t (drop_if_empty r s).
Proof.
  intros [Ht Hc Hs]. unfold drop_if_empty. destruct (lists s !! r) as [[|]|] eqn:Hl; try by split.
  split; [|done|done]. simpl. destruct Ht as [He Hli Hta Hn Hr]. split; simpl; [done| | | |].
  - intros k e Hk. destruct (Hli _ _ Hk) as (l & Hls & Hin). exists l. split; [|done].
    rewrite lookup_delete_ne; [done|]. intros ->. rewrite Hl in Hls. simplify_eq. by apply not_elem_of_nil in Hin.
  - intros r' l k (_ & Hls)%lookup_delete_Some. eauto.
  - intros r' l (_ & Hls)%lookup_delete_Some. eauto.
  - intros r' l (_ & Hls)%lookup_delete_Some. eauto.
Qed.

Lemma drop_if_empty_entries r s : entries (drop_if_empty r s) = entries s /\ maxKeys (drop_if_empty r s) = maxKeys s.
Proof. unfold drop_if_empty. by repeat case_step. Qed.

Lemma sweep_pass_ok t now order : forall s evicted,
  Inv t s ->
  exists s' evicted', sweep_pass order s now evicted = Some (s', evicted')
    /\ swept t now s s' (evicted' - evicted) /\ evicted <= evicted'
    /\ (evicted' < sweepChunk -> forall r, r ∈ order -> clean now (entries s') r).
Proof.
  induction order as [|r order IH]; intros s ev Hinv; cbn [sweep_pass].
  { exists s, ev. rewrite Z.sub_diag. split_and!; [done|by apply swept_refl|lia|by intros _ ? ?%not_elem_of_nil]. }
  destruct (sweep_list_ok t now r (S (length (default [] (lists s !! r)))) s ev Hinv) as (s1 & ev1 & -> & Hsw & Hle & Hc); [lia|].
  cbn [mbind option_bind fst snd]. pose proof (sw_inv _ _ _ _ _ Hsw) as Hinv1.
  destruct (drop_if_empty_entries r s1) as [Hde Hdm].
  destruct (IH (drop_if_empty r s1) ev1) as (s' & ev' & -> & Hsw' & Hle' & Hc'); [by apply drop_if_empty_ok|].
  exists s', ev'. split_and!; [done| |lia|].
  - replace (ev' - ev) with ((ev1 - ev) + (ev' - ev1)) by lia. eapply swept_trans; [done|exact Hsw|].
    destruct Hsw'. split; [done|..]; rewrite <- ?Hde, <- ?Hdm; done.
  - intros Hlt r' [->|Hr']%elem_of_cons; [|by apply Hc'].
    eapply clean_subseteq; [|apply Hc; lia]. rewrite <- Hde. apply Hsw'.
Qed.

Definition unexpired (now : Z) m : gmap string entry := filter (fun p => now < expiry p.2) m.

Lemma swept_all_clean t now s s' n :
  swept t now s s' n -> (forall r, clean now (entries s') r) -> entries s' = unexpired now (entries s).
Proof.
  intros [_ Hsub Hexp _ _] Hc. apply map_eq. intros k. unfold unexpired. symmetry.
  destruct (entries s' !! k) as [e|] eqn:Hk'.
  - apply map_lookup_filter_Some. split; [by eapply lookup_weaken|]. simpl. by eapply Hc.
  - apply map_lookup_filter_None. right. intros e Hk. simpl. specialize (Hexp _ _ Hk Hk'). lia.
Qed.

Lemma unexpired_swept t now now' s s' n :
  now <= now' -> swept t now s s' n -> unexpired now' (entries s') = unexpired now' (entries s).
Proof.
  intros Hle [_ Hsub Hexp _ _]. unfold unexpired. 
  apply map_eq. intros k. destruct (entries s' !! k) as [e|] eqn:Hk'.
  - pose proof (lookup_weaken _ _ _ _ Hk' Hsub) as Hk. by rewrite !map_lookup_filter, Hk, Hk'.
  - rewrite !map_lookup_filter, Hk'. simpl. destruct (entries s !! k) as [e|] eqn:Hk; [|done]. simpl.
    specialize (Hexp _ _ Hk Hk'). rewrite option_guard_False; [done|]. simpl. lia.
Qed.

Lemma sweep_ok iter clock t fuel :
  (forall ls, ranges_over (iter ls) ls) -> (forall i j, (i <= j)%nat -> clock i <= clock j) ->
  forall s pass, Inv t s -> Z.of_nat (size (entries s)) < sweepChunk * Z.of_nat fuel ->
  exists s' last, sweep iter clock fuel pass s = Some (s', last) /\ (pass <= last)%nat
    /\ entries s' = unexpired (clock last) (entries s) /\ Inv t s'.
Proof.
  intros Hiter Hclock. induction fuel as [|fuel IH]; intros s pass Hinv Hf; [lia|]. cbn [sweep].
  destruct (sweep_pass_ok t (clock pass) (iter (lists s)) s 0 Hinv) as (s1 & n & -> & Hsw & Hn & Hc).
  rewrite Z.sub_0_r in Hsw. cbn [mbind option_bind fst snd]. destruct (n <? sweepChunk) eqn:E; bool_simp.
  - exists s1, pass. split_and!; [done|done| |apply Hsw]. eapply swept_all_clean; [done|]. intros r k e Hk Hre.
    eapply Hc; [done| |exact Hk|exact Hre]. pose proof (lookup_weaken _ _ _ _ Hk (sw_sub _ _ _ _ _ Hsw)) as Hk0.
    destruct (tk_listed _ _ _ (inv_table _ _ Hinv) _ _ Hk0) as (l & Hl & _). rewrite Hre in Hl.
    by eapply ranges_over_elem.
  - destruct (IH s1 (S pass) (sw_inv _ _ _ _ _ Hsw)) as (s' & last & Hs & Hle & Hent & Hinv').
    { pose proof (sw_size _ _ _ _ _ Hsw). unfold sweepChunk in *. lia. }
    exists s', last. split_and!; [done|lia| |done]. rewrite Hent. eapply unexpired_swept; [|exact Hsw].
    apply Hclock. lia.
Qed.

(** ** Decisions *)

Lemma split_by_limit limit l :
  filter (fun c => InFlight c <= limit) l ++ filter (fun c => limit < InFlight c) l ≡ₚ l.
Proof.
  induction l as [|x l IH]; [done|]. rewrite !filter_cons. destruct (decide (InFlight x <= limit)).
  - rewrite decide_False by lia. simpl. by rewrite IH.
  - rewrite decide_True by lia. rewrite <- Permutation_middle. by rewrite IH.
Qed.

Lemma leastLoaded_perm l l' (m : Z) :
  l ≡ₚ l' -> minInFlight l = Some m -> minInFlight l' = Some m.
Proof.
  rewrite !minInFlight_leastLoaded. intros Hp Hm.
  destruct (leastLoaded l) as [c|] eqn:Hc; [|done]. apply leastLoaded_spec in Hc as [Hin Hmin].
  destruct (leastLoaded l') as [c'|] eqn:Hc'; simpl in *.
  - apply leastLoaded_spec in Hc' as [Hin' Hmin']. simplify_eq. f_equal.
    specialize (Hmin c' ltac:(by rewrite Hp)). specialize (Hmin' c ltac:(by rewrite <- Hp)). lia.
  - destruct l'; [|done]. rewrite Hp in Hin. by apply not_elem_of_nil in Hin.
Qed.

(** The pick of a capped decision is a candidate within the cap. *)
Lemma cappedPick_within ranked r delta (m : Z) :
  1 <= r -> minInFlight ranked = Some m -> in_int64 (m + delta) ->
  exists c dem, cappedPick ranked r delta = Some (c_Host c, dem) /\ c ∈ ranked /\ (0 <= delta -> InFlight c <= m + delta).
Proof.
  intros Hr Hm Hov. assert (ranked <> []) as Hne by (by intros ->).
  assert (forall x, x ∈ take (Z.to_nat r) ranked -> x ∈ ranked) as Hsub by (intros x; apply subseteq_take).
  destruct (cappedPick_is_Some ranked r delta Hr Hne) as [[h dem] Hp]. pose proof Hp as Hp'. unfold cappedPick in Hp.
  rewrite Hm in Hp. destruct (delta <? 0) eqn:Ed; bool_simp; cbn [mbind option_bind] in Hp.
  - destruct (leastLoaded (take _ _)) as [c|] eqn:Hc; [|done]. injection Hp as <- <-. exists c, false.
    apply leastLoaded_spec in Hc as [Hin _]. split_and!; [done|by apply Hsub|lia].
  - rewrite (wrap64_id _ Hov) in Hp. pose proof (best_within_spec (m + delta) (take (Z.to_nat r) ranked)) as Hb.
    destruct (best_within _ _) as [c|].
    + injection Hp as <- <-. destruct Hb as (? & ? & _). exists c, false. split_and!; [done|by apply Hsub|done].
    + rewrite minInFlight_leastLoaded in Hm. destruct (leastLoaded ranked) as [c|] eqn:Hc; [|done]. simplify_eq/=.
      apply leastLoaded_spec in Hc as [? _]. exists c, true. split_and!; [done|done|lia].
Qed.

Lemma replicationFactor_pos oor rate thr n : 1 <= replicationFactor oor rate thr n.
Proof. unfold replicationFactor. repeat case_step; lia. Qed.

(** ** Classification and rate *)

Lemma classify_first w host : classify w host = ReuseFirstSeen <-> w = ∅.
Proof.
  unfold classify. destruct (_ =? 0) eqn:E; bool_simp.
  - split; [|done]. intros _. apply map_size_empty_inv. lia.
  - split; [by case_step|]. intros ->. by rewrite map_size_empty in E.
Qed.

Lemma classify_warm w host :
  classify w host = ReuseRepeatWarm <-> exists seen, w !! host = Some seen /\ seen <> time_zero.
Proof.
  unfold classify, IsZero. destruct (_ =? 0) eqn:E; bool_simp.
  - split; [done|]. intros (seen & Hs & _). assert (w = ∅) as -> by (apply map_size_empty_inv; lia). done.
  - destruct (w !! host) as [seen|] eqn:Hs; simpl.
    + destruct (seen =? time_zero) eqn:Ez; bool_simp; simpl.
      * split; [done|]. by intros (? & [= <-] & ?).
      * split; [|done]. intros _. by exists seen.
    + split; [done|]. by intros (? & ? & _).
Qed.

(** Reading the rate right after an arrival gives the rate the arrival reported. *)
Lemma peek_after_bump e now e2 rate seen exp w home r :
  bumpRate e now = (e2, rate) ->
  entry_peekRate (Entry (e_model e2) seen exp w (windowStart e2) (prevCount e2) (curCount e2) home r (e_retention e2)) now = rate.
Proof.
  unfold bumpRate, entry_peekRate. intros [= <- <-]. cbn [windowStart prevCount curCount].
  destruct (windowStart e =? truncate_minute now) eqn:E1; [by cbn; rewrite E1|].
  destruct (time_sub _ _ =? Minute); cbn; by rewrite Z.eqb_refl.
Qed.

(** ** Reachable tables *)

Section Reachable.
Context (xxhash64 : bytes -> Z) (oor : float64 -> Z) (mk : Z).

(** A state is the instant of the last step and the table.  Routing keys are 32
    bytes ([type Key [32]byte]); the clock does not run backwards between steps.
    Other operations ([Decide], [peekRate], [Collect]) do not change the table. *)
Inductive table_step : Z * Shadow -> Z * Shadow -> Prop :=
  | ts_observe t s now order model req pool host d cfg :
      t <= now -> ranges_over order (lists s) ->
      (forall q, req = Some q -> length (req_Key q) = 32%nat) ->
      table_step (t, s) (now, (observe xxhash64 oor order s now model req pool host d cfg).1)
  | ts_sweep t s now order s' n :
      t <= now -> ranges_over order (lists s) ->
      sweep_pass order s now 0 = Some (s', n) -> table_step (t, s) (now, s').

Definition table_machine : Machine (Z * Shadow) :=
  {| initial p := p.2 = NewShadow mk; transition := table_step |}.

Lemma Inv_later t now s : t <= now -> Inv t s -> Inv now s.
Proof.
  intros Hle [[He Hl Ht Hn Hr] Hc Hs]. split; [split|..]; try done.
  intros k e Hk. destruct (He _ _ Hk) as (? & ? & ?). split; [lia|done].
Qed.

Lemma Inv_new t : Inv t (NewShadow mk).
Proof.
  split; simpl; [split; done|done|]. rewrite map_size_empty. lia.
Qed.

Lemma observe_inv t s now order model req pool host d cfg :
  Inv t s -> t <= now -> ranges_over order (lists s) ->
  (forall q, req = Some q -> length (req_Key q) = 32%nat) ->
  Inv now (observe xxhash64 oor order s now model req pool host d cfg).1.
Proof.
  intros Hinv Hle Ho Hlen. unfold observe. destruct req as [q|]; [|by eapply Inv_later].
  destruct (negb _); [by eapply Inv_later|]. destruct (Size pool <? 2); [by eapply Inv_later|].
  destruct (_ =? 0) eqn:E; bool_simp; [by eapply Inv_later|].
  destruct (observeKeyed_ok xxhash64 oor t order s now model (req_Key q) (Candidates pool) host d cfg)
    as (s' & res & -> & Hinv' & _); auto. intros Hnil. by rewrite Hnil in E.
Qed.

Lemma table_reachable_inv t s : reachable table_machine (t, s) -> Inv t s.
Proof.
  apply (reachable_invariant table_machine (fun p => Inv p.1 p.2)).
  - intros [t0 s0] Heq. cbn in Heq. subst s0. apply Inv_new.
  - intros p p' Hinv Hstep. destruct Hstep as [t0 s0 now order model req pool host d cfg Hle Ho Hk|t0 s0 now order s' n Hle Ho Hs]; cbn in *.
    + by eapply observe_inv.
    + destruct (sweep_pass_ok t0 now order s0 0 Hinv) as (s1 & n1 & Hs1 & Hsw & _).
      rewrite Hs in Hs1. simplify_eq. eapply Inv_later; [done|]. apply Hsw.
Qed.

(** ** Properties *)



(** At capacity, a request with a new routing key evicts one entry, and it
    is one that no other entry was seen before; every other tracked key keeps
    its state. *)
Theorem capacity_evicts_least_recent t s order now model key cs host d cfg :
  reachable table_machine (t, s) -> t <= now -> ranges_over order (lists s) -> length key = 32%nat -> cs <> [] ->
  entries s !! tableKey model key = None -> entries s <> ∅ -> maxKeys s <= Z.of_nat (size (entries s)) ->
  exists s' res victim e,
    observeKeyed xxhash64 oor order s now model key cs host d cfg = Some (s', res)
    /\ reuse res = ReuseFirstSeen
    /\ entries s !! victim = Some e
    /\ (forall k' e', entries s !! k' = Some e' -> lastSeen e <= lastSeen e')
    /\ is_Some (entries s' !! tableKey model key)
    /\ (forall k', k' <> tableKey model key -> entries s' !! k' = delete victim (entries s) !! k').
Proof.
  intros Hr%table_reachable_inv Htn Ho Hlen Hne Hk Hents Hcap.
  destruct (evict_oldest_ok t order s Hr Ho) as (s1 & He & _ & _ & _ & _ & Hv).
  destruct (Hv Hcap Hents) as (victim & e & Hve & Hent & Hmin).
  unfold observeKeyed, lookup_or_insert, insertLocked. rewrite Hk, He. cbn [mbind option_bind fst snd].
  destruct (bumpRate _ now) as [e2 rate].
  destruct (home_and_pick_is_Some xxhash64 oor key cs d rate cfg Hne) as [[[[home r] dem] pk] ->].
  eexists _, _, victim, e. cbn [mbind option_bind entries reuse]. split_and!; try done.
  - cbn [entries]. rewrite lookup_insert_eq. by eexists.
  - intros k' Hk'. cbn [entries]. rewrite !lookup_insert_ne by done. by rewrite Hent.
Qed.

(** The reuse classification of a tracked key. A repeat is warm exactly
    when the serving replica handled this key within the retention window, a
    first sighting exactly when no replica did; afterwards the warm set is
    the replicas of the window plus the serving one, and the reported rate is
    the one a decision at the same instant would read. *)
Theorem observation_classifies_reuse order s now model key cs host d cfg e s' res :
  entries s !! tableKey model key = Some e ->
  observeKeyed xxhash64 oor order s now model key cs host d cfg = Some (s', res) ->
  let fresh h := exists seen, warm e !! h = Some seen /\ time_sub now seen <= Retention cfg in
  (reuse res = ReuseFirstSeen <-> forall h, ~ fresh h)
  /\ (reuse res = ReuseRepeatWarm <-> fresh host /\ warm e !! host <> Some time_zero)
  /\ (exists e', entries s' !! tableKey model key = Some e'
        /\ warm e' = <[host := now]> (prune_warm now (Retention cfg) (warm e)))
  /\ rpm res = peekRate s' model key now.
Proof.
  intros Hk Hobs fresh. unfold observeKeyed, lookup_or_insert in Hobs. rewrite Hk in Hobs. cbn [mbind option_bind] in Hobs.
  set (w := prune_warm now (Retention cfg) (warm e)) in *.
  assert (Hw : forall h seen, w !! h = Some seen <-> warm e !! h = Some seen /\ time_sub now seen <= Retention cfg).
  { intros. unfold w, prune_warm. by rewrite map_lookup_filter_Some. }
  destruct (bumpRate _ now) as [e2 rate] eqn:Hb. destruct (home_and_pick _ _ _ _ _ _ _) as [[[[home r] dem] pk]|]; [|done].
  injection Hobs as <- <-. cbn [reuse rpm entries]. split_and!.
  - rewrite classify_first. split.
    + intros Hemp h (seen & Hh). apply Hw in Hh. by rewrite Hemp in Hh.
    + intros Hno. apply map_empty. intros h. destruct (w !! h) as [seen|] eqn:E; [|done].
      apply Hw in E. by destruct (Hno h); exists seen.
  - rewrite classify_warm. split.
    + intros (seen & Hs & Hz). apply Hw in Hs as [Hs ?]. split; [by exists seen|]. congruence.
    + intros [(seen & Hs & ?) Hz]. exists seen. split; [by apply Hw|]. congruence.
  - eexists. split; [apply lookup_insert_eq|]. simpl. f_equal.
    pose proof (bumpRate_fields (Entry (e_model e) (lastSeen e) (expiry e) w (windowStart e) (prevCount e) (curCount e)
      (e_home e) (e_r e) (Retention cfg)) now) as Hf. rewrite Hb in Hf. apply Hf.
  - unfold peekRate. cbn [entries]. rewrite lookup_insert_eq. symmetry. by eapply peek_after_bump.
Qed.

(** An enforced routing decision orders the whole pool. For a keyed request
    on a pool of distinct hosts a decision is always made, its order is a
    permutation of the candidates, and with the load cap on, every replica at
    most [MaxInflightDelta] requests deeper than the idlest one comes before
    every deeper one, the pick included. *)
Theorem decision_orders_pool s now model req pool cfg (m : Z) :
  req_Outcome req = OutcomeKeyed -> 2 <= Size pool -> NoDup (map c_Host (Candidates pool)) ->
  minInFlight (Candidates pool) = Some m -> in_int64 (m + MaxInflightDelta cfg) ->
  exists dec within over,
    Decide xxhash64 oor s now model (Some req) pool cfg = Some dec
    /\ Order dec = map c_Host (within ++ over) /\ within ++ over ≡ₚ Candidates pool
    /\ (0 <= MaxInflightDelta cfg ->
          Forall (fun c => InFlight c <= m + MaxInflightDelta cfg) within
          /\ Forall (fun c => m + MaxInflightDelta cfg < InFlight c) over).
Proof.
  intros Hkey Hsize Hnd Hm Hov. unfold Decide. cbn [mbind option_bind].
  rewrite bool_decide_true by done. replace (Size pool <? 2) with false by (symmetry; apply Z.ltb_ge; lia).
  destruct (Z.of_nat (length (Candidates pool)) =? 0) eqn:E0; bool_simp.
  { destruct (Candidates pool); [done|]. simpl in E0. lia. }
  set (ranked := rank xxhash64 _ _). pose proof (rank_Permutation xxhash64 (req_Key req) (Candidates pool)) as Hp. fold ranked in Hp.
  pose proof (leastLoaded_perm _ _ _ (symmetry Hp) Hm) as Hm'.
  destruct (cappedPick_within ranked (replicationFactor oor (peekRate s model (req_Key req) now) (SplitThresholdRPM cfg)
     (Z.of_nat (length ranked))) (MaxInflightDelta cfg) m (replicationFactor_pos _ _ _ _) Hm' Hov) as (c & dem & -> & Hin & Hwithin).
  rewrite Hm'. 
  assert (exists h, head ranked = Some h) as [h Hh] by (destruct ranked; [by apply not_elem_of_nil in Hin|eauto]).
  cbn [negb orb mbind option_bind fst snd]. rewrite Hh, (wrap64_id _ Hov). cbn [mbind option_bind]. unfold over_cap.
  assert (NoDup (map c_Host ranked)) as Hnd'.
  { change (NoDup (c_Host <$> ranked)). by rewrite Hp. }
  pose proof (NoDup_key_perm c_Host ranked c Hnd' Hin) as Hpick. set (others := filter _ ranked) in *.
  destruct (MaxInflightDelta cfg >=? 0) eqn:Ed; bool_simp.
  - eexists _, (c :: filter (fun c => InFlight c <= m + MaxInflightDelta cfg) others),
      (filter (fun c => m + MaxInflightDelta cfg < InFlight c) others).
    split_and!; [done|simpl; by rewrite map_app| |].
    + simpl. by rewrite split_by_limit, Hpick, Hp.
    + intros Hd. split; [constructor; [by apply Hwithin|]|]; apply Forall_forall; by intros x [? _]%list_elem_of_filter.
  - eexists _, (c :: others), []. split_and!; [done|by rewrite app_nil_r|by rewrite app_nil_r, Hpick, Hp|lia].
Qed.

End Reachable.

(** ** Witnesses *)

Definition w_oor (_ : float64) : Z := int64_min.
Definition w_cfg : Settings := Build_Settings ModeEnforced DefaultRetention 1 DefaultSplitThresholdRPM 2 "".
Definition w_key (n : Z) : bytes := replicate 32 (byte_of n).
Definition w_req (n : Z) : Request := MkRequest OutcomeKeyed (w_key n) 5000.
Definition w_pool : Pool := MkPool 3 cs3.
Definition w_now : Z := 1000 * Hour.
Definition w_table : Shadow :=
  (observe toy_hash w_oor [] (NewShadow 1) w_now "m" (Some (w_req 1)) w_pool "a" None w_cfg).1.
Definition w_iter (ls : gmap Z (list string)) : list Z := (map_to_list ls).*1.

Lemma w_table_reachable : reachable (table_machine toy_hash w_oor 1) (w_now, w_table).
Proof.
  eapply (reach_next _ (w_now, NewShadow 1)); [by constructor|].
  apply ts_observe; [apply Z.le_refl|vm_compute; constructor|]. by intros q [= <-].
Qed.



Lemma capacity_evicts_least_recent_witness :
  exists s' res, observeKeyed toy_hash w_oor [DefaultRetention] w_table (w_now + Second) "m" (w_key 2) cs3 "b" None w_cfg = Some (s', res)
    /\ is_Some (entries s' !! tableKey "m" (w_key 2)).
Proof.
  destruct (capacity_evicts_least_recent toy_hash w_oor 1 w_now w_table [DefaultRetention] (w_now + Second) "m" (w_key 2)
    cs3 "b" None w_cfg) as (s' & res & v & e & H & _ & _ & _ & Hk & _).
  - exact w_table_reachable.
  - vm_compute. discriminate.
  - vm_compute. reflexivity.
  - reflexivity.
  - discriminate.
  - vm_compute. reflexivity.
  - intros He. apply (f_equal size) in He. vm_compute in He. discriminate.
  - vm_compute. discriminate.
  - exists s', res. split; [exact H|exact Hk].
Defined.

Definition w_entry : entry := default (zeroEntry "" 0) (entries w_table !! tableKey "m" (w_key 1)).
Definition w_obs : Shadow * keyedResult :=
  default (w_table, KeyedResult ReuseRepeatCold false 0 f64_zero "" false 0)
    (observeKeyed toy_hash w_oor [] w_table (w_now + Minute) "m" (w_key 1) cs3 "a" None w_cfg).

Lemma observation_classifies_reuse_witness :
  reuse w_obs.2 = ReuseRepeatWarm /\ rpm w_obs.2 = peekRate w_obs.1 "m" (w_key 1) (w_now + Minute).
Proof.
  destruct (observation_classifies_reuse toy_hash w_oor [] w_table (w_now + Minute) "m" (w_key 1) cs3 "a" None w_cfg
    w_entry w_obs.1 w_obs.2) as (_ & H & _ & Hr).
  - vm_compute. reflexivity.
  - vm_compute. reflexivity.
  - split; [|exact Hr]. apply H. split; [exists w_now; split; [vm_compute; reflexivity|vm_compute; discriminate]|].
    vm_compute. discriminate.
Defined.

Lemma decision_orders_pool_witness :
  exists dec, Decide toy_hash w_oor w_table w_now "m" (Some (w_req 1)) w_pool w_cfg = Some dec
    /\ exists within over, Order dec = map c_Host (within ++ over) /\ within ++ over ≡ₚ cs3.
Proof.
  destruct (decision_orders_pool toy_hash w_oor w_table w_now "m" (w_req 1) w_pool w_cfg 2) as (dec & wi & ov & H & Ho & Hp & _).
  - reflexivity.
  - vm_compute. discriminate.
  - vm_compute. repeat (constructor; [set_solver|]). constructor.
  - reflexivity.
  - vm_compute. split; discriminate.
  - exists dec. split; [exact H|]. exists wi, ov. split; [exact Ho|exact Hp].
Defined.
