(* ===== verification/CircuitBreaker.v ===== *)
(** * The per-backend circuit breaker ([manager/circuitbreaker.go])

    One enclave's closed / open / half-open breaker.  The first part models
    each method as one atomic state transformer taking the time it reads; the
    second part is the instruction-level interleaving semantics of the same
    methods, whose fields are Go atomics. *)

From S2P Require Import Prelude.

(** ** Data *)

Inductive cbState := cbClosed | cbOpen | cbHalfOpen.

#[export] Instance cbState_eq_dec : EqDecision cbState.
Proof. solve_decision. Defined.

Definition cbFailureThreshold : Z := 3.
Definition cbCooldown : Z := 30 * Second.

Record circuitBreaker := CB {
  state : cbState;
  consecutiveFailures : Z;   (* int64 *)
  lastFailureNano : Z;       (* int64 *)
  probeGen : Z;              (* uint64 *)
  retired : bool
}.

Definition newCircuitBreaker : circuitBreaker := CB cbClosed 0 0 0 false.

(** ** Operations *)

Definition RecordSuccess (cb : circuitBreaker) : circuitBreaker :=
  CB cbClosed 0 (lastFailureNano cb) (probeGen cb) (retired cb).

Definition RecordFailure (now : Z) (cb : circuitBreaker) : circuitBreaker :=
  let failures := wrap64 (consecutiveFailures cb + 1) in
  CB (if failures >=? cbFailureThreshold then cbOpen else state cb)
     failures now (probeGen cb) (retired cb).

Definition Closed (cb : circuitBreaker) : bool := bool_decide (state cb = cbClosed).

(** [None] is the Go pair [(0, false)]. *)
Definition ClaimProbe (now : Z) (cb : circuitBreaker) : circuitBreaker * option Z :=
  if decide (state cb = cbOpen) then
    if time_sub now (lastFailureNano cb) <? cbCooldown then (cb, None)
    else
      let gen := wrap_u64 (probeGen cb + 1) in
      (CB cbHalfOpen (consecutiveFailures cb) (lastFailureNano cb) gen (retired cb), Some gen)
  else (cb, None).

Definition AbortProbe (now token : Z) (cb : circuitBreaker) : circuitBreaker * bool :=
  if negb (probeGen cb =? token) || negb (bool_decide (state cb = cbHalfOpen)) then (cb, false)
  else (CB cbOpen (consecutiveFailures cb) now (probeGen cb) (retired cb), true).

Definition Retire (cb : circuitBreaker) : circuitBreaker :=
  CB (state cb) (consecutiveFailures cb) (lastFailureNano cb) (probeGen cb) true.

(** [publishIfActive] with the gauge as the published value: nothing is
    published once the breaker is retired. *)
Definition publishIfActive (cb : circuitBreaker) : option cbState :=
  if retired cb then None else Some (state cb).

(** A claim is the breaker of one enclave together with the token; [Abort] on
    the nil claim does nothing. The third component is the republished gauge. *)
Definition ProbeClaim_Abort (now : Z) (pc : option Z) (cb : circuitBreaker)
  : circuitBreaker * bool * option cbState :=
  match pc with
  | None => (cb, false, None)
  | Some token =>
      let (cb', ok) := AbortProbe now token cb in
      if ok then (cb', true, publishIfActive cb') else (cb', false, None)
  end.

(** ** Whole-method interleavings *)

Inductive cb_op :=
  | OpSuccess
  | OpFailure (now : Z)
  | OpClaim (now : Z)
  | OpAbort (now token : Z)
  | OpRetire.

Definition exec_op (op : cb_op) (cb : circuitBreaker) : circuitBreaker :=
  match op with
  | OpSuccess => RecordSuccess cb
  | OpFailure now => RecordFailure now cb
  | OpClaim now => fst (ClaimProbe now cb)
  | OpAbort now token => fst (AbortProbe now token cb)
  | OpRetire => Retire cb
  end.

Definition exec_ops (ops : list cb_op) (cb : circuitBreaker) : circuitBreaker :=
  foldl (fun cb op => exec_op op cb) cb ops.

(** The failures recorded since the last success, as the history has them. *)
Fixpoint trailing_failures (n : Z) (ops : list cb_op) : Z :=
  match ops with
  | [] => n
  | OpSuccess :: ops => trailing_failures 0 ops
  | OpFailure _ :: ops => trailing_failures (n + 1) ops
  | _ :: ops => trailing_failures n ops
  end.

(** Operations that may end the probe claimed with [token]. *)
Definition resolves (token : Z) (op : cb_op) : bool :=
  match op with
  | OpSuccess | OpFailure _ => true
  | OpAbort _ t => t =? token
  | OpClaim _ | OpRetire => false
  end.

(** Operations that may restart the cooldown. *)
Definition stamps (op : cb_op) : bool :=
  match op with OpFailure _ | OpAbort _ _ => true | _ => false end.

(** ** Instruction-level interleavings

    Every field is a Go atomic, so a method is a sequence of atomic
    instructions that other goroutines' instructions interleave with.  A
    goroutine is the method it runs and how far it got. *)

Inductive thread :=
  | TSuccess0                       (* consecutiveFailures.Store(0) *)
  | TSuccess1                       (* storeState(cbClosed) *)
  | TFailure0                       (* lastFailureNano.Store(now) *)
  | TFailure1                       (* consecutiveFailures.Add(1) *)
  | TFailure2                       (* storeState(cbOpen) *)
  | TClaim0                         (* loadState() *)
  | TClaim1                         (* lastFailureNano.Load() and the cooldown test *)
  | TClaim2                         (* casState(cbOpen, cbHalfOpen) *)
  | TClaim3                         (* probeGen.Add(1) *)
  | TAbort0 (token : Z)             (* probeGen.Load() *)
  | TAbort1 (token : Z)             (* loadState() *)
  | TAbort2 (token : Z)             (* lastFailureNano.Store(now) *)
  | TAbort3 (token : Z)             (* casState(cbHalfOpen, cbOpen) *)
  | TDone
  | TClaimed (token : Z)            (* ClaimProbe returned (token, true) *)
  | TNotClaimed                     (* ClaimProbe returned (0, false) *)
  | TAborted (ok : bool).           (* AbortProbe returned ok *)

Definition set_state (s : cbState) (cb : circuitBreaker) : circuitBreaker :=
  CB s (consecutiveFailures cb) (lastFailureNano cb) (probeGen cb) (retired cb).
Definition set_failures (n : Z) (cb : circuitBreaker) : circuitBreaker :=
  CB (state cb) n (lastFailureNano cb) (probeGen cb) (retired cb).
Definition set_last (t : Z) (cb : circuitBreaker) : circuitBreaker :=
  CB (state cb) (consecutiveFailures cb) t (probeGen cb) (retired cb).
Definition set_gen (g : Z) (cb : circuitBreaker) : circuitBreaker :=
  CB (state cb) (consecutiveFailures cb) (lastFailureNano cb) g (retired cb).

(** One atomic instruction at time [now]. *)
Definition thread_step (now : Z) (cb : circuitBreaker) (t : thread) : circuitBreaker * thread :=
  match t with
  | TSuccess0 => (set_failures 0 cb, TSuccess1)
  | TSuccess1 => (set_state cbClosed cb, TDone)
  | TFailure0 => (set_last now cb, TFailure1)
  | TFailure1 =>
      let n := wrap64 (consecutiveFailures cb + 1) in
      (set_failures n cb, if n >=? cbFailureThreshold then TFailure2 else TDone)
  | TFailure2 => (set_state cbOpen cb, TDone)
  | TClaim0 => (cb, if decide (state cb = cbOpen) then TClaim1 else TNotClaimed)
  | TClaim1 => (cb, if time_sub now (lastFailureNano cb) <? cbCooldown then TNotClaimed else TClaim2)
  | TClaim2 => if decide (state cb = cbOpen) then (set_state cbHalfOpen cb, TClaim3) else (cb, TNotClaimed)
  | TClaim3 => let g := wrap_u64 (probeGen cb + 1) in (set_gen g cb, TClaimed g)
  | TAbort0 token => (cb, if probeGen cb =? token then TAbort1 token else TAborted false)
  | TAbort1 token => (cb, if decide (state cb = cbHalfOpen) then TAbort2 token else TAborted false)
  | TAbort2 token => (set_last now cb, TAbort3 token)
  | TAbort3 token => if decide (state cb = cbHalfOpen) then (set_state cbOpen cb, TAborted true) else (cb, TAborted false)
  | TDone | TClaimed _ | TNotClaimed | TAborted _ => (cb, t)
  end.

(** Does the instruction put the breaker in the open state? *)
Definition opens (cb : circuitBreaker) (t : thread) : nat :=
  match t with
  | TFailure2 => 1
  | TAbort3 _ => if decide (state cb = cbHalfOpen) then 1 else 0
  | _ => 0
  end.

(** A system of goroutines on one breaker, with the number of times the
    breaker was put in the open state (a ghost counter no instruction reads). *)
Record system := Sys { sys_cb : circuitBreaker; sys_threads : list thread; sys_opens : nat }.

Inductive sys_step : system -> system -> Prop :=
  | sys_step_thread i now cb ts t cb' t' n :
      ts !! i = Some t ->
      thread_step now cb t = (cb', t') ->
      sys_step (Sys cb ts n) (Sys cb' (<[i := t']> ts) (n + opens cb t)).

Definition sys_start (t : thread) : bool :=
  match t with
  | TSuccess0 | TFailure0 | TClaim0 | TAbort0 _ => true
  | _ => false
  end.

Definition won (t : thread) : bool :=
  match t with TClaim3 | TClaimed _ => true | _ => false end.

Definition tokens (ts : list thread) : list Z :=
  omap (fun t => match t with TClaimed g => Some g | _ => None end) ts.

(** The goroutines [ts] on a new breaker. *)
Definition breaker_machine (ts : list thread) : Machine system :=
  {| initial s := s = Sys newCircuitBreaker ts 0; transition := sys_step |}.

(** ** Lemmas: whole-method executions *)

Lemma exec_ops_cons op ops cb : exec_ops (op :: ops) cb = exec_ops ops (exec_op op cb).
Proof. done. Qed.

(** The breaker is closed exactly below the threshold, with [n] failures
    counted so far. *)
Definition breaker_inv (n : Z) (cb : circuitBreaker) : Prop :=
  consecutiveFailures cb = n /\ (state cb = cbClosed <-> n < cbFailureThreshold).

Lemma exec_op_inv n op cb :
  0 <= n < 2 ^ 63 - 1 -> breaker_inv n cb ->
  breaker_inv (trailing_failures n [op]) (exec_op op cb) /\ 0 <= trailing_failures n [op] <= n + 1.
Proof.
  unfold breaker_inv, cbFailureThreshold. intros Hn [Hf Hs].
  destruct op; simpl; try (split; [|lia]).
  - done.
  - rewrite Hf, wrap64_id by (unfold in_int64, int64_min, int64_max; lia).
    split; [done|]. unfold cbFailureThreshold. destruct (n + 1 >=? 3) eqn:E; simpl;
    (split; intros; [try done; lia|try (apply Hs; lia); lia]).
  - unfold ClaimProbe. repeat case_step; intuition congruence.
  - unfold AbortProbe. repeat case_step. simpl. intuition congruence.
  - done.
Qed.

Lemma exec_ops_inv ops : forall n cb,
  0 <= n -> n + Z.of_nat (length ops) < 2 ^ 63 -> breaker_inv n cb ->
  breaker_inv (trailing_failures n ops) (exec_ops ops cb).
Proof.
  induction ops as [|op ops IH]; intros n cb Hn Hlen Hinv; [done|].
  rewrite exec_ops_cons. simpl length in Hlen.
  destruct (exec_op_inv n op cb) as [H1 H2]; [lia|done|].
  replace (trailing_failures n (op :: ops)) with (trailing_failures (trailing_failures n [op]) ops)
    by (by destruct op).
  apply IH; [lia|lia|done].
Qed.

Lemma half_open_stable ops : forall token cb,
  state cb = cbHalfOpen -> probeGen cb = token ->
  forallb (fun op => negb (resolves token op)) ops = true ->
  state (exec_ops ops cb) = cbHalfOpen /\ probeGen (exec_ops ops cb) = token.
Proof.
  induction ops as [|op ops IH]; intros token cb Hs Hg Hr; [done|].
  simpl in Hr. bool_simp. rewrite exec_ops_cons.
  apply IH; [| |done]; destruct op; simpl in *; try done; unfold ClaimProbe, AbortProbe; repeat case_step; congruence.
Qed.

Lemma no_stamp_keeps_last ops : forall cb,
  forallb (fun op => negb (stamps op)) ops = true ->
  lastFailureNano (exec_ops ops cb) = lastFailureNano cb.
Proof.
  induction ops as [|op ops IH]; intros cb H; [done|].
  simpl in H. bool_simp. rewrite exec_ops_cons, IH by done.
  destruct op; simpl in *; try done. unfold ClaimProbe. by repeat case_step.
Qed.

(** ** Lemmas: instruction-level executions *)

Lemma tokens_insert ts i t t' :
  ts !! i = Some t -> (forall g, t <> TClaimed g) ->
  tokens (<[i := t']> ts) ≡ₚ (match t' with TClaimed g => [g] | _ => [] end) ++ tokens ts.
Proof.
  revert i. induction ts as [|u ts IH]; intros [|i] Hi Ht; simplify_eq/=.
  - unfold tokens. simpl. destruct t; try (by destruct t'). by destruct (Ht token).
  - unfold tokens in *. specialize (IH i Hi Ht). destruct u; simpl; rewrite ?IH; try done.
    by destruct t'; rewrite ?Permutation_middle.
Qed.

Definition wins (ts : list thread) : nat := length (filter (fun t => won t = true) ts).

Lemma wins_insert ts i t t' :
  ts !! i = Some t ->
  (wins (<[i := t']> ts) + (if won t then 1 else 0) = wins ts + (if won t' then 1 else 0))%nat.
Proof.
  unfold wins. revert i. induction ts as [|u ts IH]; intros [|i] Hi; simplify_eq/=.
  - rewrite !filter_cons. destruct (won t) eqn:E, (won t') eqn:E'; repeat case_decide; simpl; lia.
  - rewrite !filter_cons. specialize (IH i Hi). case_decide; simpl; lia.
Qed.

Record sys_inv (ts0 : list thread) (s : system) : Prop := {
  inv_len : length (sys_threads s) = length ts0;
  inv_nodup : NoDup (tokens (sys_threads s));
  inv_gen : probeGen (sys_cb s) = Z.of_nat (length (tokens (sys_threads s)));
  inv_range : Forall (fun g => 1 <= g <= probeGen (sys_cb s)) (tokens (sys_threads s));
  inv_wins : (wins (sys_threads s) + (if decide (state (sys_cb s) = cbOpen) then 1 else 0) <= sys_opens s)%nat
}.

Lemma tokens_le_wins ts : (length (tokens ts) <= wins ts)%nat.
Proof.
  unfold tokens, wins. induction ts as [|t ts IH]; [done|].
  rewrite filter_cons. destruct t; cbn [won omap list_omap length]; case_decide; simplify_eq; cbn [length]; lia.
Qed.

Lemma wins_le_length ts : (wins ts <= length ts)%nat.
Proof. apply length_filter. Qed.

(** The threads' tokens grow by the token this instruction returned. *)
Lemma thread_step_wins now cb t cb' t' :
  thread_step now cb t = (cb', t') ->
  ((if won t' then 1 else 0) + (if decide (state cb' = cbOpen) then 1 else 0)
   <= (if won t then 1 else 0) + (if decide (state cb = cbOpen) then 1 else 0) + opens cb t)%nat.
Proof.
  destruct t; simpl; intros; simplify_eq/=; repeat (case_decide || case_match); simplify_eq/=; try congruence; lia.
Qed.

Lemma thread_step_gen now cb t cb' t' :
  thread_step now cb t = (cb', t') ->
  match t' with
  | TClaimed g => (t = TClaimed g /\ cb' = cb) \/ (t = TClaim3 /\ g = wrap_u64 (probeGen cb + 1) /\ probeGen cb' = g)
  | _ => probeGen cb' = probeGen cb /\ forall g, t <> TClaimed g
  end.
Proof. destruct t; simpl; intros; simplify_eq/=; repeat (case_decide || case_match); simplify_eq/=; auto. Qed.

Lemma sys_step_inv ts0 s s' :
  Z.of_nat (length ts0) < 2 ^ 64 -> sys_inv ts0 s -> sys_step s s' -> sys_inv ts0 s'.
Proof.
  intros Hbound [Hlen Hnd Hgen Hran Hwins] Hstep.
  destruct Hstep as [i now cb ts t cb' t' n Hi Hst]; simpl in *.
  pose proof (thread_step_gen _ _ _ _ _ Hst) as Hg.
  pose proof (thread_step_wins _ _ _ _ _ Hst) as Hw.
  pose proof (wins_insert ts i t t' Hi) as Hwi.
  assert (Hwins' : (wins (<[i:=t']> ts) + (if decide (state cb' = cbOpen) then 1 else 0) <= n + opens cb t)%nat) by lia.
  pose proof (tokens_le_wins ts). pose proof (wins_le_length ts).
  pose proof (tokens_le_wins (<[i:=t']> ts)). pose proof (wins_le_length (<[i:=t']> ts)).
  rewrite length_insert in *.
  assert (Hnt : (exists g, t = TClaimed g) \/ forall g, t <> TClaimed g) by (destruct t; (by right) || (left; by eexists)).
  destruct Hnt as [[g ->]|Hnt].
  { simpl in Hst. simplify_eq. rewrite list_insert_id by done. split; simpl; auto. by rewrite list_insert_id in Hwins'. }
  assert (Hperm := tokens_insert ts i t t' Hi Hnt).
  destruct t' eqn:Et'; try (destruct Hg as [Hg _]; split; simpl;
    rewrite ?length_insert, ?Hperm, ?Hg; auto; fail).
  destruct Hg as [[-> _]|(-> & -> & Hgen')]; [naive_solver|].
  assert (Hl : (length (tokens (<[i:=TClaimed (wrap_u64 (probeGen cb + 1))]> ts)) = S (length (tokens ts)))%nat)
    by (by rewrite Hperm).
  assert (Hu : wrap_u64 (probeGen cb + 1) = probeGen cb + 1) by (apply wrap_u64_id; lia).
  rewrite Hu in *.
  split; simpl; rewrite ?length_insert, ?Hperm, ?Hgen'; simpl; auto.
  - constructor; [|done]. intros Hin. rewrite Forall_forall in Hran. specialize (Hran _ Hin). lia.
  - lia.
  - constructor; [lia|]. eapply Forall_impl; [exact Hran|]. simpl. lia.
Qed.

Lemma sys_reachable_inv ts0 s :
  Z.of_nat (length ts0) < 2 ^ 64 -> Forall (fun t => sys_start t = true) ts0 ->
  reachable (breaker_machine ts0) s -> sys_inv ts0 s.
Proof.
  intros Hb Hstart. apply reachable_invariant; [|eauto using sys_step_inv]. intros ? ->.
  assert (tokens ts0 = [] /\ wins ts0 = 0%nat) as [Ht Hw].
  { clear Hb. unfold tokens, wins. induction Hstart as [|t ts Hs _ [IH1 IH2]]; [done|].
    rewrite filter_cons. destruct t; try done; split; try done; case_decide; simplify_eq; done. }
  split; simpl; rewrite ?Ht, ?Hw; try done; constructor.
Qed.

(** ** Properties *)

(** C9: after any sequence of fewer than 2^63 breaker operations, the breaker
    is closed (traffic flows) exactly when fewer than [cbFailureThreshold]
    failures were recorded since the last recorded success; claims, aborts and
    retirement never open or close a breaker on their own. *)
Theorem breaker_closed_iff ops :
  Z.of_nat (length ops) < 2 ^ 63 ->
  Closed (exec_ops ops newCircuitBreaker) = true <-> trailing_failures 0 ops < cbFailureThreshold.
Proof.
  intros H. unfold Closed. rewrite bool_decide_eq_true.
  destruct (exec_ops_inv ops 0 newCircuitBreaker) as [_ ->]; done || lia.
Qed.

Lemma breaker_closed_iff_witness :
  Closed (exec_ops [OpFailure 1; OpSuccess; OpFailure 2; OpFailure 3] newCircuitBreaker) = true.
Proof. apply (breaker_closed_iff [OpFailure 1; OpSuccess; OpFailure 2; OpFailure 3]); done. Defined.

(** Once a recovery probe is claimed, then until that probe is resolved
    (success, failure, or an abort presenting its own token) every further
    [ClaimProbe] is refused and every [AbortProbe] with another token is
    refused: one probe is in flight and only its holder can release it. *)
Theorem claim_exclusive now cb cb' token ops now' other :
  ClaimProbe now cb = (cb', Some token) ->
  forallb (fun op => negb (resolves token op)) ops = true ->
  other <> token ->
  let cb'' := exec_ops ops cb' in
  ClaimProbe now' cb'' = (cb'', None) /\ AbortProbe now' other cb'' = (cb'', false)
  /\ snd (AbortProbe now' token cb'') = true.
Proof.
  intros Hc Hr Hne.
  assert (state cb' = cbHalfOpen /\ probeGen cb' = token) as [H1 H2]
    by (unfold ClaimProbe in Hc; by repeat case_in Hc).
  destruct (half_open_stable ops token cb' H1 H2 Hr) as [Hs Hg]. simpl.
  unfold ClaimProbe, AbortProbe. rewrite Hs, Hg.
  rewrite Z.eqb_refl. split; [done|]. split; [|done].
  destruct (token =? other) eqn:E; [bool_simp; congruence|done].
Qed.

Lemma claim_exclusive_witness :
  let cb := exec_ops [OpFailure 1; OpFailure 2; OpFailure 3] newCircuitBreaker in
  let cb' := fst (ClaimProbe (40 * Second) cb) in
  AbortProbe (50 * Second) 7 (exec_ops [OpClaim (45 * Second); OpAbort 1 9] cb')
  = (exec_ops [OpClaim (45 * Second); OpAbort 1 9] cb', false).
Proof.
  apply (claim_exclusive (40 * Second) (exec_ops [OpFailure 1; OpFailure 2; OpFailure 3] newCircuitBreaker) _ 1
    [OpClaim (45 * Second); OpAbort 1 9] (50 * Second) 7); done.
Defined.

(** A probe is granted only after the full cooldown: if a failure was
    recorded at time [t] and nothing stamped the breaker since, a claim that
    succeeds at [now] comes at least [cbCooldown] after [t]. *)
Theorem claim_after_cooldown t cb ops now cb' token :
  forallb (fun op => negb (stamps op)) ops = true ->
  ClaimProbe now (exec_ops ops (RecordFailure t cb)) = (cb', Some token) ->
  cbCooldown <= now - t.
Proof.
  intros Hs Hc. unfold ClaimProbe in Hc. repeat case_in Hc.
  rewrite no_stamp_keeps_last in * by done. simpl in *.
  match goal with H : cbCooldown <= time_sub _ _ |- _ => revert H end.
  unfold time_sub, int64_min, int64_max, cbCooldown, Second. lia.
Qed.

Lemma claim_after_cooldown_witness : cbCooldown <= 31 * Second - 1.
Proof.
  apply (claim_after_cooldown 1 (exec_ops [OpFailure 1; OpFailure 1] newCircuitBreaker) [OpRetire] (31 * Second)
    (CB cbHalfOpen 3 1 1 true) 1); reflexivity.
Defined.

(** C10: under every interleaving of the atomic instructions of any number of
    goroutines, no two successful [ClaimProbe] calls return the same token,
    and the number of claims won never exceeds the number of times the breaker
    was opened: each opening admits at most one probe. *)
Theorem interleaved_claims_unique ts s :
  Z.of_nat (length ts) < 2 ^ 64 -> Forall (fun t => sys_start t = true) ts ->
  reachable (breaker_machine ts) s ->
  NoDup (tokens (sys_threads s)) /\ (wins (sys_threads s) <= sys_opens s)%nat.
Proof.
  intros Hb Hs Hr. destruct (sys_reachable_inv ts s Hb Hs Hr) as [_ Hnd _ _ Hw]. split; [done|lia].
Qed.

(** Two goroutines race for the probe of a breaker three failures opened. *)
Definition w_threads : list thread := [TFailure0; TFailure0; TFailure0; TClaim0; TClaim0].
Definition w_schedule : list (nat * Z) :=
  zip [0; 1; 2; 0; 1; 2; 2]%nat (replicate 7 1) ++ zip [3; 4; 3; 4; 4; 3; 4]%nat (replicate 7 (40 * Second)).

Definition w_run (s : system) (p : nat * Z) : system :=
  match sys_threads s !! p.1 with
  | Some t => let '(cb', t') := thread_step p.2 (sys_cb s) t in Sys cb' (<[p.1 := t']> (sys_threads s)) (sys_opens s + opens (sys_cb s) t)
  | None => s
  end.

Lemma w_run_reachable ts sch s : reachable (breaker_machine ts) s -> reachable (breaker_machine ts) (foldl w_run s sch).
Proof.
  revert s. induction sch as [|[i now] sch IH]; intros s Hs; [done|]. cbn [foldl]. apply IH. unfold w_run. cbn [fst snd].
  destruct (sys_threads s !! i) as [t|] eqn:Hi; [|done]. destruct (thread_step now (sys_cb s) t) as [cb' t'] eqn:Ht.
  eapply reach_next; [exact Hs|]. destruct s as [cb ths n]. by eapply (sys_step_thread i now).
Qed.

Lemma interleaved_claims_unique_witness :
  sys_threads (foldl w_run (Sys newCircuitBreaker w_threads 0) w_schedule) = [TDone; TDone; TDone; TNotClaimed; TClaimed 1]
  /\ NoDup (tokens [TDone; TDone; TDone; TNotClaimed; TClaimed 1]).
Proof.
  assert (sys_threads (foldl w_run (Sys newCircuitBreaker w_threads 0) w_schedule) = [TDone; TDone; TDone; TNotClaimed; TClaimed 1]) as E
    by (vm_compute; reflexivity).
  split; [exact E|]. rewrite <- E. apply (interleaved_claims_unique w_threads).
  - reflexivity.
  - repeat constructor.
  - apply w_run_reachable. by constructor.
Defined.
