(* ===== verification/Metrics.v ===== *)
(** * Backend load samples and routing tiers ([manager/metrics.go] and the
    [tier] method of [manager/routing_tiers.go])

    Each enclave keeps the latest polled queue depth and running count and,
    per configured pair of queue marks, whether the queue tripped and has not
    drained. *)

From S2P Require Import Prelude Float64 Config.
#[local] Open Scope string_scope.
#[local] Open Scope list_scope.
#[local] Open Scope Z_scope.

(** ** Data *)

Record requestCounts := RC {
  waiting : float64;
  running : float64;
  hasWaiting : bool;
  hasRunning : bool
}.

Definition zeroCounts : requestCounts := RC f64_zero f64_zero false false.

Definition supports (s : requestCounts) (cfg : option OverloadConfig) : bool :=
  match cfg with
  | None => false
  | Some c => Enabled cfg && hasWaiting s && ((SoftMaxRequestsRunning c <=? 0) || hasRunning s)
  end.

(** [queueMarks{trip, clear}] *)
Abbreviation queueMarks := (Z * Z)%type.

Definition overloaded (q : queueMarks) (w : float64) (previous : bool) : bool :=
  if f64_le (f64_of_int (fst q)) w then true
  else previous && f64_lt (f64_of_int (snd q)) w.

Record enclaveMetrics := EM {
  polling : bool;                          (* a poller goroutine runs (m.cancel != nil) *)
  nativePolicy : option OverloadConfig;
  requiresRunning : bool;
  latestCounts : requestCounts;
  latestCollected : Z;
  queueOverloads : gmap queueMarks bool
}.

Definition newEnclaveMetrics : enclaveMetrics := EM false None false zeroCounts time_zero ∅.

Definition sampleStalenessLimit : Z := 15 * Second.

Inductive routingTier := tierPreferred | tierBusy | tierUnknown | tierOverloaded.

#[export] Instance routingTier_eq_dec : EqDecision routingTier.
Proof. solve_decision. Defined.

(** What [publishOverloadLocked] counts: entering and leaving overload. *)
Inductive overload_event := OverloadEvent | RecoveryEvent.

(** ** Operations *)

Definition flag (m : enclaveMetrics) (marks : queueMarks) : bool := default false (queueOverloads m !! marks).

Definition queueOverloadedLocked (m : enclaveMetrics) (policy : option OverloadConfig) : bool :=
  match policy with
  | None => false
  | Some p => if MaxRequestsWaiting p <=? 0 then false else flag m (Marks p)
  end.

(** The events counted and the value the gauge is set to. *)
Definition publishOverloadLocked (wasOverloaded : bool) (m : enclaveMetrics) : list overload_event * bool :=
  let o := queueOverloadedLocked m (nativePolicy m) in
  (if o && negb wasOverloaded then [OverloadEvent]
   else if negb o && wasOverloaded then [RecoveryEvent] else [], o).

Definition fresh (now : Z) (m : enclaveMetrics) : bool :=
  negb (IsZero (latestCollected m)) && (time_sub now (latestCollected m) <=? sampleStalenessLimit).

(** The loop body of [configurePolicies] over one policy. *)
Definition configure_one (now : Z) (m : enclaveMetrics)
    (acc : bool * bool * gmap queueMarks bool) (policy : option OverloadConfig)
  : bool * bool * gmap queueMarks bool :=
  let '(poll, requires, states) := acc in
  match policy with
  | Some p =>
      if Enabled policy then
        let marks := Marks p in
        let states :=
          if fst marks >? 0 then
            let state := flag m marks in
            let state := if hasWaiting (latestCounts m) && fresh now m
                         then overloaded marks (waiting (latestCounts m)) state else state in
            <[marks := state]> states
          else states in
        (true, requires || (SoftMaxRequestsRunning p >? 0), states)
      else acc
  | None => acc
  end.

Definition configurePolicies (now : Z) (native : option OverloadConfig) (policies : list (option OverloadConfig))
    (m : enclaveMetrics) : enclaveMetrics * bool * (list overload_event * bool) :=
  let wasOverloaded := queueOverloadedLocked m (nativePolicy m) in
  let '(poll, requires, states) := foldl (configure_one now m) (false, false, ∅) (native :: policies) in
  let m' := EM (polling m) native requires
               (if poll then latestCounts m else zeroCounts)
               (if poll then latestCollected m else time_zero) states in
  (m', poll, publishOverloadLocked wasOverloaded m').

(** Stops a running poller, reconfigures, and starts one when a policy needs it. *)
Definition setPolicies (now : Z) (native : option OverloadConfig) (policies : list (option OverloadConfig))
    (m : enclaveMetrics) : enclaveMetrics * (list overload_event * bool) :=
  let '(m', poll, ev) := configurePolicies now native policies m in
  (EM poll (nativePolicy m') (requiresRunning m') (latestCounts m') (latestCollected m') (queueOverloads m'), ev).

Definition supportsSample (m : enclaveMetrics) (counts : requestCounts) : bool :=
  hasWaiting counts && (negb (requiresRunning m) || hasRunning counts).

Definition updateLatest (counts : requestCounts) (ts : Z) (m : enclaveMetrics)
  : enclaveMetrics * (list overload_event * bool) :=
  let wasOverloaded := queueOverloadedLocked m (nativePolicy m) in
  let states := if hasWaiting counts
                then map_imap (fun marks state => Some (overloaded marks (waiting counts) state)) (queueOverloads m)
                else queueOverloads m in
  let m' := EM (polling m) (nativePolicy m) (requiresRunning m) counts ts states in
  (m', publishOverloadLocked wasOverloaded m').

(** One sample of a scraped metric family. *)
Inductive sample := Gauge (v : float64) | Untyped (v : float64) | OtherSample.

(** The inner loop of [extractRequestCounts] over one family's samples. *)
Fixpoint sum_samples (samples : list sample) (value : float64) (present : bool) : option (float64 * bool) :=
  match samples with
  | [] => Some (value, present)
  | OtherSample :: _ => None
  | (Gauge v | Untyped v) :: samples =>
      if IsNaN v || IsInf v || f64_lt v f64_zero then None
      else sum_samples samples (f64_add value v) true
  end.

Definition waitingMetricName : string := "vllm:num_requests_waiting".
Definition runningMetricName : string := "vllm:num_requests_running".

(** [families] is the parsed exposition text. *)
Definition extractRequestCounts (families : string -> list sample) : option requestCounts :=
  '(w, hw) ← sum_samples (families waitingMetricName) f64_zero false;
  '(r, hr) ← sum_samples (families runningMetricName) f64_zero false;
  Some (RC w r hw hr).

(** One poll: [None] is a request, status or text-format failure. *)
Definition scrape (now : Z) (response : option (string -> list sample)) (m : enclaveMetrics)
  : enclaveMetrics * (list overload_event) :=
  match response with
  | None => (m, [])
  | Some families =>
      match extractRequestCounts families with
      | None => (m, [])
      | Some counts =>
          if supportsSample m counts then let '(m', (ev, _)) := updateLatest counts now m in (m', ev)
          else (m, [])
      end
  end.

Definition metrics_shutdown (m : enclaveMetrics) : enclaveMetrics :=
  EM false (nativePolicy m) (requiresRunning m) (latestCounts m) (latestCollected m) (queueOverloads m).

(** The tier of a backend under the caller's policy, with its queue depth. *)
Definition tier (now : Z) (policy : option OverloadConfig) (m : enclaveMetrics) : routingTier * float64 :=
  match policy with
  | Some p =>
      if negb (Enabled policy) then (tierPreferred, f64_zero)
      else
        let counts := latestCounts m in
        if IsZero (latestCollected m) || (time_sub now (latestCollected m) >? sampleStalenessLimit)
           || negb (supports counts policy)
        then (tierUnknown, waiting counts)
        else
          let marks := Marks p in
          if (fst marks >? 0) && overloaded marks (waiting counts) (flag m marks)
          then (tierOverloaded, waiting counts)
          else if f64_eq (waiting counts) f64_zero
                  && ((SoftMaxRequestsRunning p <=? 0) || f64_lt (running counts) (f64_of_int (SoftMaxRequestsRunning p)))
          then (tierPreferred, waiting counts)
          else (tierBusy, waiting counts)
  | None => (tierPreferred, f64_zero)
  end.

(** ** The queue guard as a function of the samples it saw *)

(** What one sample decides on its own: trip, clear, or neither. *)
Definition decided (q : queueMarks) (w : float64) : option bool :=
  if f64_le (f64_of_int (fst q)) w then Some true
  else if f64_lt (f64_of_int (snd q)) w then None
  else Some false.

(** The last decisive sample decides. *)
Definition hysteresis (q : queueMarks) (initial : bool) (samples : list float64) : bool :=
  default initial (last (omap (decided q) samples)).

(** The operations of one enclave's metrics, with their times. *)
Inductive metrics_op :=
  | OpSetPolicies (now : Z) (native : option OverloadConfig) (policies : list (option OverloadConfig))
  | OpScrape (now : Z) (response : option (string -> list sample)).

Definition run_op (op : metrics_op) (m : enclaveMetrics) : enclaveMetrics * list overload_event :=
  match op with
  | OpSetPolicies now native policies => let '(m', (ev, _)) := setPolicies now native policies m in (m', ev)
  | OpScrape now response => scrape now response m
  end.

Fixpoint run_ops (ops : list metrics_op) (m : enclaveMetrics) : enclaveMetrics * list overload_event :=
  match ops with
  | [] => (m, [])
  | op :: ops =>
      let (m', ev) := run_op op m in
      let (m'', ev') := run_ops ops m' in
      (m'', (ev ++ ev')%list)
  end.

(** The events alternate, starting from the given overload flag. *)
Fixpoint alternates (flag : bool) (evs : list overload_event) : option bool :=
  match evs with
  | [] => Some flag
  | OverloadEvent :: evs => if flag then None else alternates true evs
  | RecoveryEvent :: evs => if flag then alternates false evs else None
  end.

(** ** Lemmas *)

Lemma overloaded_decided q w b : overloaded q w b = default b (decided q w).
Proof. unfold overloaded, decided. repeat case_step; by destruct b. Qed.

Lemma updateLatest_flag counts ts m marks b :
  hasWaiting counts = true -> queueOverloads m !! marks = Some b ->
  queueOverloads (fst (updateLatest counts ts m)) !! marks = Some (overloaded marks (waiting counts) b).
Proof. intros Hw Hm. simpl. by rewrite Hw, map_lookup_imap, Hm. Qed.

Lemma publish_alternates was m :
  alternates was (fst (publishOverloadLocked was m)) = Some (queueOverloadedLocked m (nativePolicy m)).
Proof. unfold publishOverloadLocked. simpl. by destruct was, (queueOverloadedLocked m (nativePolicy m)). Qed.

Lemma alternates_app evs1 : forall f evs2,
  alternates f (evs1 ++ evs2) = f' ← alternates f evs1; alternates f' evs2.
Proof. induction evs1 as [|[] evs1 IH]; intros [] evs2; simpl; auto. Qed.

Definition native_flag (m : enclaveMetrics) : bool := queueOverloadedLocked m (nativePolicy m).

Lemma run_op_alternates op m :
  alternates (native_flag m) (snd (run_op op m)) = Some (native_flag (fst (run_op op m))).
Proof.
  destruct op as [now native policies|now response]; simpl.
  - unfold setPolicies, configurePolicies.
    destruct (foldl _ _ _) as [[poll req] states].
    match goal with |- context [publishOverloadLocked ?w ?m'] =>
      pose proof (publish_alternates w m') as H; destruct (publishOverloadLocked w m') end.
    simpl in *. unfold native_flag. rewrite H. unfold queueOverloadedLocked, flag. done.
  - unfold scrape. destruct response as [families|]; [|done].
    destruct (extractRequestCounts families) as [counts|]; [|done]. destruct (supportsSample m counts); [|done].
    pose proof (publish_alternates (native_flag m) (fst (updateLatest counts now m))) as H.
    unfold updateLatest in *. simpl in *. unfold native_flag in *. done.
Qed.

Lemma run_ops_alternates ops : forall m,
  alternates (native_flag m) (snd (run_ops ops m)) = Some (native_flag (fst (run_ops ops m))).
Proof.
  induction ops as [|op ops IH]; intros m; [done|]. simpl.
  pose proof (run_op_alternates op m) as H. destruct (run_op op m) as [m' ev]. simpl in H.
  specialize (IH m'). destruct (run_ops ops m') as [m'' ev']. simpl in *.
  by rewrite alternates_app, H.
Qed.


Lemma hysteresis_snoc q b ws w : hysteresis q b (ws ++ [w]) = overloaded q w (hysteresis q b ws).
Proof.
  unfold hysteresis. rewrite overloaded_decided, omap_app, last_app. simpl. by destruct (decided q w).
Qed.

(** An empty queue is below both marks. *)
Lemma idle_not_overloaded q w previous :
  f64_eq w f64_zero = true -> 0 < fst q < 2 ^ 53 -> 0 <= snd q < 2 ^ 53 -> overloaded q w previous = false.
Proof.
  intros Hw Ht Hc. unfold overloaded.
  assert (forall z, 0 <= z < 2 ^ 53 -> SFcompare (f64_of_int z) w = Some (z ?= 0)) as Hcmp.
  { intros z Hr. rewrite <- (f64_compare_ints z 0) by lia.
    unfold f64_eq, SFeqb in Hw. destruct w as [[]|[]| |[] ? ?]; simpl in Hw; try done; by destruct (f64_of_int z). }
  unfold f64_le, f64_lt, SFleb, SFltb. rewrite !Hcmp by lia.
  destruct (Z.compare_spec (fst q) 0), (Z.compare_spec (snd q) 0); try lia; by rewrite andb_false_r.
Qed.

(** ** Properties *)

(** Samples applied in order. *)
Definition feed (samples : list (requestCounts * Z)) (m : enclaveMetrics) : enclaveMetrics :=
  foldl (fun m s => fst (updateLatest (fst s) (snd s) m)) m samples.

(** The stored queue-guard flag is hysteresis over the samples seen: after
    any run of complete samples it is the verdict of the last sample that was
    at or above the trip mark (tripped) or at or below the clear mark
    (cleared), samples in between change nothing. *)
Theorem queue_guard_hysteresis samples m marks b :
  Forall (fun s => hasWaiting (fst s) = true) samples ->
  queueOverloads m !! marks = Some b ->
  queueOverloads (feed samples m) !! marks
  = Some (hysteresis marks b (map (fun s => waiting (fst s)) samples)).
Proof.
  induction samples as [|[c ts] samples IH] using rev_ind; intros Hall Hm; [done|].
  apply Forall_app in Hall as [Hall [Hc _]%Forall_cons_1].
  unfold feed in *. rewrite foldl_app, map_app. simpl foldl. simpl map.
  rewrite hysteresis_snoc. apply updateLatest_flag; [exact Hc|by apply IH].
Qed.

Lemma queue_guard_hysteresis_witness :
  let s n := (RC (f64_of_int n) f64_zero true false, n) in
  queueOverloads (feed [s 14; s 10; s 8] (EM true None false zeroCounts 0 {[(14, 7) := false]})) !! (14, 7) = Some true.
Proof.
  apply (queue_guard_hysteresis
    [(RC (f64_of_int 14) f64_zero true false, 14); (RC (f64_of_int 10) f64_zero true false, 10);
     (RC (f64_of_int 8) f64_zero true false, 8)] (EM true None false zeroCounts 0 {[(14, 7) := false]}) (14, 7) false).
  - repeat constructor.
  - reflexivity.
Defined.

(** Over any history of configuration changes and polls, the overload and
    recovery events a backend counts alternate, starting with an overload, and
    their balance is the backend's current overload flag: no transition of the
    native queue guard is missed or counted twice. *)
Theorem overload_events_alternate ops :
  alternates false (snd (run_ops ops newEnclaveMetrics))
  = Some (native_flag (fst (run_ops ops newEnclaveMetrics))).
Proof. apply (run_ops_alternates ops newEnclaveMetrics). Qed.

(** Overload is never inferred from missing or old data and an idle backend
    is never held back: a backend whose sample is absent, older than the
    staleness limit or incomplete is in the unknown tier under every enabled
    policy, and one with a fresh, complete, empty queue sample is in the
    preferred or the busy tier, preferred unless its running count reached
    the soft limit. *)
Theorem tier_fails_open now p m :
  Enabled (Some p) = true -> MaxRequestsWaiting p < 2 ^ 53 ->
  (fresh now m = false \/ supports (latestCounts m) (Some p) = false ->
     fst (tier now (Some p) m) = tierUnknown)
  /\ (fresh now m = true -> supports (latestCounts m) (Some p) = true ->
      f64_eq (waiting (latestCounts m)) f64_zero = true ->
      fst (tier now (Some p) m) =
        if (SoftMaxRequestsRunning p <=? 0)
           || f64_lt (running (latestCounts m)) (f64_of_int (SoftMaxRequestsRunning p))
        then tierPreferred else tierBusy).
Proof.
  intros He Hb. unfold tier, fresh. rewrite He. change (negb true) with false. cbv iota. split.
  - intros Hs. destruct (IsZero (latestCollected m)); [done|]. simpl in *.
    destruct (time_sub now (latestCollected m) >? sampleStalenessLimit) eqn:E; [done|]. simpl.
    destruct Hs as [Hs|Hs]; [|by rewrite Hs]. bool_simp. lia.
  - intros [Hz%negb_true_iff Hf]%andb_true_iff Hs Hw. rewrite Hs, Hz. change (negb true) with false. rewrite orb_false_r. simpl.
    destruct (time_sub now (latestCollected m) >? sampleStalenessLimit) eqn:E; [lia|].
    destruct (MaxRequestsWaiting p >? 0) eqn:Et.
    + destruct (Marks p) as [trip clear] eqn:Em.
      assert (trip = MaxRequestsWaiting p) as -> by (unfold Marks in Em; congruence).
      pose proof (Marks_band p _ _ Em ltac:(lia)) as Hc. simpl fst.
      rewrite (idle_not_overloaded (MaxRequestsWaiting p, clear)) by (done || simpl; lia).
      rewrite Hw, ?andb_false_r. simpl. by destruct (_ || _).
    + rewrite Hw. simpl. by destruct (_ || _).
Qed.

Lemma tier_fails_open_witness :
  let p := Build_OverloadConfig 14 0 8 0 in
  let m := EM true (Some p) true (RC f64_zero (f64_of_int 4) true true) 100 ∅ in
  fst (tier 200 (Some p) m) = tierPreferred
  /\ fst (tier (100 + 16 * Second) (Some p) m) = tierUnknown.
Proof.
  split.
  - apply (tier_fails_open 200 (Build_OverloadConfig 14 0 8 0)); reflexivity.
  - apply (tier_fails_open (100 + 16 * Second) (Build_OverloadConfig 14 0 8 0)); [reflexivity|reflexivity|left; reflexivity].
Defined.
