(* ===== verification/Pool.v ===== *)
(** * A model's backend pool and its reservations ([manager/manager.go],
    [manager/verification.go] and [spillPoliciesLocked] of
    [manager/routing_tiers.go])

    The enclaves serving one model, the organizations some of them are
    reserved for, and the host sets a caller may be routed to. *)

From S2P Require Import Prelude Float64 Config Metrics CircuitBreaker.
#[local] Open Scope string_scope.
#[local] Open Scope list_scope.
#[local] Open Scope Z_scope.

(** ** Data *)

Record verifiedAttestation := Att { expiresAt : Z; verifiedAt : Z; codeTag : string }.

(** An entry of [Model.Enclaves]; nil pointers are [None]. *)
Record Enclave := Encl {
  host : string;
  modelName : string;
  tlsKeyFP : string;
  hpkeKey : string;
  predicate : string;
  attestation : option verifiedAttestation;
  metrics : option enclaveMetrics;
  cb : option circuitBreaker;
  inflight : Z
}.

(** What the router last learned of a configured host. *)
Record verificationAttempt := Attempt { lastAttempt : Z; lastFailure : Z; lastError : string; failures : Z }.
Definition zeroAttempt : verificationAttempt := Attempt time_zero time_zero "" 0.

(** The pool of one model. Host sets [map[string]bool] hold only [true]
    values; a nil set is [None]. *)
Record PoolModel := PM {
  Enclaves : gmap string Enclave;
  m_Overload : option OverloadConfig;
  m_CacheRoute : option CacheRouteConfig;
  m_Reservations : list ReservationConfig;
  expectedHosts : Z;
  configuredHosts : gmap string verificationAttempt;
  reservedByOrg : gmap string (gset string);
  sharedHosts : option (gset string);
  reservationOverloads : gmap string (option OverloadConfig);
  policiesByOrg : gmap string (option OverloadConfig)
}.

(** ** Attestation freshness *)

Definition attestationRenewalWindow : Z := 24 * Hour.
Definition attestationRefreshInterval : Z := Hour.

Definition attestationValid (now : Z) (e : Enclave) : bool :=
  match attestation e with
  | None => true
  | Some a => now <? expiresAt a
  end.

Definition attestationRefreshDue (now refreshInterval : Z) (e : Enclave) : bool :=
  match attestation e with
  | None => false
  | Some a =>
      negb (now + Z.max attestationRenewalWindow refreshInterval <? expiresAt a)
      || negb (now + Z.min refreshInterval attestationRefreshInterval <? verifiedAt a + attestationRefreshInterval)
  end.

Definition breakerClosed (e : Enclave) : bool :=
  match cb e with None => true | Some b => Closed b end.

(** ** Reservations *)

(** What the loops of [applyReservations] build. *)
Record res_acc := RA {
  ra_byOrg : gmap string (gset string);
  ra_reserved : gset string;
  ra_overloads : gmap string (option OverloadConfig);
  ra_policies : gmap string (option OverloadConfig)
}.

(** The innermost loop, over the hosts of one reservation. *)
Definition reserve_host (known : gset string) (res : ReservationConfig)
    (acc : gset string * gset string * gmap string (option OverloadConfig) * bool) (h : string)
  : gset string * gset string * gmap string (option OverloadConfig) * bool :=
  let '(set, reserved, overloads, recognized) := acc in
  if decide (h ∈ known) then ({[h]} ∪ set, {[h]} ∪ reserved, <[h := res_Overload res]> overloads, true)
  else acc.

(** The loop over the organizations of one reservation. *)
Definition reserve_org (known : gset string) (modelOverload : option OverloadConfig) (res : ReservationConfig)
    (acc : res_acc) (orgID : string) : res_acc :=
  if decide (orgID = "") then acc
  else
    let policy := match res_Overload res with Some o => Some o | None => modelOverload end in
    let set := default ∅ (ra_byOrg acc !! orgID) in
    let '(set, reserved, overloads, recognized) :=
      foldl (reserve_host known res) (set, ra_reserved acc, ra_overloads acc, false) (res_Enclaves res) in
    if decide (set = ∅) then RA (delete orgID (ra_byOrg acc)) reserved overloads (ra_policies acc)
    else RA (<[orgID := set]> (ra_byOrg acc)) reserved overloads
            (if recognized then <[orgID := policy]> (ra_policies acc) else ra_policies acc).

Definition reserve_one (known : gset string) (modelOverload : option OverloadConfig) (acc : res_acc)
    (res : ReservationConfig) : res_acc :=
  match OrgIDs res, res_Enclaves res with
  | [], _ | _, [] => acc
  | orgs, _ => foldl (reserve_org known modelOverload res) acc orgs
  end.

Definition reserve_all (known : gset string) (modelOverload : option OverloadConfig)
    (reservations : list ReservationConfig) : res_acc :=
  foldl (reserve_one known modelOverload) (RA ∅ ∅ ∅ ∅) reservations.

Definition applyReservations (reservations : list ReservationConfig) (hostnames : list string) (m : PoolModel)
  : PoolModel :=
  let known : gset string := list_to_set hostnames in
  let acc := reserve_all known (m_Overload m) reservations in
  let derived byOrg shared :=
    PM (Enclaves m) (m_Overload m) (m_CacheRoute m) reservations (expectedHosts m) (configuredHosts m)
       byOrg shared (ra_overloads acc) (ra_policies acc) in
  if decide (ra_byOrg acc = ∅) then derived ∅ None
  else derived (ra_byOrg acc) (Some (known ∖ ra_reserved acc)).

Definition overloadForHostLocked (h : string) (m : PoolModel) : option OverloadConfig :=
  match reservationOverloads m !! h with
  | Some (Some override) => Some override
  | _ => m_Overload m
  end.

Definition spillPoliciesLocked (h : string) (m : PoolModel) : list (option OverloadConfig) :=
  match sharedHosts m with
  | Some shared =>
      if decide (h ∈ shared) then filter (fun p => Enabled p = true) (map_to_list (policiesByOrg m)).*2 else []
  | None => []
  end.

Definition HasReservations (m : PoolModel) : bool := negb (bool_decide (reservedByOrg m = ∅)).

(** The caller's primary and spill-over host sets and its policy. *)
Definition ReservationPools (orgID : string) (m : PoolModel)
  : option (gset string) * option (gset string) * option OverloadConfig :=
  if decide (reservedByOrg m = ∅) then (None, None, m_Overload m)
  else
    match (if decide (orgID = "") then None else reservedByOrg m !! orgID) with
    | Some hosts => (Some hosts, sharedHosts m, default None (policiesByOrg m !! orgID))
    | None => (sharedHosts m, None, m_Overload m)
    end.

(** ** Lemmas *)

(** The state of the loops, related to the reservations processed so far:
    [pairs] is the list of (organization, reservation) pairs they covered. *)
Record res_inv (known : gset string) (mo : option OverloadConfig)
    (pairs : list (string * ReservationConfig)) (acc : res_acc) : Prop := {
  ri_member : forall o h, (exists S, ra_byOrg acc !! o = Some S /\ h ∈ S) <->
    (exists r, (o, r) ∈ pairs /\ o <> "" /\ h ∈ res_Enclaves r /\ h ∈ known);
  ri_nonempty : forall o S, ra_byOrg acc !! o = Some S -> S <> ∅;
  ri_reserved : forall h, h ∈ ra_reserved acc <-> exists o S, ra_byOrg acc !! o = Some S /\ h ∈ S;
  ri_policy : forall o, is_Some (ra_byOrg acc !! o) ->
    exists r, (o, r) ∈ pairs /\ (exists h, h ∈ res_Enclaves r /\ h ∈ known)
      /\ ra_policies acc !! o = Some (match res_Overload r with Some x => Some x | None => mo end)
}.

Lemma reserve_hosts_spec known res hs : forall set reserved overloads b,
  let '(set', reserved', overloads', b') := foldl (reserve_host known res) (set, reserved, overloads, b) hs in
  set' = set ∪ (list_to_set hs ∩ known) /\ reserved' = reserved ∪ (list_to_set hs ∩ known)
  /\ (b' = true <-> b = true \/ exists h, h ∈ hs /\ h ∈ known).
Proof.
  induction hs as [|h hs IH]; intros set reserved overloads b; simpl.
  - split; [set_solver|]. split; [set_solver|]. set_solver.
  - case_decide as Hk.
    + specialize (IH ({[h]} ∪ set) ({[h]} ∪ reserved) (<[h := res_Overload res]> overloads) true).
      destruct (foldl _ _ hs) as [[[s' r'] o'] b']. destruct IH as (-> & -> & Hb).
      split; [set_solver|]. split; [set_solver|]. set_solver.
    + specialize (IH set reserved overloads b).
      destruct (foldl _ _ hs) as [[[s' r'] o'] b']. destruct IH as (-> & -> & Hb).
      split; [set_solver|]. split; [set_solver|]. set_solver.
Qed.

Lemma res_inv_init known mo : res_inv known mo [] (RA ∅ ∅ ∅ ∅).
Proof.
  split; simpl.
  - intros o h. rewrite lookup_empty. set_solver.
  - intros o S H. by rewrite lookup_empty in H.
  - intros h. split; [set_solver|]. intros (? & ? & H & _). by rewrite lookup_empty in H.
  - intros o [? H]. by rewrite lookup_empty in H.
Qed.

Lemma insert_members (m : gmap string (gset string)) o hs o' h :
  (exists S, <[o := default ∅ (m !! o) ∪ hs]> m !! o' = Some S /\ h ∈ S)
  <-> (exists S, m !! o' = Some S /\ h ∈ S) \/ (o' = o /\ h ∈ hs).
Proof.
  rewrite lookup_insert. case_decide as Ho; [subst o'|].
  - split.
    + intros (S & [= <-] & [H|H]%elem_of_union); [left|by right].
      destruct (m !! o) as [S|]; [by exists S|by apply elem_of_empty in H].
    + intros [(S & -> & Hh)|[_ Hh]]; eexists; (split; [done|]); apply elem_of_union; auto.
  - split; [by left|]. intros [?|[-> ?]]; done.
Qed.

Lemma reserve_org_inv known mo pairs acc o r :
  res_inv known mo pairs acc -> res_inv known mo (pairs ++ [(o, r)]) (reserve_org known mo r acc o).
Proof.
  intros [Hm Hn Hr Hp]. unfold reserve_org. case_decide as Ho.
  { subst. split; [|done|done|].
    - intros o h. rewrite Hm. set_solver.
    - intros o Hs. destruct (Hp o Hs) as (r' & ? & ?). exists r'. set_solver. }
  pose proof (reserve_hosts_spec known r (res_Enclaves r) (default ∅ (ra_byOrg acc !! o)) (ra_reserved acc) (ra_overloads acc) false) as H.
  destruct (foldl _ _ (res_Enclaves r)) as [[[S' R'] O'] b]. destruct H as (-> & -> & Hb).
  set (hs := list_to_set (res_Enclaves r) ∩ known).
  assert (Hhs : forall h, h ∈ hs <-> h ∈ res_Enclaves r /\ h ∈ known) by (subst hs; set_solver).
  assert (Hmem : forall o' h, (exists S, ra_byOrg acc !! o' = Some S /\ h ∈ S) \/ (o' = o /\ h ∈ hs) <->
    (exists r', (o', r') ∈ pairs ++ [(o, r)] /\ o' <> "" /\ h ∈ res_Enclaves r' /\ h ∈ known)).
  { intros o' h. rewrite Hm, Hhs. set_solver. }
  case_decide as Hempty.
  - assert (ra_byOrg acc !! o = None) as Hnone.
    { destruct (ra_byOrg acc !! o) as [S|] eqn:E; [|done]. exfalso. simpl in Hempty. apply (Hn o S E). set_solver. }
    assert (hs = ∅) as Hh0 by (subst hs; set_solver). rewrite Hh0, union_empty_r_L, delete_id by done.
    split; simpl; [|done|done|].
    + intros o' h. rewrite <- Hmem, Hh0. set_solver.
    + intros o' Hs. destruct (Hp o' Hs) as (r' & ? & ?). exists r'. set_solver.
  - pose proof (insert_members (ra_byOrg acc) o hs) as Hin.
    split; simpl.
    + intros o' h. by rewrite <- Hmem, <- Hin.
    + intros o' S. rewrite lookup_insert. case_decide; [intros [= <-]; done|apply Hn].
    + intros h. rewrite elem_of_union, Hr. split.
      * intros [(o' & S & ? & ?)|?]; [|exists o; apply Hin; auto]. exists o'. apply Hin. eauto.
      * intros (o' & HS). apply Hin in HS as [(S & ? & ?)|[_ ?]]; eauto.
    + intros o' Hs. destruct (decide (o = o')) as [<-|Hne].
      * destruct b eqn:Eb.
        -- exists r. rewrite lookup_insert_eq. split; [set_solver|]. split; [|done].
           destruct Hb as [[?|?] _]; [done..|]. done.
        -- assert (hs = ∅) as Hh0.
           { apply set_eq. intros h. rewrite Hhs. split; [|set_solver]. intros Hh. exfalso.
             destruct Hb as [_ Hb]. discriminate (Hb (or_intror (ex_intro _ h Hh))). }
           destruct (ra_byOrg acc !! o) eqn:E; [|exfalso; apply Hempty; simpl; fold hs; rewrite Hh0; set_solver].
           destruct (Hp o) as (r' & ? & ?); [by rewrite E|]. exists r'. set_solver.
      * rewrite lookup_insert_ne in Hs by done. destruct (Hp o' Hs) as (r' & ? & ? & Hpol).
        exists r'. split; [set_solver|]. split; [done|]. by destruct b; rewrite ?lookup_insert_ne.
Qed.

(** The (organization, reservation) pairs the loops visit. *)
Definition res_pairs (rs : list ReservationConfig) : list (string * ReservationConfig) :=
  flat_map (fun r => match res_Enclaves r with [] => [] | _ => map (fun o => (o, r)) (OrgIDs r) end) rs.

Lemma reserve_all_inv known mo rs : res_inv known mo (res_pairs rs) (reserve_all known mo rs).
Proof.
  unfold reserve_all. induction rs as [|r rs IH] using rev_ind; [apply res_inv_init|].
  unfold res_pairs in *. rewrite foldl_app, flat_map_app. cbn [foldl flat_map]. rewrite app_nil_r.
  set (acc := foldl _ _ rs) in *. set (ps := flat_map _ rs) in *. unfold reserve_one.
  assert (forall orgs ps acc, res_inv known mo ps acc ->
    res_inv known mo (ps ++ map (fun o => (o, r)) orgs) (foldl (reserve_org known mo r) acc orgs)) as Hfold.
  { induction orgs as [|o orgs IHo]; intros ps' acc' H'; simpl; [by rewrite app_nil_r|].
    rewrite cons_middle, app_assoc.
    by apply IHo, reserve_org_inv. }
  destruct (OrgIDs r) as [|o orgs] eqn:Eo, (res_Enclaves r) as [|h hs] eqn:Eh;
    [by rewrite app_nil_r|by rewrite app_nil_r|by rewrite app_nil_r|].
  by apply Hfold.
Qed.

Lemma elem_of_res_pairs rs o r h :
  h ∈ res_Enclaves r -> (o, r) ∈ res_pairs rs <-> r ∈ rs /\ o ∈ OrgIDs r.
Proof.
  intros Hh. unfold res_pairs. rewrite !list_elem_of_In, in_flat_map. split.
  - intros (r' & Hr & Hin). destruct (res_Enclaves r') eqn:E; [done|].
    apply in_map_iff in Hin as (o' & [= -> ->] & Ho). done.
  - intros [Hr Ho]. exists r. split; [done|]. destruct (res_Enclaves r) eqn:E; [by apply not_elem_of_nil in Hh|].
    apply in_map_iff. by exists o.
Qed.

(** [h] is reserved for [org] by some reservation of [rs] that names both. *)
Definition reserved_for (rs : list ReservationConfig) (hostnames : list string) (h org : string) : Prop :=
  org <> "" /\ h ∈ hostnames /\ exists r, r ∈ rs /\ org ∈ OrgIDs r /\ h ∈ res_Enclaves r.

Lemma applyReservations_byOrg rs hostnames m org h :
  (exists S, reservedByOrg (applyReservations rs hostnames m) !! org = Some S /\ h ∈ S)
  <-> reserved_for rs hostnames h org.
Proof.
  pose proof (reserve_all_inv (list_to_set hostnames) (m_Overload m) rs) as [Hm _ _ _].
  assert (reservedByOrg (applyReservations rs hostnames m) = ra_byOrg (reserve_all (list_to_set hostnames) (m_Overload m) rs)) as ->.
  { unfold applyReservations. case_decide as E; simpl; [by rewrite E|done]. }
  rewrite Hm. unfold reserved_for. split.
  - intros (r & Hp & Ho & Hh & Hk). apply elem_of_res_pairs with (h := h) in Hp; [|done]. set_solver.
  - intros (Ho & Hk & r & Hr & Hro & Hh). exists r. rewrite (elem_of_res_pairs _ _ _ h) by done. set_solver.
Qed.

Lemma applyReservations_some rs hostnames m :
  reservedByOrg (applyReservations rs hostnames m) <> ∅ -> exists h org, reserved_for rs hostnames h org.
Proof.
  intros Hne. pose proof (applyReservations_byOrg rs hostnames m) as Hby.
  pose proof (reserve_all_inv (list_to_set hostnames) (m_Overload m) rs) as [_ Hn _ _].
  unfold applyReservations in *. case_decide as E; [done|]. simpl in *.
  apply map_choose in Hne as (o & S & Ho). destruct (set_choose_L S (Hn _ _ Ho)) as [h ?].
  exists h, o. apply Hby. eauto.
Qed.

Lemma applyReservations_shared rs hostnames m h :
  (exists S, sharedHosts (applyReservations rs hostnames m) = Some S /\ h ∈ S)
  <-> (exists h' org, reserved_for rs hostnames h' org) /\ h ∈ hostnames /\ forall org, ~ reserved_for rs hostnames h org.
Proof.
  pose proof (applyReservations_byOrg rs hostnames m) as Hby.
  pose proof (reserve_all_inv (list_to_set hostnames) (m_Overload m) rs) as [_ Hn Hr _].
  unfold applyReservations in *. case_decide as E; simpl in *.
  - split; [by intros (? & ? & _)|]. intros ((h' & org & H) & _). exfalso.
    apply Hby in H as (S & H & _). by rewrite lookup_empty in H.
  - assert (exists h' org, reserved_for rs hostnames h' org) as Hex.
    { apply (applyReservations_some rs hostnames m). unfold applyReservations. by rewrite decide_False. }
    split.
    + intros (S & [= <-] & [Hk Hnr]%elem_of_difference). split; [done|]. split; [set_solver|].
      intros org Hres. apply Hnr, Hr. exists org. by apply Hby.
    + intros (_ & Hk & Hnr). eexists. split; [done|]. apply elem_of_difference. split; [set_solver|].
      intros (o & HS)%Hr. apply (Hnr o). by apply Hby.
Qed.

Lemma applyReservations_none rs hostnames m :
  reservedByOrg (applyReservations rs hostnames m) = ∅ <-> forall h org, ~ reserved_for rs hostnames h org.
Proof.
  split.
  - intros He h org H. apply (applyReservations_byOrg rs hostnames m) in H as (S & H & _).
    by rewrite He, lookup_empty in H.
  - intros H. destruct (decide (reservedByOrg (applyReservations rs hostnames m) = ∅)) as [|Hne]; [done|].
    destruct (applyReservations_some _ _ _ Hne) as (h & org & Hr). by destruct (H h org).
Qed.

Lemma applyReservations_policy rs hostnames m org :
  is_Some (reservedByOrg (applyReservations rs hostnames m) !! org) ->
  exists r, r ∈ rs /\ org ∈ OrgIDs r /\ policiesByOrg (applyReservations rs hostnames m) !! org
    = Some (match res_Overload r with Some x => Some x | None => m_Overload m end).
Proof.
  pose proof (reserve_all_inv (list_to_set hostnames) (m_Overload m) rs) as [_ _ _ Hp].
  unfold applyReservations. case_decide; simpl; [by intros [? ?]|].
  intros (r & Hin & (h & Hh & _) & Hpol)%Hp. exists r.
  apply (elem_of_res_pairs rs org r h Hh) in Hin as [? ?]. done.
Qed.

(** ** Properties *)

(** The hosts a caller's pools admit: no filter at all without reservations. *)
Definition admits (pools : option (gset string) * option (gset string)) (h : string) : Prop :=
  match pools with
  | (None, _) => True
  | (Some p, None) => h ∈ p
  | (Some p, Some s) => h ∈ p \/ h ∈ s
  end.

Lemma reservation_pools_admit rs hostnames m org h :
  h ∈ hostnames ->
  let '(primary, spill, _) := ReservationPools org (applyReservations rs hostnames m) in
  admits (primary, spill) h
  <-> reserved_for rs hostnames h org \/ forall org', ~ reserved_for rs hostnames h org'.
Proof.
  intros Hh. unfold ReservationPools.
  pose proof (applyReservations_byOrg rs hostnames m org h) as Hby.
  pose proof (applyReservations_shared rs hostnames m h) as Hsh.
  pose proof (applyReservations_none rs hostnames m) as Hno.
  set (m' := applyReservations rs hostnames m) in *.
  pose proof (applyReservations_some rs hostnames m) as Hex. fold m' in Hex.
  case_decide as E; [rewrite Hno in E; simpl; naive_solver|]. specialize (Hex E).
  assert (exists sh, sharedHosts m' = Some sh) as [sh Hs].
  { subst m'. unfold applyReservations in *. case_decide; simpl in *; [done|eauto]. }
  rewrite Hs in *.
  destruct (if decide (org = "") then None else reservedByOrg m' !! org) as [S|] eqn:Eo; simpl.
  - case_decide; [done|]. rewrite Eo in Hby. naive_solver.
  - assert (~ reserved_for rs hostnames h org) as Hnot.
    { intros H. pose proof H as (Hne & _). rewrite decide_False in Eo by done.
      apply Hby in H as (S & H & _). congruence. }
    naive_solver.
Qed.

(** Reservations isolate. Whatever reservations and host names are
    applied to a model, the pools handed to a caller admit a configured host
    exactly when the host is reserved for the caller's organization or is
    reserved for nobody: no caller is ever offered a host reserved only for
    other organizations, and no caller is denied a host it may use. *)
Theorem reservation_isolation rs hostnames m org h :
  h ∈ hostnames ->
  let '(primary, spill, _) := ReservationPools org (applyReservations rs hostnames m) in
  admits (primary, spill) h
  <-> reserved_for rs hostnames h org \/ forall org', ~ reserved_for rs hostnames h org'.
Proof. apply reservation_pools_admit. Qed.

Lemma reservation_isolation_witness :
  let r := Build_ReservationConfig ["acme"] ["h1"] None in
  let m := PM ∅ None None [] 0 ∅ ∅ None ∅ ∅ in
  ReservationPools "acme" (applyReservations [r] ["h1"; "h2"] m) = (Some {["h1"]}, Some {["h2"]}, None)
  /\ (admits (Some {["h2"]}, None) "h1" <->
      reserved_for [r] ["h1"; "h2"] "h1" "other" \/ forall o, ~ reserved_for [r] ["h1"; "h2"] "h1" o).
Proof.
  split; [vm_compute; reflexivity|].
  exact (reservation_isolation [Build_ReservationConfig ["acme"] ["h1"] None] ["h1"; "h2"]
    (PM ∅ None None [] 0 ∅ ∅ None ∅ ∅) "other" "h1" ltac:(set_solver)).
Defined.

(** An organization's routing policy does not depend on which of its
    reservations is processed last: for a model whose reservations passed the
    configuration check, the policy its callers get normalizes to the policy
    of every reservation that names the organization. *)
Theorem org_policy_is_reservation_policy model byOrg m org r :
  check_reservations model (Reservations model) ∅ = Some byOrg ->
  m_Overload m = Overload model ->
  org <> "" -> is_Some (reservedByOrg (applyReservations (Reservations model) (Hostnames model) m) !! org) ->
  r ∈ Reservations model -> org ∈ OrgIDs r ->
  normalized (snd (ReservationPools org (applyReservations (Reservations model) (Hostnames model) m)))
  = normalized (reservation_policy model r).
Proof.
  intros Hc Hmo Ho Hs Hr Hor.
  destruct (applyReservations_policy _ _ _ _ Hs) as (r' & Hr' & Hor' & Hpol).
  apply check_reservations_spec in Hc as [_ Hc].
  pose proof (Hc _ _ Hr Hor) as H1. pose proof (Hc _ _ Hr' Hor') as H2.
  unfold ReservationPools. case_decide as E; [by rewrite E in Hs; destruct Hs|].
  rewrite decide_False by done. destruct Hs as [S HS]. rewrite HS. simpl. rewrite Hpol. simpl.
  unfold reservation_policy in *. rewrite Hmo. congruence.
Qed.

Lemma org_policy_is_reservation_policy_witness :
  let o := Build_OverloadConfig 8 0 4 0 in
  let r := Build_ReservationConfig ["acme"] ["h1"] (Some o) in
  let model := Build_Model "repo" ["h1"; "h2"] None None [r] in
  normalized (snd (ReservationPools "acme" (applyReservations [r] ["h1"; "h2"] (PM ∅ None None [] 0 ∅ ∅ None ∅ ∅))))
  = normalized (reservation_policy model r).
Proof.
  apply (org_policy_is_reservation_policy
    (Build_Model "repo" ["h1"; "h2"] None None [Build_ReservationConfig ["acme"] ["h1"] (Some (Build_OverloadConfig 8 0 4 0))])
    {["acme" := normalized (Some (Build_OverloadConfig 8 0 4 0))]});
    [reflexivity|reflexivity|done|vm_compute; eauto|set_solver..].
Defined.
