(* ===== verification/Selection.v ===== *)
(** * Replica selection ([manager/routing_tiers.go])

    [SelectServing] and [SelectRetry] run under the model's mutex: one
    selection is one atomic step on the pool.  What the code takes from its
    environment is a parameter: the instant [now] the locked section reads,
    the order [iter p] in which Go's map iteration lists the enclaves on the
    pass over pool [p], and the result [rnd n] of [rand.IntN(n)]. *)

From S2P Require Import Prelude Float64 Config Metrics CircuitBreaker Pool.
#[local] Open Scope string_scope.
#[local] Open Scope list_scope.
#[local] Open Scope Z_scope.

(** ** Data *)

(** What a selection returns; a nil enclave or claim is [None]. *)
Record Selection := Sel {
  sel_enclave : option Enclave;
  sel_claim : option Z;
  sel_overloaded : bool;
  sel_retryAfter : Z;
  sel_waiting : float64
}.

Definition set_cb (b : circuitBreaker) (e : Enclave) : Enclave :=
  Encl (host e) (modelName e) (tlsKeyFP e) (hpkeKey e) (predicate e) (attestation e) (metrics e) (Some b) (inflight e).

Definition set_inflight (n : Z) (e : Enclave) : Enclave :=
  Encl (host e) (modelName e) (tlsKeyFP e) (hpkeKey e) (predicate e) (attestation e) (metrics e) (cb e) n.

Definition put_enclave (e : Enclave) (m : PoolModel) : PoolModel :=
  PM (<[host e := e]> (Enclaves m)) (m_Overload m) (m_CacheRoute m) (m_Reservations m) (expectedHosts m)
     (configuredHosts m) (reservedByOrg m) (sharedHosts m) (reservationOverloads m) (policiesByOrg m).

(** ** Operations *)

Section Select.
Context (now : Z) (rnd : nat -> nat) (iter : nat -> list Enclave).

(** The claimed enclave (its breaker now half-open) and the claim's token. *)
Definition claimProbe (e : Enclave) : option (Enclave * Z) :=
  match cb e with
  | None => None
  | Some b => match ClaimProbe now b with
              | (b', Some token) => Some (set_cb b' e, token)
              | (_, None) => None
              end
  end.

Fixpoint first_claim (es : list Enclave) : option (Enclave * Z) :=
  match es with
  | [] => None
  | e :: es => match claimProbe e with Some c => Some c | None => first_claim es end
  end.

(** The least-loaded scan, and the first candidate the affinity order names. *)
Definition least_loaded (fallback : Enclave) (candidates : list Enclave) : Enclave :=
  foldl (fun least e => if inflight e <? inflight least then e else least) fallback candidates.

Fixpoint affinity (order : list string) (candidates : list Enclave) : option Enclave :=
  match order with
  | [] => None
  | h :: order =>
      match list_find (fun e => host e = h) candidates with
      | Some (_, e) => Some e
      | None => affinity order candidates
      end
  end.

Definition load_cap (m : PoolModel) : option Z :=
  match m_CacheRoute m with Some c => cr_MaxInflightDelta c | None => None end.

(** [rand.IntN(n)] lies in [0, n). *)
Definition random_index (n : nat) : nat := (rnd n mod n)%nat.

(** [first] is the head of a non-empty candidate list. *)
Definition pickTierLocked (m : PoolModel) (order : list string) (first : Enclave) (rest : list Enclave) : Enclave :=
  let candidates := first :: rest in
  let fallback := nth (random_index (length candidates)) candidates first in
  let least := least_loaded fallback candidates in
  match affinity order candidates with
  | None => fallback
  | Some e =>
      match load_cap m with
      | Some cap => if (0 <=? cap) && (wrap64 (inflight e - inflight least) >? cap) then least else e
      | None => e
      end
  end.

Definition allowed_in (allowed : option (gset string)) (e : Enclave) : bool :=
  match allowed with None => true | Some s => bool_decide (host e ∈ s) end.

Definition pools (primary spill : option (gset string)) : list (option (gset string)) :=
  primary :: match spill with
             | Some s => if decide (s = ∅) then [] else [Some s]
             | None => []
             end.

Definition is_excluded (excludedHost : string) (e : Enclave) : bool :=
  negb (bool_decide (excludedHost = "")) && bool_decide (host e = excludedHost).

(** An enclave the pass over one pool does not skip. *)
Definition eligible (excludedHost : string) (allowed : option (gset string)) (e : Enclave) : bool :=
  negb (is_excluded excludedHost e) && allowed_in allowed e && attestationValid now e.

Definition enclave_tier (policy : option OverloadConfig) (e : Enclave) : routingTier * float64 :=
  match metrics e with
  | None => (tierUnknown, f64_zero)
  | Some mm => tier now policy mm
  end.

(** [buckets[t][p]]: the closed-breaker enclaves of a tier and a pool. *)
Definition bucket (ps : list (option (gset string))) (policy : option OverloadConfig) (excludedHost : string)
    (t : routingTier) (p : nat) : list Enclave :=
  match ps !! p with
  | None => []
  | Some allowed =>
      filter (fun e => eligible excludedHost allowed e && breakerClosed e
                       && bool_decide (fst (enclave_tier policy e) = t)
                       && (bool_decide (excludedHost = "") || negb (bool_decide (t = tierUnknown))) = true)
             (iter p)
  end.

(** [probes[p]]: the enclaves of a pool whose breaker is not closed. *)
Definition probes (ps : list (option (gset string))) (excludedHost : string) (p : nat) : list Enclave :=
  match ps !! p with
  | None => []
  | Some allowed =>
      filter (fun e => eligible excludedHost allowed e && negb (breakerClosed e) && bool_decide (excludedHost = "") = true)
             (iter p)
  end.

(** The order in which the two nested loops visit the buckets. *)
Definition slots : list (routingTier * nat) :=
  [(tierPreferred, 0%nat); (tierPreferred, 1%nat); (tierBusy, 0%nat); (tierBusy, 1%nat);
   (tierUnknown, 0%nat); (tierUnknown, 1%nat); (tierOverloaded, 0%nat); (tierOverloaded, 1%nat)].

Definition serve_from (m : PoolModel) (order : list string) (policy : option OverloadConfig)
    (t : routingTier) (first : Enclave) (rest : list Enclave) : Selection :=
  let e := pickTierLocked m order first rest in
  if decide (t = tierOverloaded) then Sel (Some e) None true (RetryAfter policy) (snd (enclave_tier policy e))
  else Sel (Some e) None false 0 (snd (enclave_tier policy e)).

Fixpoint search (m : PoolModel) (order : list string) (claimProbes : bool) (policy : option OverloadConfig)
    (bkt : routingTier -> nat -> list Enclave) (prb : nat -> list Enclave)
    (ss : list (routingTier * nat)) : option Selection :=
  match ss with
  | [] => None
  | (t, p) :: ss =>
      match (if bool_decide (t = tierPreferred) && claimProbes then first_claim (prb p) else None) with
      | Some (e, token) => Some (Sel (Some e) (Some token) false 0 f64_zero)
      | None =>
          match bkt t p with
          | [] => search m order claimProbes policy bkt prb ss
          | first :: rest => Some (serve_from m order policy t first rest)
          end
      end
  end.

Definition selectServingLocked (m : PoolModel) (order : list string) (claimProbes : bool)
    (primary spill : option (gset string)) (policy : option OverloadConfig) (excludedHost : string) : Selection :=
  let ps := pools primary spill in
  match search m order claimProbes policy (bucket ps policy excludedHost) (probes ps excludedHost) slots with
  | Some s => s
  | None =>
      match probes ps excludedHost 0 ++ probes ps excludedHost 1 with
      | e :: _ => Sel (Some e) None false 0 f64_zero
      | [] => Sel None None false 0 f64_zero
      end
  end.

(** The selected enclave leaves with one more in-flight request (and, for a
    claimed probe, its half-open breaker). *)
Definition reserve (e : Enclave) (m : PoolModel) : PoolModel :=
  put_enclave (set_inflight (wrap64 (inflight e + 1)) e) m.

Definition SelectServing (m : PoolModel) (order : list string) (claimProbes : bool)
    (primary spill : option (gset string)) (policy : option OverloadConfig) : PoolModel * Selection :=
  let s := selectServingLocked m order claimProbes primary spill policy "" in
  (match sel_enclave s with Some e => reserve e m | None => m end, s).

Definition SelectRetry (m : PoolModel) (failedHost : string) (order : list string)
    (primary spill : option (gset string)) (policy : option OverloadConfig) : PoolModel * option Enclave :=
  let s := selectServingLocked m order false primary spill policy failedHost in
  match sel_enclave s with
  | Some e => if sel_overloaded s then (m, None) else (reserve e m, Some e)
  | None => (m, None)
  end.

End Select.

(** Releasing one reservation of the enclave registered under [h]. *)
Definition ReleaseDispatch (h : string) (m : PoolModel) : PoolModel :=
  match Enclaves m !! h with
  | Some e => put_enclave (set_inflight (wrap64 (inflight e - 1)) e) m
  | None => m
  end.

Definition HasHealthyEnclave (now : Z) (primary spill : option (gset string)) (m : PoolModel) : bool :=
  existsb (fun e =>
    match primary with
    | None => true
    | Some p => bool_decide (host e ∈ p) || bool_decide (host e ∈ default ∅ spill)
    end && attestationValid now e && breakerClosed e) (map_to_list (Enclaves m)).*2.

(** ** Well-formed pools and their enumerations *)

(** Every enclave is registered under its own host. *)
Definition wf_pool (m : PoolModel) : Prop := map_Forall (fun h e => host e = h) (Enclaves m).

(** The enclaves of a pool, in any order. *)
Definition enumerates (m : PoolModel) (iter : nat -> list Enclave) : Prop :=
  forall p, iter p ≡ₚ (map_to_list (Enclaves m)).*2.

Definition member (m : PoolModel) (e : Enclave) : Prop := exists h, Enclaves m !! h = Some e.

Lemma enumerates_elem m iter p e : enumerates m iter -> e ∈ iter p <-> member m e.
Proof.
  intros H. rewrite (H p), list_elem_of_fmap. unfold member. split.
  - intros ([h e'] & -> & Hin%elem_of_map_to_list). eauto.
  - intros [h Hh]. exists (h, e). split; [done|]. by apply elem_of_map_to_list.
Qed.

(** ** Lemmas *)

Definition tier_rank (t : routingTier) : nat :=
  match t with tierPreferred => 0 | tierBusy => 1 | tierUnknown => 2 | tierOverloaded => 3 end.

(** Position of a bucket in the search order. *)
Definition slot_rank (t : routingTier) (p : nat) : nat := (2 * tier_rank t + p)%nat.

Lemma least_loaded_spec fallback cs :
  (least_loaded fallback cs ∈ fallback :: cs) /\ inflight (least_loaded fallback cs) <= inflight fallback
  /\ forall e, e ∈ cs -> inflight (least_loaded fallback cs) <= inflight e.
Proof.
  unfold least_loaded. revert fallback. induction cs as [|c cs IH]; intros f; simpl; [set_solver by lia|].
  destruct (inflight c <? inflight f) eqn:E; bool_simp.
  - destruct (IH c) as (H1 & H2 & H3). repeat split; [set_solver|lia|].
    intros e [->|He]%elem_of_cons; [lia|auto].
  - destruct (IH f) as (H1 & H2 & H3). repeat split; [set_solver|lia|].
    intros e [->|He]%elem_of_cons; [lia|auto].
Qed.

Lemma affinity_elem order cs e : affinity order cs = Some e -> e ∈ cs /\ host e ∈ order.
Proof.
  induction order as [|h order IH]; simpl; [done|].
  destruct (list_find _ cs) as [[i e']|] eqn:E.
  - intros [= ->]. apply list_find_Some in E as (Hi & <- & _). split; [by eapply list_elem_of_lookup_2|set_solver].
  - intros H. destruct (IH H). set_solver.
Qed.

Lemma fallback_elem rnd (first : Enclave) rest :
  nth (random_index rnd (length (first :: rest))) (first :: rest) first ∈ first :: rest.
Proof. apply list_elem_of_In, nth_In. unfold random_index. apply Nat.mod_upper_bound. simpl. lia. Qed.

Lemma pick_elem rnd m order first rest : pickTierLocked rnd m order first rest ∈ first :: rest.
Proof.
  unfold pickTierLocked. pose proof (fallback_elem rnd first rest) as Hf.
  set (fb := nth _ _ _) in *. pose proof (least_loaded_spec fb (first :: rest)) as (Hl & _).
  assert (least_loaded fb (first :: rest) ∈ first :: rest) by (apply elem_of_cons in Hl as [->|?]; done).
  destruct (affinity order (first :: rest)) eqn:E; [|done]. apply affinity_elem in E as [? _]. by repeat case_match.
Qed.

Lemma elem_of_bucket now iter ps policy ex t p e :
  e ∈ bucket now iter ps policy ex t p <->
  e ∈ iter p /\ (exists allowed, ps !! p = Some allowed /\ eligible now ex allowed e = true)
  /\ breakerClosed e = true /\ fst (enclave_tier now policy e) = t /\ (ex = "" \/ t <> tierUnknown).
Proof.
  unfold bucket. destruct (ps !! p) as [allowed|]; [|set_solver].
  rewrite list_elem_of_filter, !andb_true_iff, !bool_decide_eq_true, orb_true_iff, negb_true_iff, bool_decide_eq_true, bool_decide_eq_false.
  naive_solver.
Qed.

Lemma elem_of_probes now iter ps ex p e :
  e ∈ probes now iter ps ex p <->
  e ∈ iter p /\ (exists allowed, ps !! p = Some allowed /\ eligible now ex allowed e = true)
  /\ breakerClosed e = false /\ ex = "".
Proof.
  unfold probes. destruct (ps !! p) as [allowed|]; [|set_solver].
  rewrite list_elem_of_filter, !andb_true_iff, bool_decide_eq_true, negb_true_iff. naive_solver.
Qed.

Lemma first_claim_spec now es e token :
  first_claim now es = Some (e, token) -> exists e0, e0 ∈ es /\ claimProbe now e0 = Some (e, token).
Proof.
  induction es as [|x es IH]; simpl; [done|]. destruct (claimProbe now x) as [[? ?]|] eqn:E.
  - intros [= -> ->]. set_solver.
  - intros H. destruct (IH H) as (e0 & ? & ?). set_solver.
Qed.

(** A search succeeds by a claim, or at the first non-empty bucket. *)
Lemma search_Some now rnd m order cp policy bkt prb ss s :
  search now rnd m order cp policy bkt prb ss = Some s ->
  (exists p e token, (tierPreferred, p) ∈ ss /\ first_claim now (prb p) = Some (e, token)
     /\ s = Sel (Some e) (Some token) false 0 f64_zero)
  \/ (exists t p first rest before after, ss = before ++ (t, p) :: after /\ bkt t p = first :: rest
     /\ (forall t' p', (t', p') ∈ before -> bkt t' p' = [])
     /\ s = serve_from now rnd m order policy t first rest).
Proof.
  induction ss as [|[t p] ss IH]; simpl; [done|].
  destruct (if bool_decide (t = tierPreferred) && cp then first_claim now (prb p) else None) as [[e token]|] eqn:Ec.
  { intros [= <-]. left. destruct (bool_decide (t = tierPreferred)) eqn:Et; bool_simp; [|done]. subst.
    destruct cp; [|done]. exists p, e, token. set_solver. }
  destruct (bkt t p) as [|first rest] eqn:Eb.
  - intros H. destruct (IH H) as [(p' & e & token & ? & ? & ?)|(t' & p' & f & r & before & after & -> & ? & Hb & ?)].
    + left. exists p', e, token. set_solver.
    + right. exists t', p', f, r, ((t, p) :: before), after. repeat split; try done.
      intros t'' p'' [[= -> ->]|?]%elem_of_cons; auto.
  - intros [= <-]. right. exists t, p, first, rest, [], ss. repeat split; try done. set_solver.
Qed.

Lemma search_None now rnd m order cp policy bkt prb ss :
  search now rnd m order cp policy bkt prb ss = None -> forall t p, (t, p) ∈ ss -> bkt t p = [].
Proof.
  induction ss as [|[t p] ss IH]; simpl; [set_solver|].
  destruct (if bool_decide (t = tierPreferred) && cp then first_claim now (prb p) else None) as [[e token]|]; [done|].
  destruct (bkt t p) eqn:Eb; [|done]. intros H t' p' [[= -> ->]|?]%elem_of_cons; auto.
Qed.

Lemma pools_lookup primary spill p allowed : pools primary spill !! p = Some allowed -> (p < 2)%nat.
Proof.
  unfold pools. intros H%lookup_lt_Some. destruct spill as [s|]; [case_decide|]; simpl in H; lia.
Qed.

Lemma slots_complete t p : (p < 2)%nat -> (t, p) ∈ slots.
Proof. destruct t, p as [|[|p]]; intros; try lia; unfold slots; set_solver. Qed.

Lemma slots_rank i t p : slots !! i = Some (t, p) -> slot_rank t p = i.
Proof. do 8 (destruct i as [|i]; [by intros [= <- <-]|]). done. Qed.

Lemma slots_lookup t p : (p < 2)%nat -> slots !! slot_rank t p = Some (t, p).
Proof. destruct t, p as [|[|p]]; intros; try lia; done. Qed.

Lemma slots_before before t p after t' p' :
  slots = before ++ (t, p) :: after -> (p' < 2)%nat -> (t', p') ∉ before -> (slot_rank t p <= slot_rank t' p')%nat.
Proof.
  intros H Hp' Hnot.
  assert (slot_rank t p = length before) as -> by (apply slots_rank; rewrite H; by apply list_lookup_middle).
  apply Nat.nlt_ge. intros Hlt. apply Hnot. pose proof (slots_lookup t' p' Hp') as Hl.
  rewrite H, lookup_app_l in Hl by done. by eapply list_elem_of_lookup_2.
Qed.

(** Where a selection came from: a claimed probe, the best non-empty bucket,
    or an open-breaker enclave when every bucket is empty. *)
Inductive selected now rnd iter m order policy ps ex (s : Selection) : Prop :=
  | sel_probe p e0 e token :
      e0 ∈ probes now iter ps ex p -> claimProbe now e0 = Some (e, token) ->
      s = Sel (Some e) (Some token) false 0 f64_zero ->
      selected now rnd iter m order policy ps ex s
  | sel_bucket t p first rest :
      bucket now iter ps policy ex t p = first :: rest ->
      (forall t' p' e', e' ∈ bucket now iter ps policy ex t' p' -> (slot_rank t p <= slot_rank t' p')%nat) ->
      s = serve_from now rnd m order policy t first rest ->
      selected now rnd iter m order policy ps ex s
  | sel_degraded :
      (forall t p, bucket now iter ps policy ex t p = []) ->
      s = Sel (head (probes now iter ps ex 0 ++ probes now iter ps ex 1)) None false 0 f64_zero ->
      selected now rnd iter m order policy ps ex s.

Lemma bucket_pool now iter primary spill policy ex t p :
  (2 <= p)%nat -> bucket now iter (pools primary spill) policy ex t p = [].
Proof.
  intros Hp. unfold bucket. destruct (pools primary spill !! p) eqn:E; [|done].
  apply pools_lookup in E. lia.
Qed.

Lemma selectServingLocked_spec now rnd iter m order cp primary spill policy ex :
  selected now rnd iter m order policy (pools primary spill) ex
    (selectServingLocked now rnd iter m order cp primary spill policy ex).
Proof.
  unfold selectServingLocked. destruct (search _ _ _ _ _ _ _ _ _) as [s|] eqn:Es.
  - apply search_Some in Es as [(p & e & token & _ & Hc & ->)|(t & p & f & r & before & after & Hs & Hb & Hbef & ->)].
    + apply first_claim_spec in Hc as (e0 & ? & ?). by eapply sel_probe.
    + eapply sel_bucket; [done| |done]. intros t' p' e' He'.
      destruct (decide (p' < 2)%nat) as [Hp|Hp]; [|rewrite bucket_pool in He' by lia; by apply not_elem_of_nil in He'].
      apply (slots_before _ _ _ _ _ _ Hs Hp). intros Hin. rewrite (Hbef _ _ Hin) in He'. by apply not_elem_of_nil in He'.
  - apply sel_degraded.
    + intros t p. destruct (decide (p < 2)%nat) as [Hp|Hp]; [|by apply bucket_pool; lia].
      eapply search_None; [done|]. by apply slots_complete.
    + by destruct (probes now iter (pools primary spill) ex 0 ++ probes now iter (pools primary spill) ex 1).
Qed.

Lemma claimProbe_spec now e0 e token :
  claimProbe now e0 = Some (e, token) ->
  exists b b', cb e0 = Some b /\ ClaimProbe now b = (b', Some token) /\ e = set_cb b' e0.
Proof. unfold claimProbe. destruct (cb e0) as [b|]; [|done]. destruct (ClaimProbe now b) as [b' [z|]] eqn:E; intros; simplify_eq; eauto. Qed.

(** ** Properties *)

(** A backend the caller's pools admit with an unexpired attestation. *)
Definition usable now (primary spill : option (gset string)) (m : PoolModel) (e : Enclave) : Prop :=
  member m e /\ attestationValid now e = true
  /\ exists p allowed, pools primary spill !! p = Some allowed /\ allowed_in allowed e = true.

Lemma eligible_usable now m iter primary spill e p :
  enumerates m iter -> e ∈ iter p ->
  (exists allowed, pools primary spill !! p = Some allowed /\ eligible now "" allowed e = true) ->
  usable now primary spill m e.
Proof.
  intros Hen He (allowed & Hp & Hel). unfold eligible in Hel. bool_simp.
  split; [by eapply enumerates_elem|]. eauto.
Qed.

Lemma probes_usable now m iter primary spill p e :
  enumerates m iter -> e ∈ probes now iter (pools primary spill) "" p -> usable now primary spill m e.
Proof. intros Hen (Hit & Hel & _)%elem_of_probes. by eapply eligible_usable. Qed.

Lemma bucket_usable now m iter primary spill policy t p e :
  enumerates m iter -> e ∈ bucket now iter (pools primary spill) policy "" t p -> usable now primary spill m e.
Proof. intros Hen (Hit & Hel & _)%elem_of_bucket. by eapply eligible_usable. Qed.

(** Every usable enclave is in a bucket or among the probes of its pool. *)
Lemma usable_listed now m iter primary spill policy e :
  enumerates m iter -> usable now primary spill m e ->
  (exists t p, e ∈ bucket now iter (pools primary spill) policy "" t p)
  \/ e ∈ probes now iter (pools primary spill) "" 0 ++ probes now iter (pools primary spill) "" 1.
Proof.
  intros Hen (Hm & Hatt & p & allowed & Hpl & Hal).
  assert (Hel : eligible now "" allowed e = true) by (unfold eligible; simpl; by rewrite Hal, Hatt).
  assert (Hit : e ∈ iter p) by by eapply enumerates_elem.
  destruct (breakerClosed e) eqn:Ecl; [left|right].
  - exists (fst (enclave_tier now policy e)), p. apply elem_of_bucket. eauto 10.
  - pose proof (pools_lookup _ _ _ _ Hpl). apply elem_of_app.
    assert (e ∈ probes now iter (pools primary spill) "" p) by (apply elem_of_probes; eauto 10).
    destruct p as [|[|p]]; [by left|by right|lia].
Qed.

Lemma serve_from_enclave now rnd m order policy t first rest :
  sel_enclave (serve_from now rnd m order policy t first rest) = Some (pickTierLocked rnd m order first rest).
Proof. unfold serve_from. by case_decide. Qed.

Lemma select_sound now rnd iter m order cp primary spill policy e :
  enumerates m iter ->
  let s := selectServingLocked now rnd iter m order cp primary spill policy "" in
  sel_enclave s = Some e ->
  exists e0, usable now primary spill m e0
    /\ (e = e0 \/ (breakerClosed e0 = false /\ is_Some (sel_claim s) /\ exists b, e = set_cb b e0)).
Proof.
  intros Hen s He.
  assert (Hsel := selectServingLocked_spec now rnd iter m order cp primary spill policy "").
  fold s in Hsel. destruct Hsel as [p e0 e1 token Hp Hc Hs|t p first rest Hb Hmin Hs|Hb Hs]; rewrite Hs in *.
  - simplify_eq/=. pose proof (probes_usable _ _ _ _ _ _ _ Hen Hp). apply elem_of_probes in Hp as (_ & _ & Hcl & _).
    apply claimProbe_spec in Hc as (b & b' & _ & _ & ->). exists e0. eauto 10.
  - rewrite serve_from_enclave in He. injection He as <-. eexists. split; [|by left].
    eapply bucket_usable; [done|]. rewrite Hb. apply pick_elem.
  - simpl in He. apply head_Some_elem_of, elem_of_app in He as [He|He]; eauto using probes_usable.
Qed.

(** Without [claimProbes] no probe is claimed. *)
Lemma no_claim now rnd m order policy bkt prb ss sel : search now rnd m order false policy bkt prb ss = Some sel -> sel_claim sel = None.
Proof.
  induction ss as [|[t p] ss IH]; [done|]. cbn [search]. rewrite andb_false_r. destruct (bkt t p) as [|first rest]; [done|].
  intros [= <-]. unfold serve_from. by destruct (decide _).
Qed.

Lemma select_no_claim now rnd iter m order primary spill policy x :
  sel_claim (selectServingLocked now rnd iter m order false primary spill policy x) = None.
Proof.
  unfold selectServingLocked. destruct (search _ _ _ _ _ _ _) as [s|] eqn:E; [by eapply no_claim|]. by destruct (_ ++ _).
Qed.

Lemma select_none now rnd iter m order cp primary spill policy :
  enumerates m iter ->
  sel_enclave (selectServingLocked now rnd iter m order cp primary spill policy "") = None
  <-> forall e, ~ usable now primary spill m e.
Proof.
  intros Hen. split.
  - intros Hn e Hu.
    assert (Hsel := selectServingLocked_spec now rnd iter m order cp primary spill policy "").
    destruct Hsel as [p e0 e1 token Hp Hc Hs|t p first rest Hb Hmin Hs|Hb Hs]; rewrite Hs in Hn; try done.
    + by rewrite serve_from_enclave in Hn.
    + apply head_None in Hn. destruct (usable_listed now m iter primary spill policy e Hen Hu) as [(t & p & H)|H];
        [rewrite Hb in H|rewrite Hn in H]; by apply not_elem_of_nil in H.
  - intros Hno. destruct (sel_enclave _) as [e|] eqn:E; [|done].
    destruct (select_sound _ _ _ _ _ _ _ _ _ _ Hen E) as (e0 & Hu & _). by destruct (Hno e0).
Qed.

(** The host served from is the host of a usable enclave. *)
Lemma select_members now rnd iter m order cp primary spill policy e :
  enumerates m iter ->
  sel_enclave (snd (SelectServing now rnd iter m order cp primary spill policy)) = Some e ->
  exists e0, usable now primary spill m e0 /\ host e0 = host e.
Proof.
  intros Hen Hs. destruct (select_sound _ _ _ _ _ _ _ _ _ _ Hen Hs) as (e0 & Hu & [->|(_ & _ & b & ->)]); eauto.
Qed.

(** C6: selection is sound and complete. An enclave is returned exactly when
    the pools admit one with an unexpired attestation; the one returned is
    such an enclave (up to the breaker of a probe it just claimed, which was
    not closed). *)
Theorem select_sound_complete now rnd iter m order cp primary spill policy :
  enumerates m iter ->
  let s := selectServingLocked now rnd iter m order cp primary spill policy "" in
  (sel_enclave s = None <-> forall e, ~ usable now primary spill m e)
  /\ (forall e, sel_enclave s = Some e ->
        exists e0, usable now primary spill m e0
          /\ (e = e0 \/ (breakerClosed e0 = false /\ is_Some (sel_claim s) /\ exists b, e = set_cb b e0))).
Proof. intros Hen. split; [by apply select_none|intros e He; by eapply select_sound]. Qed.

(** A pool of two backends for the witnesses: an idle shared one and a busy
    one reserved for an organization, both polled just before time 200. *)
Module Example.
Definition pol : OverloadConfig := Build_OverloadConfig 14 0 0 0.
Definition sampled (h : string) (w load : Z) : Enclave :=
  Encl h "m" "fp" "" "p" (Some (Att 1000 0 "v1"))
    (Some (EM true (Some pol) false (RC (f64_of_int w) f64_zero true false) 100 {[(14, 7) := bool_decide (14 <= w)]}))
    (Some newCircuitBreaker) load.
Definition pool : PoolModel :=
  PM (<["h1" := sampled "h1" 3 5]> {["h2" := sampled "h2" 0 1]}) (Some pol) None [] 2 (<["h1" := zeroAttempt]> {["h2" := zeroAttempt]})
     {["acme" := {["h1"]}]} (Some {["h2"]}) ∅ ∅.
Definition iter (_ : nat) : list Enclave := (map_to_list (Enclaves pool)).*2.
Lemma pool_lookup h e : Enclaves pool !! h = Some e -> (h = "h1" /\ e = sampled "h1" 3 5) \/ (h = "h2" /\ e = sampled "h2" 0 1).
Proof.
  cbn [pool Enclaves]. intros [[<- <-]|[_ H]]%lookup_insert_Some; [by left|].
  apply lookup_singleton_Some in H as [<- <-]. by right.
Qed.
Lemma iter_ok : enumerates pool iter.
Proof. intros p. reflexivity. Qed.
End Example.

Lemma select_sound_complete_witness :
  sel_enclave (selectServingLocked 200 (fun n => n) Example.iter Example.pool [] true (Some {["h1"]}) (Some {["h2"]})
    (Some Example.pol) "") = Some (Example.sampled "h2" 0 1)
  /\ exists e0, usable 200 (Some {["h1"]}) (Some {["h2"]}) Example.pool e0.
Proof.
  assert (sel_enclave (selectServingLocked 200 (fun n => n) Example.iter Example.pool [] true (Some {["h1"]}) (Some {["h2"]})
    (Some Example.pol) "") = Some (Example.sampled "h2" 0 1)) as E by (vm_compute; reflexivity).
  split; [exact E|].
  destruct (select_sound_complete 200 (fun n => n) Example.iter Example.pool [] true (Some {["h1"]}) (Some {["h2"]})
    (Some Example.pol) Example.iter_ok) as [_ H]. destruct (H _ E) as (e0 & Hu & _). eauto.
Defined.

(** Selection is optimal. When no probe was claimed and the chosen backend's
    breaker is closed, it sits in the best (tier, pool) slot of the order
    reserved 0, shared 0, reserved 1, shared 1, ...: every other usable
    closed backend, in every pool that admits it, ranks no better; and the
    request is reported overloaded exactly when the chosen backend is in the
    overloaded tier. *)
Theorem select_best_tier now rnd iter m order cp primary spill policy e :
  enumerates m iter ->
  let s := selectServingLocked now rnd iter m order cp primary spill policy "" in
  sel_enclave s = Some e -> sel_claim s = None -> breakerClosed e = true ->
  let t := fst (enclave_tier now policy e) in
  (sel_overloaded s = true <-> t = tierOverloaded)
  /\ exists p allowed, pools primary spill !! p = Some allowed /\ eligible now "" allowed e = true
     /\ forall p' allowed' e', pools primary spill !! p' = Some allowed' -> member m e' ->
          eligible now "" allowed' e' = true -> breakerClosed e' = true ->
          (slot_rank t p <= slot_rank (fst (enclave_tier now policy e')) p')%nat.
Proof.
  intros Hen s He Hc Hcl t.
  assert (Hsel := selectServingLocked_spec now rnd iter m order cp primary spill policy "").
  fold s in Hsel. destruct Hsel as [p e0 e1 token _ _ Hs|t0 p first rest Hb Hmin Hs|Hb Hs].
  - by rewrite Hs in Hc.
  - assert (Hin : pickTierLocked rnd m order first rest ∈ bucket now iter (pools primary spill) policy "" t0 p)
      by (rewrite Hb; apply pick_elem).
    assert (pickTierLocked rnd m order first rest = e) as Hpe
      by (rewrite Hs in He; unfold serve_from in He; case_decide; simpl in He; congruence).
    rewrite Hpe in Hin. apply elem_of_bucket in Hin as (_ & (allowed & Hpl & Hel) & _ & Ht & _). fold t in Ht. subst t0.
    split; [rewrite Hs; unfold serve_from; by case_decide|].
    exists p, allowed. split; [done|]. split; [done|].
    intros p' allowed' e' Hpl' Hm' Hel' Hcl'. eapply Hmin. apply elem_of_bucket.
    split; [by eapply enumerates_elem|]. eauto 10.
  - exfalso. rewrite Hs in He. simpl in He. apply head_Some_elem_of, elem_of_app in He as [He|He];
      apply elem_of_probes in He as (_ & _ & ? & _); congruence.
Qed.

Lemma select_best_tier_witness :
  sel_overloaded (selectServingLocked 200 (fun n => n) Example.iter Example.pool [] true (Some {["h1"]}) (Some {["h2"]})
    (Some Example.pol) "") = true <-> fst (enclave_tier 200 (Some Example.pol) (Example.sampled "h2" 0 1)) = tierOverloaded.
Proof.
  apply (select_best_tier 200 (fun n => n) Example.iter Example.pool [] true (Some {["h1"]}) (Some {["h2"]})
    (Some Example.pol) (Example.sampled "h2" 0 1) Example.iter_ok); vm_compute; reflexivity.
Defined.

(** A backend a retry may use. *)
Definition retryable now (m : PoolModel) (failedHost : string) primary spill policy (e : Enclave) : Prop :=
  usable now primary spill m e /\ host e <> failedHost /\ breakerClosed e = true
  /\ (fst (enclave_tier now policy e) = tierPreferred \/ fst (enclave_tier now policy e) = tierBusy).

Lemma retryable_bucket now iter m failedHost primary spill policy e :
  enumerates m iter -> failedHost <> "" ->
  retryable now m failedHost primary spill policy e <-> exists t p, (t = tierPreferred \/ t = tierBusy)
    /\ e ∈ bucket now iter (pools primary spill) policy failedHost t p.
Proof.
  intros Hen Hf. unfold retryable, usable. split.
  - intros ((Hm & Ha & p & allowed & Hpl & Hal) & Hh & Hcl & Ht).
    exists (fst (enclave_tier now policy e)), p. split; [done|]. apply elem_of_bucket.
    split; [by eapply enumerates_elem|]. split.
    + exists allowed. split; [done|]. unfold eligible, is_excluded. rewrite Hal, Ha.
      rewrite (bool_decide_eq_false_2 (host e = failedHost)) by done. by rewrite andb_false_r.
    + split; [done|]. split; [done|]. right. by destruct Ht as [-> | ->].
  - intros (t & p & Ht & (Hit & (allowed & Hpl & Hel) & Hcl & <- & _)%elem_of_bucket).
    unfold eligible, is_excluded in Hel. rewrite bool_decide_eq_false_2 in Hel by done. simpl in Hel. bool_simp.
    split; [|done]. split; [by eapply enumerates_elem|]. eauto.
Qed.

(** A retry never lands on the host that failed, on an expired attestation,
    an open breaker, an unknown load or an overloaded backend, and it is
    refused only when no backend qualifies. *)
Theorem retry_sound_complete now rnd iter m failedHost order primary spill policy :
  enumerates m iter -> failedHost <> "" ->
  match snd (SelectRetry now rnd iter m failedHost order primary spill policy) with
  | Some e => retryable now m failedHost primary spill policy e
  | None => forall e, ~ retryable now m failedHost primary spill policy e
  end.
Proof.
  intros Hen Hf. unfold SelectRetry.
  assert (Hsel := selectServingLocked_spec now rnd iter m order false primary spill policy failedHost).
  set (s := selectServingLocked _ _ _ _ _ _ _ _ _ _) in *.
  assert (Hprobe : forall p, probes now iter (pools primary spill) failedHost p = []).
  { intros p. destruct (probes _ _ _ _ _) eqn:E; [done|]. exfalso.
    assert (e ∈ probes now iter (pools primary spill) failedHost p) as H by (rewrite E; left).
    apply elem_of_probes in H. naive_solver. }
  assert (Hgood := fun e => retryable_bucket now iter m failedHost primary spill policy e Hen Hf).
  destruct Hsel as [p e0 e token Hp _ _|t p first rest Hb Hmin Hs|Hb Hs].
  - rewrite Hprobe in Hp. by apply not_elem_of_nil in Hp.
  - assert (Hin : pickTierLocked rnd m order first rest ∈ bucket now iter (pools primary spill) policy failedHost t p)
      by (rewrite Hb; apply pick_elem).
    pose proof Hin as (_ & _ & _ & _ & Hnt)%elem_of_bucket. rewrite Hs. unfold serve_from.
    case_decide as Ht; simpl.
    + intros e (t' & p' & Ht' & He')%Hgood. specialize (Hmin _ _ _ He'). subst t.
      apply elem_of_bucket in He' as (_ & (al & Hpl & _) & _). apply pools_lookup in Hpl.
      unfold slot_rank in Hmin. destruct Ht' as [->| ->]; simpl in Hmin; lia.
    + apply Hgood. exists t, p. split; [|done]. destruct t; naive_solver.
  - rewrite Hs, !Hprobe. simpl. intros e (t & p & _ & He)%Hgood. rewrite Hb in He. by apply not_elem_of_nil in He.
Qed.

Lemma retry_sound_complete_witness :
  snd (SelectRetry 200 (fun n => n) Example.iter Example.pool "h2" [] (Some {["h1"]}) (Some {["h2"]}) (Some Example.pol))
    = Some (Example.sampled "h1" 3 5) /\ host (Example.sampled "h1" 3 5) <> "h2".
Proof.
  assert (snd (SelectRetry 200 (fun n => n) Example.iter Example.pool "h2" [] (Some {["h1"]}) (Some {["h2"]})
    (Some Example.pol)) = Some (Example.sampled "h1" 3 5)) as E by (vm_compute; reflexivity).
  split; [exact E|].
  pose proof (retry_sound_complete 200 (fun n => n) Example.iter Example.pool "h2" [] (Some {["h1"]}) (Some {["h2"]})
    (Some Example.pol) Example.iter_ok ltac:(done)) as H.
  rewrite E in H. apply H.
Defined.

(** Cache affinity within a tier, bounded by the load cap. Among the
    candidates of the chosen slot the backend picked is the first one the
    affinity order names, unless a non-negative cap is configured and that
    backend is more than the cap deeper in flight than the least-loaded
    candidate; so with a cap, a pick made by affinity is never more than the
    cap deeper than any candidate. *)
Theorem pick_affinity_capped rnd m order first rest e cap :
  (forall c, c ∈ first :: rest -> 0 <= inflight c <= int64_max) ->
  affinity order (first :: rest) = Some e ->
  let picked := pickTierLocked rnd m order first rest in
  (load_cap m = None -> picked = e)
  /\ (load_cap m = Some cap -> 0 <= cap ->
      (forall c, c ∈ first :: rest -> inflight picked - inflight c <= cap)
      /\ ((forall c, c ∈ first :: rest -> inflight e - inflight c <= cap) -> picked = e)).
Proof.
  intros Hrange Ha. unfold pickTierLocked. rewrite Ha. split; [by intros ->|]. intros -> Hcap.
  pose proof (fallback_elem rnd first rest) as Hf. set (fb := nth _ _ _) in *.
  destruct (least_loaded_spec fb (first :: rest)) as (Hl & _ & Hmin). set (least := least_loaded _ _) in *.
  assert (Hle : least ∈ first :: rest) by (apply elem_of_cons in Hl as [->|?]; done).
  destruct (affinity_elem _ _ _ Ha) as [He _].
  pose proof (Hrange _ He). pose proof (Hrange _ Hle).
  rewrite wrap64_id by (unfold in_int64, int64_min, int64_max in *; lia).
  destruct (0 <=? cap) eqn:Ec; bool_simp; [|lia]. destruct (inflight e - inflight least >? cap) eqn:Eg; simpl; split.
  - intros c Hc. specialize (Hmin c Hc). lia.
  - intros Hall. specialize (Hall least Hle). lia.
  - intros c Hc. specialize (Hmin c Hc). lia.
  - done.
Qed.

Lemma pick_affinity_capped_witness :
  pickTierLocked (fun n => n) Example.pool ["h3"; "h1"] (Example.sampled "h2" 0 1) [Example.sampled "h1" 3 5]
  = Example.sampled "h1" 3 5.
Proof.
  destruct (pick_affinity_capped (fun n => n) Example.pool ["h3"; "h1"] (Example.sampled "h2" 0 1) [Example.sampled "h1" 3 5]
    (Example.sampled "h1" 3 5) 0) as [H _]; [|reflexivity|exact (H eq_refl)].
  intros c [->|[->|[]%not_elem_of_nil]%elem_of_cons]%elem_of_cons; done.
Defined.

Lemma usable_admits now primary spill m e :
  usable now primary spill m e -> admits (primary, spill) (host e).
Proof.
  intros (_ & _ & p & allowed & Hp & Ha). unfold pools in Hp.
  destruct p as [|[|p]]; simpl in Hp.
  - injection Hp as ->. destruct allowed as [s|]; [|done]. simpl in *. bool_simp. destruct spill; auto.
  - destruct spill as [s|]; [|done]. case_decide; [done|]. simpl in Hp. injection Hp as <-.
    simpl in Ha. bool_simp. destruct primary; simpl; auto.
  - destruct spill as [s|]; [case_decide|]; done.
Qed.

(** C7: tenant isolation end to end. Once reservations are applied, serving a
    request for an organization never selects a backend that is reserved only
    for other organizations, whatever the load, the breakers, the affinity
    order or the recovery probes. *)
Theorem serving_respects_reservations now rnd iter m0 rs hostnames org order cp e :
  let m := applyReservations rs hostnames m0 in
  let '(primary, spill, policy) := ReservationPools org m in
  enumerates m iter ->
  sel_enclave (snd (SelectServing now rnd iter m order cp primary spill policy)) = Some e ->
  forall org', reserved_for rs hostnames (host e) org' -> reserved_for rs hostnames (host e) org.
Proof.
  intros m. destruct (ReservationPools org m) as [[primary spill] policy] eqn:Ep. intros Hen Hs org' Hres.
  destruct (select_members now rnd iter m order cp primary spill policy e Hen Hs) as (e0 & Hu & Hh).
  rewrite <- Hh in *. apply usable_admits in Hu.
  pose proof Hres as (_ & Hhost & _).
  assert (H := reservation_pools_admit rs hostnames m0 org (host e0) Hhost). fold m in H. rewrite Ep in H.
  apply H in Hu as [?|Hno]; [done|]. by destruct (Hno org').
Qed.

Lemma serving_respects_reservations_witness :
  let rs := [Build_ReservationConfig ["acme"] ["h1"] None] in
  let m := applyReservations rs ["h1"; "h2"] Example.pool in
  sel_enclave (snd (SelectServing 200 (fun n => n) (fun _ => (map_to_list (Enclaves m)).*2) m [] true
    (Some {["h1"]}) (Some {["h2"]}) (Some Example.pol))) = Some (Example.sampled "h2" 0 1)
  /\ forall org', reserved_for rs ["h1"; "h2"] "h2" org' -> reserved_for rs ["h1"; "h2"] "h2" "acme".
Proof.
  set (rs := [Build_ReservationConfig ["acme"] ["h1"] None]).
  set (m := applyReservations rs ["h1"; "h2"] Example.pool).
  assert (sel_enclave (snd (SelectServing 200 (fun n => n) (fun _ => (map_to_list (Enclaves m)).*2) m [] true
    (Some {["h1"]}) (Some {["h2"]}) (Some Example.pol))) = Some (Example.sampled "h2" 0 1)) as E by (vm_compute; reflexivity).
  split; [exact E|].
  exact (serving_respects_reservations 200 (fun n => n) (fun _ => (map_to_list (Enclaves m)).*2) Example.pool rs ["h1"; "h2"]
    "acme" [] true (Example.sampled "h2" 0 1) (fun p => Permutation_refl _) E).
Defined.

(** Reservations of in-flight load balance. A selection adds exactly one
    to the in-flight count of the backend it returns and leaves every other
    backend as it was; releasing that host gives back the pool's in-flight
    counts. *)
Theorem select_release_balanced now rnd iter m order cp primary spill policy m' s e :
  wf_pool m -> enumerates m iter -> (forall e0, member m e0 -> 0 <= inflight e0 < int64_max) ->
  SelectServing now rnd iter m order cp primary spill policy = (m', s) -> sel_enclave s = Some e ->
  inflight <$> Enclaves m' !! host e = Some (inflight e + 1)
  /\ (forall h, h <> host e -> Enclaves m' !! h = Enclaves m !! h)
  /\ inflight <$> Enclaves (ReleaseDispatch (host e) m') = inflight <$> Enclaves m.
Proof.
  intros Hwf Hen Hr Hsel He. unfold SelectServing in Hsel. injection Hsel as Hm Hs. rewrite Hs, He in Hm.
  destruct (select_sound now rnd iter m order cp primary spill policy e Hen) as (e0 & ((h & Hh) & _) & Heq); [by rewrite Hs|].
  pose proof (Hwf _ _ Hh) as Hhost. simpl in Hhost.
  assert (host e = h /\ inflight e = inflight e0) as [Hhe Hie] by (destruct Heq as [->|(_ & _ & b & ->)]; done).
  pose proof (Hr e0 (ex_intro _ h Hh)) as Hb.
  assert (Hw : wrap64 (inflight e + 1) = inflight e + 1)
    by (apply wrap64_id; unfold in_int64, int64_min, int64_max in *; lia).
  subst m'. unfold reserve, put_enclave. simpl. rewrite Hw. split; [by rewrite lookup_insert_eq|].
  split; [intros h' ?; by rewrite lookup_insert_ne|].
  unfold ReleaseDispatch. simpl. rewrite lookup_insert_eq. simpl.
  rewrite wrap64_id by (unfold in_int64, int64_min, int64_max in *; lia).
  rewrite insert_insert_eq, fmap_insert. simpl. rewrite Z.add_simpl_r, Hie, Hhe.
  apply insert_id. by rewrite lookup_fmap, Hh.
Qed.

Lemma select_release_balanced_witness :
  let r := SelectServing 200 (fun n => n) Example.iter Example.pool [] true (Some {["h1"]}) (Some {["h2"]}) (Some Example.pol) in
  inflight <$> Enclaves (ReleaseDispatch "h2" (fst r)) = inflight <$> Enclaves Example.pool.
Proof.
  apply (select_release_balanced 200 (fun n => n) Example.iter Example.pool [] true (Some {["h1"]}) (Some {["h2"]})
    (Some Example.pol) _ (snd (SelectServing 200 (fun n => n) Example.iter Example.pool [] true (Some {["h1"]}) (Some {["h2"]})
    (Some Example.pol))) (Example.sampled "h2" 0 1)).
  - intros h e [[-> ->]|[-> ->]]%Example.pool_lookup; done.
  - apply Example.iter_ok.
  - intros e [h [[-> ->]|[-> ->]]%Example.pool_lookup]; done.
  - apply surjective_pairing.
  - vm_compute. reflexivity.
Defined.
