(* ===== verification/Lifecycle.v ===== *)
(** * The lifecycle of verified backends ([manager/manager.go],
    [manager/verification_status.go], [manager/rotation.go] and the transport of
    [manager/verification.go])

    How a backend enters a model's pool, is renewed, replaced and removed; the
    verification record of each configured host; the recovery of a request whose
    backend changed its key.

    Parameters: the attestation library's result, as the accessors the code
    calls give it, and the identifier of HPKE material.  A verification runs
    outside the model's mutex and its result is applied under it, so the system
    of the second part keeps a log of the results the verifier returned, and may
    apply any of them at any later time.  The [localharness] build, which
    installs a backend without attestation, is not modelled. *)

From S2P Require Import Prelude Float64 Config Hrw CacheKey Metrics CircuitBreaker Pool Selection.
#[local] Open Scope string_scope.
#[local] Open Scope list_scope.
#[local] Open Scope Z_scope.

(** ** Data *)

(** What the router reads of a [verify.Verification]. *)
Record Verification := MkVerification {
  FreshnessExpiresAt : Z;
  v_CodeTag : string;
  CodeMeasurement : string;
  EnclaveMeasurementType : string;
  TLSPublicKeyFP : option string;
  CryptoMaterial : list string;
  HPKEPublicKey : option string
}.

(** A model of the manager: its pinned repository and the release it last saw
    verified, with its pool. *)
Record Managed := MkManaged {
  mm_Repo : string;
  mm_Tag : string;
  mm_SourceMeasurement : option string;
  mm_pool : PoolModel
}.

Definition set_pool (p : PoolModel) (m : Managed) : Managed :=
  MkManaged (mm_Repo m) (mm_Tag m) (mm_SourceMeasurement m) p.

Definition set_enclaves (es : gmap string Enclave) (m : PoolModel) : PoolModel :=
  PM es (m_Overload m) (m_CacheRoute m) (m_Reservations m) (expectedHosts m) (configuredHosts m)
     (reservedByOrg m) (sharedHosts m) (reservationOverloads m) (policiesByOrg m).

Definition set_hosts (hosts : gmap string verificationAttempt) (expected : Z) (m : PoolModel) : PoolModel :=
  PM (Enclaves m) (m_Overload m) (m_CacheRoute m) (m_Reservations m) expected hosts
     (reservedByOrg m) (sharedHosts m) (reservationOverloads m) (policiesByOrg m).

Definition set_metrics (mt : option enclaveMetrics) (e : Enclave) : Enclave :=
  Encl (host e) (modelName e) (tlsKeyFP e) (hpkeKey e) (predicate e) (attestation e) mt (cb e) (inflight e).

Definition set_attestation (a : verifiedAttestation) (e : Enclave) : Enclave :=
  Encl (host e) (modelName e) (tlsKeyFP e) (hpkeKey e) (predicate e) (Some a) (metrics e) (cb e) (inflight e).

(** ** Configuration *)

(** The attempts of a host that stays configured are kept. *)
Definition setConfiguredHosts (hostnames : list string) (m : PoolModel) : PoolModel :=
  set_hosts (list_to_map (map (fun h => (h, default zeroAttempt (configuredHosts m !! h))) hostnames))
    (Z.of_nat (length hostnames)) m.

Definition updateOverloadConfig (now : Z) (cfg : option OverloadConfig) (policies : list (option OverloadConfig)) (e : Enclave)
  : Enclave :=
  match metrics e with
  | None => e
  | Some mt => set_metrics (Some (fst (setPolicies now cfg policies mt))) e
  end.

(** A backend leaving the pool: its poller stops and its breaker is retired. *)
Definition shutdown (e : Enclave) : Enclave :=
  let e := set_metrics (metrics_shutdown <$> metrics e) e in
  match cb e with Some b => set_cb (Retire b) e | None => e end.

Definition addModel (c : Model) : Managed :=
  MkManaged (Repo c) "" None
    (applyReservations (Reservations c) (Hostnames c)
      (setConfiguredHosts (Hostnames c) (PM ∅ (Overload c) (CacheRoute c) [] 0 ∅ ∅ None ∅ ∅))).

(** What [sync] does to one model under its mutex, with the backends it shut
    down; [None] is a model the new configuration does not have. *)
Definition sync_model (now : Z) (config : option Model) (mm : Managed) : Managed * list Enclave :=
  match config with
  | None =>
      let m := applyReservations [] [] (setConfiguredHosts [] (mm_pool mm)) in
      (set_pool (set_enclaves ∅ m) mm, map shutdown (map_to_list (Enclaves m)).*2)
  | Some c =>
      if negb (String.eqb (mm_Repo mm) (Repo c)) then (mm, [])
      else
        let m := setConfiguredHosts (Hostnames c) (mm_pool mm) in
        let m := PM (Enclaves m) (Overload c) (CacheRoute c) (m_Reservations m) (expectedHosts m) (configuredHosts m)
                   (reservedByOrg m) (sharedHosts m) (reservationOverloads m) (policiesByOrg m) in
        let m := applyReservations (Reservations c) (Hostnames c) m in
        let updated := map_imap (fun h e => Some (updateOverloadConfig now (overloadForHostLocked h m) (spillPoliciesLocked h m) e)) (Enclaves m) in
        let kept := filter (fun kv => is_Some (configuredHosts m !! kv.1)) updated in
        let removed := filter (fun kv => ~ is_Some (configuredHosts m !! kv.1)) updated in
        (set_pool (set_enclaves kept m) mm, map shutdown (map_to_list removed).*2)
  end.

(** ** Verification *)

Inductive RefreshError :=
  | ErrVerification
  | ErrNoFreshness
  | ErrNoTLSKey
  | ErrNoHPKEKey
  | ErrNotConfigured.

Definition verificationTLSProbe := "tls_probe".
Definition verificationVerify := "verify".

(** A host no longer configured is not recorded. *)
Definition recordVerification (h : string) (attemptedAt : Z) (stage : string) (failed : bool) (m : PoolModel) : PoolModel :=
  match configuredHosts m !! h with
  | None => m
  | Some a =>
      let a' := if failed then Attempt attemptedAt attemptedAt stage (wrap_u64 (failures a + 1))
                else Attempt attemptedAt (lastFailure a) "" (failures a) in
      set_hosts (<[h := a']> (configuredHosts m)) (expectedHosts m) m
  end.

Section Lifecycle.
Context (CryptoMaterialIDHPKE : string).

(** The loop over the crypto material; [None] is the missing key's error. *)
Fixpoint hpke_key (v : Verification) (items : list string) (key : string) : option string :=
  match items with
  | [] => Some key
  | id :: items =>
      if String.eqb id CryptoMaterialIDHPKE then
        match HPKEPublicKey v with
        | Some k => hpke_key v items k
        | None => None
        end
      else hpke_key v items key
  end.

(** The checks on a result before the mutex is taken: its TLS and HPKE keys. *)
Definition vet (verifiedAt : Z) (result : option Verification) : RefreshError + (Verification * string * string) :=
  match result with
  | None => inl ErrVerification
  | Some v =>
      if IsZero (FreshnessExpiresAt v) || negb (verifiedAt <? FreshnessExpiresAt v) then inl ErrNoFreshness
      else
        match TLSPublicKeyFP v with
        | None => inl ErrNoTLSKey
        | Some tls =>
            match hpke_key v (CryptoMaterial v) "" with
            | None => inl ErrNoHPKEKey
            | Some hpke => inr (v, tls, hpke)
            end
        end
  end.

Definition newAttestationState (v : Verification) (verifiedAt : Z) : verifiedAttestation :=
  Att (FreshnessExpiresAt v) verifiedAt (v_CodeTag v).

(** Puts [e] in the pool; the backend it replaces is shut down. *)
Definition installEnclaveLocked (h : string) (e : Enclave) (m : PoolModel) : PoolModel * list Enclave :=
  (set_enclaves (<[h := e]> (Enclaves m)) m, match Enclaves m !! h with Some previous => [shutdown previous] | None => [] end).

(** Is [current] the backend just verified? *)
Definition same_backend (tls hpke : string) (v : Verification) (current : Enclave) : bool :=
  String.eqb (tlsKeyFP current) tls && String.eqb (hpkeKey current) hpke
  && String.eqb (predicate current) (EnclaveMeasurementType v)
  && match attestation current with Some _ => true | None => false end.

Definition new_enclave (name h tls hpke : string) (v : Verification) (verifiedAt : Z) : Enclave :=
  Encl h name tls hpke (EnclaveMeasurementType v) (Some (newAttestationState v verifiedAt)) (Some newEnclaveMetrics)
    (Some newCircuitBreaker) 0.

(** The part of [refreshEnclave] under the mutex, with the backends shut down. *)
Definition refresh_locked (now : Z) (name h : string) (vetted : Verification * string * string) (verifiedAt : Z) (mm : Managed)
  : RefreshError + (Managed * list Enclave) :=
  let '(v, tls, hpke) := vetted in
  let m := mm_pool mm in
  match configuredHosts m !! h with
  | None => inl ErrNotConfigured
  | Some _ =>
      let released m := MkManaged (mm_Repo mm) (v_CodeTag v) (Some (CodeMeasurement v)) m in
      let install :=
        let '(m, retired) := installEnclaveLocked h (new_enclave name h tls hpke v verifiedAt) m in
        (released (set_enclaves (alter (updateOverloadConfig now (overloadForHostLocked h m) (spillPoliciesLocked h m)) h (Enclaves m)) m),
         retired) in
      match Enclaves m !! h with
      | Some current =>
          if same_backend tls hpke v current
          then inr (released (set_enclaves (<[h := set_attestation (newAttestationState v verifiedAt) current]> (Enclaves m)) m), [])
          else inr install
      | None => inr install
      end
  end.

(** The whole of [refreshEnclave] when nothing interleaves: the attempt is
    recorded with its outcome. *)
Definition refreshEnclave (attemptedAt verifiedAt now : Z) (name h : string) (result : option Verification) (mm : Managed)
  : Managed * list Enclave * option RefreshError :=
  let outcome :=
    match vet verifiedAt result with
    | inl err => inl err
    | inr vetted => refresh_locked now name h vetted verifiedAt mm
    end in
  let record failed mm := set_pool (recordVerification h attemptedAt verificationVerify failed (mm_pool mm)) mm in
  match outcome with
  | inl err => (record true mm, [], Some err)
  | inr (mm, retired) => (record false mm, retired, None)
  end.

(** ** Deciding whether to verify *)

(** [addEnclave] before its probe: is there a backend that is not yet due? *)
Definition must_probe (now refreshInterval : Z) (h : string) (m : PoolModel) : bool :=
  match Enclaves m !! h with
  | Some current => negb (attestationRefreshDue now refreshInterval current)
  | None => false
  end.

(** After a successful probe: is the key still the verified one? *)
Definition alreadyVerified (now refreshInterval : Z) (h realTLSKeyFP : string) (m : PoolModel) : bool :=
  match Enclaves m !! h with
  | Some current => String.eqb (tlsKeyFP current) realTLSKeyFP && negb (attestationRefreshDue now refreshInterval current)
  | None => false
  end.

(** [addEnclave] on a pool no one else changes: the pool with the probe's
    failure recorded, and whether the backend is verified anew.  [probe] is what
    the TLS probe gave. *)
Definition addEnclave (now refreshInterval : Z) (h : string) (probe : option string) (m : PoolModel) : PoolModel * bool :=
  if must_probe now refreshInterval h m then
    match probe with
    | None => (recordVerification h now verificationTLSProbe true m, false)
    | Some fp => (m, negb (alreadyVerified now refreshInterval h fp m))
    end
  else (m, true).

(** ** Recovery of a request whose backend changed its key *)

(** Inside the flight: no refresh when the host is gone or already replaced. *)
Inductive Recovery := RecoverFailed | RecoverChanged | RecoverRefresh.
Definition recover_decision (h failedKey : string) (m : PoolModel) : Recovery :=
  match configuredHosts m !! h with
  | None => RecoverFailed
  | Some _ =>
      match Enclaves m !! h with
      | Some current => if String.eqb (tlsKeyFP current) failedKey then RecoverRefresh else RecoverChanged
      | None => RecoverRefresh
      end
  end.

(** After the flight: the replacement the request may be retried on. *)
Definition recovered (now : Z) (h failedKey : string) (m : PoolModel) : option Enclave :=
  match Enclaves m !! h, configuredHosts m !! h with
  | Some current, Some _ =>
      if String.eqb (tlsKeyFP current) failedKey || negb (attestationValid now current) then None else Some current
  | _, _ => None
  end.

(** The replica set cache-aware routing ranks: the caller's attested backends
    with a closed breaker, or all its attested ones when every breaker is open.
    [iter] lists the enclaves in the orders the two passes range over them in. *)
Definition pool_candidates (now : Z) (allowed : option (gset string)) (closedOnly : bool) (es : list Enclave) : list Candidate :=
  map (fun e => Cand (host e) (inflight e))
    (filter (fun e => attestationValid now e && allowed_in allowed e && (negb closedOnly || breakerClosed e) = true) es).

Definition CacheRoutePoolIn (now : Z) (iter : nat -> list Enclave) (allowed : option (gset string)) (m : PoolModel) : Hrw.Pool :=
  let n := match allowed with Some s => Z.of_nat (size s) | None => expectedHosts m end in
  match pool_candidates now allowed true (iter 0%nat) with
  | [] => Hrw.MkPool n (pool_candidates now allowed false (iter 1%nat))
  | cs => Hrw.MkPool n cs
  end.

Definition CacheRouteSettings (secret : string) (m : PoolModel) : Settings := SettingsFrom secret (m_CacheRoute m).

(** The transport of a backend sends nothing once its attestation expired. *)
Inductive TransportError := AttestationMismatch | AttestationExpired | OtherError.

Definition attested_RoundTrip {R} (now : Z) (current : option verifiedAttestation) (send : R + TransportError) : R + TransportError :=
  match current with
  | Some a => if negb (now <? expiresAt a) then inr AttestationExpired else send
  | None => send
  end.

(** [rotationTransport.RoundTrip].  [first] is the base transport's result and
    whether the request's headers were written; [replayable] is whether the
    request has no body or can produce it again; [refresh] gives the recovered
    backend, [canceled] an expired context after it, [get_body] whether the body
    was produced again; [retry] sends on the recovered backend's transport.  The
    flag tells whether that second send happened. *)
Definition rotation_RoundTrip {R} (first : R + TransportError) (sent replayable : bool) (refresh : option Enclave)
    (canceled get_body : bool) (retry : Enclave -> R + TransportError) : (R + TransportError) * option Enclave :=
  match first with
  | inl r => (first, None)
  | inr AttestationMismatch =>
      if sent || negb replayable then (first, None)
      else
        match refresh with
        | None => (first, None)
        | Some e => if canceled || negb get_body then (inr OtherError, None) else (retry e, Some e)
        end
  | inr _ => (first, None)
  end.

(** ** Status *)

Record backendVerificationStatus := MkBackendStatus {
  LastSuccess : option Z;
  ExpiresAt : option Z;
  b_CodeTag : string;
  LastAttempt : option Z;
  LastFailure : option Z;
  LastError : string;
  b_failures : Z
}.

Record modelVerificationStatus := MkStatus {
  Configured : Z;
  Verified : Z;
  Healthy : Z;
  Expired : Z;
  Unverified : Z;
  EarliestFreshnessExpiresAt : option Z;
  Hosts : gmap string backendVerificationStatus
}.

Definition verificationTimestamp (t : Z) : option Z := if IsZero t then None else Some t.

Definition status_host (now : Z) (m : PoolModel) (s : modelVerificationStatus) (ha : string * verificationAttempt)
  : modelVerificationStatus :=
  let '(h, a) := ha in
  let verified := e ← Enclaves m !! h; attestation e in
  let unverified := MkBackendStatus None None "" (verificationTimestamp (lastAttempt a)) (verificationTimestamp (lastFailure a))
                      (lastError a) (failures a) in
  match verified with
  | None => MkStatus (Configured s) (Verified s) (Healthy s) (Expired s) (Unverified s + 1) (EarliestFreshnessExpiresAt s)
              (<[h := unverified]> (Hosts s))
  | Some v =>
      if IsZero (expiresAt v) then
        MkStatus (Configured s) (Verified s) (Healthy s) (Expired s) (Unverified s + 1) (EarliestFreshnessExpiresAt s)
          (<[h := unverified]> (Hosts s))
      else
        let b := MkBackendStatus (verificationTimestamp (verifiedAt v)) (verificationTimestamp (expiresAt v)) (codeTag v)
                   (verificationTimestamp (lastAttempt a)) (verificationTimestamp (lastFailure a)) (lastError a) (failures a) in
        if negb (now <? expiresAt v) then
          MkStatus (Configured s) (Verified s) (Healthy s) (Expired s + 1) (Unverified s) (EarliestFreshnessExpiresAt s)
            (<[h := b]> (Hosts s))
        else
          let healthy := match Enclaves m !! h with Some e => breakerClosed e | None => false end in
          let earliest :=
            match EarliestFreshnessExpiresAt s with
            | None => verificationTimestamp (expiresAt v)
            | Some t => if expiresAt v <? t then verificationTimestamp (expiresAt v) else Some t
            end in
          MkStatus (Configured s) (Verified s + 1) (if healthy then Healthy s + 1 else Healthy s) (Expired s) (Unverified s) earliest
            (<[h := b]> (Hosts s))
  end.

Definition verificationStatusLocked (now : Z) (m : PoolModel) : modelVerificationStatus :=
  foldl (status_host now m) (MkStatus (Z.of_nat (size (configuredHosts m))) 0 0 0 0 None ∅) (map_to_list (configuredHosts m)).

(** ** The manager as a system *)

(** What the verifier returned for a host and a repository, and the instant read
    after it returned. *)
Record Call := MkCall { c_host : string; c_repo : string; c_verification : Verification; c_verifiedAt : Z }.

(** The models, and the verifier's results so far (which no operation reads
    but through the goroutine that got them). *)
Record Manager := MkManager { models : gmap string Managed; calls : list Call }.

(** The request side: selections, releases, breaker callbacks and polls. *)
Inductive pool_step : PoolModel -> PoolModel -> Prop :=
  | ps_select now rnd iter order cp primary spill policy m :
      enumerates m iter -> pool_step m (fst (SelectServing now rnd iter m order cp primary spill policy))
  | ps_retry now rnd iter failedHost order primary spill policy m :
      enumerates m iter -> pool_step m (fst (SelectRetry now rnd iter m failedHost order primary spill policy))
  | ps_release h m : pool_step m (ReleaseDispatch h m)
  | ps_breaker h op m :
      pool_step m (set_enclaves (alter (fun e => match cb e with Some b => set_cb (exec_op op b) e | None => e end) h (Enclaves m)) m)
  | ps_scrape h now response m :
      pool_step m (set_enclaves (alter (fun e => set_metrics ((fun mt => fst (scrape now response mt)) <$> metrics e) e) h (Enclaves m)) m)
  | ps_record h at_ stage failed m : pool_step m (recordVerification h at_ stage failed m).

(** One atomic step of requests and verifications: a goroutine's locked
    section, or a verifier's return. *)
Inductive background : Manager -> Manager -> Prop :=
  | st_verify ms log name mm h v at_ :
      ms !! name = Some mm -> background (MkManager ms log) (MkManager ms (log ++ [MkCall h (mm_Repo mm) v at_]))
  | st_commit ms log name mm now c vetted mm' retired :
      ms !! name = Some mm -> c ∈ log -> c_repo c = mm_Repo mm ->
      vet (c_verifiedAt c) (Some (c_verification c)) = inr vetted ->
      refresh_locked now name (c_host c) vetted (c_verifiedAt c) mm = inr (mm', retired) ->
      background (MkManager ms log) (MkManager (<[name := mm']> ms) log)
  | st_pool ms log name mm p :
      ms !! name = Some mm -> pool_step (mm_pool mm) p ->
      background (MkManager ms log) (MkManager (<[name := set_pool p mm]> ms) log).

(** Those, and the configuration applied to one model. *)
Inductive step : Manager -> Manager -> Prop :=
  | st_sync ms log name mm now config :
      ms !! name = Some mm -> step (MkManager ms log) (MkManager (<[name := fst (sync_model now config mm)]> ms) log)
  | st_background s s' : background s s' -> step s s'.

(** The manager as [NewEnclaveManager] builds it from the initial configuration. *)
Definition NewEnclaveManager (config : gmap string Model) : Manager := MkManager (addModel <$> config) [].

Definition manager_machine (config : gmap string Model) : Machine Manager :=
  {| initial s := s = NewEnclaveManager config; transition := step |}.

End Lifecycle.

(** ** Identities *)

(** What verification fixes of a backend; everything else is runtime state. *)
Definition identity (e : Enclave) : string * string * string * string * string * option verifiedAttestation :=
  (host e, modelName e, tlsKeyFP e, hpkeKey e, predicate e, attestation e).

(** Every backend of [es'] is one of [es], up to its runtime state. *)
Definition same_identities (es es' : gmap string Enclave) : Prop :=
  forall h e', es' !! h = Some e' -> exists e, es !! h = Some e /\ identity e' = identity e.

Lemma same_identities_refl es : same_identities es es.
Proof. intros h e He. by exists e. Qed.

Lemma same_identities_insert es h e e' :
  es !! h = Some e -> identity e' = identity e -> same_identities es (<[h := e']> es).
Proof. intros He Hi k x [[<- <-]|[_ Hx]]%lookup_insert_Some; [by exists e|by exists x]. Qed.

Lemma same_identities_alter es h f :
  (forall e, identity (f e) = identity e) -> same_identities es (alter f h es).
Proof.
  intros Hf k x. rewrite lookup_alter_Some. intros [(<- & e & He & ->)|[_ Hx]]; [by exists e|by exists x].
Qed.

Lemma identity_updateOverloadConfig now cfg ps e : identity (updateOverloadConfig now cfg ps e) = identity e.
Proof. unfold updateOverloadConfig. by destruct (metrics e). Qed.

(** A selection returns a backend of the pool with an unexpired attestation, up
    to its breaker. *)
Lemma select_member now rnd iter m order cp primary spill policy ex e :
  enumerates m iter -> sel_enclave (selectServingLocked now rnd iter m order cp primary spill policy ex) = Some e ->
  exists e0, member m e0 /\ attestationValid now e0 = true /\ (e = e0 \/ exists b, e = set_cb b e0).
Proof.
  intros Hen He. assert (Hiter : forall x p, x ∈ iter p -> member m x) by (intros; by eapply enumerates_elem).
  assert (Hel : forall x, (exists allowed, eligible now ex allowed x = true) -> attestationValid now x = true)
    by (intros x [? H]; unfold eligible in H; by bool_simp).
  pose proof (selectServingLocked_spec now rnd iter m order cp primary spill policy ex) as Hsel.
  destruct Hsel as [p e0 e1 token Hp Hc Hs|t p first rest Hb _ Hs|_ Hs]; rewrite Hs in He.
  - injection He as <-. apply elem_of_probes in Hp as (Hin & (al & _ & Ha) & _). apply claimProbe_spec in Hc as (b & b' & _ & _ & ->).
    exists e0. split; [by eapply Hiter|]. split; [by apply Hel; exists al|by right; exists b'].
  - rewrite serve_from_enclave in He. injection He as <-.
    assert (pickTierLocked rnd m order first rest ∈ bucket now iter (pools primary spill) policy ex t p) as Hin
      by (rewrite Hb; apply pick_elem).
    apply elem_of_bucket in Hin as (Hin & (al & _ & Ha) & _).
    eexists. split; [by eapply Hiter|]. split; [by apply Hel; exists al|by left].
  - simpl in He. apply head_Some_elem_of, elem_of_app in He as [He|He]; apply elem_of_probes in He as (Hin & (al & _ & Ha) & _);
      exists e; (split; [by eapply Hiter|]); (split; [by apply Hel; exists al|by left]).
Qed.

Lemma select_identity e e0 : e = e0 \/ (exists b, e = set_cb b e0) -> identity e = identity e0.
Proof. by intros [->|[b ->]]. Qed.

(** Reserving the selected backend changes no identity. *)
Lemma reserve_identities m e e0 :
  wf_pool m -> member m e0 -> e = e0 \/ (exists b, e = set_cb b e0) -> same_identities (Enclaves m) (Enclaves (reserve e m)).
Proof.
  intros Hwf [h Hh] He. pose proof (Hwf _ _ Hh) as Hhost. cbn in Hhost.
  assert (host e = h /\ identity e = identity e0) as [Hhe Hie] by (by destruct He as [->|[b ->]]).
  unfold reserve. cbn [put_enclave Enclaves set_inflight host]. rewrite Hhe. by eapply same_identities_insert.
Qed.

(** Recording an attempt changes only the host's record. *)
Lemma record_spec h at_ stage failed m :
  let m' := recordVerification h at_ stage failed m in
  Enclaves m' = Enclaves m /\ dom (configuredHosts m') = dom (configuredHosts m)
  /\ forall a, configuredHosts m !! h = Some a -> exists a', configuredHosts m' !! h = Some a'
       /\ lastError a' = (if failed then stage else "") /\ (failed = true -> lastFailure a' = at_).
Proof.
  unfold recordVerification. destruct (configuredHosts m !! h) as [a|] eqn:Ha; [|by split_and!]. cbn.
  split; [done|]. split; [rewrite dom_insert_lookup_L; [done|by eexists]|]. intros _ _. rewrite lookup_insert_eq.
  eexists. split; [done|]. by destruct failed.
Qed.

(** The request side changes no identity and no configured host. *)
Lemma pool_step_identities m m' :
  wf_pool m -> pool_step m m' ->
  same_identities (Enclaves m) (Enclaves m') /\ dom (configuredHosts m') = dom (configuredHosts m).
Proof.
  intros Hwf Hstep. destruct Hstep as [now rnd iter order cp primary spill policy m Hen|now rnd iter fh order primary spill policy m Hen|h m|h op m|h now response m|h at_ stage failed m].
  - unfold SelectServing. cbn [fst]. destruct (sel_enclave _) as [e|] eqn:He; [|by split; [apply same_identities_refl|]].
    destruct (select_member _ _ _ _ _ _ _ _ _ _ _ Hen He) as (e0 & Hm & _ & Hee). split; [by eapply reserve_identities|done].
  - unfold SelectRetry. destruct (sel_enclave _) as [e|] eqn:He; [|by split; [apply same_identities_refl|]].
    destruct (sel_overloaded _); [by split; [apply same_identities_refl|]|].
    destruct (select_member _ _ _ _ _ _ _ _ _ _ _ Hen He) as (e0 & Hm & _ & Hee). split; [by eapply reserve_identities|done].
  - unfold ReleaseDispatch. destruct (Enclaves m !! h) as [e|] eqn:He; [|by split; [apply same_identities_refl|]].
    split; [|done]. pose proof (Hwf _ _ He) as Hh. cbn in Hh. cbn [put_enclave Enclaves set_inflight host]. rewrite Hh.
    by eapply same_identities_insert.
  - split; [|done]. apply same_identities_alter. intros e. by destruct (cb e).
  - split; [|done]. by apply same_identities_alter.
  - destruct (record_spec h at_ stage failed m) as (He & Hd & _). cbn zeta in He. rewrite He. by split; [apply same_identities_refl|].
Qed.

Lemma applyReservations_enclaves rs hs m : Enclaves (applyReservations rs hs m) = Enclaves m.
Proof. unfold applyReservations. by case_decide. Qed.

Lemma applyReservations_hosts rs hs m : configuredHosts (applyReservations rs hs m) = configuredHosts m.
Proof. unfold applyReservations. by case_decide. Qed.

Lemma configured_lookup {A} (f : string -> A) hs h :
  (list_to_map (map (fun h => (h, f h)) hs) : gmap string A) !! h = if decide (h ∈ hs) then Some (f h) else None.
Proof.
  induction hs as [|x hs IH]; [done|]. cbn [map list_to_map foldr uncurry]. cbn. destruct (decide (h = x)) as [->|Hne].
  - rewrite lookup_insert_eq. rewrite decide_True by set_solver. done.
  - rewrite lookup_insert_ne by done. rewrite IH. repeat case_decide; set_solver.
Qed.

Lemma shutdown_spec e :
  identity (shutdown e) = identity e /\ (forall b, cb (shutdown e) = Some b -> publishIfActive b = None)
  /\ forall mt, metrics (shutdown e) = Some mt -> polling mt = false.
Proof.
  unfold shutdown. destruct e as [? ? ? ? ? ? [mt|] [b|] ?]; cbn; split_and!; try done; by intros ? [= <-].
Qed.

(** A configuration keeps backends of the pool, all configured. *)
Lemma sync_model_spec now config mm :
  let mm' := fst (sync_model now config mm) in
  mm_Repo mm' = mm_Repo mm
  /\ same_identities (Enclaves (mm_pool mm)) (Enclaves (mm_pool mm'))
  /\ (mm' = mm \/ forall h, is_Some (Enclaves (mm_pool mm') !! h) -> is_Some (configuredHosts (mm_pool mm') !! h)).
Proof.
  unfold sync_model. destruct config as [c|]; cbn zeta.
  - destruct (String.eqb (mm_Repo mm) (Repo c)); [|by split; [|split; [apply same_identities_refl|left]]].
    cbn [negb fst]. set (m0 := setConfiguredHosts _ _). set (m1 := PM _ _ _ _ _ _ _ _ _ _).
    set (m2 := applyReservations _ _ m1). cbn [set_pool mm_Repo mm_pool set_enclaves Enclaves configuredHosts].
    split; [done|]. split.
    + intros h e' [Hl _]%map_lookup_filter_Some. rewrite map_lookup_imap in Hl.
      unfold m2 in Hl. rewrite applyReservations_enclaves in Hl. cbn in Hl.
      destruct (Enclaves (mm_pool mm) !! h) as [e|]; [|done]. injection Hl as <-. exists e. split; [done|].
      apply identity_updateOverloadConfig.
    + right. intros h [e [_ Hc]%map_lookup_filter_Some]. done.
  - cbn. split; [done|]. split; [intros h e' He|right; intros h [e He]]; by rewrite lookup_empty in He.
Qed.

(** ** Verified backends *)

Section Verified.
Context (CryptoMaterialIDHPKE : string).

Abbreviation vet := (vet CryptoMaterialIDHPKE).
Abbreviation manager_machine := (manager_machine CryptoMaterialIDHPKE).

(** The verifier's result vouches for the backend: its keys, its predicate, its
    freshness, which had not expired when the result was read. *)
Record vouches (c : Call) (e : Enclave) : Prop := {
  vo_tls : TLSPublicKeyFP (c_verification c) = Some (tlsKeyFP e);
  vo_hpke : hpke_key CryptoMaterialIDHPKE (c_verification c) (CryptoMaterial (c_verification c)) "" = Some (hpkeKey e);
  vo_predicate : EnclaveMeasurementType (c_verification c) = predicate e;
  vo_attestation : attestation e = Some (newAttestationState (c_verification c) (c_verifiedAt c));
  vo_fresh : c_verifiedAt c < FreshnessExpiresAt (c_verification c)
}.

Lemma vet_vouches at_ v v' tls hpke e :
  vet at_ (Some v) = inr (v', tls, hpke) ->
  tlsKeyFP e = tls -> hpkeKey e = hpke -> predicate e = EnclaveMeasurementType v -> attestation e = Some (newAttestationState v at_) ->
  v' = v /\ forall h repo, vouches (MkCall h repo v at_) e.
Proof.
  unfold Lifecycle.vet. destruct (_ || _) eqn:Ef; [done|]. destruct (TLSPublicKeyFP v) as [t|] eqn:Et; [|done].
  destruct (hpke_key _ v _ _) as [k|] eqn:Ek; [|done]. intros [= -> -> ->] Ht Hk Hp Ha. bool_simp.
  split; [done|]. split; cbn; congruence || done.
Qed.

(** A backend verified for its host and repository, whose host is configured. *)
Record admitted (log : list Call) (repo : string) (m : PoolModel) (h : string) (e : Enclave) : Prop := {
  ad_host : host e = h;
  ad_configured : is_Some (configuredHosts m !! h);
  ad_call : exists c, c ∈ log /\ c_host c = h /\ c_repo c = repo /\ vouches c e
}.

Definition all_admitted (log : list Call) (mm : Managed) : Prop :=
  map_Forall (admitted log (mm_Repo mm) (mm_pool mm)) (Enclaves (mm_pool mm)).

Lemma vouches_identity c e e' : identity e' = identity e -> vouches c e -> vouches c e'.
Proof. intros [= H1 H2 H3 H4 H5 H6] [? ? ? ? ?]. split; congruence. Qed.

Lemma all_admitted_wf log mm : all_admitted log mm -> wf_pool (mm_pool mm).
Proof. intros H h e He. by apply (H h e He). Qed.

Lemma all_admitted_log log log' mm : all_admitted log mm -> log ⊆ log' -> all_admitted log' mm.
Proof. intros H Hl h e He. destruct (H h e He) as [? ? (c & ? & ?)]. split; [done..|]. exists c. set_solver. Qed.

(** Backends that are old ones up to runtime state stay admitted as long as
    their hosts are configured. *)
Lemma all_admitted_same log mm mm' :
  all_admitted log mm -> mm_Repo mm' = mm_Repo mm -> same_identities (Enclaves (mm_pool mm)) (Enclaves (mm_pool mm')) ->
  (forall h, is_Some (Enclaves (mm_pool mm') !! h) -> is_Some (configuredHosts (mm_pool mm') !! h)) ->
  all_admitted log mm'.
Proof.
  intros H Hr Hs Hc h e' He'. destruct (Hs h e' He') as (e & He & Hi). destruct (H h e He) as [Hh _ (c & ? & ? & ? & Hv)].
  split; [by injection Hi as -> _|by apply Hc; exists e'|]. exists c. rewrite Hr. split_and!; try done. by eapply vouches_identity.
Qed.

(** Applying a verification admits the backend it is about. *)
Lemma refresh_locked_admitted log mm now name c vetted mm' retired :
  all_admitted log mm -> c ∈ log -> c_repo c = mm_Repo mm ->
  vet (c_verifiedAt c) (Some (c_verification c)) = inr vetted ->
  refresh_locked now name (c_host c) vetted (c_verifiedAt c) mm = inr (mm', retired) ->
  mm_Repo mm' = mm_Repo mm /\ all_admitted log mm'.
Proof.
  intros Hall Hc Hrepo Hvet Href. destruct vetted as [[v tls] hpke]. unfold refresh_locked in Href.
  destruct (configuredHosts (mm_pool mm) !! c_host c) as [a|] eqn:Hconf; [|done].
  destruct c as [h repo v0 at_]. cbn [c_host c_repo c_verification c_verifiedAt] in *.
  (* the new entry vouched for, the others as they were *)
  assert (forall e m', tlsKeyFP e = tls -> hpkeKey e = hpke -> predicate e = EnclaveMeasurementType v ->
    attestation e = Some (newAttestationState v at_) -> host e = h ->
    Enclaves m' = <[h := e]> (Enclaves (mm_pool mm)) -> configuredHosts m' = configuredHosts (mm_pool mm) ->
    all_admitted log (MkManaged (mm_Repo mm) (v_CodeTag v) (Some (CodeMeasurement v)) m')) as Hnew.
  { intros e m' H1 H2 H3 H4 H5 Hes Hch k x. cbn [mm_pool mm_Repo]. rewrite Hes.
    assert (v = v0) as -> by (by destruct (vet_vouches _ _ _ _ _ (Encl "" "" tls hpke (EnclaveMeasurementType v0)
      (Some (newAttestationState v0 at_)) None None 0) Hvet)).
    destruct (vet_vouches _ _ _ _ _ e Hvet H1 H2 H3 H4) as [_ Hv].
    intros [[<- <-]|[Hne Hx]]%lookup_insert_Some.
    - split; [done|by rewrite Hch; exists a|]. eexists. split; [exact Hc|]. split_and!; try done.
    - destruct (Hall k x Hx) as [? ? ?]. split; [done|by rewrite Hch|done]. }
  assert (forall m retired, installEnclaveLocked h (new_enclave name h tls hpke v at_) (mm_pool mm) = (m, retired) ->
    all_admitted log (MkManaged (mm_Repo mm) (v_CodeTag v) (Some (CodeMeasurement v))
      (set_enclaves (alter (updateOverloadConfig now (overloadForHostLocked h m) (spillPoliciesLocked h m)) h (Enclaves m)) m))) as Hinst.
  { unfold installEnclaveLocked. intros m r [= <- <-].
    set (f := updateOverloadConfig _ _ _). eapply (Hnew (f (new_enclave name h tls hpke v at_))); try done.
    cbn [set_enclaves Enclaves]. by rewrite alter_insert_eq. }
  destruct (Enclaves (mm_pool mm) !! h) as [current|] eqn:Hcur.
  - destruct (same_backend tls hpke v current) eqn:Esame.
    + injection Href as <- <-. split; [done|]. unfold same_backend in Esame. bool_simp. rewrite !String.eqb_eq in *.
      eapply (Hnew (set_attestation (newAttestationState v at_) current)); try done. by apply (Hall h current).
    + destruct (installEnclaveLocked _ _ _) as [m r] eqn:Ei in Href. injection Href as <- <-. split; [done|]. by eapply Hinst.
  - destruct (installEnclaveLocked _ _ _) as [m r] eqn:Ei in Href. injection Href as <- <-. split; [done|]. by eapply Hinst.
Qed.

(** The models and their repositories are those of the initial configuration,
    and every backend of every pool is admitted. *)
Record manager_ok (config : gmap string Model) (s : Manager) : Prop := {
  mo_names : dom (models s) = dom config;
  mo_models : forall name mm, models s !! name = Some mm ->
    (exists c, config !! name = Some c /\ mm_Repo mm = Repo c) /\ all_admitted (calls s) mm
}.

Lemma manager_ok_init config : manager_ok config (NewEnclaveManager config).
Proof.
  split; cbn; [by rewrite dom_fmap_L|]. intros name mm. rewrite lookup_fmap_Some. intros (c & <- & Hc).
  split; [by exists c|]. intros h e. cbn. rewrite applyReservations_enclaves. cbn. by rewrite lookup_empty.
Qed.

(** Replacing one model by one of the same repository. *)
Lemma manager_ok_insert config ms log name mm mm' :
  manager_ok config (MkManager ms log) -> ms !! name = Some mm -> mm_Repo mm' = mm_Repo mm -> all_admitted log mm' ->
  manager_ok config (MkManager (<[name := mm']> ms) log).
Proof.
  intros [Hd Hm] Hn Hr Ha. cbn in *. split; cbn; [rewrite dom_insert_lookup_L; [done|by eexists]|].
  intros k x [[<- <-]|[_ Hx]]%lookup_insert_Some; [|by apply Hm].
  destruct (Hm _ _ Hn) as [(c & ? & ?) _]. split; [exists c; split; [done|congruence]|done].
Qed.

Lemma manager_ok_background config s s' : manager_ok config s -> background CryptoMaterialIDHPKE s s' -> manager_ok config s'.
Proof.
  intros Hok Hstep. destruct Hstep as [ms log name mm h v at_ Hn|ms log name mm now c vetted mm' retired Hn Hc Hr Hv Hl|ms log name mm p Hn Hp].
  - destruct Hok as [Hd Hm]. split; [done|]. cbn in *. intros k x Hx. destruct (Hm k x Hx) as [? Hall]. split; [done|].
    eapply all_admitted_log; [exact Hall|]. set_solver.
  - destruct (mo_models _ _ Hok name mm Hn) as [_ Hall]. cbn [calls] in Hall.
    destruct (refresh_locked_admitted _ _ _ _ _ _ _ _ Hall Hc Hr Hv Hl) as [? ?]. by eapply manager_ok_insert.
  - destruct (mo_models _ _ Hok name mm Hn) as [_ Hall]. cbn [calls] in Hall.
    destruct (pool_step_identities _ _ (all_admitted_wf _ _ Hall) Hp) as [Hs Hd].
    eapply manager_ok_insert; [done|done|done|]. eapply all_admitted_same; [exact Hall|done|exact Hs|].
    cbn [set_pool mm_pool]. intros h [e' He']. destruct (Hs h e' He') as (e & He & _).
    destruct (Hall h e He) as [_ Hc _]. by rewrite <- elem_of_dom, Hd, elem_of_dom.
Qed.

Lemma manager_ok_step config s s' : manager_ok config s -> step CryptoMaterialIDHPKE s s' -> manager_ok config s'.
Proof.
  intros Hok Hstep. destruct Hstep as [ms log name mm now cfg Hn|s0 s0' Hb]; [|by eapply manager_ok_background].
  destruct (mo_models _ _ Hok name mm Hn) as [_ Hall]. cbn [calls] in Hall.
  destruct (sync_model_spec now cfg mm) as (Hr & Hs & Hc). eapply manager_ok_insert; [done|done|done|].
  destruct Hc as [->|Hc]; [done|]. by eapply all_admitted_same.
Qed.

Lemma manager_reachable_ok config s : reachable (manager_machine config) s -> manager_ok config s.
Proof. apply reachable_invariant; [intros ? ->; apply manager_ok_init|intros; by eapply manager_ok_step]. Qed.

End Verified.

(** What the locked part of a refresh does when it succeeds. *)
Lemma refresh_locked_spec now name h v tls hpke verifiedAt mm mm' retired :
  let m := mm_pool mm in
  let installed := updateOverloadConfig now (overloadForHostLocked h m) (spillPoliciesLocked h m) (new_enclave name h tls hpke v verifiedAt) in
  refresh_locked now name h (v, tls, hpke) verifiedAt mm = inr (mm', retired) ->
  configuredHosts (mm_pool mm') = configuredHosts m /\ is_Some (configuredHosts m !! h)
  /\ (forall k, k <> h -> Enclaves (mm_pool mm') !! k = Enclaves m !! k) /\ mm_Tag mm' = v_CodeTag v
  /\ exists e', Enclaves (mm_pool mm') !! h = Some e'
       /\ match Enclaves m !! h with
          | Some e => if same_backend tls hpke v e
                      then e' = set_attestation (newAttestationState v verifiedAt) e /\ retired = []
                      else retired = [shutdown e] /\ e' = installed
          | None => retired = [] /\ e' = installed
          end.
Proof.
  intros m installed Href. unfold refresh_locked, installEnclaveLocked in Href. fold m in Href.
  destruct (configuredHosts m !! h) as [a|] eqn:Ha; [|done].
  destruct (Enclaves m !! h) as [e|] eqn:He; [destruct (same_backend tls hpke v e) eqn:Es|]; injection Href as <- <-; cbn;
    (split; [done|]); (split; [by exists a|]).
  - split; [by intros; rewrite lookup_insert_ne|]. split; [done|]. eexists. by rewrite lookup_insert_eq.
  - split; [by intros; rewrite alter_insert_eq, lookup_insert_ne|]. split; [done|]. exists installed.
    by rewrite alter_insert_eq, lookup_insert_eq.
  - split; [by intros; rewrite alter_insert_eq, lookup_insert_ne|]. split; [done|]. exists installed.
    by rewrite alter_insert_eq, lookup_insert_eq.
Qed.

(** ** Properties *)

(** C1: the router dispatches to verified backends only. However configuration
    syncs, verifications (applied late or out of order), requests, breaker
    callbacks and polls interleave, a backend selected for a request or a retry
    is one whose keys and predicate the verifier returned for that very host and
    for the repository the model had in the configuration the router started
    with; its host is configured; and that verification's freshness has not
    expired. *)
Theorem dispatch_verified hpkeID config s name mm now rnd iter failedHost order cp primary spill policy e :
  reachable (manager_machine hpkeID config) s -> models s !! name = Some mm -> enumerates (mm_pool mm) iter ->
  (sel_enclave (snd (SelectServing now rnd iter (mm_pool mm) order cp primary spill policy)) = Some e
   \/ snd (SelectRetry now rnd iter (mm_pool mm) failedHost order primary spill policy) = Some e) ->
  exists cfg c, config !! name = Some cfg /\ c ∈ calls s /\ c_host c = host e /\ c_repo c = Repo cfg
    /\ vouches hpkeID c e /\ now < FreshnessExpiresAt (c_verification c) /\ is_Some (configuredHosts (mm_pool mm) !! host e).
Proof.
  intros Hr Hm Hen Hsel. destruct (mo_models _ _ _ (manager_reachable_ok _ _ _ Hr) name mm Hm) as [(cfg & Hcfg & Hrepo) Hall].
  assert (exists cp ex, sel_enclave (selectServingLocked now rnd iter (mm_pool mm) order cp primary spill policy ex) = Some e) as (cp' & ex & Hs).
  { destruct Hsel as [Hsel|Hsel]; [by exists cp, ""|]. exists false, failedHost. unfold SelectRetry in Hsel.
    destruct (sel_enclave _) as [x|]; [|done]. by destruct (sel_overloaded _); simplify_eq/=. }
  destruct (select_member _ _ _ _ _ _ _ _ _ _ _ Hen Hs) as (e0 & [h Hh] & Hatt & Hi%select_identity).
  destruct (Hall h e0 Hh) as [Hhost Hconf (c & Hc & Hch & Hcr & Hv)].
  assert (host e = h) as -> by (by injection Hi as -> _).
  exists cfg, c. split_and!; try done; [congruence|by eapply vouches_identity|].
  unfold attestationValid in Hatt. rewrite (vo_attestation _ _ _ Hv) in Hatt. cbn in Hatt. by bool_simp.
Qed.

(** What a verification does, on every branch. A failed one leaves the pool
    as it was but for the recorded failure of a host still configured; a
    successful one of the same keys and predicate replaces the backend's
    attestation and nothing else of it; any other successful one puts a fresh
    backend in its place, its breaker closed and its metrics under the host's
    policies, and shuts the previous one down, whose breaker then publishes
    nothing; no other host's backend is touched. *)
Theorem refresh_outcomes hpkeID attemptedAt verifiedAt now name h result mm :
  let m := mm_pool mm in
  let '(mm', retired, err) := refreshEnclave hpkeID attemptedAt verifiedAt now name h result mm in
  let m' := mm_pool mm' in
  let installed v tls hpke :=
    updateOverloadConfig now (overloadForHostLocked h m) (spillPoliciesLocked h m) (new_enclave name h tls hpke v verifiedAt) in
  dom (configuredHosts m') = dom (configuredHosts m)
  /\ (forall k, k <> h -> Enclaves m' !! k = Enclaves m !! k)
  /\ match err with
     | Some _ =>
         Enclaves m' = Enclaves m /\ retired = [] /\ mm_Tag mm' = mm_Tag mm
         /\ forall a, configuredHosts m !! h = Some a -> exists a', configuredHosts m' !! h = Some a'
              /\ lastError a' = verificationVerify /\ lastFailure a' = attemptedAt
     | None =>
         exists v tls hpke e', vet hpkeID verifiedAt result = inr (v, tls, hpke) /\ mm_Tag mm' = v_CodeTag v
         /\ Enclaves m' !! h = Some e'
         /\ (exists a', configuredHosts m' !! h = Some a' /\ lastError a' = "")
         /\ match Enclaves m !! h with
            | Some e =>
                if same_backend tls hpke v e
                then e' = set_attestation (newAttestationState v verifiedAt) e /\ retired = []
                else e' = installed v tls hpke
                     /\ exists old, retired = [old] /\ identity old = identity e /\ (forall b, cb old = Some b -> publishIfActive b = None)
                        /\ forall mt, metrics old = Some mt -> polling mt = false
            | None => e' = installed v tls hpke /\ retired = []
            end
     end.
Proof.
  intros m. unfold refreshEnclave.
  assert (forall err : RefreshError, let m' := recordVerification h attemptedAt verificationVerify true m in
    dom (configuredHosts m') = dom (configuredHosts m) /\ (forall k, k <> h -> Enclaves m' !! k = Enclaves m !! k)
    /\ Enclaves m' = Enclaves m /\ [] = ([] : list Enclave) /\ mm_Tag mm = mm_Tag mm
    /\ forall a, configuredHosts m !! h = Some a -> exists a', configuredHosts m' !! h = Some a'
              /\ lastError a' = verificationVerify /\ lastFailure a' = attemptedAt) as Hfail.
  { intros _ m'. destruct (record_spec h attemptedAt verificationVerify true m) as (He & Hd & Ha). fold m' in He, Hd, Ha. rewrite He.
    split_and!; try done. intros a Hc. destruct (Ha a Hc) as (a' & ? & ? & Hf). exists a'. split_and!; try done. by apply Hf. }
  destruct (vet hpkeID verifiedAt result) as [err|[[v tls] hpke]]; [by apply Hfail|].
  destruct (refresh_locked now name h (v, tls, hpke) verifiedAt mm) as [err|[mm' retired]] eqn:Hl; [by apply Hfail|].
  apply refresh_locked_spec in Hl as (Hch & [a Ha] & Hoth & Htag & e' & He' & Hcase). fold m in Hch, Ha, Hoth, Hcase.
  destruct (record_spec h attemptedAt verificationVerify false (mm_pool mm')) as (Hre & Hrd & Hra). cbn [set_pool mm_pool mm_Tag].
  cbn zeta in *. rewrite Hre, Hrd, Hch. split; [done|]. split; [done|]. exists v, tls, hpke, e'. split_and!; try done.
  - rewrite Hch in Hra. destruct (Hra a Ha) as (a' & ? & ? & _). by exists a'.
  - destruct (Enclaves m !! h) as [e|]; [|naive_solver]. destruct (same_backend tls hpke v e); [done|].
    destruct Hcase as [-> ->]. split; [done|]. exists (shutdown e). split; [done|apply shutdown_spec].
Qed.

(** What a configuration does to a model. Under the same repository the
    backends kept are those whose hosts it names, with their keys, attestation,
    breaker and in-flight count; the others are shut down; the attempts of hosts
    that stay are kept, those of new hosts start empty. A configuration with
    another repository changes nothing, and one without the model empties its
    pool and shuts every backend down. *)
Theorem sync_keeps_configured now cfg mm :
  let '(mm', removed) := sync_model now (Some cfg) mm in
  let '(gone, all_removed) := sync_model now None mm in
  let old := mm_pool mm in
  let new := mm_pool mm' in
  mm_Repo mm' = mm_Repo mm
  /\ (Repo cfg <> mm_Repo mm -> mm' = mm /\ removed = [])
  /\ (Repo cfg = mm_Repo mm -> forall h,
        if decide (h ∈ Hostnames cfg) then
          configuredHosts new !! h = Some (default zeroAttempt (configuredHosts old !! h))
          /\ match Enclaves old !! h with
             | None => Enclaves new !! h = None
             | Some e => exists e', Enclaves new !! h = Some e' /\ identity e' = identity e /\ cb e' = cb e /\ inflight e' = inflight e
             end
        else
          configuredHosts new !! h = None /\ Enclaves new !! h = None
          /\ forall e, Enclaves old !! h = Some e -> exists e', e' ∈ removed /\ identity e' = identity e
               /\ forall b, cb e' = Some b -> publishIfActive b = None)
  /\ Enclaves (mm_pool gone) = ∅ /\ configuredHosts (mm_pool gone) = ∅
  /\ forall h e, Enclaves old !! h = Some e -> shutdown e ∈ all_removed.
Proof.
  cbn [sync_model]. set (m0 := applyReservations [] [] (setConfiguredHosts [] (mm_pool mm))).
  cbn [mm_pool set_pool set_enclaves Enclaves configuredHosts].
  assert (Enclaves m0 = Enclaves (mm_pool mm)) as He0 by (unfold m0; by rewrite applyReservations_enclaves).
  assert (configuredHosts m0 = ∅) as Hc0 by (unfold m0; by rewrite applyReservations_hosts).
  assert (forall h e, Enclaves (mm_pool mm) !! h = Some e -> shutdown e ∈ map shutdown (map_to_list (Enclaves m0)).*2) as Hall.
  { intros h e He. apply list_elem_of_fmap_2, list_elem_of_fmap. exists (h, e). rewrite He0. split; [done|]. by apply elem_of_map_to_list. }
  destruct (String.eqb_spec (mm_Repo mm) (Repo cfg)) as [Hr|Hr]; cbn [negb]; [|by split_and!].
  cbn [mm_pool set_pool set_enclaves Enclaves configuredHosts mm_Repo].
  split; [done|]. split; [intros ?; congruence|]. split; [intros _ h|by split_and!].
  rewrite applyReservations_hosts, applyReservations_enclaves. cbn [setConfiguredHosts set_hosts Enclaves configuredHosts].
  set (m2 := applyReservations _ _ _). set (f := fun h e => updateOverloadConfig now (overloadForHostLocked h m2) (spillPoliciesLocked h m2) e).
  set (hosts := list_to_map _). assert (forall k, hosts !! k = if decide (k ∈ Hostnames cfg) then Some (default zeroAttempt (configuredHosts (mm_pool mm) !! k)) else None) as Hh
    by (intros; unfold hosts; apply (configured_lookup (fun h => default zeroAttempt (configuredHosts (mm_pool mm) !! h)))).
  assert (forall e, identity (f h e) = identity e /\ cb (f h e) = cb e /\ inflight (f h e) = inflight e) as Hf.
  { intros e. unfold f, updateOverloadConfig. by destruct (metrics e). }
  specialize (Hh h). case_decide as Hin; rewrite Hh.
  - split; [done|]. destruct (Enclaves (mm_pool mm) !! h) as [e|] eqn:He.
    + exists (f h e). split; [|apply Hf]. apply map_lookup_filter_Some. rewrite map_lookup_imap, He. cbn.
      split; [done|]. rewrite Hh. by eexists.
    + apply map_lookup_filter_None. left. by rewrite map_lookup_imap, He.
  - split; [done|]. split; [apply map_lookup_filter_None; right; intros ? _; cbn; rewrite Hh; by intros [? ?]|].
    intros e He. exists (shutdown (f h e)). destruct (shutdown_spec (f h e)) as (Hi & Hb & _).
    split; [|split; [by rewrite Hi; apply Hf|done]].
    apply list_elem_of_fmap_2, list_elem_of_fmap. exists (h, f h e). split; [done|]. apply elem_of_map_to_list, map_lookup_filter_Some.
    rewrite map_lookup_imap, He. cbn. split; [done|]. rewrite Hh. by intros [? ?].
Qed.

(** When the router verifies a host again. A host without a backend or with
    one due for renewal is verified without a probe; otherwise the probed key
    decides, verification following exactly when it is not the verified one; and
    a probe that fails keeps the backend, recording the failure. *)
Theorem addEnclave_decides now interval h probe m :
  let '(m', verify) := addEnclave now interval h probe m in
  Enclaves m' = Enclaves m
  /\ match Enclaves m !! h with
     | Some e =>
         if attestationRefreshDue now interval e then verify = true /\ m' = m
         else match probe with
              | Some fp => m' = m /\ (verify = true <-> tlsKeyFP e <> fp)
              | None => verify = false /\ forall a, configuredHosts m !! h = Some a ->
                  exists a', configuredHosts m' !! h = Some a' /\ lastError a' = verificationTLSProbe
              end
     | None => verify = true /\ m' = m
     end.
Proof.
  unfold addEnclave, must_probe, alreadyVerified. destruct (Enclaves m !! h) as [e|] eqn:He; [|done].
  destruct (attestationRefreshDue now interval e) eqn:Ed; [done|]. cbn [negb].
  destruct probe as [fp|].
  - split; [done|]. split; [done|]. rewrite andb_true_r, negb_true_iff. apply String.eqb_neq.
  - destruct (record_spec h now verificationTLSProbe true m) as (H1 & _ & H3). cbn zeta in H1, H3. rewrite H1.
    split; [done|]. split; [done|]. intros a Ha. destruct (H3 a Ha) as (a' & ? & ? & _). by exists a'.
Qed.

(** A request is replayed at most once, and only where that is safe: after a
    handshake refused by the attestation check, before any header went out, with
    a body that can be produced again, on a backend of the same host that is
    configured, unexpired and has another key than the one refused; in a
    reachable state that backend was verified for the model's repository. *)
Theorem replay_on_verified_replacement {R} hpkeID config s name mm now h failedKey sent replayable canceled get_body
    (first : R + TransportError) retry result e :
  reachable (manager_machine hpkeID config) s -> models s !! name = Some mm ->
  rotation_RoundTrip first sent replayable (recovered now h failedKey (mm_pool mm)) canceled get_body retry = (result, Some e) ->
  result = retry e /\ first = inr AttestationMismatch /\ sent = false /\ replayable = true
  /\ host e = h /\ tlsKeyFP e <> failedKey /\ is_Some (configuredHosts (mm_pool mm) !! h)
  /\ exists cfg c, config !! name = Some cfg /\ c ∈ calls s /\ c_host c = h /\ c_repo c = Repo cfg /\ vouches hpkeID c e
       /\ now < FreshnessExpiresAt (c_verification c)
       /\ attested_RoundTrip now (attestation e) (@inl _ TransportError tt) = inl tt.
Proof.
  intros Hr Hm Hrt. destruct (mo_models _ _ _ (manager_reachable_ok _ _ _ Hr) name mm Hm) as [(cfg & Hcfg & Hrepo) Hall].
  unfold rotation_RoundTrip, recovered in Hrt. destruct first as [r|[]]; try done.
  destruct (sent || negb replayable) eqn:Es; [done|]. bool_simp.
  destruct (Enclaves (mm_pool mm) !! h) as [x|] eqn:Hx; [|done]. destruct (configuredHosts (mm_pool mm) !! h) as [a|] eqn:Ha; [|done].
  destruct (_ || _) eqn:Eg; [done|]. destruct (canceled || negb get_body); [done|]. injection Hrt as <- <-. bool_simp.
  rewrite String.eqb_neq in *. destruct (Hall h x Hx) as [Hhost Hconf (c & Hc & Hch & Hcr & Hv)].
  assert (now < FreshnessExpiresAt (c_verification c)) as Hfresh.
  { unfold attestationValid in *. rewrite (vo_attestation _ _ _ Hv) in *. cbn in *. by bool_simp. }
  split_and!; try done. exists cfg, c. split_and!; try done; [congruence|].
  rewrite (vo_attestation _ _ _ Hv). cbn. by rewrite (proj2 (Z.ltb_lt _ _) Hfresh).
Qed.

(** ** Status *)

(** Where a configured host stands: the expiry it is verified until, or not. *)
Definition verified_until (now : Z) (m : PoolModel) (h : string) : option Z :=
  e ← Enclaves m !! h; a ← attestation e;
  if negb (IsZero (expiresAt a)) && (now <? expiresAt a) then Some (expiresAt a) else None.

Definition healthy (now : Z) (m : PoolModel) (h : string) : bool :=
  match verified_until now m h, Enclaves m !! h with
  | Some _, Some e => breakerClosed e
  | _, _ => false
  end.

(** What the loop over the hosts [l] adds to a status. *)
Lemma status_fold now m l : forall s,
  let s' := foldl (status_host now m) s l in
  Configured s' = Configured s
  /\ Verified s' = Verified s + Z.of_nat (length (filter (fun ha => is_Some (verified_until now m ha.1)) l))
  /\ Healthy s' = Healthy s + Z.of_nat (length (filter (fun ha => healthy now m ha.1 = true) l))
  /\ Verified s' + Expired s' + Unverified s' = Verified s + Expired s + Unverified s + Z.of_nat (length l)
  /\ (forall h, is_Some (Hosts s' !! h) <-> is_Some (Hosts s !! h) \/ h ∈ l.*1)
  /\ (forall t, EarliestFreshnessExpiresAt s' = Some t ->
        EarliestFreshnessExpiresAt s = Some t \/ exists ha, ha ∈ l /\ verified_until now m ha.1 = Some t)
  /\ (forall t, EarliestFreshnessExpiresAt s = Some t \/ (exists ha, ha ∈ l /\ verified_until now m ha.1 = Some t) ->
        exists t', EarliestFreshnessExpiresAt s' = Some t' /\ t' <= t).
Proof.
  induction l as [|[h a] l IH]; intros s; cbn zeta.
  { cbn. split_and!; try done; try lia; [set_solver|by left|]. intros t [Ht|(? & ?%not_elem_of_nil & _)]; [|done]. by exists t. }
  cbn [foldl]. destruct (IH (status_host now m s (h, a))) as (Hc & Hv & Hh & Hsum & Hd & He1 & He2). cbn zeta in *.
  (* the first host *)
  assert (let s1 := status_host now m s (h, a) in
    Configured s1 = Configured s
    /\ Verified s1 = Verified s + (match verified_until now m h with Some _ => 1 | None => 0 end)
    /\ Healthy s1 = Healthy s + (if healthy now m h then 1 else 0)
    /\ Verified s1 + Expired s1 + Unverified s1 = Verified s + Expired s + Unverified s + 1
    /\ (forall k, is_Some (Hosts s1 !! k) <-> is_Some (Hosts s !! k) \/ k = h)
    /\ EarliestFreshnessExpiresAt s1 =
         match verified_until now m h, EarliestFreshnessExpiresAt s with
         | Some t, Some u => Some (if t <? u then t else u)
         | Some t, None => Some t
         | None, o => o
         end) as (Gc & Gv & Gh & Gsum & Gd & Ge).
  { cbn zeta. unfold status_host, healthy, verified_until, verificationTimestamp.
    assert (forall b (hs : gmap string backendVerificationStatus) k, is_Some (<[h := b]> hs !! k) <-> is_Some (hs !! k) \/ k = h) as Hins.
    { intros b hs k. rewrite lookup_insert. case_decide as Hk; [subst; split; [by right|by eexists]|]. naive_solver. }
    destruct (Enclaves m !! h) as [e|] eqn:Hx; cbn [mbind option_bind]; [destruct (attestation e) as [v|] eqn:Hat|];
      cbn [mbind option_bind]; [destruct (IsZero (expiresAt v)) eqn:Hz; [|destruct (now <? expiresAt v) eqn:Hn]| |];
      cbn [negb andb Configured Verified Healthy Expired Unverified Hosts EarliestFreshnessExpiresAt].
    2: { split_and!; try done; [by destruct (breakerClosed e); lia|lia|].
         destruct (EarliestFreshnessExpiresAt s) as [t|]; [|done]. by destruct (expiresAt v <? t). }
    all: split_and!; done || lia || apply Hins. }
  rewrite !filter_cons. cbn [fst length].
  split; [congruence|]. split; [rewrite Hv, Gv; destruct (verified_until now m h) as [u|]; [rewrite decide_True by (by eexists)|rewrite decide_False by (by intros [? ?])]; cbn [length]; lia|].
  split; [rewrite Hh, Gh; destruct (healthy now m h); [rewrite decide_True by done|rewrite decide_False by done]; cbn [length]; lia|]. split; [lia|]. split; [|split].
  - intros k. rewrite Hd, Gd. cbn. rewrite elem_of_cons. naive_solver.
  - intros t [Ht|(ha & ? & ?)]%He1; [|right; exists ha; split; [by right|done]]. rewrite Ge in Ht.
    destruct (verified_until now m h) as [u|] eqn:Hu; [|by left].
    destruct (EarliestFreshnessExpiresAt s) as [w|]; [case_in Ht|simplify_eq]; try (by left);
      right; exists (h, a); (split; [left|done]).
  - intros t Ht. assert (exists t1, t1 <= t /\ (EarliestFreshnessExpiresAt (status_host now m s (h, a)) = Some t1
      \/ exists ha, ha ∈ l /\ verified_until now m ha.1 = Some t1)) as (t1 & Hle & Ht1).
    { rewrite Ge. destruct Ht as [Ht|(ha & [->|Hin]%elem_of_cons & Hha)].
      - rewrite Ht. destruct (verified_until now m h) as [u|]; [|by exists t; split; [lia|left]].
        eexists. split; [|by left]. destruct (u <? t) eqn:E; bool_simp; lia.
      - cbn in Hha. rewrite Hha. destruct (EarliestFreshnessExpiresAt s) as [w|]; [|by exists t; split; [lia|left]].
        eexists. split; [|by left]. destruct (t <? w) eqn:E; bool_simp; lia.
      - exists t. split; [lia|]. right. by exists ha. }
    destruct (He2 t1 Ht1) as (t' & ? & ?). exists t'. split; [done|lia].
Qed.

(** The status a router reports of a model is the model's state: every
    configured host is counted once, as verified (its backend's attestation is
    unexpired), expired or unverified, healthy ones being the verified with a
    closed breaker; the earliest expiry reported is the least of the verified
    hosts'; and a model with a healthy host has one requests can be sent to. *)
Theorem status_counts now m :
  let s := verificationStatusLocked now m in
  let hosts := map_to_list (configuredHosts m) in
  Configured s = Verified s + Expired s + Unverified s
  /\ Verified s = Z.of_nat (length (filter (fun ha => is_Some (verified_until now m ha.1)) hosts))
  /\ Healthy s = Z.of_nat (length (filter (fun ha => healthy now m ha.1 = true) hosts))
  /\ (forall h, is_Some (Hosts s !! h) <-> is_Some (configuredHosts m !! h))
  /\ match EarliestFreshnessExpiresAt s with
     | Some t => (exists ha, ha ∈ hosts /\ verified_until now m ha.1 = Some t)
                 /\ forall ha u, ha ∈ hosts -> verified_until now m ha.1 = Some u -> t <= u
     | None => Verified s = 0
     end
  /\ (Healthy s = 0 \/ HasHealthyEnclave now None None m = true).
Proof.
  intros s hosts. unfold s, verificationStatusLocked. fold hosts.
  destruct (status_fold now m hosts (MkStatus (Z.of_nat (size (configuredHosts m))) 0 0 0 0 None ∅)) as (Hc & Hv & Hh & Hsum & Hd & He1 & He2).
  cbn zeta in *. cbn [Configured Verified Healthy Expired Unverified EarliestFreshnessExpiresAt Hosts] in *.
  set (st := foldl _ _ hosts) in *.
  split; [rewrite Hc, Hsum; unfold hosts; rewrite length_map_to_list; lia|]. split; [lia|]. split; [lia|]. split; [|split].
  - intros h. rewrite Hd, lookup_empty. split.
    + intros [[? ?]|Hin]; [done|]. apply list_elem_of_fmap in Hin as ([k a] & -> & Ha). apply elem_of_map_to_list in Ha. by eexists.
    + intros [a Ha]. right. apply list_elem_of_fmap. exists (h, a). split; [done|]. by apply elem_of_map_to_list.
  - destruct (EarliestFreshnessExpiresAt st) as [t|] eqn:Et.
    + split; [by destruct (He1 t eq_refl) as [?|?]|]. intros ha u Hin Hu.
      destruct (He2 u) as (t' & [= ->] & ?); [right; by exists ha|done].
    + destruct (filter (fun ha => is_Some (verified_until now m ha.1)) hosts) as [|ha l] eqn:Ef; [cbn in Hv; lia|].
      assert (ha ∈ filter (fun ha => is_Some (verified_until now m ha.1)) hosts) as Hin by (rewrite Ef; left).
      apply list_elem_of_filter in Hin as [[t Ht] Hin]. destruct (He2 t) as (t' & ? & ?); [right; by exists ha|done].
  - destruct (filter (fun ha => healthy now m ha.1 = true) hosts) as [|ha l] eqn:Ef; [left; cbn in Hh; lia|right].
    assert (ha ∈ filter (fun ha => healthy now m ha.1 = true) hosts) as Hin by (rewrite Ef; left).
    apply list_elem_of_filter in Hin as [Hb _]. unfold healthy in Hb. unfold HasHealthyEnclave.
    destruct (verified_until now m ha.1) as [t|] eqn:Ht; [|done]. destruct (Enclaves m !! ha.1) as [e|] eqn:He; [|done]. apply existsb_exists.
    exists e. split; [|].
    + apply list_elem_of_In, list_elem_of_fmap. exists (ha.1, e). split; [done|]. by apply elem_of_map_to_list.
    + rewrite Hb, andb_true_r. cbn [andb]. unfold verified_until, attestationValid in *. rewrite He in Ht. cbn in Ht.
      destruct (attestation e) as [v|]; [|done]. cbn in Ht. apply Z.ltb_lt. by case_in Ht.
Qed.

(** The replicas cache-aware routing ranks are the caller's attested ones with a
    closed breaker or, when it has none, all its attested ones. *)
Lemma cache_route_pool_spec now iter allowed m c :
  enumerates m iter ->
  let eligible e := member m e /\ attestationValid now e = true /\ allowed_in allowed e = true in
  c ∈ Candidates (CacheRoutePoolIn now iter allowed m) <->
  exists e, eligible e /\ c = Cand (host e) (inflight e)
    /\ (breakerClosed e = true \/ forall e', eligible e' -> breakerClosed e' = false).
Proof.
  intros Hen eligible.
  assert (forall b p c, c ∈ pool_candidates now allowed b (iter p) <->
    exists e, eligible e /\ c = Cand (host e) (inflight e) /\ (b = true -> breakerClosed e = true)) as Hin.
  { intros b p c0. unfold pool_candidates. rewrite list_elem_of_In, in_map_iff. setoid_rewrite <- list_elem_of_In.
    setoid_rewrite list_elem_of_filter. setoid_rewrite (enumerates_elem m iter p _ Hen).
    split; intros (e & H); exists e; unfold eligible in *; destruct b; cbn in *; rewrite ?andb_true_r in *; rewrite ?andb_true_iff in *; naive_solver. }
  unfold CacheRoutePoolIn. destruct (pool_candidates now allowed true (iter 0%nat)) as [|c0 cs] eqn:E; cbn [Candidates].
  - assert (forall e', eligible e' -> breakerClosed e' = false) as Hopen.
    { intros e' He'. destruct (breakerClosed e') eqn:Eb; [|done]. exfalso.
      assert (Cand (host e') (inflight e') ∈ pool_candidates now allowed true (iter 0%nat)) as H by (apply Hin; eauto).
      rewrite E in H. by apply not_elem_of_nil in H. }
    rewrite Hin. naive_solver.
  - rewrite <- E, Hin. assert (exists e, eligible e /\ breakerClosed e = true) as (e0 & He0 & Hb0).
    { assert (c0 ∈ pool_candidates now allowed true (iter 0%nat)) as H by (rewrite E; left). apply Hin in H. naive_solver. }
    split; [naive_solver|]. intros (e & He & -> & [Hb|Hno]); [eauto|]. specialize (Hno e0 He0). congruence.
Qed.

(** ** Evaluated examples *)

Module LifecycleExample.
Definition hpkeID := "hpke".
Definition config : gmap string Model := {["m" := Build_Model "org/repo" ["h1"] None None []]}.
Definition verification (key : string) : Verification := MkVerification 1000 "v1" "meas" "tdx" (Some key) ["tls"; "hpke"] (Some "hk").
Definition call (key : string) : Call := MkCall "h1" "org/repo" (verification key) 100.

Definition commit (c : Call) (mm : Managed) : Managed :=
  match vet hpkeID (c_verifiedAt c) (Some (c_verification c)) with
  | inr vetted => match refresh_locked 100 "m" (c_host c) vetted (c_verifiedAt c) mm with inr (mm', _) => mm' | inl _ => mm end
  | inl _ => mm
  end.

Definition mm0 : Managed := addModel (Build_Model "org/repo" ["h1"] None None []).
Definition mm1 : Managed := commit (call "k1") mm0.
Definition mm2 : Managed := commit (call "k2") mm1.

(** The host is verified, and verified again after its key changed. *)
Lemma reachable2 : reachable (manager_machine hpkeID config) (MkManager {["m" := mm2]} ([] ++ [call "k1"] ++ [call "k2"])).
Proof.
  assert (reachable (manager_machine hpkeID config) (MkManager {["m" := mm0]} [])) as H0.
  { replace (MkManager {["m" := mm0]} []) with (NewEnclaveManager config); [by constructor|].
    unfold NewEnclaveManager, config. by rewrite map_fmap_singleton. }
  assert (reachable (manager_machine hpkeID config) (MkManager {["m" := mm0]} ([] ++ [call "k1"] ++ [call "k2"]))) as H1.
  { rewrite app_assoc. eapply reach_next; [eapply reach_next; [exact H0|]|].
    - by apply st_background, (st_verify hpkeID _ _ "m" mm0 "h1" (verification "k1") 100).
    - by apply st_background, (st_verify hpkeID _ _ "m" mm0 "h1" (verification "k2") 100). }
  assert (reachable (manager_machine hpkeID config) (MkManager {["m" := mm1]} ([] ++ [call "k1"] ++ [call "k2"]))) as H2.
  { eapply reach_next; [exact H1|]. replace {["m" := mm1]} with (<["m" := mm1]> ({["m" := mm0]} : gmap string Managed)) by apply insert_singleton_eq.
    apply st_background; eapply (st_commit hpkeID _ _ "m" mm0 100 (call "k1")); [done|set_solver|done|vm_compute; reflexivity|vm_compute; reflexivity]. }
  eapply reach_next; [exact H2|]. replace {["m" := mm2]} with (<["m" := mm2]> ({["m" := mm1]} : gmap string Managed)) by apply insert_singleton_eq.
  apply st_background; eapply (st_commit hpkeID _ _ "m" mm1 100 (call "k2")); [done|set_solver|done|vm_compute; reflexivity|vm_compute; reflexivity].
Qed.

Definition iter (_ : nat) : list Enclave := (map_to_list (Enclaves (mm_pool mm2))).*2.
Definition backend : Enclave := new_enclave "m" "h1" "k2" "hk" (verification "k2") 100.
End LifecycleExample.

Lemma dispatch_verified_witness :
  let x := set_metrics (Some (fst (setPolicies 100 None [] newEnclaveMetrics))) LifecycleExample.backend in
  sel_enclave (snd (SelectServing 200 (fun n => n) LifecycleExample.iter (mm_pool LifecycleExample.mm2) [] true None None None)) = Some x
  /\ exists cfg c, LifecycleExample.config !! "m" = Some cfg /\ c_host c = host x /\ c_repo c = Repo cfg.
Proof.
  intros x.
  assert (sel_enclave (snd (SelectServing 200 (fun n => n) LifecycleExample.iter (mm_pool LifecycleExample.mm2) [] true None None None))
    = Some x) as E by (vm_compute; reflexivity).
  split; [exact E|].
  destruct (dispatch_verified LifecycleExample.hpkeID LifecycleExample.config _ "m" LifecycleExample.mm2 200 (fun n => n)
    LifecycleExample.iter "" [] true None None None x LifecycleExample.reachable2 eq_refl (fun p => Permutation_refl _) (or_introl E))
    as (cfg & c & H1 & _ & H2 & H3 & _).
  exact (ex_intro _ cfg (ex_intro _ c (conj H1 (conj H2 H3)))).
Defined.

Lemma replay_on_verified_replacement_witness :
  exists e, rotation_RoundTrip (R := unit) (inr AttestationMismatch) false true (recovered 200 "h1" "k1" (mm_pool LifecycleExample.mm2))
              false true (fun _ => inl tt) = (inl tt, Some e)
    /\ tlsKeyFP e <> "k1".
Proof.
  destruct (recovered 200 "h1" "k1" (mm_pool LifecycleExample.mm2)) as [e|] eqn:E; [|by vm_compute in E].
  exists e. split; [done|].
  destruct (replay_on_verified_replacement LifecycleExample.hpkeID LifecycleExample.config _ "m" LifecycleExample.mm2 200 "h1" "k1"
    false true false true (inr AttestationMismatch) (fun _ => inl tt) (inl tt) e LifecycleExample.reachable2 eq_refl)
    as (_ & _ & _ & _ & _ & H & _); [by rewrite E|exact H].
Defined.
