(* ===== verification/RouteInfo.v ===== *)
(** * The published routing labels ([cacheroute/metrics.go])

    Two gauge vectors tell operators how each model is routed: [pool_info]
    carries a short hash of the configured hosts and [mode] the effective mode.
    A gauge vector is the set of the label pairs it exposes, each with the
    constant value 1; three maps remember what was published last so that a
    change replaces the old series.  The theorems are that no history leaves a
    stale series beside a live one, that the hash does not depend on the order
    the hosts are listed in, and that a configuration round publishes what the
    configuration says.  The counters and histograms of the same file are
    declarations only. *)

From S2P Require Import Prelude Float64 Sha256 CacheSalt Config CacheKey.
From stdpp Require Import sets.
From Stdlib Require String.
#[local] Open Scope string_scope.
#[local] Open Scope list_scope.
#[local] Open Scope Z_scope.

(** ** State *)

Definition poolInfoDomainTag : string := "tinfoil/route-pool/v1".

(** The string a [Mode] is declared as. *)
Definition mode_label (m : CacheKey.Mode) : string :=
  match m with ModeOff => "off" | ModeShadow => "shadow" | ModeEnforced => "enforced" end.

(** [unrecognized] lists the errors logged, the last one first. *)
Record RouteInfo := MkInfo {
  lastPoolHash : gmap string string;
  lastMode : gmap string CacheKey.Mode;
  lastRawMode : gmap string string;
  PoolInfo : gset (string * string);
  ModeInfo : gset (string * string);
  unrecognized : list (string * string)
}.

Definition initial_info : RouteInfo := MkInfo ∅ ∅ ∅ ∅ ∅ [].

(** ** Operations *)

(** The hash of the hosts, empty without any; [None] is the panic of [Sum]. *)
Definition pool_hash (hostnames : list string) : option string :=
  let sorted := merge_sort String.le hostnames in
  match sorted with
  | [] => Some ""
  | _ :: _ => sum ← Sum poolInfoDomainTag sorted; Some (hex_encode (take 4 sum))
  end.

(** [if prev, ok := last[model]; ok && prev != cur { vec.DeleteLabelValues(model, prev) }] *)
Definition replace_label {L} `{EqDecision L} (label : L -> string) (model : string) (prev : option L) (cur : L)
    (vec : gset (string * string)) : gset (string * string) :=
  match prev with
  | Some p => if decide (p = cur) then vec else vec ∖ {[ (model, label p) ]}
  | None => vec
  end.

(** [if prev, ok := last[model]; ok { vec.DeleteLabelValues(model, prev) }] *)
Definition delete_label {L} (label : L -> string) (model : string) (prev : option L)
    (vec : gset (string * string)) : gset (string * string) :=
  match prev with
  | Some p => vec ∖ {[ (model, label p) ]}
  | None => vec
  end.

Definition SetPoolInfo (model : string) (hostnames : list string) (s : RouteInfo) : option RouteInfo :=
  hash ← pool_hash hostnames;
  let vec := replace_label id model (lastPoolHash s !! model) hash (PoolInfo s) in
  if String.eqb hash "" then
    Some (MkInfo (delete model (lastPoolHash s)) (lastMode s) (lastRawMode s) vec (ModeInfo s) (unrecognized s))
  else
    Some (MkInfo (<[model := hash]> (lastPoolHash s)) (lastMode s) (lastRawMode s)
            ({[ (model, hash) ]} ∪ vec) (ModeInfo s) (unrecognized s)).

Definition raw_mode (cfg : option CacheRouteConfig) : string :=
  match cfg with Some c => cr_Mode c | None => "" end.

Definition SetMode (model : string) (cfg : option CacheRouteConfig) (s : RouteInfo) : RouteInfo :=
  let raw := raw_mode cfg in
  let mode := resolveMode raw in
  let log :=
    if negb (String.eqb raw "") && negb (String.eqb raw (mode_label ModeOff)) && bool_decide (mode = ModeOff)
       && negb (String.eqb (default "" (lastRawMode s !! model)) raw)
    then (model, raw) :: unrecognized s else unrecognized s in
  MkInfo (lastPoolHash s) (<[model := mode]> (lastMode s)) (<[model := raw]> (lastRawMode s)) (PoolInfo s)
    ({[ (model, mode_label mode) ]} ∪ replace_label mode_label model (lastMode s !! model) mode (ModeInfo s)) log.

Definition DropModel (model : string) (s : RouteInfo) : RouteInfo :=
  MkInfo (delete model (lastPoolHash s)) (delete model (lastMode s)) (delete model (lastRawMode s))
    (delete_label id model (lastPoolHash s !! model) (PoolInfo s))
    (delete_label mode_label model (lastMode s !! model) (ModeInfo s))
    (unrecognized s).

(** What [addModel] publishes for a model, and [sync] for one it keeps. *)
Definition publish_model (model : string) (c : Model) (s : RouteInfo) : option RouteInfo :=
  SetPoolInfo model (Hostnames c) (SetMode model (CacheRoute c) s).

(** What [sync] publishes for one model it holds, whose repository is [repo]:
    a model that left the configuration loses its series, and one whose
    repository changed is left as it was. *)
Definition publish_sync (model repo : string) (config : option Model) (s : RouteInfo) : option RouteInfo :=
  match config with
  | None => Some (DropModel model s)
  | Some c => if negb (String.eqb repo (Repo c)) then Some s else publish_model model c s
  end.

(** The round over the models, in the order [models.Range] gives them. *)
Fixpoint publish_round (models : list (string * string)) (config : gmap string Model) (s : RouteInfo) : option RouteInfo :=
  match models with
  | [] => Some s
  | (model, repo) :: models => s' ← publish_sync model repo (config !! model) s; publish_round models config s'
  end.

Inductive info_op :=
  | OpPool (model : string) (hostnames : list string)
  | OpMode (model : string) (cfg : option CacheRouteConfig)
  | OpDrop (model : string).

(** One call; the panic of [SetPoolInfo] happens before the lock is taken and
    changes nothing. *)
Definition info_apply (s : RouteInfo) (o : info_op) : RouteInfo :=
  match o with
  | OpPool m hosts => default s (SetPoolInfo m hosts s)
  | OpMode m cfg => SetMode m cfg s
  | OpDrop m => DropModel m s
  end.

(** ** The invariant *)

(** A gauge vector exposes the label remembered for each model, and no other. *)
Definition in_step {L} (label : L -> string) (last : gmap string L) (vec : gset (string * string)) : Prop :=
  forall m v, (m, v) ∈ vec <-> exists l, last !! m = Some l /\ v = label l.

Record info_ok (s : RouteInfo) : Prop := {
  ok_pool : in_step id (lastPoolHash s) (PoolInfo s);
  ok_mode : in_step mode_label (lastMode s) (ModeInfo s);
  ok_hash : forall m, lastPoolHash s !! m <> Some "";
  ok_raw : lastMode s = resolveMode <$> lastRawMode s
}.

Section Vector.
Context {L : Type} `{EqDecision L} (label : L -> string).
Implicit Types (last : gmap string L) (vec : gset (string * string)).

Lemma in_step_set last vec m l :
  in_step label last vec ->
  in_step label (<[m := l]> last) ({[ (m, label l) ]} ∪ replace_label label m (last !! m) l vec).
Proof.
  intros H k v. unfold replace_label. destruct (decide (k = m)) as [->|Hk].
  - rewrite lookup_insert_eq. specialize (H m v).
    assert (forall X, X = ({[ (m, label l) ]} : gset (string * string)) ∪
      match last !! m with Some p => if decide (p = l) then vec else vec ∖ {[ (m, label p) ]} | None => vec end ->
      (m, v) ∈ X <-> v = label l) as E.
    { intros X ->. split.
      - intros [?|Hin]%elem_of_union; [set_solver|].
        destruct (last !! m) as [p|]; [destruct (decide (p = l)) as [->|]|]; set_solver.
      - set_solver. }
    rewrite (E _ eq_refl). naive_solver.
  - rewrite lookup_insert_ne by done. rewrite <- (H k v).
    destruct (last !! m) as [p|]; [destruct (decide (p = l))|]; set_solver.
Qed.

Lemma in_step_delete last vec m :
  in_step label last vec -> in_step label (delete m last) (delete_label label m (last !! m) vec).
Proof.
  intros H k v. unfold delete_label. destruct (decide (k = m)) as [->|Hk].
  - rewrite lookup_delete_eq. specialize (H m v). destruct (last !! m); set_solver.
  - rewrite lookup_delete_ne by done. rewrite <- (H k v). destruct (last !! m); set_solver.
Qed.

Lemma replace_delete m prev cur vec :
  prev <> Some cur -> replace_label label m prev cur vec = delete_label label m prev vec.
Proof. destruct prev as [p|]; [|done]. cbn. intros H. by rewrite decide_False by congruence. Qed.

End Vector.

(** ** What the hash depends on *)

Lemma hex_take_nonempty b : (0 < length b)%nat -> hex_encode (take 4 b) <> "".
Proof. destruct b as [|a b]; cbn -[hex_digit]; [lia|done]. Qed.

Lemma pool_hash_empty hosts : pool_hash hosts = Some "" <-> hosts = [].
Proof.
  unfold pool_hash. pose proof (merge_sort_Permutation String.le hosts) as P. split; [|by intros ->].
  destruct (merge_sort String.le hosts) as [|h l] eqn:E; [by apply Permutation_nil_l in P|].
  destruct (Sum poolInfoDomainTag (h :: l)) as [sum|] eqn:Hs; [|done].
  intros [=H]. exfalso. revert H. apply hex_take_nonempty.
  unfold Sum in Hs. apply fmap_Some in Hs as (p & _ & ->). rewrite sha256_length. lia.
Qed.

Lemma pool_hash_Permutation hosts hosts' : hosts ≡ₚ hosts' -> pool_hash hosts = pool_hash hosts'.
Proof.
  intros P. unfold pool_hash. replace (merge_sort String.le hosts') with (merge_sort String.le hosts); [done|].
  apply (StronglySorted_unique String.le); [apply (StronglySorted_merge_sort _)..|].
  by rewrite !merge_sort_Permutation.
Qed.

(** Every host name fits the framing of the hash, so [Sum] does not panic. *)
Definition framed (hosts : list string) : Prop := Forall (fun h => strlen h <= MaxUint32) hosts.

Lemma sum_fields_total fs : framed fs -> is_Some (sum_fields fs).
Proof.
  induction 1 as [|f fs Hf _ [b IH]]; cbn; [by eexists|].
  destruct (Z.gtb_spec (strlen f) MaxUint32); [lia|]. rewrite IH. by eexists.
Qed.

Lemma pool_hash_total hosts : framed hosts -> is_Some (pool_hash hosts).
Proof.
  intros H. unfold pool_hash. assert (framed (merge_sort String.le hosts)) as H' by (unfold framed; by rewrite merge_sort_Permutation).
  destruct (merge_sort String.le hosts) as [|h l]; [by eexists|].
  destruct (sum_fields_total _ H') as [b Hb]. unfold Sum, sum_preimage. rewrite Hb. by eexists.
Qed.

(** ** Preservation *)

Lemma initial_info_ok : info_ok initial_info.
Proof. split; cbn; try done. all: intros m v; rewrite lookup_empty; set_solver. Qed.

Lemma SetMode_ok m cfg s : info_ok s -> info_ok (SetMode m cfg s).
Proof.
  intros [P M N R]. split; cbn -[replace_label]; [done|by apply in_step_set|done|].
  by rewrite fmap_insert, R.
Qed.

Lemma DropModel_ok m s : info_ok s -> info_ok (DropModel m s).
Proof.
  intros [P M N R]. split; cbn -[delete_label]; [by apply in_step_delete..| |].
  - intros k. destruct (decide (k = m)) as [->|]; [by rewrite lookup_delete_eq|by rewrite lookup_delete_ne].
  - by rewrite fmap_delete, R.
Qed.

Lemma SetPoolInfo_ok m hosts s s' : info_ok s -> SetPoolInfo m hosts s = Some s' -> info_ok s'.
Proof.
  intros [P M N R] H. unfold SetPoolInfo in H. destruct (pool_hash hosts) as [h|]; cbn in H; [|done].
  destruct (String.eqb_spec h "") as [Hh|Hh]; injection H as <-; split; cbn -[replace_label]; try done.
  - rewrite replace_delete by (by rewrite Hh). by apply in_step_delete.
  - intros k. destruct (decide (k = m)) as [->|]; [by rewrite lookup_delete_eq|by rewrite lookup_delete_ne].
  - by apply (in_step_set id).
  - intros k. destruct (decide (k = m)) as [->|]; [rewrite lookup_insert_eq; congruence|by rewrite lookup_insert_ne].
Qed.

Lemma info_apply_ok s o : info_ok s -> info_ok (info_apply s o).
Proof.
  destruct o as [m hosts|m cfg|m]; cbn; intros H; [|by apply SetMode_ok|by apply DropModel_ok].
  destruct (SetPoolInfo m hosts s) as [s'|] eqn:E; cbn; [by eapply SetPoolInfo_ok|done].
Qed.

Lemma reachable_ok ops : forall s, info_ok s -> info_ok (foldl info_apply s ops).
Proof. induction ops as [|o ops IH]; intros s H; [done|]. apply IH. by apply info_apply_ok. Qed.

(** ** What a publication leaves *)

(** The series of one model. *)
Definition model_series (s : RouteInfo) (m : string) : option string * option CacheKey.Mode :=
  (lastPoolHash s !! m, lastMode s !! m).

(** The series the configuration calls for. *)
Definition wanted (c : Model) : option string * option CacheKey.Mode :=
  (h ← pool_hash (Hostnames c); if String.eqb h "" then None else Some h,
   Some (resolveMode (raw_mode (CacheRoute c)))).

Lemma DropModel_series m s k : model_series (DropModel m s) k = if decide (k = m) then (None, None) else model_series s k.
Proof.
  unfold model_series, DropModel; cbn. destruct (decide (k = m)) as [->|]; [by rewrite !lookup_delete_eq|].
  by rewrite !lookup_delete_ne.
Qed.

Lemma publish_model_series m c s :
  framed (Hostnames c) ->
  exists s', publish_model m c s = Some s' /\ forall k, model_series s' k = if decide (k = m) then wanted c else model_series s k.
Proof.
  intros [h Hh]%pool_hash_total. unfold publish_model, SetPoolInfo, wanted. rewrite Hh; cbn -[replace_label].
  destruct (String.eqb h ""); eexists; (split; [reflexivity|]); intros k; unfold model_series; cbn -[replace_label].
  all: destruct (decide (k = m)) as [->|]; rewrite ?lookup_delete_eq, ?lookup_insert_eq by done; [done|].
  all: by rewrite ?lookup_delete_ne, ?lookup_insert_ne.
Qed.

(** What one model's share of a round makes of its series [old]. *)
Definition round_series (repo : string) (config : option Model) (old : option string * option CacheKey.Mode) :
    option string * option CacheKey.Mode :=
  match config with
  | None => (None, None)
  | Some c => if String.eqb repo (Repo c) then wanted c else old
  end.

Lemma publish_sync_series m repo config s :
  (forall c, config = Some c -> framed (Hostnames c)) ->
  exists s', publish_sync m repo config s = Some s'
    /\ forall k, model_series s' k = if decide (k = m) then round_series repo config (model_series s m) else model_series s k.
Proof.
  intros F. destruct config as [c|]; cbn; [|eexists; split; [done|]; intros k; apply DropModel_series].
  destruct (String.eqb repo (Repo c)); cbn; [by apply publish_model_series, F|].
  eexists; split; [done|]. intros k. by destruct (decide (k = m)) as [->|].
Qed.

Lemma publish_sync_ok m repo config s s' : info_ok s -> publish_sync m repo config s = Some s' -> info_ok s'.
Proof.
  intros H. destruct config as [c|]; cbn; [|intros [= <-]; by apply DropModel_ok].
  destruct (negb _); [by intros [= <-]|]. apply SetPoolInfo_ok. by apply SetMode_ok.
Qed.

Lemma publish_round_ok models config : forall s s', info_ok s -> publish_round models config s = Some s' -> info_ok s'.
Proof.
  induction models as [|[m repo] models IH]; intros s s' H; cbn; [by intros [= <-]|].
  destruct (publish_sync m repo (config !! m) s) as [s1|] eqn:E; cbn; [|done].
  apply IH. by eapply publish_sync_ok.
Qed.

Lemma publish_round_series models config :
  (forall m c, config !! m = Some c -> framed (Hostnames c)) -> NoDup (models.*1) ->
  forall s, exists s', publish_round models config s = Some s'
    /\ (forall m repo, (m, repo) ∈ models -> model_series s' m = round_series repo (config !! m) (model_series s m))
    /\ (forall m, m ∉ models.*1 -> model_series s' m = model_series s m).
Proof.
  intros F. induction models as [|[m repo] models IH]; cbn; intros ND s.
  { eexists. split; [done|]. split; [intros m repo []%not_elem_of_nil|done]. }
  apply NoDup_cons in ND as [Hm ND].
  destruct (publish_sync_series m repo (config !! m) s (F m)) as (s1 & -> & H1); cbn.
  destruct (IH ND s1) as (s2 & -> & H2 & H3). exists s2. split; [done|]. split.
  - intros k r [[= -> ->]|Hin]%elem_of_cons.
    + rewrite H3, H1 by done. by rewrite decide_True.
    + rewrite (H2 k r Hin), H1, decide_False; [done|]. intros ->. apply Hm. by apply (list_elem_of_fmap_2 fst _ (m, r)).
  - intros k [Hk Hin]%not_elem_of_cons. by rewrite H3, H1, decide_False.
Qed.

(** A model's exposed series are the ones remembered for it. *)
Lemma info_series s m :
  info_ok s ->
  (forall v, (m, v) ∈ PoolInfo s <-> (model_series s m).1 = Some v)
  /\ (forall v, (m, v) ∈ ModeInfo s <-> mode_label <$> (model_series s m).2 = Some v).
Proof.
  intros [P M _ _]. split; intros v; [rewrite (P m v)|rewrite (M m v)]; unfold model_series; cbn; [naive_solver|].
  destruct (lastMode s !! m); naive_solver.
Qed.

(** ** Theorems *)

(** Whatever sequence of publications and removals ran, each model exposes at
    most one pool hash and one mode: nothing published earlier is left beside
    the current series, the hash is never empty, and the mode shown is what
    the raw value published last resolves to. *)
Theorem no_stale_series ops m :
  let s := foldl info_apply initial_info ops in
  (forall v w, (m, v) ∈ PoolInfo s -> (m, w) ∈ PoolInfo s -> v = w /\ v <> "")
  /\ (forall v, (m, v) ∈ ModeInfo s <-> exists raw, lastRawMode s !! m = Some raw /\ v = mode_label (resolveMode raw)).
Proof.
  pose proof (reachable_ok ops _ initial_info_ok) as H. cbv zeta.
  set (s := foldl info_apply initial_info ops) in *. destruct H as [P M N R]. split.
  - intros v w (l & Hl & ->)%P (l' & Hl' & ->)%P. specialize (N m). naive_solver.
  - intros v. rewrite (M m v), R, lookup_fmap. destruct (lastRawMode s !! m); naive_solver.
Qed.

(** One configuration round, from any reachable state: it never panics on host
    names within the framing limit, and afterwards every model the manager
    holds exposes exactly the hash of its configured hosts (none without
    hosts) and its configured mode; a model that left the configuration
    exposes nothing, one whose repository changed exposes what it did, and
    models outside the round are untouched. *)
Theorem round_publishes_config ops models config :
  (forall m c, config !! m = Some c -> framed (Hostnames c)) -> NoDup (models.*1) ->
  let s := foldl info_apply initial_info ops in
  exists s', publish_round models config s = Some s'
    /\ (forall m repo, (m, repo) ∈ models ->
          (forall v, (m, v) ∈ PoolInfo s' <-> (round_series repo (config !! m) (model_series s m)).1 = Some v)
          /\ (forall v, (m, v) ∈ ModeInfo s' <-> mode_label <$> (round_series repo (config !! m) (model_series s m)).2 = Some v))
    /\ (forall m v, m ∉ models.*1 -> ((m, v) ∈ PoolInfo s' <-> (m, v) ∈ PoolInfo s)).
Proof.
  intros F ND s. assert (info_ok s) as H by (apply reachable_ok, initial_info_ok).
  destruct (publish_round_series models config F ND s) as (s' & Hs' & H1 & H2).
  pose proof (publish_round_ok _ _ _ _ H Hs') as H'. exists s'. split; [done|]. split.
  - intros m repo Hin. rewrite <- (H1 m repo Hin). by apply info_series.
  - intros m v Hm. rewrite (proj1 (info_series _ m H')), (proj1 (info_series _ m H)). by rewrite H2.
Qed.

Definition sample_route : CacheRouteConfig := Build_CacheRouteConfig "enforced" 10 4096 f64_zero None.
Definition sample_config : gmap string Model :=
  {[ "kimi" := Build_Model "org/kimi" ["b.example"; "a.example"] None (Some sample_route) [] ]}.

Lemma round_publishes_config_witness :
  exists s', publish_round [("kimi", "org/kimi"); ("gone", "org/gone")] sample_config
      (foldl info_apply initial_info [OpMode "gone" (Some sample_route); OpPool "gone" ["c.example"]]) = Some s'
    /\ ("kimi", "enforced") ∈ ModeInfo s' /\ ("gone", "enforced") ∉ ModeInfo s'.
Proof.
  destruct (round_publishes_config [OpMode "gone" (Some sample_route); OpPool "gone" ["c.example"]]
              [("kimi", "org/kimi"); ("gone", "org/gone")] sample_config) as (s' & E & H & _).
  - unfold sample_config. intros m c [<- <-]%lookup_singleton_Some. repeat constructor; vm_compute; discriminate.
  - apply (bool_decide_unpack _). reflexivity.
  - exists s'. split; [exact E|]. split.
    + refine (proj2 (proj2 (H "kimi" "org/kimi" _) "enforced") eq_refl). by left.
    + destruct (H "gone" "org/gone") as [_ G]; [by right; left|]. intros K%G. discriminate K.
Defined.

(** The hash does not depend on the order of the configured hosts, and two
    host lists that write the same bytes to it are the same up to order. *)
Theorem pool_hash_order_insensitive hosts hosts' :
  (hosts ≡ₚ hosts' -> pool_hash hosts = pool_hash hosts')
  /\ (forall b, sum_preimage poolInfoDomainTag (merge_sort String.le hosts) = Some b ->
        sum_preimage poolInfoDomainTag (merge_sort String.le hosts') = Some b -> hosts ≡ₚ hosts').
Proof.
  split; [apply pool_hash_Permutation|]. intros b H H'.
  rewrite <- (merge_sort_Permutation String.le hosts), <- (merge_sort_Permutation String.le hosts').
  by rewrite (sum_preimage_inj _ _ _ _ H H').
Qed.

(** [SetMode] complains exactly when a value that is neither a mode nor empty
    differs from the one seen last, so that repeating a configuration round
    logs a typo once. *)
Theorem typo_logged_once m cfg s :
  unrecognized (SetMode m cfg s) =
    (if decide (raw_mode cfg ∉ [""; "off"; "shadow"; "enforced"] /\ lastRawMode s !! m <> Some (raw_mode cfg))
     then (m, raw_mode cfg) :: unrecognized s else unrecognized s)
  /\ unrecognized (SetMode m cfg (SetMode m cfg s)) = unrecognized (SetMode m cfg s).
Proof.
  assert (forall t, unrecognized (SetMode m cfg t) =
    (if decide (raw_mode cfg ∉ [""; "off"; "shadow"; "enforced"] /\ lastRawMode t !! m <> Some (raw_mode cfg))
     then (m, raw_mode cfg) :: unrecognized t else unrecognized t)) as E.
  { intros t. unfold SetMode, resolveMode, mode_label; cbn [unrecognized].
    generalize (raw_mode cfg); intros raw.
    destruct (decide _) as [D|D]; rewrite !not_elem_of_cons in D; pose proof (not_elem_of_nil raw).
    all: destruct (lastRawMode t !! m) as [last|]; cbn -[String.eqb].
    all: repeat match goal with |- context[String.eqb ?a ?b] => destruct (String.eqb_spec a b) end; subst; cbn.
    all: first [done|exfalso; naive_solver]. }
  split; [apply E|]. rewrite E, decide_False; [done|]. intros [_ H]. apply H. cbn. by rewrite lookup_insert_eq.
Qed.

(** The domain tags of the hashes are unframed; none is a prefix of another. *)
Theorem tags_prefix_free :
  forall a b, a ∈ [SaltDomainTag; KeyDomainTag; poolInfoDomainTag] -> b ∈ [SaltDomainTag; KeyDomainTag; poolInfoDomainTag] ->
    a <> b -> ~ to_bytes a `prefix_of` to_bytes b.
Proof.
  intros a b Ha Hb. unfold SaltDomainTag, KeyDomainTag, poolInfoDomainTag in *.
  repeat (apply elem_of_cons in Ha as [->|Ha]); try by apply not_elem_of_nil in Ha.
  all: repeat (apply elem_of_cons in Hb as [->|Hb]); try by apply not_elem_of_nil in Hb.
  all: intros N; try congruence; apply (bool_decide_unpack _); reflexivity.
Qed.

Lemma tags_prefix_free_witness : ~ to_bytes SaltDomainTag `prefix_of` to_bytes KeyDomainTag.
Proof. apply tags_prefix_free; [by left|by right; left|discriminate]. Defined.
