(* ===== verification/Autoroute.v ===== *)
(** * The "auto" model ([autoroute/autoroute.go], [manager/model_metadata.go],
    [resolveAutoModel] of [main.go])

    The catalog of published scores, the requested intelligence level, the
    ranking of (model, effort) pairs by fit, the walk to the first healthy
    one, and the rewriting of the body with the chosen effort.

    Parameters: [strconv.ParseFloat] (for [json.Number.Float64]), the
    conversion of out-of-range floats, the order Go ranges over a score map in,
    and the organization lookup of the request.  Metrics and logs are left out. *)

From S2P Require Import Prelude Float64 Sha256 Strconv Json Errors Config Pool Selection.
#[local] Open Scope string_scope.
#[local] Open Scope list_scope.
#[local] Open Scope Z_scope.

(** ** Data *)

(** A nil fragment and an empty one merge alike. *)
Record EndpointParams := MkParams { Enable : object; Disable : object }.

Record Reasoning := MkReasoning {
  Params : gmap string EndpointParams;
  EffortMap : gmap string string
}.

Record CatalogModel := MkModel {
  Name : string;
  Multimodal : bool;
  Scores : gmap string Z;
  m_Reasoning : option Reasoning
}.

Record AutoCandidate := MkCandidate {
  c_Model : CatalogModel;
  Effort : string;
  Score : Z;
  Level : Z
}.

Definition IntelligenceHeader := "X-Tinfoil-Intelligence".
Definition OptionsField := "auto_model_options".
Definition IntelligenceKey := "intelligence".
Definition MinIntelligence : Z := 0.
Definition MaxIntelligence : Z := 100.
Definition DefaultIntelligence : Z := 50.
Definition effortPlaceholder := "$EFFORT".
Definition maxIntelligenceScore : Z := 100.
Definition intelligenceParam := "auto_model_options.intelligence".

Record ValidationError := MkValidation { ve_Param : string; ve_Message : string }.

(** ** The requested level *)

Section Parse.
Context (ParseFloat : string -> option float64) (int_out_of_range : float64 -> Z).

Definition range_text : string := FormatInt MinIntelligence +:+ " and " +:+ FormatInt MaxIntelligence +:+ ".".
Definition errMsgInvalidHeader : string :=
  "Invalid " +:+ IntelligenceHeader +:+ " header: must be an integer between " +:+ range_text.
Definition errMsgInvalidParam : string :=
  "Invalid parameter: '" +:+ intelligenceParam +:+ "' must be an integer between " +:+ range_text.
Definition errMsgOutOfRange (level : Z) : string :=
  "Invalid intelligence level " +:+ FormatInt level +:+ ": must be between " +:+ range_text.

Definition validateIntelligence (level : Z) (param : string) : ValidationError + Z :=
  if (level <? MinIntelligence) || (level >? MaxIntelligence) then inl (MkValidation param (errMsgOutOfRange level))
  else inr level.

(** An integral float in the range of [int], as its integer. *)
Definition exact_int (f : float64) : option Z :=
  if is_integral f && f64_le (f64_of_int int64_min) f && f64_lt f (f64_of_int (- int64_min))
  then Some (int_of_f64 int_out_of_range f) else None.

Definition intelligenceFromJSON (value : json) : ValidationError + Z :=
  let invalid := inl (MkValidation intelligenceParam errMsgInvalidParam) in
  let from_float f := match exact_int f with Some level => validateIntelligence level intelligenceParam | None => invalid end in
  match value with
  | JNumber lit => match ParseFloat lit with Some f => from_float f | None => invalid end
  | JFloat f => from_float f
  | _ => invalid
  end.

(** [header.Get] *)
Definition header_get (h : Header) (name : string) : string := default "" (head (Values h name)).

(** The body without the options field, and the level. *)
Definition ParseIntelligence (h : Header) (body : object) : object * (ValidationError + Z) :=
  let body' := delete OptionsField body in
  match as_object (get OptionsField body) ≫= (fun o => o !! IntelligenceKey) with
  | Some value => (body', intelligenceFromJSON value)
  | None =>
      let value := TrimSpace (header_get h IntelligenceHeader) in
      if String.eqb value "" then (body', inr DefaultIntelligence)
      else
        match ParseInt (to_bytes value) with
        | None => (body', inl (MkValidation "" errMsgInvalidHeader))
        | Some level => (body', validateIntelligence level "")
        end
  end.

End Parse.

(** ** Visual input *)

Definition visualPartTypes : list string := ["image_url"; "input_image"; "file"; "input_file"].

Definition is_visual_part (part : json) : bool :=
  match part with JObj p => bool_decide (get_string "type" p ∈ visualPartTypes) | _ => false end.

Definition has_visual_part (item : json) : bool :=
  match item with
  | JObj msg => match get "content" msg with JArr parts => existsb is_visual_part parts | _ => false end
  | _ => false
  end.

Definition HasVisualInput (body : object) : bool :=
  existsb (fun field => match get field body with JArr items => existsb has_visual_part items | _ => false end) ["messages"; "input"].

(** ** Ranking *)

Definition normalize (int_out_of_range : float64 -> Z) (score maxScore : Z) : Z :=
  int_round int_out_of_range (f64_div (f64_mul (f64_of_int score) (f64_of_int MaxIntelligence)) (f64_of_int maxScore)).

Definition max_score (catalog : list CatalogModel) : Z :=
  foldl (fun best m => map_fold (fun _ score best => if score >? best then score else best) best (Scores m)) 0 catalog.

Definition distance (target : Z) (c : AutoCandidate) : Z := Z.abs (Level c - target).

(** The comparison of the stable sort. *)
Definition closer (target : Z) (a b : AutoCandidate) : bool :=
  if negb (distance target a =? distance target b) then distance target a <? distance target b
  else if negb (Bool.eqb (Multimodal (c_Model a)) (Multimodal (c_Model b))) then Multimodal (c_Model a)
  else if negb (Score a =? Score b) then Score a >? Score b
  else if negb (String.eqb (Name (c_Model a)) (Name (c_Model b))) then String.ltb (Name (c_Model a)) (Name (c_Model b))
  else String.ltb (Effort a) (Effort b).

(** A stable sort: an element goes before those it ties with that followed it. *)
Fixpoint insert_by {A} (less : A -> A -> bool) (x : A) (l : list A) : list A :=
  match l with
  | [] => [x]
  | y :: l' => if less y x then y :: insert_by less x l' else x :: l
  end.
Definition stable_sort {A} (less : A -> A -> bool) (l : list A) : list A := foldr (insert_by less) [] l.

Section Rank.
(** The order in which Go ranges over a model's scores. *)
Context (int_out_of_range : float64 -> Z) (iter : gmap string Z -> list (string * Z)).

Definition expand (maxScore : Z) (m : CatalogModel) : list AutoCandidate :=
  map (fun '(effort, score) => MkCandidate m effort score (normalize int_out_of_range score maxScore)) (iter (Scores m)).

Definition considered (requireMultimodal : bool) (m : CatalogModel) : bool := negb requireMultimodal || Multimodal m.

Definition Rank (catalog : list CatalogModel) (target : Z) (requireMultimodal : bool) : list AutoCandidate :=
  let maxScore := max_score catalog in
  if maxScore =? 0 then []
  else stable_sort (closer target)
         (flat_map (expand maxScore) (filter (fun m => considered requireMultimodal m = true) catalog)).

End Rank.

(** ** Applying the effort *)

Definition nativeEffort (r : Reasoning) (effort : string) : string := default effort (EffortMap r !! effort).

Fixpoint substituteEffort (value : json) (native : string) : json :=
  match value with
  | JStr s => JStr (if String.eqb s effortPlaceholder then native else s)
  | JObj m => JObj ((fun v => substituteEffort v native) <$> m)
  | JArr l => JArr (map (fun v => substituteEffort v native) l)
  | v => v
  end.

(** Merging a value into what the destination holds under its key ([JNull] when
    absent): objects merge into objects, anything else overwrites. *)
Fixpoint merge_value (dst src : json) {struct src} : json :=
  match src with
  | JObj s =>
      let fs := (fun v d => merge_value d v) <$> s in
      JObj (merge (fun d f => match f with Some f => Some (f (default JNull d)) | None => d end)
              (default ∅ (as_object dst)) fs)
  | v => v
  end.

Definition mergeInto (dst src : object) : object := default ∅ (as_object (merge_value (JObj dst) (JObj src))).

Definition strip_client_effort (body : object) : object :=
  let body := delete "reasoning_effort" body in
  match get "reasoning" body with
  | JObj r =>
      let r := delete "effort" r in
      if bool_decide (r = ∅) then delete "reasoning" body else <["reasoning" := JObj r]> body
  | _ => body
  end.

Definition effort_fragment (r : Reasoning) (p : EndpointParams) (effort : string) : object :=
  if String.eqb effort "off" then Disable p
  else
    let native := nativeEffort r (if String.eqb effort "on" then "high" else effort) in
    default ∅ (as_object (substituteEffort (JObj (Enable p)) native)).

Definition ApplyEffort (body : object) (path : string) (c : AutoCandidate) : object :=
  let body := strip_client_effort body in
  match m_Reasoning (c_Model c) with
  | None => body
  | Some r =>
      match Params r !! path with
      | None => body
      | Some p => mergeInto body (effort_fragment r p (Effort c))
      end
  end.

(** ** The catalog *)

Record ModelPricing := MkPricing {
  InputTokenPricePer1M : float64;
  OutputTokenPricePer1M : float64;
  CachedInputTokenPricePer1M : option float64;
  RequestPrice : float64
}.

Record openAIModelEntry := MkEntry {
  ID : string;
  en_Multimodal : bool;
  en_Type : string;
  Pricing : option ModelPricing;
  Intelligence : gmap string Z;
  ReasoningParams : option Reasoning
}.

Definition pricing_valid (p : ModelPricing) : bool :=
  if f64_lt (InputTokenPricePer1M p) f64_zero || f64_lt (OutputTokenPricePer1M p) f64_zero || f64_lt (RequestPrice p) f64_zero
  then false
  else match CachedInputTokenPricePer1M p with None => true | Some c => f64_le f64_zero c end.

Definition validIntelligence (scores : gmap string Z) : bool :=
  negb (bool_decide (scores = ∅))
  && forallb (fun s => negb ((s <? 0) || (s >? maxIntelligenceScore))) (map_to_list scores).*2.

(** The three caches of [EnclaveManager]; the multimodal one only grows. *)
Record metadata := MkMetadata {
  multimodalModels : gset string;
  modelPricing : gmap string ModelPricing;
  modelIntelligence : gmap string (gmap string Z * option Reasoning)
}.

Definition read_entry (acc : metadata) (e : openAIModelEntry) : metadata :=
  let pricing :=
    match Pricing e with
    | Some p => if negb (String.eqb (ID e) "") && pricing_valid p then <[ID e := p]> (modelPricing acc) else modelPricing acc
    | None => modelPricing acc
    end in
  if String.eqb (ID e) "" || (negb (String.eqb (en_Type e) "") && negb (String.eqb (en_Type e) "chat")) then
    MkMetadata (multimodalModels acc) pricing (modelIntelligence acc)
  else
    MkMetadata
      (if en_Multimodal e then {[ID e]} ∪ multimodalModels acc else multimodalModels acc)
      pricing
      (if validIntelligence (Intelligence e) then <[ID e := (Intelligence e, ReasoningParams e)]> (modelIntelligence acc)
       else modelIntelligence acc).

(** A successful refresh; a failed one leaves the caches as they are. *)
Definition refreshModelMetadata (data : list openAIModelEntry) (m : metadata) : metadata :=
  foldl read_entry (MkMetadata (multimodalModels m) ∅ ∅) data.

Definition IsMultimodal (m : metadata) (name : string) : bool := bool_decide (name ∈ multimodalModels m).

Definition AutoRouteCatalog (m : metadata) : list CatalogModel :=
  merge_sort (fun a b => String.le (Name a) (Name b))
    (map (fun '(name, (scores, reasoning)) => MkModel name (IsMultimodal m name) scores reasoning)
       (map_to_list (modelIntelligence m))).

Definition AutoRouteStatus (now : Z) (models : gmap string PoolModel) (name orgID : string) : bool * bool :=
  match models !! name with
  | None => (false, false)
  | Some model =>
      let '(primary, spill, _) := ReservationPools orgID model in
      if bool_decide (primary = Some ∅) && bool_decide (default ∅ spill = ∅) then (false, false)
      else (true, HasHealthyEnclave now primary spill model)
  end.

(** ** Resolution *)

Section Resolve.
Context (ParseFloat : string -> option float64) (int_out_of_range : float64 -> Z) (iter : gmap string Z -> list (string * Z)).
Context (orgForModel : string -> APIError + string) (status : string -> string -> bool * bool).

(** The walk over the ranking: the first healthy eligible candidate, else the
    first eligible one; an organization lookup error ends the request. *)
Fixpoint walk (ranked : list AutoCandidate) (chosen : option AutoCandidate) : APIError + option AutoCandidate :=
  match ranked with
  | [] => inr chosen
  | c :: ranked =>
      match orgForModel (Name (c_Model c)) with
      | inl err => inl err
      | inr orgID =>
          let '(allowed, available) := status (Name (c_Model c)) orgID in
          if negb allowed then walk ranked chosen
          else if available then inr (Some c)
          else walk ranked (match chosen with None => Some c | Some _ => chosen end)
      end
  end.

Definition ErrMsgAutoNoMultimodal := "Model 'auto' has no multimodal model available for image or file input.".
Definition ErrMsgAutoNoScores := "Model 'auto' is not available: no models publish intelligence scores.".

Definition resolveAutoModel (catalog : list CatalogModel) (h : Header) (path : string) (body : object)
  : APIError + (object * AutoCandidate) :=
  let '(body, level) := ParseIntelligence ParseFloat int_out_of_range h body in
  match level with
  | inl e => inl (WithMessage (WithParam ErrInvalidRequest (ve_Param e)) (ve_Message e))
  | inr target =>
      let visual := HasVisualInput body in
      let ranked := Rank int_out_of_range iter catalog target visual in
      match ranked with
      | [] => inl (WithMessage (WithParam ErrInvalidRequest "model") (if visual then ErrMsgAutoNoMultimodal else ErrMsgAutoNoScores))
      | _ =>
          match walk ranked None with
          | inl err => inl err
          | inr None => inl (WithMessage ErrModelUnavailable (ErrMsgModelUnavailable "auto"))
          | inr (Some chosen) =>
              inr (<["model" := JStr (Name (c_Model chosen))]> (ApplyEffort body path chosen), chosen)
          end
      end
  end.

End Resolve.

(** ** The order of candidates *)

Lemma string_ltb_false a b : String.ltb b a = false <-> String.le a b.
Proof.
  unfold String.ltb, String.le, String.leb. rewrite (String.compare_antisym a b).
  destruct (String.compare b a); simpl; split; done.
Qed.

Lemma string_ltb_true a b : String.ltb a b = true -> String.le a b.
Proof. unfold String.ltb, String.le, String.leb. by destruct (String.compare a b). Qed.

(** [a] need not come after [b]. *)
Definition before (target : Z) (a b : AutoCandidate) : Prop := closer target b a = false.

Definition b2Z (b : bool) : Z := if b then 0 else 1.

(** [before] as the lexicographic order it computes. *)
Definition lex_before (target : Z) (a b : AutoCandidate) : Prop :=
  let '(na, nb) := (Name (c_Model a), Name (c_Model b)) in
  let '(ma, mb) := (b2Z (Multimodal (c_Model a)), b2Z (Multimodal (c_Model b))) in
  distance target a < distance target b
  \/ distance target a = distance target b /\ (ma < mb
  \/ ma = mb /\ (Score b < Score a
  \/ Score a = Score b /\ (String.le na nb /\ na <> nb \/ na = nb /\ String.le (Effort a) (Effort b)))).

Lemma before_lex target a b : before target a b <-> lex_before target a b.
Proof.
  unfold before, closer, lex_before. destruct (distance target b =? distance target a) eqn:E1; bool_simp; cbn [negb].
  2:{ rewrite Z.ltb_ge. split; [left; lia|]. intros [?|[? _]]; lia. }
  destruct (Multimodal (c_Model b)), (Multimodal (c_Model a)); cbn [Bool.eqb negb b2Z];
    try (split; [intros ?; right; split; [lia|left; lia]|done]);
    try (split; [done|intros [?|[_ [?|[? _]]]]; lia]).
  all: destruct (Score b =? Score a) eqn:E2; bool_simp; cbn [negb];
    [|rewrite Z.gtb_ltb, Z.ltb_ge; split; [right; split; [lia|right; split; [lia|left; lia]]|intros [?|[_ [?|[_ [?|[? _]]]]]]; lia]].
  all: destruct (String.eqb_spec (Name (c_Model b)) (Name (c_Model a))) as [En|En]; cbn [negb]; rewrite string_ltb_false;
    (split; [intros ?; right; split; [lia|right; split; [lia|right; split; [lia|auto]]]
            |intros [?|[_ [?|[_ [?|[_ [[? Hn]|[Hn ?]]]]]]]]; try lia; try done; by destruct Hn]).
Qed.

Lemma before_total target a b : before target a b \/ before target b a.
Proof.
  rewrite !before_lex. unfold lex_before.
  destruct (Z.lt_total (distance target a) (distance target b)) as [?|[?|?]]; [by auto| |by auto].
  destruct (Z.lt_total (b2Z (Multimodal (c_Model a))) (b2Z (Multimodal (c_Model b)))) as [?|[?|?]]; [by auto 6| |by auto 6].
  destruct (Z.lt_total (Score a) (Score b)) as [?|[?|?]]; [by auto 7| |by auto 7].
  destruct (decide (Name (c_Model a) = Name (c_Model b))) as [En|En].
  - destruct (total String.le (Effort a) (Effort b)); [left|right];
      right; (split; [lia|]); right; (split; [lia|]); right; (split; [lia|]); right; auto.
  - destruct (total String.le (Name (c_Model a)) (Name (c_Model b))); [left|right];
      right; (split; [lia|]); right; (split; [lia|]); right; (split; [lia|]); left; auto.
Qed.

Lemma before_trans target a b c : before target a b -> before target b c -> before target a c.
Proof.
  rewrite !before_lex. unfold lex_before.
  intros [H1|[H1 K1]] [H2|[H2 K2]]; [left; lia..|right; split; [lia|]].
  destruct K1 as [K1|[E1 K1]], K2 as [K2|[E2 K2]]; [left; lia..|right; split; [lia|]].
  destruct K1 as [K1|[F1 K1]], K2 as [K2|[F2 K2]]; [left; lia..|right; split; [lia|]].
  destruct K1 as [[L1 N1]|[N1 L1]], K2 as [[L2 N2]|[N2 L2]].
  - left. split; [by etrans|]. intros Heq. rewrite <- Heq in *. apply N1. by apply (anti_symm String.le).
  - left. by rewrite <- N2.
  - left. by rewrite N1.
  - right. split; [congruence|by etrans].
Qed.

Lemma before_antisym target a b :
  before target a b -> before target b a -> Name (c_Model a) = Name (c_Model b) /\ Effort a = Effort b.
Proof.
  rewrite !before_lex. unfold lex_before.
  intros [?|[? K1]] [?|[? K2]]; try lia. destruct K1 as [?|[? K1]], K2 as [?|[? K2]]; try lia.
  destruct K1 as [?|[? K1]], K2 as [?|[? K2]]; try lia.
  destruct K1 as [[L1 N1]|[N1 L1]], K2 as [[L2 N2]|[N2 L2]]; try congruence.
  - destruct N1. by apply (anti_symm String.le).
  - split; [done|]. by apply (anti_symm String.le).
Qed.

Lemma before_distance target a b : before target a b -> distance target a <= distance target b.
Proof. rewrite before_lex. unfold lex_before. intros [?|[? _]]; lia. Qed.

(** ** Stable sorting *)

Lemma insert_by_perm {A} (less : A -> A -> bool) x l : insert_by less x l ≡ₚ x :: l.
Proof. induction l as [|y l IH]; simpl; [done|]. destruct (less y x); [|done]. rewrite IH. apply Permutation_swap. Qed.

Lemma stable_sort_perm {A} (less : A -> A -> bool) l : stable_sort less l ≡ₚ l.
Proof. induction l as [|x l IH]; simpl; [done|]. unfold stable_sort in *. simpl. by rewrite insert_by_perm, IH. Qed.

Lemma stable_sort_sorted target l : StronglySorted (before target) (stable_sort (closer target) l).
Proof.
  induction l as [|x l IH]; [constructor|]. unfold stable_sort in *. simpl. revert IH.
  generalize (foldr (insert_by (closer target)) [] l). intros s Hs.
  induction Hs as [|y s Hs IH Hall]; [repeat constructor|]. simpl. destruct (closer target y x) eqn:E.
  - constructor; [done|]. rewrite insert_by_perm. constructor; [|done].
    unfold before. destruct (before_total target y x) as [|H]; [done|]. unfold before in H. congruence.
  - constructor; [by constructor|]. constructor; [done|]. eapply Forall_impl; [exact Hall|].
    intros z Hz. by eapply before_trans.
Qed.

(** ** The catalog *)

Lemma validIntelligence_spec scores effort s :
  validIntelligence scores = true -> scores !! effort = Some s -> 0 <= s <= maxIntelligenceScore.
Proof.
  unfold validIntelligence. intros [_ H]%andb_true_iff Hs. rewrite forallb_forall in H.
  specialize (H s). rewrite <- list_elem_of_In in H. apply negb_true_iff, orb_false_iff in H as [? ?]; [bool_simp; lia|].
  apply list_elem_of_fmap. exists (effort, s). split; [done|]. by apply elem_of_map_to_list.
Qed.

Lemma refresh_valid data m name scores r :
  modelIntelligence (refreshModelMetadata data m) !! name = Some (scores, r) -> validIntelligence scores = true.
Proof.
  unfold refreshModelMetadata. revert name scores r.
  apply (foldl_inv read_entry (fun m => forall name scores r, modelIntelligence m !! name = Some (scores, r) -> validIntelligence scores = true)).
  - intros name scores r H. cbn [modelIntelligence] in H. by rewrite lookup_empty in H.
  - intros acc e _ IH name scores r. unfold read_entry. destruct (_ || _); [apply IH|]. cbn [modelIntelligence].
    destruct (validIntelligence (Intelligence e)) eqn:Ev; [|apply IH].
    intros [[_ ?]|[_ ?]]%lookup_insert_Some; [by simplify_eq|by eapply IH].
Qed.

(** What the ranking relies on in a catalog. *)
Definition catalog_ok (catalog : list CatalogModel) : Prop :=
  NoDup (map Name catalog) /\ forall m effort s, m ∈ catalog -> Scores m !! effort = Some s -> 0 <= s <= maxIntelligenceScore.

Lemma AutoRouteCatalog_ok data m : catalog_ok (AutoRouteCatalog (refreshModelMetadata data m)).
Proof.
  unfold AutoRouteCatalog. set (md := refreshModelMetadata data m). set (l := map _ (map_to_list _)).
  assert (merge_sort (fun a b => String.le (Name a) (Name b)) l ≡ₚ l) as Hp by apply merge_sort_Permutation. split.
  - change (NoDup (Name <$> merge_sort (fun a b => String.le (Name a) (Name b)) l)). rewrite Hp. subst l.
    rewrite <- list_fmap_compose. rewrite (list_fmap_ext _ fst); [apply NoDup_fst_map_to_list|]. by intros ? [? [? ?]] _.
  - intros c effort s. rewrite Hp. intros ([name [scores r]] & -> & Hin)%list_elem_of_fmap. simpl.
    apply elem_of_map_to_list in Hin. apply validIntelligence_spec. by eapply refresh_valid.
Qed.

Lemma fold_max_spec (sc : gmap string Z) best :
  let f := fun (_ : string) score best => if score >? best then score else best in
  best <= map_fold f best sc /\ (forall e s, sc !! e = Some s -> s <= map_fold f best sc)
  /\ (map_fold f best sc = best \/ exists e, sc !! e = Some (map_fold f best sc)).
Proof.
  intros f. apply (map_fold_weak_ind (fun r (m : gmap string Z) => best <= r /\ (forall e s, m !! e = Some s -> s <= r)
    /\ (r = best \/ exists e, m !! e = Some r))).
  - split_and!; [done|by intros|by left].
  - intros e x m0 r Hne (H1 & H2 & H3). subst f. simpl. destruct (x >? r) eqn:E; bool_simp; split_and!; try lia.
    + intros e' s [[<- <-]|[_ Hs]]%lookup_insert_Some; [lia|]. specialize (H2 _ _ Hs). lia.
    + right. exists e. by rewrite lookup_insert_eq.
    + intros e' s [[<- <-]|[_ Hs]]%lookup_insert_Some; [lia|]. by apply H2 in Hs.
    + destruct H3 as [|[e' He']]; [by left|right]. exists e'. rewrite lookup_insert_ne; [done|]. intros ->. congruence.
Qed.

Lemma max_score_spec catalog :
  0 <= max_score catalog
  /\ (forall m e s, m ∈ catalog -> Scores m !! e = Some s -> s <= max_score catalog)
  /\ (max_score catalog = 0 \/ exists m e, m ∈ catalog /\ Scores m !! e = Some (max_score catalog)).
Proof.
  unfold max_score. induction catalog as [|m catalog IH] using rev_ind.
  - split_and!; [done|by intros ? ? ? ?%not_elem_of_nil|by left].
  - rewrite foldl_app. cbn [foldl]. set (best := foldl _ 0 catalog) in *.
    destruct IH as (H1 & H2 & H3). destruct (fold_max_spec (Scores m) best) as (K1 & K2 & K3). split_and!; [lia| |].
    + intros m' e s [Hin|Hin%list_elem_of_singleton]%elem_of_app Hs; [|subst; by eapply K2].
      specialize (H2 _ _ _ Hin Hs). lia.
    + destruct K3 as [->|[e He]]; [destruct H3 as [|(m' & e & Hin & Hs)]; [by left|right]|right].
      * exists m', e. split; [|done]. apply elem_of_app. by left.
      * exists m, e. split; [|done]. apply elem_of_app. right. by apply list_elem_of_singleton.
Qed.

(** Levels of validated scores, by evaluation over all of them. *)
Definition level_ok (s m : Z) : bool :=
  let l := normalize (fun _ => -1) s m in (0 <=? l) && (l <=? 100) && (if s =? m then l =? 100 else true).

Lemma levels_checked :
  forallb (fun m => forallb (fun s => level_ok (Z.of_nat s) (Z.of_nat m)) (seq 0 (S m))) (seq 1 100) = true.
Proof. vm_compute. reflexivity. Qed.

Lemma int_round_in_range f oor : 0 <= int_round (fun _ => -1) f -> int_round oor f = int_round (fun _ => -1) f.
Proof.
  unfold int_round, clip_int. destruct f as [| | |s m e]; try done; try lia.
  by destruct ((int64_min <=? _) && _).
Qed.

Lemma normalize_range oor s m :
  0 <= s <= m -> 0 < m <= 100 -> 0 <= normalize oor s m <= 100 /\ (s = m -> normalize oor s m = 100).
Proof.
  intros Hs Hm. pose proof levels_checked as H. rewrite forallb_forall in H.
  specialize (H (Z.to_nat m)). rewrite in_seq in H. specialize (H ltac:(lia)). rewrite forallb_forall in H.
  specialize (H (Z.to_nat s)). rewrite in_seq in H. specialize (H ltac:(lia)). rewrite !Z2Nat.id in H by lia.
  unfold level_ok in H. bool_simp. assert (normalize oor s m = normalize (fun _ => -1) s m) as ->.
  { by apply int_round_in_range. }
  split; [lia|]. intros ->. rewrite Z.eqb_refl in *. by bool_simp.
Qed.

(** ** Membership in the ranking *)

Lemma elem_of_expand oor iter maxS m c :
  (forall sc, iter sc ≡ₚ map_to_list sc) ->
  c ∈ expand oor iter maxS m <->
  c_Model c = m /\ Scores m !! Effort c = Some (Score c) /\ Level c = normalize oor (Score c) maxS.
Proof.
  intros Hiter. unfold expand. rewrite list_elem_of_fmap. split.
  - intros ([e s] & -> & Hin). rewrite Hiter in Hin. by apply elem_of_map_to_list in Hin.
  - destruct c as [m' e s l]. simpl. intros (-> & Hs & ->). exists (e, s). split; [done|].
    rewrite Hiter. by apply elem_of_map_to_list.
Qed.

Lemma elem_of_Rank oor iter catalog target rm c :
  (forall sc, iter sc ≡ₚ map_to_list sc) ->
  c ∈ Rank oor iter catalog target rm <->
  max_score catalog <> 0 /\ c_Model c ∈ catalog /\ considered rm (c_Model c) = true
  /\ Scores (c_Model c) !! Effort c = Some (Score c) /\ Level c = normalize oor (Score c) (max_score catalog).
Proof.
  intros Hiter. unfold Rank. destruct (max_score catalog =? 0) eqn:E; bool_simp.
  { split; [by intros ?%not_elem_of_nil|]. by intros [? _]. }
  rewrite stable_sort_perm, list_elem_of_In, in_flat_map. split.
  - intros (m & Hm & Hc). apply list_elem_of_In in Hm. apply list_elem_of_In in Hc. apply elem_of_expand in Hc as (-> & ? & ?); [|done].
    by apply list_elem_of_filter in Hm as [? ?].
  - intros (_ & Hin & Hcon & Hs & Hl). exists (c_Model c). split; apply list_elem_of_In.
    + by apply list_elem_of_filter.
    + by apply elem_of_expand.
Qed.

Lemma model_by_name catalog m m' :
  NoDup (map Name catalog) -> m ∈ catalog -> m' ∈ catalog -> Name m = Name m' -> m = m'.
Proof.
  intros Hnd [i Hi]%list_elem_of_lookup [j Hj]%list_elem_of_lookup Heq.
  assert (i = j) as ->; [|congruence].
  eapply (NoDup_lookup (map Name catalog)); [done|by rewrite list_lookup_fmap, Hi|by rewrite list_lookup_fmap, Hj, Heq].
Qed.

(** Name and effort determine a candidate of the ranking. *)
Lemma ranked_key_inj oor iter catalog target rm a b :
  (forall sc, iter sc ≡ₚ map_to_list sc) -> NoDup (map Name catalog) ->
  a ∈ Rank oor iter catalog target rm -> b ∈ Rank oor iter catalog target rm ->
  Name (c_Model a) = Name (c_Model b) -> Effort a = Effort b -> a = b.
Proof.
  intros Hi Hnd Ha Hb Hn He. apply elem_of_Rank in Ha as (_ & Ha & _ & Hsa & Hla); [|done].
  apply elem_of_Rank in Hb as (_ & Hb & _ & Hsb & Hlb); [|done].
  pose proof (model_by_name _ _ _ Hnd Ha Hb Hn) as Hm. destruct a as [ma ea sa la], b as [mb eb sb lb]. simpl in *.
  subst. congruence.
Qed.

Lemma expand_NoDup oor iter catalog maxS rm :
  (forall sc, iter sc ≡ₚ map_to_list sc) -> NoDup (map Name catalog) ->
  NoDup (flat_map (expand oor iter maxS) (filter (fun m => considered rm m = true) catalog)).
Proof.
  intros Hi. induction catalog as [|m catalog IH]; intros Hnd; [constructor|].
  inversion Hnd as [|? ? Hm Hnd']; subst. rewrite filter_cons. case_decide; [|by apply IH]. simpl.
  apply NoDup_app. split_and!; [| |by apply IH].
  - unfold expand. apply (NoDup_fmap_1 Effort). rewrite <- list_fmap_compose.
    rewrite (list_fmap_ext _ fst) by (by intros ? [? ?] _). rewrite Hi. apply NoDup_fst_map_to_list.
  - intros c Hc Hc'. apply elem_of_expand in Hc as (Hcm & _); [|done].
    rewrite list_elem_of_In, in_flat_map in Hc'. destruct Hc' as (m' & Hm' & Hc').
    apply list_elem_of_In in Hm'. apply list_elem_of_In in Hc'. apply elem_of_expand in Hc' as (Hcm' & _); [|done].
    apply list_elem_of_filter in Hm' as [_ Hm']. apply Hm. rewrite <- Hcm, Hcm'. by apply list_elem_of_fmap_2.
Qed.

Lemma validateIntelligence_range level param n :
  validateIntelligence level param = inr n -> MinIntelligence <= n <= MaxIntelligence.
Proof. unfold validateIntelligence. intros H. by case_in H; try lia. Qed.

Lemma ParseIntelligence_range pf oor h body body' n :
  ParseIntelligence pf oor h body = (body', inr n) -> MinIntelligence <= n <= MaxIntelligence.
Proof.
  unfold ParseIntelligence, intelligenceFromJSON. intros H.
  assert (forall f, match exact_int oor f with
                    | Some level => validateIntelligence level intelligenceParam
                    | None => inl (MkValidation intelligenceParam errMsgInvalidParam)
                    end = inr n -> MinIntelligence <= n <= MaxIntelligence) as Hf.
  { intros f. destruct (exact_int oor f); [apply validateIntelligence_range|done]. }
  destruct (_ ≫= _) as [v|].
  - destruct v as [| |f|lit| | | |]; try done; [injection H as _ H; by eapply Hf|].
    destruct (pf lit) as [f|]; [|done]. injection H as _ H. by eapply Hf.
  - destruct (String.eqb _ _); [injection H as _ <-; done|].
    destruct (ParseInt _); [|done]. injection H as _ H. by eapply validateIntelligence_range.
Qed.

(** ** Properties *)

(** Over a catalog built from what the control plane published, the ranking
    holds every (model, effort) pair once with its published score (only
    multimodal models when the request carries images), in order of distance
    from the requested level, every level is between 0 and 100 and the best
    published score has level 100, and the result does not depend on the order
    Go ranges over the score maps in. *)
Theorem auto_ranking oor iter iter' data md target visual :
  (forall sc, iter sc ≡ₚ map_to_list sc) -> (forall sc, iter' sc ≡ₚ map_to_list sc) ->
  let catalog := AutoRouteCatalog (refreshModelMetadata data md) in
  let ranked := Rank oor iter catalog target visual in
  NoDup ranked
  /\ (forall m e s, m ∈ catalog -> Scores m !! e = Some s -> 0 < s -> (visual = true -> Multimodal m = true) ->
        exists c, c ∈ ranked /\ c_Model c = m /\ Effort c = e /\ Score c = s)
  /\ (forall c, c ∈ ranked -> c_Model c ∈ catalog /\ Scores (c_Model c) !! Effort c = Some (Score c)
        /\ (visual = true -> Multimodal (c_Model c) = true)
        /\ 0 <= Level c <= 100 /\ (Score c = max_score catalog -> Level c = 100))
  /\ StronglySorted (fun a b => distance target a <= distance target b) ranked
  /\ Rank oor iter' catalog target visual = ranked.
Proof.
  intros Hi Hi' catalog ranked. destruct (AutoRouteCatalog_ok data md) as [Hnd Hval]. fold catalog in Hnd, Hval.
  destruct (max_score_spec catalog) as (Hm0 & Hmax & Hatt).
  assert (0 <= max_score catalog <= 100) as Hm100.
  { split; [done|]. destruct Hatt as [->|(m & e & Hin & Hs)]; [lia|]. specialize (Hval _ _ _ Hin Hs). unfold maxIntelligenceScore in *. lia. }
  assert (forall it, (forall sc, it sc ≡ₚ map_to_list sc) -> NoDup (Rank oor it catalog target visual)) as Hnodup.
  { intros it Hit. unfold Rank. destruct (_ =? 0); [constructor|]. rewrite stable_sort_perm. by apply expand_NoDup. }
  assert (forall it c, (forall sc, it sc ≡ₚ map_to_list sc) -> c ∈ Rank oor it catalog target visual <-> c ∈ ranked) as Hsame.
  { intros it c Hit. unfold ranked. by rewrite !elem_of_Rank. }
  assert (forall it, StronglySorted (before target) (Rank oor it catalog target visual)) as Hsorted.
  { intros it. unfold Rank. destruct (_ =? 0); [constructor|apply stable_sort_sorted]. }
  split_and!.
  - by apply Hnodup.
  - intros m e s Hin Hs Hpos Hv. exists (MkCandidate m e s (normalize oor s (max_score catalog))). split; [|done].
    apply elem_of_Rank; [done|]. simpl. split_and!; try done.
    + specialize (Hmax _ _ _ Hin Hs). lia.
    + unfold considered. destruct visual; [|done]. by rewrite Hv.
  - intros c Hc. apply elem_of_Rank in Hc as (Hnz & Hin & Hcon & Hs & ->); [|done].
    specialize (Hval _ _ _ Hin Hs). specialize (Hmax _ _ _ Hin Hs).
    destruct (normalize_range oor (Score c) (max_score catalog)) as [? ?]; [lia|lia|]. split_and!; try done; [|lia|lia].
    intros ->. exact Hcon.
  - eapply StronglySorted_impl_elem; [|apply Hsorted]. intros a b _ _. apply before_distance.
  - eapply StronglySorted_unique_strong; [|apply Hsorted|apply Hsorted|].
    + intros a b Ha Hb Hab Hba. apply (before_antisym _ _ _ Hab) in Hba as [Hn He]. rewrite Hsame in Ha by done.
      exact (ranked_key_inj oor iter catalog target visual a b Hi Hnd Ha Hb Hn He).
    + apply NoDup_Permutation; [by apply Hnodup|by apply Hnodup|]. intros c. by apply Hsame.
Qed.

(** The lookups a candidate's status needs. *)
Definition candidate_status (orgForModel : string -> APIError + string) (status : string -> string -> bool * bool)
    (c : AutoCandidate) : option (bool * bool) :=
  match orgForModel (Name (c_Model c)) with inr org => Some (status (Name (c_Model c)) org) | inl _ => None end.

Lemma walk_spec orgForModel status ranked : forall chosen res,
  walk orgForModel status ranked chosen = inr res ->
  let st := candidate_status orgForModel status in
  (exists pre c post, ranked = pre ++ c :: post /\ res = Some c /\ st c = Some (true, true)
     /\ forall d, d ∈ pre -> st d <> Some (true, true))
  \/ ((forall d, d ∈ ranked -> st d <> Some (true, true))
      /\ (res = chosen /\ (chosen <> None \/ forall d, d ∈ ranked -> st d <> Some (true, false))
          \/ chosen = None /\ exists pre c post, ranked = pre ++ c :: post /\ res = Some c /\ st c = Some (true, false)
               /\ forall d, d ∈ pre -> st d <> Some (true, false))).
Proof.
  induction ranked as [|c ranked IH]; intros chosen res H; cbn [walk] in H.
  { simplify_eq. right. split; [by intros ? ?%not_elem_of_nil|]. left. split; [done|]. right. by intros ? ?%not_elem_of_nil. }
  intros st. assert (st c = candidate_status orgForModel status c) as Hst by done. unfold candidate_status in Hst.
  destruct (orgForModel (Name (c_Model c))) as [err|org]; [done|].
  destruct (status (Name (c_Model c)) org) as [allowed available].
  assert (forall pre (P : AutoCandidate -> Prop), P c -> (forall d, d ∈ pre -> P d) -> forall d, d ∈ c :: pre -> P d) as Hcons.
  { intros pre P ? ? d [->|?]%elem_of_cons; auto. }
  destruct allowed, available; cbn [negb] in H.
  1: { simplify_eq. left. exists [], c, ranked. split_and!; try done. by intros ? ?%not_elem_of_nil. }
  all: apply IH in H as [(pre & d & post & -> & -> & Hd & Hpre)|[Hno Hrest]];
    [left; exists (c :: pre), d, post; split_and!; try done; apply Hcons; [by rewrite Hst|done]
    |right; split; [apply Hcons; [by rewrite Hst|done]|]].
  - destruct chosen as [c0|].
    + left. destruct Hrest as [[-> _]|[? _]]; [|done]. split; [done|by left].
    + right. split; [done|]. destruct Hrest as [[-> _]|[? _]]; [|done].
      exists [], c, ranked. split_and!; try done. by intros ? ?%not_elem_of_nil.
  - destruct Hrest as [[-> [Hc|Hall]]|[-> (pre & d & post & -> & -> & Hd & Hpre)]].
    + left. split; [done|by left].
    + left. split; [done|]. right. apply Hcons; [by rewrite Hst|done].
    + right. split; [done|]. exists (c :: pre), d, post. split_and!; try done. apply Hcons; [by rewrite Hst|done].
  - destruct Hrest as [[-> [Hc|Hall]]|[-> (pre & d & post & -> & -> & Hd & Hpre)]].
    + left. split; [done|by left].
    + left. split; [done|]. right. apply Hcons; [by rewrite Hst|done].
    + right. split; [done|]. exists (c :: pre), d, post. split_and!; try done. apply Hcons; [by rewrite Hst|done].
Qed.

(** "auto" resolves to the best-fitting model that can serve. When a request
    resolves, the choice is in the ranking of its level; if any ranked pair is
    eligible and healthy it is the first such pair, otherwise the first eligible
    one; and when nothing eligible is ranked the request is refused. *)
Theorem auto_choice_first_healthy pf oor iter orgForModel status catalog h path (body body' : object) chosen :
  resolveAutoModel pf oor iter orgForModel status catalog h path body = inr (body', chosen) ->
  let st := candidate_status orgForModel status in
  let body0 := delete OptionsField body in
  exists target pre post,
    (ParseIntelligence pf oor h body).2 = inr target /\ MinIntelligence <= target <= MaxIntelligence
    /\ Rank oor iter catalog target (HasVisualInput body0) = pre ++ chosen :: post
    /\ ((st chosen = Some (true, true) /\ forall d, d ∈ pre -> st d <> Some (true, true))
        \/ (st chosen = Some (true, false) /\ (forall d, d ∈ pre -> st d <> Some (true, false))
            /\ forall d, d ∈ pre ++ chosen :: post -> st d <> Some (true, true)))
    /\ body' = <["model" := JStr (Name (c_Model chosen))]> (ApplyEffort body0 path chosen).
Proof.
  intros H st body0. unfold resolveAutoModel in H. assert ((ParseIntelligence pf oor h body).1 = delete OptionsField body) as Hb.
  { unfold ParseIntelligence. destruct (_ ≫= _); [done|]. destruct (String.eqb _ _); [done|]. by destruct (ParseInt _). }
  destruct (ParseIntelligence pf oor h body) as [b0 [err|target]] eqn:Hp; [done|]. simpl in Hb. subst b0.
  fold body0 in H. set (ranked := Rank oor iter catalog target (HasVisualInput body0)) in *.
  assert (match walk orgForModel status ranked None with inr (Some c) => inr (<["model" := JStr (Name (c_Model c))]> (ApplyEffort body0 path c), c)
    | inl err => inl err | inr None => inl (WithMessage ErrModelUnavailable (ErrMsgModelUnavailable "auto")) end = inr (body', chosen)) as Hw'
    by (destruct ranked; [done|exact H]). clear H. rename Hw' into H.
  destruct (walk orgForModel status ranked None) as [err|[c|]] eqn:Hw; [done| |done]. injection H as <- <-.
  assert (MinIntelligence <= target <= MaxIntelligence) as Ht by (by eapply ParseIntelligence_range).
  apply walk_spec in Hw as [(pre & d & post & Heq & [= <-] & Hd & Hpre)|[Hno [[? _]|[_ (pre & d & post & Heq & [= <-] & Hd & Hpre)]]]]; [|done|].
  - exists target, pre, post. split_and!; try done; [lia|lia|]. left. done.
  - exists target, pre, post. split_and!; try done; [lia|lia|]. right. split_and!; try done. by rewrite <- Heq.
Qed.

(** ** Merging *)

(** The value reached from an object by a path of keys. *)
Fixpoint at_path (p : list string) (v : json) : option json :=
  match p with
  | [] => Some v
  | k :: p => o ← as_object v; v ← o !! k; at_path p v
  end.

Definition is_leaf (v : json) : Prop := as_object v = None.

Lemma mergeInto_lookup dst src k :
  mergeInto dst src !! k =
  match src !! k with Some v => Some (merge_value (default JNull (dst !! k)) v) | None => dst !! k end.
Proof.
  unfold mergeInto. simpl. rewrite lookup_merge, lookup_fmap. destruct (src !! k); simpl; [|by destruct (dst !! k)].
  by destruct (dst !! k).
Qed.

Lemma merge_value_object dst s : merge_value dst (JObj s) = JObj (mergeInto (default ∅ (as_object dst)) s).
Proof. unfold mergeInto. done. Qed.

(** Every leaf of the merged fragment is in the result. *)
Lemma merge_keeps_leaves p : forall dst src v,
  at_path p src = Some v -> is_leaf v -> at_path p (merge_value dst src) = Some v.
Proof.
  induction p as [|k p IH]; intros dst src v Hp Hl; cbn [at_path] in *.
  - injection Hp as ->. by destruct v.
  - destruct src as [| | | | | | |s]; try done. rewrite merge_value_object. cbn [as_object mbind option_bind] in *.
    rewrite mergeInto_lookup. destruct (s !! k) as [w|]; [|done]. cbn [mbind option_bind] in *. by apply IH.
Qed.

Lemma strip_reasoning_effort (body r : object) v :
  strip_client_effort (<["reasoning" := JObj (<["effort" := v]> r)]> body)
  = strip_client_effort (<["reasoning" := JObj r]> body).
Proof.
  unfold strip_client_effort, get. rewrite !(delete_insert_ne _ "reasoning_effort" "reasoning") by done.
  rewrite !lookup_insert_eq. simpl. rewrite delete_insert_eq.
  destruct (bool_decide (delete "effort" r = ∅)); by rewrite ?delete_insert_eq, ?insert_insert_eq.
Qed.

(** The client's own effort settings have no say in an "auto" request. The
    rewritten body is the same whatever [reasoning_effort] and
    [reasoning.effort] the client sent; every setting of the chosen model's
    fragment for the endpoint is in it at its place; and fields outside the
    fragment other than the client's two effort settings are unchanged. *)
Theorem auto_effort_overrides_client (body : object) path c (r : object) v :
  ApplyEffort (<["reasoning_effort" := v]> body) path c = ApplyEffort body path c
  /\ ApplyEffort (<["reasoning" := JObj (<["effort" := v]> r)]> body) path c
     = ApplyEffort (<["reasoning" := JObj r]> body) path c
  /\ (forall rs ps, m_Reasoning (c_Model c) = Some rs -> Params rs !! path = Some ps ->
        let fragment := effort_fragment rs ps (Effort c) in
        (forall p w, at_path p (JObj fragment) = Some w -> is_leaf w -> at_path p (JObj (ApplyEffort body path c)) = Some w)
        /\ forall k, fragment !! k = None -> k <> "reasoning_effort" -> k <> "reasoning" ->
             ApplyEffort body path c !! k = body !! k).
Proof.
  split_and!.
  - unfold ApplyEffort, strip_client_effort. by rewrite delete_insert_eq.
  - unfold ApplyEffort. by rewrite strip_reasoning_effort.
  - intros rs ps Hr Hp fragment. unfold ApplyEffort. rewrite Hr, Hp. fold fragment. split.
    + intros p w Hw Hl. change (JObj (mergeInto (strip_client_effort body) fragment)) with
        (merge_value (JObj (strip_client_effort body)) (JObj fragment)). by apply merge_keeps_leaves.
    + intros k Hk H1 H2. rewrite mergeInto_lookup, Hk. unfold strip_client_effort.
      destruct (get "reasoning" _); rewrite ?lookup_delete_ne by done; try done.
      case_bool_decide; [by rewrite !lookup_delete_ne|by rewrite lookup_insert_ne, lookup_delete_ne].
Qed.

(** ** Witnesses *)

Definition w_entry : openAIModelEntry :=
  MkEntry "m1" true "chat" None {["high" := 60; "off" := 30]} (Some (MkReasoning {["/v1/x" := MkParams {["effort" := JStr "$EFFORT"]} ∅]} ∅)).
Definition w_catalog : list CatalogModel := AutoRouteCatalog (refreshModelMetadata [w_entry] (MkMetadata ∅ ∅ ∅)).
Definition w_pf (_ : string) : option float64 := None.
Definition w_oor (_ : float64) : Z := 0.
Definition w_org (_ : string) : APIError + string := inr "org".
Definition w_status (_ _ : string) : bool * bool := (true, true).

Lemma auto_ranking_witness :
  NoDup (Rank w_oor map_to_list w_catalog 50 true) /\ map Effort (Rank w_oor map_to_list w_catalog 50 true) = ["off"; "high"].
Proof.
  split; [|vm_compute; reflexivity].
  apply (auto_ranking w_oor map_to_list map_to_list [w_entry] (MkMetadata ∅ ∅ ∅) 50 true); intros sc; apply Permutation_refl.
Defined.

Definition w_resolved : object * AutoCandidate :=
  match resolveAutoModel w_pf w_oor map_to_list w_org w_status w_catalog ∅ "/v1/x" {["auto_model_options" := JNull]} with
  | inr r => r
  | inl _ => (∅, MkCandidate (MkModel "" false ∅ None) "" 0 0)
  end.

Lemma auto_choice_first_healthy_witness :
  exists target pre post, Rank w_oor map_to_list w_catalog target false = pre ++ w_resolved.2 :: post
    /\ Effort w_resolved.2 = "off".
Proof.
  destruct (auto_choice_first_healthy w_pf w_oor map_to_list w_org w_status w_catalog ∅ "/v1/x"
    {["auto_model_options" := JNull]} w_resolved.1 w_resolved.2) as (t & pre & post & _ & _ & H & _).
  - vm_compute. reflexivity.
  - exists t, pre, post. split; [exact H|]. vm_compute. reflexivity.
Defined.
