(* ===== verification/Worker.v ===== *)
(** * The manager's worker and what it reports ([manager/manager.go])

    The loop that keeps the router current: each round clears the errors, fetches
    the configuration, applies it to every model, and renews the verification of
    every configured host in one goroutine per model, while requests and
    recoveries run against the same pools.  The worker is a machine over the
    manager of [Lifecycle], the published labels of [RouteInfo] and the metadata
    of [Autoroute]; its first theorem is that it refines the manager's machine, so
    that what holds of every reachable manager holds of the running router.

    The configuration a fetch returns, the error text of a failed one, the
    outcome of a host's verification and the order Go ranges over a map in are
    arguments of the steps.  A panic of the label code (a host name beyond the
    hash's framing) has no step. *)

From S2P Require Import Prelude Float64 Config Hrw CacheKey RouteInfo Metrics CircuitBreaker Pool Selection Lifecycle Autoroute.
From stdpp Require Import sets.
#[local] Open Scope string_scope.
#[local] Open Scope list_scope.
#[local] Open Scope Z_scope.

(** ** State *)

(** Where the worker's goroutine is: before the errors are cleared, before the
    attempt is stamped, before the configuration is there, applying it to the
    models left, or renewing.  While renewing, [todo] are the models whose
    goroutine is not started, [running] the goroutines with the hosts left to
    each, and [renewed] the hosts done, which no step reads. *)
Inductive phase :=
  | Ticking
  | Starting
  | Fetching
  | Applying (config : gmap string Model) (todo : list string)
  | Renewing (configErr : option string) (todo : list string) (running : list (string * list string))
      (renewed : list (string * string)).

Record Worker := MkWorker {
  manager : Manager;
  w_metadata : metadata;
  labels : RouteInfo;
  em_errors : list string;
  lastSuccessfulUpdate : Z;
  lastAttemptedUpdate : Z;
  at_phase : phase
}.

Definition set_manager (m : Manager) (w : Worker) : Worker :=
  MkWorker m (w_metadata w) (labels w) (em_errors w) (lastSuccessfulUpdate w) (lastAttemptedUpdate w) (at_phase w).
Definition set_phase (p : phase) (w : Worker) : Worker :=
  MkWorker (manager w) (w_metadata w) (labels w) (em_errors w) (lastSuccessfulUpdate w) (lastAttemptedUpdate w) p.
Definition set_errors (errs : list string) (w : Worker) : Worker :=
  MkWorker (manager w) (w_metadata w) (labels w) errs (lastSuccessfulUpdate w) (lastAttemptedUpdate w) (at_phase w).

(** ** Creation *)

(** [parse] is [url.Parse]: the scheme and host of a URL, or none. *)
Definition validateControlPlaneURL (parse : string -> option (string * string)) (controlPlaneURL : string) (debug : bool)
  : option string :=
  if debug then None
  else match parse controlPlaneURL with
       | Some (scheme, host) =>
           if String.eqb scheme "https" && negb (String.eqb host "") then None
           else Some "control plane URL must use HTTPS"
       | None => Some "control plane URL must use HTTPS"
       end.

(** The models of the initial configuration, in the order [range] gives them. *)
Fixpoint add_models (entries : list (string * Model)) (ms : gmap string Managed) (s : RouteInfo)
  : option (gmap string Managed * RouteInfo) :=
  match entries with
  | [] => Some (ms, s)
  | (name, c) :: entries => s' ← publish_model name c s; add_models entries (<[name := addModel c]> ms) s'
  end.

(** [interval] prints the refresh interval as [%v] does; [loaded] is the initial
    configuration, or why it could not be loaded. *)
Definition newWorker (parse : string -> option (string * string)) (interval : Z -> string) (controlPlaneURL : string)
    (refreshInterval : Z) (debug : bool) (loaded : string + list (string * Model)) : string + option Worker :=
  if refreshInterval <=? 0 then inl ("refresh interval must be positive, got " ++ interval refreshInterval)%string
  else match validateControlPlaneURL parse controlPlaneURL debug with
       | Some err => inl err
       | None =>
           match loaded with
           | inl err => inl err
           | inr entries =>
               inr ('(ms, s) ← add_models entries ∅ initial_info;
                    Some (MkWorker (MkManager ms []) (MkMetadata ∅ ∅ ∅) s [] time_zero time_zero Ticking))
           end
       end.

(** [time.NewTicker(min(em.refreshInterval, attestationRefreshInterval))] *)
Definition worker_period (refreshInterval : Z) : Z := Z.min refreshInterval attestationRefreshInterval.

(** ** The rounds *)

Definition hosts_of (ms : gmap string Managed) (name : string) : list (string * string) :=
  match ms !! name with
  | Some mm => map (pair name) (elements (dom (configuredHosts (mm_pool mm))))
  | None => []
  end.

Definition all_hosts (ms : gmap string Managed) : list (string * string) :=
  flat_map (hosts_of ms) (elements (dom ms)).

Definition pending (running : list (string * list string)) : list (string * string) :=
  flat_map (fun '(name, hosts) => map (pair name) hosts) running.

Definition add_error (err : option string) (errs : list string) : list string :=
  match err with Some e => errs ++ [e] | None => errs end.

Section Machine.
Context (CryptoMaterialIDHPKE : string).

Inductive work : Worker -> Worker -> Prop :=
  (* the round begins: the errors of the last one are cleared *)
  | wk_clear w : at_phase w = Ticking -> work w (set_phase Starting (set_errors [] w))
  (* [sync] stamps its attempt *)
  | wk_attempt w now :
      at_phase w = Starting -> time_zero < now ->
      work w (MkWorker (manager w) (w_metadata w) (labels w) (em_errors w) (lastSuccessfulUpdate w) now Fetching)
  (* the configuration is there; the metadata are refreshed when they can be *)
  | wk_fetched w config data todo :
      at_phase w = Fetching -> todo ≡ₚ elements (dom (models (manager w))) ->
      work w (MkWorker (manager w) (match data with Some d => refreshModelMetadata d (w_metadata w) | None => w_metadata w end)
                (labels w) (em_errors w) (lastSuccessfulUpdate w) (lastAttemptedUpdate w) (Applying config todo))
  (* the configuration is not there: the hosts accepted before are renewed *)
  | wk_unfetched w err todo :
      at_phase w = Fetching -> todo ≡ₚ elements (dom (models (manager w))) ->
      work w (set_phase (Renewing (Some err) todo [] []) w)
  (* one model, under its mutex, with its published labels *)
  | wk_apply w config name todo ms log mm now s' :
      at_phase w = Applying config (name :: todo) -> manager w = MkManager ms log -> ms !! name = Some mm ->
      publish_sync name (mm_Repo mm) (config !! name) (labels w) = Some s' ->
      work w (MkWorker (MkManager (<[name := fst (sync_model now (config !! name) mm)]> ms) log) (w_metadata w) s'
                (em_errors w) (lastSuccessfulUpdate w) (lastAttemptedUpdate w) (Applying config todo))
  | wk_applied w config todo :
      at_phase w = Applying config [] -> todo ≡ₚ elements (dom (models (manager w))) ->
      work w (set_phase (Renewing None todo [] []) w)
  (* a model's goroutine starts on a copy of the configured hosts *)
  | wk_launch w e name todo running renewed mm hosts :
      at_phase w = Renewing e (name :: todo) running renewed -> models (manager w) !! name = Some mm ->
      hosts ≡ₚ elements (dom (configuredHosts (mm_pool mm))) ->
      work w (set_phase (Renewing e todo (running ++ [(name, hosts)]) renewed) w)
  (* one of the goroutines is done with a host: [addEnclave] returned [err] *)
  | wk_renew w e todo before name h hosts after renewed err :
      at_phase w = Renewing e todo (before ++ (name, h :: hosts) :: after) renewed ->
      work w (set_phase (Renewing e todo (before ++ (name, hosts) :: after) (renewed ++ [(name, h)]))
                (set_errors (add_error err (em_errors w)) w))
  (* all goroutines are done: the update succeeded *)
  | wk_finish w running renewed now :
      at_phase w = Renewing None [] running renewed -> pending running = [] -> time_zero < now ->
      work w (MkWorker (manager w) (w_metadata w) (labels w) (em_errors w) now (lastAttemptedUpdate w) Ticking)
  (* or it had no configuration *)
  | wk_fail w err running renewed :
      at_phase w = Renewing (Some err) [] running renewed -> pending running = [] ->
      work w (set_phase Ticking (set_errors (em_errors w ++ [("failed to fetch config: " ++ err)%string]) w))
  (* requests, recoveries and the verifications the goroutines run *)
  | wk_background w m : background CryptoMaterialIDHPKE (manager w) m -> work w (set_manager m w).

Definition worker_machine (config : gmap string Model) : Machine Worker :=
  {| initial w := exists parse interval url refresh debug entries,
       entries ≡ₚ map_to_list config /\ newWorker parse interval url refresh debug (inr entries) = inr (Some w);
     transition := work |}.

End Machine.

(** ** What the router reports of itself *)

Definition Ready (w : Worker) : bool := negb (IsZero (lastSuccessfulUpdate w)).

Record ManagerStatus := MkManagerStatus {
  observed_at : Z;
  st_models : gmap string Managed;
  st_errors : list string;
  st_updated : Z;
  st_attempted : Z
}.

Definition Status (now : Z) (w : Worker) : ManagerStatus :=
  MkManagerStatus now (models (manager w)) (em_errors w) (lastSuccessfulUpdate w) (lastAttemptedUpdate w).

Record PrometheusTargetGroup := MkTargets {
  Targets : list string;
  tg_Labels : gmap string string
}.

(** [order] ranges over the models and [hosts] over the backends of one. *)
Definition PrometheusTargets (order : list string) (hosts : gmap string Enclave -> list string) (ms : gmap string Managed)
  : list PrometheusTargetGroup :=
  flat_map (fun name =>
    match ms !! name with
    | Some mm =>
        if decide (Enclaves (mm_pool mm) = ∅) then []
        else [MkTargets (hosts (Enclaves (mm_pool mm))) (<["__param_model" := name]> {["model_name" := name]})]
    | None => []
    end) order.

(** ** What requests and verifications leave alone *)

(** The configured hosts and the routing policy of a model. *)
Definition frame (mm : Managed) : gset string * option CacheRouteConfig :=
  (dom (configuredHosts (mm_pool mm)), m_CacheRoute (mm_pool mm)).

Lemma pool_step_frame m m' :
  pool_step m m' -> dom (configuredHosts m') = dom (configuredHosts m) /\ m_CacheRoute m' = m_CacheRoute m.
Proof.
  destruct 1 as [now rnd iter order cp primary spill policy m Hen|now rnd iter fh order primary spill policy m Hen|h m|h op m|h now response m|h at_ stage failed m].
  - unfold SelectServing. cbn [fst]. by destruct (sel_enclave _).
  - unfold SelectRetry. destruct (sel_enclave _); [|done]. by destruct (sel_overloaded _).
  - unfold ReleaseDispatch. by destruct (Enclaves m !! h).
  - done.
  - done.
  - destruct (record_spec h at_ stage failed m) as (_ & Hd & _). split; [exact Hd|].
    unfold recordVerification. by destruct (configuredHosts m !! h).
Qed.

Lemma refresh_locked_frame now name h vetted at_ mm mm' retired :
  refresh_locked now name h vetted at_ mm = inr (mm', retired) -> frame mm' = frame mm.
Proof.
  destruct vetted as [[v tls] hpke]. unfold refresh_locked, installEnclaveLocked, frame. intros H.
  destruct (configuredHosts (mm_pool mm) !! h); [|done].
  destruct (Enclaves (mm_pool mm) !! h); [destruct (same_backend _ _ _ _)|]; by injection H as <- <-.
Qed.

Lemma background_frame k s s' :
  background k s s' -> forall name, frame <$> models s' !! name = frame <$> models s !! name.
Proof.
  destruct 1 as [|ms log name mm now c vetted mm' retired Hn Hc Hr Hv Hl|ms log name mm p Hn Hp]; cbn; intros k'; [done|..].
  all: destruct (decide (k' = name)) as [->|]; [|by rewrite lookup_insert_ne].
  all: rewrite lookup_insert_eq, Hn; cbn; f_equal.
  - by eapply refresh_locked_frame.
  - unfold frame; cbn. by destruct (pool_step_frame _ _ Hp) as [-> ->].
Qed.

Lemma frame_dom (ms ms' : gmap string Managed) : (forall name : string, frame <$> ms' !! name = frame <$> ms !! name) -> dom ms' = dom ms.
Proof.
  intros H. apply set_eq. intros name. rewrite !elem_of_dom. specialize (H name).
  destruct (ms !! name), (ms' !! name); naive_solver.
Qed.

Lemma hosts_of_frame ms ms' :
  (forall name, frame <$> ms' !! name = frame <$> ms !! name) -> forall name, hosts_of ms' name = hosts_of ms name.
Proof.
  intros H name. unfold hosts_of. specialize (H name). unfold frame in H.
  destruct (ms !! name), (ms' !! name); simplify_eq/=; congruence.
Qed.

Lemma flat_map_hosts_frame ms ms' l :
  (forall name, frame <$> ms' !! name = frame <$> ms !! name) -> flat_map (hosts_of ms') l = flat_map (hosts_of ms) l.
Proof. intros H. apply flat_map_ext. by apply hosts_of_frame. Qed.

Lemma all_hosts_frame ms ms' :
  (forall name, frame <$> ms' !! name = frame <$> ms !! name) -> all_hosts ms' = all_hosts ms.
Proof. intros H. unfold all_hosts. by rewrite (frame_dom _ _ H), (flat_map_hosts_frame _ _ _ H). Qed.

Lemma pending_app l l' : pending (l ++ l') = pending l ++ pending l'.
Proof. apply flat_map_app. Qed.

(** ** Creation *)

Lemma add_models_spec entries : forall ms s ms' s',
  add_models entries ms s = Some (ms', s') -> NoDup (entries.*1) ->
  (forall k, ms' !! k = match list_to_map (M := gmap string Model) entries !! k with Some c => Some (addModel c) | None => ms !! k end)
  /\ (info_ok s -> info_ok s').
Proof.
  induction entries as [|[name c] entries IH]; cbn; intros ms s ms' s' H ND.
  { injection H as <- <-. split; [|done]. intros k. by rewrite lookup_empty. }
  destruct (publish_model name c s) as [s1|] eqn:E; cbn in H; [|done]. apply NoDup_cons in ND as [Hn ND].
  destruct (IH _ _ _ _ H ND) as [H1 H2]. split.
  - intros k. rewrite H1. destruct (decide (k = name)) as [->|Hk].
    + by rewrite (not_elem_of_list_to_map_1 _ _ Hn), !lookup_insert_eq.
    + by rewrite !lookup_insert_ne.
  - intros Hs. apply H2. unfold publish_model in E. eapply SetPoolInfo_ok; [|exact E]. by apply SetMode_ok.
Qed.

(** The manager the worker starts with is the configuration's, whatever order
    the models were added in. *)
Lemma newWorker_manager parse interval url refresh debug entries config w :
  entries ≡ₚ map_to_list config -> newWorker parse interval url refresh debug (inr entries) = inr (Some w) ->
  manager w = NewEnclaveManager config /\ info_ok (labels w) /\ em_errors w = [] /\ Ready w = false /\ at_phase w = Ticking.
Proof.
  intros Hp H. unfold newWorker in H. destruct (refresh <=? 0); [done|].
  destruct (validateControlPlaneURL parse url debug); [done|]. injection H as H.
  destruct (add_models entries ∅ initial_info) as [[ms s]|] eqn:E; cbn in H; [|done]. injection H as <-. cbn.
  assert (NoDup (entries.*1)) as ND by (rewrite Hp; apply NoDup_fst_map_to_list).
  destruct (add_models_spec _ _ _ _ _ E ND) as [H1 H2]. split; [|by split_and!; try done; apply H2, initial_info_ok].
  unfold NewEnclaveManager. f_equal. apply map_eq. intros k. rewrite H1, lookup_fmap, lookup_empty.
  rewrite (list_to_map_proper entries (map_to_list config)) by done. rewrite list_to_map_to_list. by destruct (config !! k).
Qed.

(** ** The published modes *)

(** A model that shows a mode is routed with it. *)
Definition modes_true (ms : gmap string Managed) (s : RouteInfo) : Prop :=
  forall name m, lastMode s !! name = Some m ->
    exists mm, ms !! name = Some mm /\ m = resolveMode (raw_mode (m_CacheRoute (mm_pool mm))).

Lemma modes_true_frame ms ms' s :
  (forall name, frame <$> ms' !! name = frame <$> ms !! name) -> modes_true ms s -> modes_true ms' s.
Proof.
  intros H M name m (mm & Hm & ->)%M. specialize (H name). rewrite Hm in H. cbn in H.
  destruct (ms' !! name) as [mm'|]; [|done]. exists mm'. split; [done|]. injection H as _ E. by rewrite E.
Qed.

Lemma publish_model_mode name c s s' :
  publish_model name c s = Some s' -> lastMode s' = <[name := resolveMode (raw_mode (CacheRoute c))]> (lastMode s).
Proof.
  unfold publish_model, SetPoolInfo. destruct (pool_hash _) as [h|]; cbn -[replace_label]; [|done].
  by destruct (String.eqb h ""); intros [= <-].
Qed.

Lemma modes_true_publish name c mm ms s s' :
  publish_model name c s = Some s' -> m_CacheRoute (mm_pool mm) = CacheRoute c -> modes_true ms s ->
  modes_true (<[name := mm]> ms) s'.
Proof.
  intros E%publish_model_mode Hc M k m. rewrite E. intros [[<- <-]|[Hk (x & Hx & ->)%M]]%lookup_insert_Some.
  - exists mm. by rewrite lookup_insert_eq, Hc.
  - exists x. by rewrite lookup_insert_ne.
Qed.

Lemma applyReservations_route rs hs m : m_CacheRoute (applyReservations rs hs m) = m_CacheRoute m.
Proof. unfold applyReservations. by repeat case_match. Qed.

Lemma add_models_modes entries : forall ms s ms' s',
  add_models entries ms s = Some (ms', s') -> modes_true ms s -> modes_true ms' s'.
Proof.
  induction entries as [|[name c] entries IH]; cbn; intros ms s ms' s'; [by intros [= <- <-]|].
  destruct (publish_model name c s) as [s1|] eqn:E; cbn; [|done]. intros H M. eapply IH; [exact H|].
  eapply modes_true_publish; [exact E| |exact M]. cbn. by rewrite applyReservations_route.
Qed.

Lemma modes_true_sync now name config mm ms s s' :
  ms !! name = Some mm -> publish_sync name (mm_Repo mm) config s = Some s' -> modes_true ms s ->
  modes_true (<[name := fst (sync_model now config mm)]> ms) s'.
Proof.
  intros Hn E M. destruct config as [c|]; cbn in *.
  - destruct (negb _); [injection E as <-; by rewrite insert_id|].
    eapply modes_true_publish; [exact E| |exact M]. cbn. by rewrite applyReservations_route.
  - injection E as <-. intros k m. cbn. intros [Hk (x & Hx & ->)%M]%lookup_delete_Some. exists x. by rewrite lookup_insert_ne.
Qed.

(** ** The invariant of a round *)

(** While renewing, the hosts done, those left to the goroutines and those of
    the models not started are the configured hosts; each host done left at most
    one error. *)
Definition round_ok (w : Worker) : Prop :=
  let ms := models (manager w) in
  match at_phase w with
  | Ticking => (length (em_errors w) <= length (all_hosts ms) + 1)%nat
  | Starting | Fetching | Applying _ _ => em_errors w = []
  | Renewing e todo running renewed =>
      renewed ++ pending running ++ flat_map (hosts_of ms) todo ≡ₚ all_hosts ms
      /\ (length (em_errors w) <= length renewed)%nat
  end.

(** The models a phase has left exist. *)
Definition phase_todo (p : phase) : list string :=
  match p with Applying _ todo | Renewing _ todo _ _ => todo | _ => [] end.

Record worker_ok (w : Worker) : Prop := {
  wo_round : round_ok w;
  wo_todo : forall name, name ∈ phase_todo (at_phase w) -> name ∈ dom (models (manager w));
  wo_labels : info_ok (labels w);
  wo_modes : modes_true (models (manager w)) (labels w)
}.

Lemma worker_ok_init k config w : initial (worker_machine k config) w -> worker_ok w.
Proof.
  intros (parse & interval & url & refresh & debug & entries & Hp & H).
  destruct (newWorker_manager _ _ _ _ _ _ _ _ Hp H) as (Hm & Hl & He & _ & Ht). split; [| |done|].
  - unfold round_ok. rewrite Ht, He. cbn. lia.
  - rewrite Ht. by intros name ?%not_elem_of_nil.
  - unfold newWorker in H. destruct (refresh <=? 0); [done|]. destruct (validateControlPlaneURL parse url debug); [done|].
    injection H as H. destruct (add_models entries ∅ initial_info) as [[ms s]|] eqn:E; cbn in H; [|done].
    injection H as <-. cbn. eapply add_models_modes; [exact E|]. intros name m Hx. discriminate Hx.
Qed.

Lemma round_ok_frame w m :
  (forall name, frame <$> models m !! name = frame <$> models (manager w) !! name) -> round_ok w -> round_ok (set_manager m w).
Proof.
  intros H. unfold round_ok; cbn. rewrite (all_hosts_frame _ _ H).
  destruct (at_phase w); [done..|]. by rewrite (flat_map_hosts_frame _ _ _ H).
Qed.

(** Renewing begins with nothing done and every model left. *)
Lemma round_ok_begin e todo w :
  em_errors w = [] -> todo ≡ₚ elements (dom (models (manager w))) -> round_ok (set_phase (Renewing e todo [] []) w).
Proof. intros He Ht. unfold round_ok; cbn. rewrite He. split; [|done]. unfold all_hosts. by rewrite Ht. Qed.

Lemma add_error_length err errs : (length (add_error err errs) <= S (length errs))%nat.
Proof. destruct err; cbn; [rewrite length_app; cbn|]; lia. Qed.

Lemma pending_next before name h hosts after :
  pending (before ++ (name, h :: hosts) :: after) ≡ₚ (name, h) :: pending (before ++ (name, hosts) :: after).
Proof. rewrite !pending_app. cbn. symmetry. apply Permutation_middle. Qed.

Lemma round_ok_work k w w' : round_ok w -> work k w w' -> round_ok w'.
Proof.
  intros H Hs. destruct Hs as [w Hp|w now Hp Hn|w config data todo Hp Ht|w err todo Hp Ht|w config name todo ms log mm now s' Hp Hw Hm Hl
    |w config todo Hp Ht|w e name todo running renewed mm hosts Hp Hm Hh|w e todo before name h hosts after renewed err Hp
    |w running renewed now Hp Hr Hn|w err running renewed Hp Hr|w m Hb].
  all: try (unfold round_ok in H; rewrite Hp in H).
  - done.
  - done.
  - done.
  - by apply round_ok_begin.
  - done.
  - by apply round_ok_begin.
  - destruct H as [H1 H2]. split; [|done]. rewrite <- H1. cbn. rewrite pending_app, <- app_assoc. cbn. rewrite app_nil_r.
    unfold hosts_of at 2. rewrite Hm, Hh. done.
  - destruct H as [H1 H2]. split; cbn [at_phase set_phase set_errors em_errors manager models].
    + rewrite <- H1, pending_next. rewrite <- app_assoc. done.
    + rewrite length_app. cbn. pose proof (add_error_length err (em_errors w)). lia.
  - destruct H as [H1 H2]. rewrite Hr in H1. cbn in H1. rewrite !app_nil_r in H1.
    unfold round_ok; cbn. rewrite <- H1. lia.
  - destruct H as [H1 H2]. rewrite Hr in H1. cbn in H1. rewrite !app_nil_r in H1.
    unfold round_ok; cbn. rewrite <- H1, length_app. cbn. lia.
  - apply round_ok_frame; [by eapply background_frame|done].
Qed.

Lemma worker_ok_work k w w' : worker_ok w -> work k w w' -> worker_ok w'.
Proof.
  intros [H1 H0 H2 H3] Hs. split; [by eapply round_ok_work|..].
  all: destruct Hs as [w Hp|w now Hp Hn|w config data todo Hp Ht|w err todo Hp Ht|w config name todo ms log mm now s' Hp Hw Hm Hl
    |w config todo Hp Ht|w e name todo running renewed mm hosts Hp Hm Hh|w e todo before name h hosts after renewed err Hp
    |w running renewed now Hp Hr Hn|w err running renewed Hp Hr|w m Hb]; try done.
  all: try (cbn; intros ? ?%not_elem_of_nil; done).
  all: try (cbn; intros ? Hx; rewrite Ht in Hx; by apply elem_of_elements in Hx).
  - rewrite Hp, Hw in H0. cbn in *. intros n Hx. rewrite dom_insert_lookup_L by by eexists. apply H0. by right.
  - rewrite Hp in H0. cbn in *. intros n Hx. apply H0. by right.
  - rewrite Hp in H0. by cbn in *.
  - cbn. by rewrite (frame_dom _ _ (background_frame _ _ _ Hb)).
  - by eapply publish_sync_ok.
  - cbn. eapply modes_true_sync; [done|exact Hl|]. by rewrite Hw in H3.
  - cbn. eapply modes_true_frame; [by eapply background_frame|done].
Qed.

Lemma worker_reachable_ok k config w : reachable (worker_machine k config) w -> worker_ok w.
Proof. apply reachable_invariant; [apply worker_ok_init|apply worker_ok_work]. Qed.

Lemma NoDup_hosts ms l : NoDup l -> NoDup (flat_map (hosts_of ms) l).
Proof.
  induction 1 as [|name l Hn _ IH]; cbn; [constructor|]. apply NoDup_app. split_and!; [| |done].
  - unfold hosts_of. destruct (ms !! name); [|constructor]. apply (NoDup_fmap_2 (pair name)), NoDup_elements.
  - intros x Hx Hl. apply list_elem_of_In, in_flat_map in Hl as (name' & Hl & Hx').
    apply list_elem_of_In in Hl, Hx'. assert (forall y z, y ∈ hosts_of ms z -> y.1 = z) as E.
    { intros y z. unfold hosts_of. destruct (ms !! z); [|by intros ?%not_elem_of_nil].
      by intros (h & -> & _)%list_elem_of_fmap. }
    apply E in Hx, Hx'. by subst.
Qed.

Lemma NoDup_all_hosts ms : NoDup (all_hosts ms).
Proof. apply NoDup_hosts, NoDup_elements. Qed.

(** What is left of a round that renews: the goroutines to start, and the hosts
    not done. *)
Definition work_left (w : Worker) : nat :=
  match at_phase w with
  | Renewing _ todo running _ =>
      length todo + length (flat_map (hosts_of (models (manager w))) todo) + length (pending running)
  | _ => 0
  end.

Lemma pending_decompose running x l :
  pending running = x :: l -> exists before name h hosts after, running = before ++ (name, h :: hosts) :: after.
Proof.
  induction running as [|[name hosts] running IH]; [done|]. destruct hosts as [|h hosts]; cbn.
  - intros H. destruct (IH H) as (b & n & h & hs & a & ->). by exists ((name, []) :: b), n, h, hs, a.
  - intros _. by exists [], name, h, hosts, running.
Qed.

(** The clock is past Go's zero time. *)
Lemma clock_ready m md l errs now attempted p : time_zero < now -> Ready (MkWorker m md l errs now attempted p) = true.
Proof. intros H. unfold Ready, IsZero; cbn. apply negb_true_iff, Z.eqb_neq. lia. Qed.

Lemma worker_reaches_manager k config w :
  reachable (worker_machine k config) w -> reachable (manager_machine k config) (manager w).
Proof.
  induction 1 as [w (parse & interval & url & refresh & debug & entries & Hp & H)|w w' _ IH Hs].
  - destruct (newWorker_manager _ _ _ _ _ _ _ _ Hp H) as [-> _]. by constructor.
  - destruct Hs; try exact IH.
    + cbn. rewrite H0 in IH. eapply reach_next; [exact IH|]. by constructor.
    + eapply reach_next; [exact IH|]. by constructor.
Qed.

(** ** Theorems *)

(** The worker refines the manager: every state of the running router is one the
    manager's machine reaches from the initial configuration. *)
Theorem worker_refines_manager k config w :
  reachable (worker_machine k config) w -> reachable (manager_machine k config) (manager w).
Proof. apply worker_reaches_manager. Qed.


(** The router becomes ready only at the end of a round that had its
    configuration and went through every configured host, and stays ready. *)
Theorem ready_after_full_round k config w w' :
  reachable (worker_machine k config) w -> work k w w' ->
  (Ready w = true -> Ready w' = true)
  /\ (Ready w = false -> Ready w' = true ->
      exists running renewed, at_phase w = Renewing None [] running renewed /\ renewed ≡ₚ all_hosts (models (manager w))).
Proof.
  intros Hr Hs. pose proof (wo_round _ (worker_reachable_ok _ _ _ Hr)) as H. unfold round_ok in H.
  destruct (decide (lastSuccessfulUpdate w' = lastSuccessfulUpdate w)) as [E|E].
  { unfold Ready. rewrite E. split; [done|]. intros F T. congruence. }
  destruct Hs; try done. split.
  - intros _. by apply clock_ready.
  - intros _ _. rewrite H0 in H. destruct H as [H _]. rewrite H1 in H. cbn in H. rewrite !app_nil_r in H. by eexists _, _.
Qed.

(** The errors of the status are those of one round: at most one for each
    configured host and one for the configuration; they do not pile up. *)
Theorem status_errors_bounded k config w now :
  reachable (worker_machine k config) w ->
  (length (st_errors (Status now w)) <= length (all_hosts (st_models (Status now w))) + 1)%nat.
Proof.
  intros Hr. pose proof (wo_round _ (worker_reachable_ok _ _ _ Hr)) as H. unfold round_ok in H. cbn.
  destruct (at_phase w); [lia|rewrite H; cbn; lia..|]. destruct H as [<- H]. rewrite length_app. lia.
Qed.

(** The mode published for a model is the one its requests are routed with, in
    every state, between and within rounds. *)
Theorem published_mode_true k config w name v secret :
  reachable (worker_machine k config) w -> (name, v) ∈ ModeInfo (labels w) ->
  exists mm, models (manager w) !! name = Some mm
    /\ v = mode_label (s_Mode (CacheRouteSettings secret (mm_pool mm))).
Proof.
  intros Hr Hv. destruct (worker_reachable_ok _ _ _ Hr) as [_ _ Hl Hm].
  apply (ok_mode _ Hl) in Hv as (m & Hv & ->). apply Hm in Hv as (mm & Hmm & ->). exists mm. split; [done|].
  unfold CacheRouteSettings. by destruct (m_CacheRoute (mm_pool mm)).
Qed.


(** A renewing round terminates: it is never stuck, and each step of the worker
    or of its goroutines ends it or leaves less to do, while requests leave it
    as it is. *)
Theorem round_terminates k config w e todo running renewed :
  reachable (worker_machine k config) w -> at_phase w = Renewing e todo running renewed ->
  (exists w', work k w w' /\ manager w' = manager w
     /\ (at_phase w' = Ticking \/ (work_left w' < work_left w)%nat))
  /\ forall w', work k w w' ->
       at_phase w' = Ticking
       \/ (exists todo' running' renewed', at_phase w' = Renewing e todo' running' renewed')
          /\ ((work_left w' < work_left w)%nat
              \/ background k (manager w) (manager w') /\ at_phase w' = at_phase w /\ work_left w' = work_left w).
Proof.
  intros Hr Hp. assert (forall w', work k w w' ->
       at_phase w' = Ticking
       \/ (exists todo' running' renewed', at_phase w' = Renewing e todo' running' renewed')
          /\ ((work_left w' < work_left w)%nat
              \/ background k (manager w) (manager w') /\ at_phase w' = at_phase w /\ work_left w' = work_left w)) as Hstep.
  { intros w' Hs. destruct Hs as [w Hq|w now Hq Hn|w cfg data l Hq Ht|w err l Hq Ht|w cfg name l ms log mm now s' Hq Hw Hm Hl
      |w cfg l Hq Ht|w e' name l r d mm hosts Hq Hm Hh|w e' l before name h hosts after d err Hq
      |w r d now Hq Hl Hn|w err r d Hq Hl|w m Hb]; try congruence; try (by left); right; rewrite Hp in *.
    - injection Hq as -> -> -> ->. split; [by eexists _, _, _|]. left. unfold work_left. cbn. rewrite Hp. cbn.
      rewrite pending_app, !length_app. cbn. rewrite app_nil_r. unfold hosts_of at 2. rewrite Hm, !length_map, Hh. lia.
    - injection Hq as -> -> -> ->. split; [by eexists _, _, _|]. left. unfold work_left. cbn. rewrite Hp.
      rewrite pending_next. cbn. lia.
    - split; [by eexists _, _, _|]. right. split; [done|]. split; [done|]. unfold work_left; cbn.
      rewrite Hp. by rewrite (flat_map_hosts_frame _ _ _ (background_frame _ _ _ Hb)). }
  split; [|exact Hstep].
  assert (exists w', work k w w' /\ manager w' = manager w /\ at_phase w' <> at_phase w) as (w' & Hs & Hm & Hne).
  { destruct todo as [|name todo].
    - destruct (pending running) as [|x l] eqn:El.
      + destruct e as [err|].
        * eexists. split; [by eapply wk_fail|]. split; [done|]. by rewrite Hp.
        * eexists. split; [by apply (wk_finish _ _ _ _ (time_zero + 1) Hp El)|]. split; [done|]. by rewrite Hp.
      + apply pending_decompose in El as (b & name & h & hosts & a & ->).
        eexists. split; [by apply (wk_renew _ _ _ _ _ _ _ _ _ _ None Hp)|]. split; [done|]. rewrite Hp. cbn. intros [= _ E].
        apply (f_equal length) in E. rewrite length_app in E. cbn in E. lia.
    - pose proof (wo_todo _ (worker_reachable_ok _ _ _ Hr) name) as Hd. rewrite Hp in Hd.
      specialize (Hd ltac:(cbn; by left)). apply elem_of_dom in Hd as [mm Hmm].
      eexists. split; [by apply (wk_launch _ _ _ _ _ _ _ _ (elements (dom (configuredHosts (mm_pool mm)))) Hp Hmm)|]. split; [done|]. rewrite Hp. cbn. intros [= _ E].
      apply (f_equal length) in E. rewrite length_app in E. cbn in E. lia. }
  exists w'. split; [done|]. split; [done|]. destruct (Hstep w' Hs) as [?|[_ [?|(_ & ? & _)]]]; [by left|by right|done].
Qed.

(** Every target handed to the metrics scraper is a backend the verifier vouched
    for, on a configured host of the model it is labelled with. *)
Theorem targets_admitted k config w order hosts g h :
  reachable (worker_machine k config) w -> (forall es x, x ∈ hosts es -> x ∈ dom es) ->
  g ∈ PrometheusTargets order hosts (models (manager w)) -> h ∈ Targets g ->
  exists name mm e, tg_Labels g !! "model_name" = Some name /\ models (manager w) !! name = Some mm
    /\ Enclaves (mm_pool mm) !! h = Some e /\ admitted k (calls (manager w)) (mm_Repo mm) (mm_pool mm) h e.
Proof.
  intros Hr Hh Hg Ht. apply worker_reaches_manager, manager_reachable_ok in Hr.
  unfold PrometheusTargets in Hg. apply list_elem_of_In, in_flat_map in Hg as (name & _ & Hg). apply list_elem_of_In in Hg.
  destruct (models (manager w) !! name) as [mm|] eqn:Hm; [|by apply not_elem_of_nil in Hg].
  destruct (decide _); [by apply not_elem_of_nil in Hg|]. apply list_elem_of_singleton in Hg as ->. cbn in *.
  apply Hh, elem_of_dom in Ht as [e He]. exists name, mm, e. split; [done|]. split; [done|]. split; [done|].
  by apply (mo_models _ _ _ Hr name mm Hm).
Qed.

(** ** A round without a configuration *)

Definition sample_model : Model := Build_Model "org/repo" ["h1"] None (Some sample_route) [].
Definition sample_models : gmap string Model := {["m" := sample_model]}.
Definition sample_start : Worker :=
  MkWorker (MkManager {["m" := addModel sample_model]} []) (MkMetadata ∅ ∅ ∅)
    (default initial_info (publish_model "m" sample_model initial_info)) [] time_zero time_zero Ticking.
Definition sample_fetching : Worker :=
  MkWorker (manager sample_start) (w_metadata sample_start) (labels sample_start) [] time_zero 5 Fetching.
Definition sample_renewing : Worker := set_phase (Renewing (Some "down") [] [("m", ["h1"])] []) sample_fetching.
Definition sample_renewed : Worker :=
  set_phase (Renewing (Some "down") [] [("m", [])] [("m", "h1")]) (set_errors ["h1: refused"] sample_renewing).
Definition sample_end : Worker :=
  set_phase Ticking (set_errors ["h1: refused"; "failed to fetch config: down"] sample_renewed).

Lemma sample_started : reachable (worker_machine "hpke" sample_models) sample_start.
Proof.
  constructor. exists (fun _ => Some ("https", "cp")), (fun _ => ""), "https://cp", 1, false, [("m", sample_model)].
  split; [done|]. vm_compute. reflexivity.
Qed.

Lemma round_ran :
  reachable (worker_machine "hpke" sample_models) sample_renewing
  /\ reachable (worker_machine "hpke" sample_models) sample_renewed /\ work "hpke" sample_renewed sample_end.
Proof.
  assert (reachable (worker_machine "hpke" sample_models) sample_renewing) as H.
  { eapply reach_next; [|apply (wk_launch "hpke" (set_phase (Renewing (Some "down") ["m"] [] []) sample_fetching)
      (Some "down") "m" [] [] [] (addModel sample_model) ["h1"]); [done|vm_compute; reflexivity|vm_compute; reflexivity]].
    eapply reach_next; [|apply wk_unfetched; [done|vm_compute; reflexivity]].
    eapply reach_next; [|apply (wk_attempt "hpke" (set_phase Starting (set_errors [] sample_start)) 5); [done|vm_compute; reflexivity]].
    eapply reach_next; [exact sample_started|by apply wk_clear]. }
  split; [done|]. split.
  - eapply reach_next; [exact H|]. by apply (wk_renew "hpke" sample_renewing (Some "down") [] [] "m" "h1" [] [] [] (Some "h1: refused")).
  - by apply (wk_fail "hpke" sample_renewed "down" [("m", [])] [("m", "h1")]).
Qed.

Lemma worker_refines_manager_witness :
  reachable (manager_machine "hpke" sample_models) (manager sample_renewed).
Proof. apply (worker_refines_manager "hpke" sample_models sample_renewed). apply round_ran. Defined.


Lemma ready_after_full_round_witness : Ready sample_renewed = true -> Ready sample_end = true.
Proof. apply (ready_after_full_round "hpke" sample_models sample_renewed sample_end); apply round_ran. Defined.

Lemma status_errors_bounded_witness :
  (length (st_errors (Status 9 sample_renewed)) <= length (all_hosts (st_models (Status 9 sample_renewed))) + 1)%nat.
Proof. apply (status_errors_bounded "hpke" sample_models sample_renewed 9). apply round_ran. Defined.

Lemma published_mode_true_witness :
  exists mm, models (manager sample_start) !! "m" = Some mm
    /\ "enforced" = mode_label (s_Mode (CacheRouteSettings "secret" (mm_pool mm))).
Proof.
  apply (published_mode_true "hpke" sample_models sample_start "m" "enforced" "secret"); [exact sample_started|].
  apply (bool_decide_unpack _). vm_compute. exact I.
Defined.

Lemma round_terminates_witness :
  exists w', work "hpke" sample_renewing w' /\ manager w' = manager sample_renewing
    /\ (at_phase w' = Ticking \/ (work_left w' < work_left sample_renewing)%nat).
Proof.
  apply (round_terminates "hpke" sample_models sample_renewing (Some "down") [] [("m", ["h1"])] []); [apply round_ran|reflexivity].
Defined.

(** A backend verified in the background is a target. *)
Definition attested_start : Worker :=
  MkWorker (MkManager {["m" := LifecycleExample.mm0]} []) (MkMetadata ∅ ∅ ∅)
    (default initial_info (publish_model "m" (Build_Model "org/repo" ["h1"] None None []) initial_info)) [] time_zero time_zero Ticking.
Definition attested : Worker := set_manager (MkManager {["m" := LifecycleExample.mm1]} ([] ++ [LifecycleExample.call "k1"])) attested_start.

Lemma attested_reachable : reachable (worker_machine LifecycleExample.hpkeID LifecycleExample.config) attested.
Proof.
  assert (reachable (worker_machine LifecycleExample.hpkeID LifecycleExample.config) attested_start) as H.
  { constructor. exists (fun _ => Some ("https", "cp")), (fun _ => ""), "https://cp", 1, false, [("m", Build_Model "org/repo" ["h1"] None None [])].
    split; [done|]. vm_compute. reflexivity. }
  eapply reach_next; [eapply reach_next; [exact H|]|].
  - eapply (wk_background LifecycleExample.hpkeID attested_start). by apply (st_verify LifecycleExample.hpkeID _ _ "m" LifecycleExample.mm0 "h1" (LifecycleExample.verification "k1") 100).
  - eapply (wk_background LifecycleExample.hpkeID (set_manager _ _) (manager attested)). cbn [manager set_manager attested].
    replace {["m" := LifecycleExample.mm1]} with (<["m" := LifecycleExample.mm1]> ({["m" := LifecycleExample.mm0]} : gmap string Managed)) by apply insert_singleton_eq.
    eapply (st_commit LifecycleExample.hpkeID _ _ "m" LifecycleExample.mm0 100 (LifecycleExample.call "k1")); [done|set_solver|done|vm_compute; reflexivity|vm_compute; reflexivity].
Qed.

Definition attested_group : PrometheusTargetGroup := MkTargets ["h1"] (<["__param_model" := "m"]> {["model_name" := "m"]}).

Lemma targets_admitted_witness :
  exists name mm e, tg_Labels attested_group !! "model_name" = Some name /\ models (manager attested) !! name = Some mm
    /\ Enclaves (mm_pool mm) !! "h1" = Some e /\ admitted LifecycleExample.hpkeID (calls (manager attested)) (mm_Repo mm) (mm_pool mm) "h1" e.
Proof.
  apply (targets_admitted LifecycleExample.hpkeID LifecycleExample.config attested ["m"] (fun es => elements (dom es)) attested_group "h1").
  - exact attested_reachable.
  - intros es x. by rewrite elem_of_elements.
  - replace (PrometheusTargets _ _ _) with [attested_group] by (vm_compute; reflexivity). by left.
  - by left.
Defined.
