(* ===== verification/TokenCount.v ===== *)
(** * Token usage and costs ([tokencount/extractor.go], [manager/pricing.go])

    The usage record and its normalization, the line machine that watches an
    event stream for usage while forwarding it, and the request cost with its
    decimal rendering.

    The stream is the list of lines the scanner yields and whether it then
    failed; [json.Unmarshal] of a chunk and the re-encoding of its usage value
    into a [Usage] are parameters. *)

From S2P Require Import Prelude Float64 Sha256 Strconv Json CacheSalt Autoroute.
From Stdlib Require Import Ascii.
#[local] Open Scope string_scope.
#[local] Open Scope list_scope.
#[local] Open Scope Z_scope.

(** ** Usage *)

Record Usage := MkUsage {
  PromptTokens : Z;
  CompletionTokens : Z;
  TotalTokens : Z;
  InputTokens : Z;
  OutputTokens : Z;
  PromptTokensDetails : option Z;
  InputTokensDetails : option Z
}.

Definition zeroUsage : Usage := MkUsage 0 0 0 0 0 None None.

Definition Normalize (u : Usage) : Usage :=
  MkUsage
    (if (PromptTokens u =? 0) && (InputTokens u >? 0) then InputTokens u else PromptTokens u)
    (if (CompletionTokens u =? 0) && (OutputTokens u >? 0) then OutputTokens u else CompletionTokens u)
    (TotalTokens u) (InputTokens u) (OutputTokens u)
    (match PromptTokensDetails u with None => InputTokensDetails u | Some d => Some d end)
    (InputTokensDetails u).

Definition CachedPromptTokens (u : option Usage) : Z * bool :=
  match u with
  | None => (0, false)
  | Some u =>
      match PromptTokensDetails u with
      | None => (0, false)
      | Some cached => (Z.min (PromptTokens u) (Z.max 0 cached), true)
      end
  end.

(** ** The stream *)

Definition isTerminalResponseEvent (t : string) : bool :=
  bool_decide (t ∈ ["response.completed"; "response.failed"; "response.incomplete"; "error"]).

Definition HasPrefix (s p : string) : bool := bool_decide (is_Some (trim_prefix (to_bytes p) (to_bytes s))).
Definition TrimPrefixS (s p : string) : string := of_bytes (TrimPrefix (to_bytes s) (to_bytes p)).

(** The machine's variables; [written] is what has been forwarded, last line first. *)
Record stream := MkStream {
  usage : Usage;
  written : list string;
  lastLineWasFiltered : bool;
  terminalEventPending : bool;
  terminalResponseEvent : bool;
  eventHasData : bool
}.

Definition newStream : stream := MkStream zeroUsage [] false false false false.

Section Stream.
Context (unmarshal : string -> option object) (decode_usage : json -> option Usage).
Context (clientRequestedUsage : bool).

(** Continuous statistics: positive counts and present details replace. *)
Definition update_usage (s u : Usage) : Usage :=
  MkUsage
    (if PromptTokens u >? 0 then PromptTokens u else PromptTokens s)
    (if CompletionTokens u >? 0 then CompletionTokens u else CompletionTokens s)
    (if TotalTokens u >? 0 then TotalTokens u else TotalTokens s)
    (InputTokens s) (OutputTokens s)
    (match PromptTokensDetails u with Some d => Some d | None => PromptTokensDetails s end)
    (InputTokensDetails s).

(** The usage value of a chunk: at the top, else under [response]. *)
Definition chunk_usage (chunk : object) : json :=
  match get "usage" chunk with
  | JNull => match get "response" chunk with JObj r => get "usage" r | _ => JNull end
  | u => u
  end.

Definition usage_only (chunk : object) : bool :=
  match get "choices" chunk with JArr [] => true | _ => false end.

(** A [data:] line: the new usage, whether the event ends the stream, and
    whether the line is forwarded. *)
Definition read_data (u : Usage) (pending : bool) (line : string) : Usage * bool * bool :=
  let data := TrimPrefixS (TrimPrefixS line "data:") " " in
  if String.eqb data "[DONE]" then (u, true, true)
  else
    match unmarshal data with
    | None => (u, pending, true)
    | Some chunk =>
        let pending := match get "type" chunk with JStr t => if isTerminalResponseEvent t then true else pending | _ => pending end in
        match chunk_usage chunk with
        | JNull => (u, pending, true)
        | v =>
            let u := match decode_usage v with Some u' => update_usage u (Normalize u') | None => u end in
            (u, pending, clientRequestedUsage || negb (usage_only chunk))
        end
    end.

(** One iteration of the scan loop; the flag is [break]. *)
Definition process_line (s : stream) (line : string) : stream * bool :=
  let terminalResp :=
    if HasPrefix line "event:" then isTerminalResponseEvent (TrimSpace (TrimPrefixS line "event:"))
    else terminalResponseEvent s in
  if lastLineWasFiltered s && String.eqb line "" then
    (MkStream (usage s) (written s) false false false false, false)
  else
    let '(u, pending, hasData, shouldWrite) :=
      if HasPrefix line "data:" then
        let '(u, pending, shouldWrite) := read_data (usage s) (terminalEventPending s) line in (u, pending, true, shouldWrite)
      else (usage s, terminalEventPending s, eventHasData s, true) in
    let out := if shouldWrite then line :: written s else written s in
    if String.eqb line "" then
      if (pending || terminalResp) && hasData then (MkStream u out (negb shouldWrite) pending terminalResp hasData, true)
      else (MkStream u out (negb shouldWrite) false false false, false)
    else (MkStream u out (negb shouldWrite) pending terminalResp hasData, false).

(** The scan loop over the lines: the final state, and whether it broke off. *)
Fixpoint scan (s : stream) (lines : list string) : stream * bool :=
  match lines with
  | [] => (s, false)
  | line :: lines => let '(s, stop) := process_line s line in if stop then (s, true) else scan s lines
  end.

(** What the usage handler is called with, if it is. *)
Definition reported_usage (s : stream) : option Usage :=
  let u := usage s in
  if (TotalTokens u >? 0) || (CompletionTokens u >? 0) then
    Some (if (TotalTokens u =? 0) && (CompletionTokens u >? 0) then
            MkUsage (PromptTokens u) (CompletionTokens u) (wrap64 (PromptTokens u + CompletionTokens u)) (InputTokens u) (OutputTokens u)
              (PromptTokensDetails u) (InputTokensDetails u)
          else u)
  else None.

(** The forwarded lines (each followed by a newline), the reported usage, and
    whether the client's stream is aborted with the scanner's error, which only
    a scan that ran out of lines can meet. *)
Definition processStream (lines : list string) (scanErr : bool) : list string * option Usage * bool :=
  let '(s, stopped) := scan newStream lines in (rev (written s), reported_usage s, scanErr && negb stopped).

(** ** Forwarding *)

(** A [data:] line holding usage and an empty [choices] array, for a client
    that did not ask for usage. *)
Definition usage_only_line (line : string) : Prop :=
  clientRequestedUsage = false /\ HasPrefix line "data:" = true
  /\ exists chunk, unmarshal (TrimPrefixS (TrimPrefixS line "data:") " ") = Some chunk
       /\ chunk_usage chunk <> JNull /\ get "choices" chunk = JArr [].

(** [forwards filtered lines out]: [out] is [lines] without usage-only lines and
    without a blank line that directly follows one ([filtered]: the line before
    was such a line). *)
Inductive forwards : bool -> list string -> list string -> Prop :=
  | fw_nil b : forwards b [] []
  | fw_keep b line ls out : forwards false ls out -> forwards b (line :: ls) (line :: out)
  | fw_usage b line ls out : usage_only_line line -> forwards true ls out -> forwards b (line :: ls) out
  | fw_blank ls out : forwards false ls out -> forwards true ("" :: ls) out.

Lemma read_data_drop u pending line u' pending' :
  HasPrefix line "data:" = true -> read_data u pending line = (u', pending', false) -> usage_only_line line.
Proof.
  intros Hp. unfold read_data, usage_only_line. set (data := TrimPrefixS _ " "). destruct (String.eqb data "[DONE]"); [done|].
  destruct (unmarshal data) as [chunk|] eqn:Hu; [|done]. intros H.
  assert (chunk_usage chunk <> JNull /\ clientRequestedUsage || negb (usage_only chunk) = false) as [Hne Hor].
  { destruct (chunk_usage chunk); [done|..]; split; congruence. }
  apply orb_false_iff in Hor as [Hc Huo]. apply negb_false_iff in Huo. split_and!; [done|done|]. exists chunk. split_and!; [done|done|].
  unfold usage_only in Huo. destruct (get "choices" chunk) as [| | | | | |l|]; try done. by destruct l.
Qed.

Lemma process_line_cases s line s' stop :
  process_line s line = (s', stop) ->
  (written s' = written s /\ lastLineWasFiltered s' = false /\ lastLineWasFiltered s = true /\ line = "" /\ stop = false)
  \/ (written s' = line :: written s /\ lastLineWasFiltered s' = false /\ (stop = true -> line = ""))
  \/ (written s' = written s /\ lastLineWasFiltered s' = true /\ usage_only_line line /\ stop = false).
Proof.
  unfold process_line. destruct (lastLineWasFiltered s && String.eqb line "") eqn:E0.
  { intros [= <- <-]. apply andb_true_iff in E0 as [? ?%String.eqb_eq]. by left. }
  destruct (HasPrefix line "data:") eqn:Ep.
  - assert (String.eqb line "" = false) as ->. { destruct (String.eqb_spec line "") as [->|]; [by vm_compute in Ep|done]. }
    destruct (read_data (usage s) (terminalEventPending s) line) as [[u pending] w] eqn:Er; destruct w; intros [= <- <-]; simpl.
    + right; left. done.
    + right; right. apply read_data_drop in Er; done.
  - cbn iota zeta beta. destruct (String.eqb_spec line "") as [->|].
    + destruct (_ && eventHasData s); intros [= <- <-]; by right; left.
    + intros [= <- <-]. by right; left.
Qed.

Lemma scan_forwards lines : forall s,
  exists consumed rest out, lines = consumed ++ rest /\ written (scan s lines).1 = rev out ++ written s
    /\ forwards (lastLineWasFiltered s) consumed out
    /\ ((scan s lines).2 = false -> rest = []) /\ ((scan s lines).2 = true -> last consumed = Some "").
Proof.
  induction lines as [|line lines IH]; intros s; cbn [scan]; [exists [], [], []; by repeat constructor|].
  destruct (process_line s line) as [s1 stop] eqn:Hp.
  apply process_line_cases in Hp as [(Hw & Hf & Hf0 & -> & ->)|[(Hw & Hf & Hs)|(Hw & Hf & Hu & ->)]].
  - destruct (IH s1) as (c & r & out & -> & Hout & Hfw & H1 & H2). rewrite Hf in Hfw. exists ("" :: c), r, out.
    rewrite Hout, Hw, Hf0. split_and!; [done|done|by constructor|done|].
    intros Hs. specialize (H2 Hs). destruct c; done.
  - destruct stop.
    + exists [line], lines, [line]. cbn [fst snd]. rewrite Hw. rewrite Hs by done. split_and!; try done. repeat constructor.
    + destruct (IH s1) as (c & r & out & -> & Hout & Hfw & H1 & H2). rewrite Hf in Hfw. exists (line :: c), r, (line :: out).
      rewrite Hout, Hw. simpl. rewrite <- app_assoc. split_and!; [done|done|by constructor|done|].
      intros Hst. specialize (H2 Hst). destruct c; done.
  - destruct (IH s1) as (c & r & out & -> & Hout & Hfw & H1 & H2). rewrite Hf in Hfw. exists (line :: c), r, out.
    rewrite Hout, Hw. split_and!; [done|done|by apply fw_usage|done|].
    intros Hst. specialize (H2 Hst). destruct c; done.
Qed.

Lemma forwards_all b ls out : clientRequestedUsage = true -> b = false -> forwards b ls out -> out = ls.
Proof.
  intros Hc Hb H. induction H as [|b line ls out _ IH|b line ls out Hu _ _|ls out _ _]; [done| | |done].
  - f_equal. by apply IH.
  - destruct Hu as [Hu _]. congruence.
Qed.

(** Watching an event stream for usage loses nothing of it. What the client
    receives is, line by line and in order, what the backend sent up to the end
    of the terminal event (everything, when there is none), except chunks that
    carry only usage and the blank line after each, and those only when the
    client did not ask for usage; and a stream that fails before a terminal
    event is aborted rather than ended cleanly. *)
Theorem stream_forwarding lines scanErr :
  exists consumed rest,
    lines = consumed ++ rest
    /\ forwards false consumed (processStream lines scanErr).1.1
    /\ (clientRequestedUsage = true -> (processStream lines scanErr).1.1 = consumed)
    /\ (rest <> [] -> last consumed = Some "")
    /\ ((processStream lines scanErr).2 = true -> scanErr = true /\ rest = [])
    /\ (scanErr = true -> (processStream lines scanErr).2 = false -> last consumed = Some "").
Proof.
  destruct (scan_forwards lines newStream) as (c & r & out & Hl & Hw & Hf & H1 & H2). exists c, r.
  unfold processStream. destruct (scan newStream lines) as [s stopped]. simpl in *. rewrite app_nil_r in Hw.
  rewrite Hw, rev_involutive. split_and!; try done.
  - intros Hc. by eapply forwards_all.
  - intros Hr. destruct stopped; [by apply H2|]. by destruct Hr; apply H1.
  - intros [-> Hs%negb_true_iff]%andb_true_iff. by split; [|apply H1].
  - intros ->. simpl. intros Hs%negb_false_iff. by apply H2.
Qed.

End Stream.

(** ** Costs *)

Definition nanosPerDollar : Z := 1000000000.
Definition nanosPerTokenMultiplier : Z := 1000.
Definition nanodollarDecimalPlaces : nat := 9.

Section Cost.
Context (int_out_of_range : float64 -> Z).

Definition tokenPriceNanos (pricePer1M : float64) : Z :=
  int_round int_out_of_range (f64_mul pricePer1M (f64_of_int nanosPerTokenMultiplier)).

Definition requestPriceNanos (price : float64) : Z :=
  int_round int_out_of_range (f64_mul price (f64_of_int nanosPerDollar)).

Definition CostKnownWithoutUsage (p : ModelPricing) : bool :=
  if negb (tokenPriceNanos (InputTokenPricePer1M p) =? 0) || negb (tokenPriceNanos (OutputTokenPricePer1M p) =? 0) then false
  else match CachedInputTokenPricePer1M p with None => true | Some c => tokenPriceNanos c =? 0 end.

(** Sums and products wrap at 64 bits. *)
Definition requestCostNanos (u : Usage) (p : ModelPricing) : Z :=
  let cached := Z.max 0 (CachedPromptTokens (Some u)).1 in
  let uncached := Z.max 0 (wrap64 (PromptTokens u - cached)) in
  let completion := Z.max 0 (CompletionTokens u) in
  let input := tokenPriceNanos (InputTokenPricePer1M p) in
  let cachedPrice := match CachedInputTokenPricePer1M p with Some c => tokenPriceNanos c | None => input end in
  wrap64 (requestPriceNanos (RequestPrice p) + uncached * input + cached * cachedPrice
          + completion * tokenPriceNanos (OutputTokenPricePer1M p)).

Record ServiceUsage := MkService { s_Calls : Z; s_Pricing : option ModelPricing }.
Record WebSearchUsage := MkWebSearch {
  Calls : Z;
  SessionPricing : option ModelPricing;
  Services : list ServiceUsage;
  OtherCostUnknown : bool
}.

Definition billed (w : option WebSearchUsage) : bool := match w with Some w => Calls w >? 0 | None => false end.

Definition unpriced (s : ServiceUsage) : bool := (s_Calls s >? 0) && match s_Pricing s with None => true | Some _ => false end.

Definition costKnown (w : option WebSearchUsage) : bool :=
  match w with
  | None => true
  | Some ws =>
      if OtherCostUnknown ws || (billed w && match SessionPricing ws with None => true | Some _ => false end) then false
      else negb (existsb unpriced (Services ws))
  end.

(** [None] is the nil dereference of an unpriced session. *)
Definition costNanos (w : option WebSearchUsage) : option Z :=
  if negb (billed w) then Some 0
  else ws ← w; p ← SessionPricing ws; Some (requestPriceNanos (RequestPrice p)).

Definition otherBilled (w : option WebSearchUsage) : bool :=
  match w with None => false | Some w => existsb (fun s => s_Calls s >? 0) (Services w) end.

Definition otherCostNanos (w : option WebSearchUsage) : Z :=
  match w with
  | None => 0
  | Some w =>
      foldl (fun total s =>
        match s_Pricing s with
        | Some p => if s_Calls s >? 0 then wrap64 (total + s_Calls s * requestPriceNanos (RequestPrice p)) else total
        | None => total
        end) 0 (Services w)
  end.

End Cost.

Fixpoint drop_zeros (l : bytes) : bytes :=
  match l with c :: l' => if byte_val c =? 48 then drop_zeros l' else l | [] => [] end.
(** [strings.TrimRight(s, "0")] *)
Definition trim_right_zeros (s : bytes) : bytes := rev (drop_zeros (rev s)).

(** [None] is the panic of a negative [strings.Repeat] count. *)
Definition formatNanosUSD (cost : Z) : option string :=
  let whole := Z.quot cost nanosPerDollar in
  let frac := Z.rem cost nanosPerDollar in
  if frac =? 0 then Some (FormatInt whole)
  else
    let fraction := to_bytes (FormatInt frac) in
    if (nanodollarDecimalPlaces <? length fraction)%nat then None
    else
      let fraction := replicate (nanodollarDecimalPlaces - length fraction) (byte_of 48) ++ fraction in
      Some (FormatInt whole +:+ "." +:+ of_bytes (trim_right_zeros fraction)).

Definition formatRequestCostUSD oor (u : Usage) (p : ModelPricing) : option string := formatNanosUSD (requestCostNanos oor u p).

(** ** Decimal dollars *)

Fixpoint cut_dot (s : bytes) : bytes * option bytes :=
  match s with
  | [] => ([], None)
  | c :: s => if byte_val c =? 46 then ([], Some s) else let '(a, b) := cut_dot s in (c :: a, b)
  end.

(** The nanodollars a decimal dollar amount with at most nine decimals denotes. *)
Definition usd_nanos (s : string) : option Z :=
  let '(w, f) := cut_dot (to_bytes s) in
  whole ← digits_from (Some 0) w;
  match f with
  | None => Some (whole * nanosPerDollar)
  | Some f =>
      if (nanodollarDecimalPlaces <? length f)%nat then None
      else n ← digits_from (Some 0) f; Some (whole * nanosPerDollar + n * 10 ^ Z.of_nat (nanodollarDecimalPlaces - length f))
  end.

Lemma cut_dot_digits w f : Forall is_digit w -> cut_dot (w ++ byte_of 46 :: f) = (w, Some f).
Proof.
  induction 1 as [|c w Hc _ IH]; simpl; [done|]. unfold is_digit in Hc.
  destruct (byte_val c =? 46) eqn:E; bool_simp; [lia|]. by rewrite IH.
Qed.

Lemma cut_dot_none w : Forall is_digit w -> cut_dot w = (w, None).
Proof.
  induction 1 as [|c w Hc _ IH]; simpl; [done|]. unfold is_digit in Hc.
  destruct (byte_val c =? 46) eqn:E; bool_simp; [lia|]. by rewrite IH.
Qed.

Lemma digits_from_app s1 s2 v : digits_from v (s1 ++ s2) = digits_from (digits_from v s1) s2.
Proof. unfold digits_from. by rewrite foldl_app. Qed.

Lemma digits_from_zeros k v : digits_from (Some v) (replicate k (byte_of 48)) = Some (v * 10 ^ Z.of_nat k).
Proof.
  revert v. induction k as [|k IH]; intros v; [simpl; f_equal; lia|]. cbn [replicate]. unfold digits_from in *.
  cbn [foldl mbind option_bind]. change (byte_of 48) with (digit_char 0). rewrite digit_value_char by lia. cbn [mbind option_bind].
  change (digit_char 0) with (byte_of 48). rewrite IH. f_equal. rewrite Nat2Z.inj_succ, Z.pow_succ_r by lia. lia.
Qed.

Lemma drop_zeros_split l : exists k, l = replicate k (byte_of 48) ++ drop_zeros l
  /\ forall c t, drop_zeros l = c :: t -> byte_val c <> 48.
Proof.
  induction l as [|c l (k & Hl & Hh)]; [by exists 0%nat|]. cbn [drop_zeros]. destruct (byte_val c =? 48) eqn:E; bool_simp.
  - exists (S k). split; [|done]. cbn [replicate app]. rewrite <- Hl. f_equal.
    rewrite <- (byte_of_val c), E. done.
  - exists 0%nat. split; [done|]. by intros ? ? [= <- <-].
Qed.

Lemma trim_right_zeros_split s : exists k, s = trim_right_zeros s ++ replicate k (byte_of 48)
  /\ forall c, last (trim_right_zeros s) = Some c -> byte_val c <> 48.
Proof.
  unfold trim_right_zeros. destruct (drop_zeros_split (rev s)) as (k & Hs & Hh). exists k. split.
  - rewrite <- (rev_involutive s) at 1. rewrite Hs at 1. rewrite rev_app_distr. f_equal.
    rewrite rev_alt. rewrite <- (reverse_replicate k (byte_of 48)) at 2. unfold reverse. by rewrite rev_append_rev, app_nil_r, rev_alt.
  - intros c Hc. destruct (drop_zeros (rev s)) as [|d t] eqn:E; [done|]. cbn [rev] in Hc.
    rewrite last_snoc in Hc. injection Hc as <-. by eapply Hh.
Qed.

Lemma trim_nonzero s n k : digits_from (Some 0) s = Some n -> n <> 0 -> s = replicate k (byte_of 48) -> False.
Proof. intros Hs Hn ->. rewrite digits_from_zeros in Hs. injection Hs as <-. lia. Qed.

(** A cost is printed exactly. Every cost an [int64] holds without a sign
    prints as a decimal dollar amount that reads back as the same number of
    nanodollars, with at most nine decimals and no trailing zero after the
    point. *)
Lemma formatNanosUSD_exact cost :
  0 <= cost <= int64_max ->
  exists s, formatNanosUSD cost = Some s /\ usd_nanos s = Some cost
    /\ (forall f, (cut_dot (to_bytes s)).2 = Some f ->
          (0 < length f <= 9)%nat /\ forall c, last f = Some c -> byte_val c <> 48).
Proof.
  intros Hc. unfold formatNanosUSD, nanosPerDollar. rewrite Z.quot_div_nonneg, Z.rem_mod_nonneg by lia.
  set (w := cost / 1000000000). set (n := cost mod 1000000000).
  assert (0 <= w) as Hw by (by apply Z.div_pos; lia). assert (0 <= n < 10 ^ 9) as Hn by (by apply Z.mod_pos_bound).
  assert (cost = w * 1000000000 + n) as Heq by (subst w n; pose proof (Z.div_mod cost 1000000000); lia).
  pose proof (FormatUint_digits w Hw) as Hdw. pose proof (FormatUint_value w Hw) as Hvw.
  destruct (n =? 0) eqn:E; bool_simp.
  - exists (FormatInt w). unfold usd_nanos. rewrite (FormatInt_nonneg w Hw), cut_dot_none by done.
    rewrite Hvw. split_and!; [done| |done]. cbn [mbind option_bind]. f_equal. unfold nanosPerDollar. lia.
  - rewrite (FormatInt_nonneg n) by lia. pose proof (FormatUint_digits n ltac:(lia)) as Hdn.
    pose proof (FormatUint_value n ltac:(lia)) as Hvn.
    assert (length (FormatUint n) <= 9)%nat as Hlen.
    { pose proof (dec_digits_length (S (Z.to_nat (Z.log2 n))) 9 n [] ltac:(lia) Hn) as H. cbn [length] in H. unfold FormatUint. lia. }
    unfold nanodollarDecimalPlaces. destruct (9 <? length (FormatUint n))%nat eqn:E9; [apply Nat.ltb_lt in E9; lia|]. clear E9.
    set (padded := replicate (9 - length (FormatUint n)) (byte_of 48) ++ FormatUint n).
    assert (length padded = 9%nat) as Hlp by (subst padded; rewrite length_app, length_replicate; lia).
    assert (digits_from (Some 0) padded = Some n) as Hvp.
    { subst padded. rewrite digits_from_app, digits_from_zeros. exact Hvn. }
    destruct (trim_right_zeros_split padded) as (k & Hsplit & Hlast). set (t := trim_right_zeros padded) in *.
    assert (length t + k = 9)%nat as Htk by (rewrite <- Hlp, Hsplit, length_app, length_replicate; done).
    exists (FormatInt w +:+ "." +:+ of_bytes t). unfold usd_nanos.
    assert (to_bytes (FormatInt w +:+ "." +:+ of_bytes t) = FormatUint w ++ byte_of 46 :: t) as ->.
    { rewrite !to_bytes_app, FormatInt_nonneg, to_of_bytes by done. done. }
    rewrite cut_dot_digits by done. rewrite Hvw. cbn [mbind option_bind snd]. unfold nanodollarDecimalPlaces.
    split_and!; [done| |].
    + destruct (9 <? length t)%nat eqn:E9; [apply Nat.ltb_lt in E9; lia|].
      rewrite Hsplit, digits_from_app in Hvp. destruct (digits_from (Some 0) t) as [v|] eqn:Hv.
      * rewrite digits_from_zeros in Hvp. injection Hvp as Hvp. cbn [mbind option_bind].
        replace (9 - length t)%nat with k by lia. unfold nanosPerDollar. f_equal. lia.
      * exfalso. clear -Hvp. induction (replicate k (byte_of 48)); [done|]. by apply IHl.
    + intros f [= <-]. split; [|exact Hlast]. split; [|lia]. destruct t as [|c t']; [|simpl; lia].
      exfalso. eapply (trim_nonzero padded n k); eauto.
Qed.
