(* ===== verification/Headers.v ===== *)
(** * HTTP headers (header helpers of [toolruntime/runtime.go] and [manager/proxy.go])

    Canonical names, the headers the router passes on in each direction, and
    the announcement of a trailer.

    A header is a map from canonical names to values, as [http.Header] is after
    the server has read it.  Where the code ranges over a header the entries are
    an argument, in the order the range takes. *)

From Stdlib Require Import Ascii.
From S2P Require Import Prelude Sha256 Strconv CacheSalt Errors Autoroute.
#[local] Open Scope string_scope.
#[local] Open Scope list_scope.
#[local] Open Scope Z_scope.

(** ** Canonical names *)

Definition is_upper (v : Z) : bool := (65 <=? v) && (v <=? 90).
Definition is_lower (v : Z) : bool := (97 <=? v) && (v <=? 122).

(** [net/textproto.validHeaderFieldByte]: the token characters of RFC 7230. *)
Definition validHeaderFieldByte (c : ascii) : bool :=
  let v := byte_val c in
  is_upper v || is_lower v || ((48 <=? v) && (v <=? 57)) || bool_decide (c ∈ to_bytes "!#$%&'*+-.^_`|~").

Definition hyphen : ascii := byte_of 45.

Fixpoint canonical_bytes (upper : bool) (s : bytes) : bytes :=
  match s with
  | [] => []
  | c :: s =>
      let v := byte_val c in
      let c := if upper && is_lower v then byte_of (v - 32) else if negb upper && is_upper v then byte_of (v + 32) else c in
      c :: canonical_bytes (Ascii.eqb c hyphen) s
  end.

(** [http.CanonicalHeaderKey]: a name with a byte no header name has is left alone. *)
Definition CanonicalHeaderKey (s : string) : string :=
  let b := to_bytes s in if forallb validHeaderFieldByte b then of_bytes (canonical_bytes true b) else s.

Definition header_set (h : Header) (name value : string) : Header := <[CanonicalHeaderKey name := [value]]> h.
Definition header_del (h : Header) (name : string) : Header := delete (CanonicalHeaderKey name) h.
Definition header_add (h : Header) (name value : string) : Header :=
  <[CanonicalHeaderKey name := Values h (CanonicalHeaderKey name) ++ [value]]> h.

(** ** What is passed on *)

Definition UsageMetricsRequestHeader := "X-Tinfoil-Request-Usage-Metrics".
Definition UsageMetricsResponseHeader := "X-Tinfoil-Usage-Metrics".
Definition ClientRequestedUsageHeader := "X-Tinfoil-Client-Requested-Usage".

Definition shouldSkipRequestHeader (key : string) : bool :=
  let canonical := CanonicalHeaderKey key in
  bool_decide (canonical ∈ ["Accept-Encoding"; "Connection"; "Content-Length"; "Content-Type"; "Host"; "Keep-Alive"; "Proxy-Authenticate";
    "Proxy-Authorization"; "Te"; "Trailer"; "Transfer-Encoding"; "Upgrade"])
  || String.eqb canonical (CanonicalHeaderKey UsageMetricsRequestHeader)
  || String.eqb canonical (CanonicalHeaderKey ClientRequestedUsageHeader).

(** The copies make the result independent of [source]. *)
Definition modelRequestHeaders (entries : list (string * list string)) : Header :=
  foldl (fun h kv => if shouldSkipRequestHeader kv.1 then h else <[kv.1 := kv.2]> h) ∅ entries.

Definition cloneHeaders (entries : list (string * list string)) : Header := foldl (fun h kv => <[kv.1 := kv.2]> h) ∅ entries.

Definition shouldSkipResponseHeader (key : string) : bool :=
  bool_decide (CanonicalHeaderKey key ∈ ["Connection"; "Keep-Alive"; "Proxy-Authenticate"; "Proxy-Authorization"; "Te"; "Trailer";
    "Transfer-Encoding"; "Upgrade"]).

Definition copyResponseHeaders (dst : Header) (entries : list (string * list string)) : Header :=
  foldl (fun h kv => if shouldSkipResponseHeader kv.1 then h else foldl (fun h v => header_add h kv.1 v) (header_del h kv.1) kv.2) dst entries.

(** [strings.Contains] *)
Fixpoint contains_bytes (sub s : bytes) : bool :=
  bool_decide (is_Some (trim_prefix sub s)) || match s with [] => false | _ :: s => contains_bytes sub s end.
Definition Contains (s sub : string) : bool := contains_bytes (to_bytes sub) (to_bytes s).

(** [responseRequestID]; a nil header reads as empty. *)
Fixpoint responseRequestID (headers : list Header) : string :=
  match headers with
  | [] => ""
  | h :: headers =>
      let id := header_get h "X-Request-Id" in
      if negb (String.eqb id "") then id else responseRequestID headers
  end.

(** ** Trailers *)

Definition comma : ascii := byte_of 44.

(** [strings.Split(s, ",")] *)
Fixpoint split_comma (s : bytes) : list bytes :=
  match s with
  | [] => [[]]
  | c :: s =>
      match split_comma s with
      | part :: rest => if Ascii.eqb c comma then [] :: part :: rest else (c :: part) :: rest
      | [] => [[c]]
      end
  end.

Definition trailer_parts (values : list string) : list string :=
  values ≫= (fun v => (fun p => CanonicalHeaderKey (TrimSpace (of_bytes p))) <$> split_comma (to_bytes v)).

(** [seen] holds exactly the names of [trailers]. *)
Definition add_trailer (trailers : list string) (name : string) : list string :=
  if String.eqb name "" || bool_decide (name ∈ trailers) then trailers else trailers ++ [name].

(** [addTrailerHeader] of the proxy. *)
Definition addTrailerHeader (h : Header) (name : string) : Header :=
  let canonical := CanonicalHeaderKey name in
  if String.eqb canonical "" then h
  else
    let trailers := foldl add_trailer [] (trailer_parts (Values h "Trailer")) in
    let trailers := if bool_decide (canonical ∈ trailers) then trailers else trailers ++ [canonical] in
    header_set h "Trailer" (String.concat ", " trailers).

(** [addTrailerHeader] of the tool runtime, which leaves what is there. *)
Definition runtime_addTrailerHeader (h : Header) (name : string) : Header :=
  let existing := Values h "Trailer" in
  if bool_decide (CanonicalHeaderKey name ∈ trailer_parts existing) then h
  else match existing with
  | [] => header_set h "Trailer" name
  | _ => header_set h "Trailer" (String.concat ", " (existing ++ [name]))
  end.

(** ** Lemmas *)

Lemma header_get_insert h k v : header_get (<[k := [v]]> h) k = v.
Proof. unfold header_get, Values. by rewrite lookup_insert_eq. Qed.

Lemma header_get_insert_ne h k k' vs : k <> k' -> header_get (<[k := vs]> h) k' = header_get h k'.
Proof. intros. unfold header_get, Values. by rewrite lookup_insert_ne. Qed.

Lemma request_headers_from entries : forall (h0 : Header) k vs,
  foldl (fun (h : Header) kv => if shouldSkipRequestHeader kv.1 then h else <[kv.1 := kv.2]> h) h0 entries !! k = Some vs ->
  h0 !! k = Some vs \/ (shouldSkipRequestHeader k = false /\ (k, vs) ∈ entries).
Proof.
  induction entries as [|[k1 v1] entries IH]; intros h0 k vs; cbn [foldl fst snd]; [by left|].
  intros [H|[Hs Hin]]%IH; [|by right; split; [done|right]].
  destruct (shouldSkipRequestHeader k1) eqn:Es; [by left|].
  destruct (decide (k1 = k)) as [<-|]; [|rewrite lookup_insert_ne in H by done; by left].
  rewrite lookup_insert_eq in H. simplify_eq. right. split; [done|left].
Qed.

(** Only headers of the client's request reach the model, and none that belongs
    to the client's own connection or that asks the router for something. *)
Lemma modelRequestHeaders_sound entries k vs :
  modelRequestHeaders entries !! k = Some vs -> shouldSkipRequestHeader k = false /\ (k, vs) ∈ entries.
Proof. intros [H|H]%request_headers_from; [by rewrite lookup_empty in H|done]. Qed.

(** A clone has the same headers, whatever the order they are copied in. *)
Lemma cloneHeaders_id h entries : Permutation entries (map_to_list h) -> cloneHeaders entries = h.
Proof.
  intros Hp. rewrite <- (list_to_map_to_list h).
  transitivity (list_to_map (rev entries) : Header).
  - unfold cloneHeaders. clear Hp. induction entries as [|kv l IH] using rev_ind; [done|]. rewrite foldl_app, rev_app_distr. cbn. by rewrite IH.
  - assert (Permutation (rev entries) (map_to_list h)) as Hr by (by rewrite <- Permutation_rev).
    apply list_to_map_proper; [|done]. rewrite Hr. apply NoDup_fst_map_to_list.
Qed.

Lemma add_trailer_NoDup l name : NoDup l -> NoDup (add_trailer l name).
Proof.
  intros Hl. unfold add_trailer. destruct (_ || _) eqn:E; [done|]. apply orb_false_iff in E as [_ E%bool_decide_eq_false].
  apply NoDup_app. split_and!; [done| |apply NoDup_singleton]. by intros x Hx ->%list_elem_of_singleton.
Qed.

Lemma trailers_NoDup l acc : NoDup acc -> NoDup (foldl add_trailer acc l).
Proof. revert acc. induction l as [|x l IH]; intros acc Hacc; cbn [foldl]; [done|]. by apply IH, add_trailer_NoDup. Qed.

(** The proxy announces the trailer once, keeping the others. *)
Lemma addTrailerHeader_announces h name :
  CanonicalHeaderKey name <> "" ->
  exists trailers, Values (addTrailerHeader h name) "Trailer" = [String.concat ", " trailers]
    /\ NoDup trailers /\ CanonicalHeaderKey name ∈ trailers.
Proof.
  intros Hn. unfold addTrailerHeader. destruct (String.eqb_spec (CanonicalHeaderKey name) "") as [|_]; [done|].
  set (ts := foldl add_trailer [] _). assert (NoDup ts) as Hd by (apply trailers_NoDup, NoDup_nil_2).
  unfold header_set, Values. change (CanonicalHeaderKey "Trailer") with "Trailer". rewrite lookup_insert_eq. cbn [default from_option id].
  case_bool_decide as Hin; eexists; (split; [reflexivity|]); [by split|]. split; [|apply elem_of_app; right; by left].
  apply NoDup_app. split_and!; [done| |apply NoDup_singleton]. by intros x Hx ->%list_elem_of_singleton.
Qed.

Lemma addTrailerHeader_get h name k : k <> "Trailer" -> header_get (addTrailerHeader h name) k = header_get h k.
Proof.
  intros Hk. unfold addTrailerHeader, header_set. change (CanonicalHeaderKey "Trailer") with "Trailer".
  destruct (String.eqb (CanonicalHeaderKey name) ""); [done|]. by rewrite header_get_insert_ne by congruence.
Qed.

Example canonical_examples :
  CanonicalHeaderKey "x-tinfoil-usage-metrics" = UsageMetricsResponseHeader /\ CanonicalHeaderKey "x-request-ID" = "X-Request-Id"
  /\ CanonicalHeaderKey "bad name" = "bad name"
  /\ Values (addTrailerHeader {["Trailer" := ["expires, x-checksum"; "Expires"]]} UsageMetricsResponseHeader) "Trailer"
     = ["Expires, X-Checksum, X-Tinfoil-Usage-Metrics"].
Proof. by vm_compute. Qed.
