(* ===== verification/Billing.v ===== *)
(** * Billing events and usage headers ([billing/], [manager/bearer.go], [caller_org.go], [usage_writer.go], [FormatUsage] of [proxy.go])

    The caller's API key, the number of customer requests a request bills, the
    event the collector reports, the reporter of unknown models with its bound
    on concurrent reports, and the usage header a client reads.

    The reporting library, the signature check of a usage context, JSON encoding
    and the network are parameters. *)

From Stdlib Require Import Ascii.
From S2P Require Import Prelude Float64 Sha256 Strconv CacheSalt Autoroute Errors TokenCount Headers.
#[local] Open Scope string_scope.
#[local] Open Scope list_scope.
#[local] Open Scope Z_scope.

(** ** The caller *)

Definition bearer_scheme : bytes := to_bytes "bearer ".

(** [strings.EqualFold] with the scheme: no letter of it has a fold outside ASCII. *)
Definition EqualFoldScheme (s : bytes) : bool := bool_decide (lower_ascii <$> s = bearer_scheme).

Definition BearerToken (header : string) : string :=
  let h := to_bytes header in
  if (length h <? length bearer_scheme)%nat || negb (EqualFoldScheme (take (length bearer_scheme) h)) then ""
  else TrimSpace (of_bytes (drop (length bearer_scheme) h)).

(** What a request's context carries for billing and reservations. *)
Record RequestContext := MkContext { c_customerRequests : option Z; c_callerOrg : option string }.

Definition WithCallerOrg (ctx : RequestContext) (orgID : string) : RequestContext :=
  if String.eqb orgID "" then ctx else MkContext (c_customerRequests ctx) (Some orgID).
Definition CallerOrgFromContext (ctx : RequestContext) : string := default "" (c_callerOrg ctx).

Definition WithCustomerRequests (ctx : RequestContext) (n : Z) : RequestContext := MkContext (Some n) (c_callerOrg ctx).
Definition CustomerRequests (ctx : RequestContext) : Z := default 1 (c_customerRequests ctx).

(** ** Customer requests *)

Definition harnessService := "harness".
Definition harnessCallDepth : Z := 1.
Definition usageContextMaxSkew : Z := 10 * Minute.

(** The fields of a signed usage context the router reads. *)
Record UsageContext := MkUsageContext {
  ParentService : string;
  Depth : Z;
  APIKeyHash : string;
  BillCustomerRequest : bool
}.

Inductive count_error :=
  | Unverified (msg : string)
  | OtherParent (service : string)
  | OtherDepth (depth : Z)
  | NamesNoKey
  | OtherKey.

Section Count.
(** [usagereporting.FromHeaders]: the context, whether the request is signed,
    and the verification error; [usagereporting.VerifyAPIKeyHash] *)
Context (FromHeaders : Header -> string -> Z -> Z -> UsageContext * bool * option string) (VerifyAPIKeyHash : string -> string -> bool).

Definition CustomerRequestCount (h : Header) (apiKey secret : string) (now : Z) : count_error + Z :=
  let '(usage, signed, err) := FromHeaders h secret now usageContextMaxSkew in
  if negb signed then inr 1
  else match err with
  | Some e => inl (Unverified e)
  | None =>
      if negb (String.eqb (ParentService usage) harnessService) then inl (OtherParent (ParentService usage))
      else if negb (Depth usage =? harnessCallDepth) then inl (OtherDepth (Depth usage))
      else if String.eqb (APIKeyHash usage) "" then inl NamesNoKey
      else if negb (VerifyAPIKeyHash apiKey (APIKeyHash usage)) then inl OtherKey
      else if BillCustomerRequest usage then inr 1 else inr 0
  end.

(** C25: a customer request is waived only on the harness's word. A request counts
    as zero exactly when its usage context is signed and verified, comes from
    the harness calling the router directly, names the caller's own API key and
    says not to bill; a request without a context counts as one; a context that
    is there but fails a check is an error, never a count. *)
Theorem waiver_only_from_harness h apiKey secret now :
  let '(usage, signed, err) := FromHeaders h secret now usageContextMaxSkew in
  let genuine := err = None /\ ParentService usage = harnessService /\ Depth usage = harnessCallDepth
                 /\ APIKeyHash usage <> "" /\ VerifyAPIKeyHash apiKey (APIKeyHash usage) = true in
  (CustomerRequestCount h apiKey secret now = inr 0 <-> signed = true /\ genuine /\ BillCustomerRequest usage = false)
  /\ (CustomerRequestCount h apiKey secret now = inr 1 <-> signed = false \/ (genuine /\ BillCustomerRequest usage = true))
  /\ ((exists e, CustomerRequestCount h apiKey secret now = inl e) <-> signed = true /\ ~ genuine).
Proof.
  unfold CustomerRequestCount. destruct (FromHeaders _ _ _ _) as [[u signed] err]. cbn zeta.
  destruct signed; cbn [negb]; [|naive_solver]. destruct err as [e|]; [naive_solver|].
  destruct (String.eqb_spec (ParentService u) harnessService) as [Ep|Ep]; cbn [negb]; [|naive_solver].
  destruct (Z.eqb_spec (Depth u) harnessCallDepth) as [Ed|Ed]; cbn [negb]; [|naive_solver].
  destruct (String.eqb_spec (APIKeyHash u) "") as [Ek|Ek]; [naive_solver|].
  destruct (VerifyAPIKeyHash apiKey (APIKeyHash u)) eqn:Ev; cbn [negb]; [|naive_solver].
  destruct (BillCustomerRequest u); naive_solver.
Qed.

End Count.

(** ** Events *)

Record Event := MkEvent {
  ev_Timestamp : Z;
  ev_UserID : string;
  ev_Model : string;
  ev_PromptTokens : Z;
  ev_CachedPromptTokens : Z;
  ev_CompletionTokens : Z;
  ev_TotalTokens : Z;
  ev_RequestID : string;
  ev_Enclave : string;
  ev_RequestPath : string;
  ev_Streaming : bool;
  ev_APIKey : string;
  ev_CustomerRequests : Z
}.

Definition asterisk : ascii := byte_of 42.

Definition maskAPIKey (apiKey : string) : string :=
  let k := to_bytes apiKey in
  if (length k <=? 10)%nat then "***"
  else of_bytes (take 3 k ++ replicate (length k - 7) asterisk ++ drop (length k - 4) k).

(** The reporting library's meters, its event and its identification of the router. *)
Inductive MeterName := MeterInputTokens | MeterOutputTokens | MeterCachedInputTokens.

Record Report := MkReport {
  rep_RequestID : string;
  rep_OccurredAt : Z;
  rep_APIKey : string;
  rep_CustomerRequests : Z;
  rep_Meters : list (MeterName * Z);
  rep_Attributes : gmap string string
}.

Definition format_bool (b : bool) : string := if b then "true" else "false".

Definition event_report (e : Event) : Report :=
  let inputTokens :=
    if (ev_PromptTokens e =? 0) && (ev_CompletionTokens e =? 0) && (ev_TotalTokens e >? 0) then ev_TotalTokens e else ev_PromptTokens e in
  let cached := if ev_CachedPromptTokens e >? inputTokens then inputTokens else ev_CachedPromptTokens e in
  let meters := [(MeterInputTokens, inputTokens); (MeterOutputTokens, ev_CompletionTokens e)] in
  let meters := if cached >? 0 then meters ++ [(MeterCachedInputTokens, cached)] else meters in
  MkReport (ev_RequestID e) (ev_Timestamp e) (ev_APIKey e) (ev_CustomerRequests e) meters
    (list_to_map [("model", ev_Model e); ("route", ev_RequestPath e); ("streaming", format_bool (ev_Streaming e)); ("enclave", ev_Enclave e)]).

Definition with_api_key (e : Event) (apiKey : string) : Event :=
  MkEvent (ev_Timestamp e) (ev_UserID e) (ev_Model e) (ev_PromptTokens e) (ev_CachedPromptTokens e) (ev_CompletionTokens e) (ev_TotalTokens e)
    (ev_RequestID e) (ev_Enclave e) (ev_RequestPath e) (ev_Streaming e) apiKey (ev_CustomerRequests e).

(** [reporter] is the nil pointer or what was handed to the reporter; [logged]
    the events written to the log. *)
Record Collector := MkCollector { reporter : option (list Report); logged : list Event; reporter_stopped : bool }.

Section Collect.
(** [json.Marshal] of an event fails on a timestamp outside years 0 to 9999. *)
Context (encodable_time : Z -> bool).

Definition AddEvent (c : Collector) (e : Event) : Collector :=
  let safeEvent := with_api_key e (maskAPIKey (ev_APIKey e)) in
  if negb (encodable_time (ev_Timestamp safeEvent)) then c
  else MkCollector ((fun reports => reports ++ [event_report e]) <$> reporter c) (logged c ++ [safeEvent]) (reporter_stopped c).

(** [Stop]; the reporter is stopped once. *)
Definition Collector_Stop (c : Collector) : Collector :=
  MkCollector (reporter c) (logged c) (reporter_stopped c || bool_decide (is_Some (reporter c))).
End Collect.

Fixpoint drop_slashes (l : bytes) : bytes := match l with c :: l' => if byte_val c =? 47 then drop_slashes l' else l | [] => [] end.
(** [strings.TrimRight(s, "/")] *)
Definition TrimRightSlash (s : string) : string := of_bytes (rev (drop_slashes (rev (to_bytes s)))).

(** The endpoint [NewCollector] configures, given the library's path. *)
Definition collector_endpoint (IngestionPath controlPlaneURL : string) : string :=
  if String.eqb controlPlaneURL "" then "" else TrimRightSlash controlPlaneURL +:+ IngestionPath.
Definition NewCollector : Collector := MkCollector (Some []) [] false.

(** The quantity a report has for a meter. *)
Definition meter (r : Report) (m : MeterName) : Z :=
  foldr (fun x n => match x.1, m with
    | MeterInputTokens, MeterInputTokens | MeterOutputTokens, MeterOutputTokens | MeterCachedInputTokens, MeterCachedInputTokens => x.2 + n
    | _, _ => n end) 0 (rep_Meters r).

(** ** Reports of unknown models *)

Definition unknownModelMaxInflight : nat := 16.
Definition UnknownModelPath := "/api/internal/unknown-model-requests".

Record UnknownModelReport := MkUnknown { um_APIKey : string; um_Model : string }.

(** [inflight] are the reports being sent; the channel holds one token for each. *)
Record UnknownModelReporter := MkReporter { um_endpoint : string; um_secret : string; inflight : list UnknownModelReport; sent : list UnknownModelReport }.

Definition NewUnknownModelReporter (controlPlaneURL secret : string) : option UnknownModelReporter :=
  if String.eqb controlPlaneURL "" || String.eqb secret "" then None
  else Some (MkReporter (TrimRightSlash controlPlaneURL +:+ UnknownModelPath) secret [] []).

(** [Report] up to the start of the goroutine. *)
Definition Report_unknown (r : option UnknownModelReporter) (apiKey model : string) : option UnknownModelReporter :=
  match r with
  | None => None
  | Some r =>
      if String.eqb apiKey "" || String.eqb model "" then Some r
      else if (length (inflight r) <? unknownModelMaxInflight)%nat then
        Some (MkReporter (um_endpoint r) (um_secret r) (inflight r ++ [MkUnknown apiKey model]) (sent r))
      else Some r
  end.

(** The goroutine of the [i]-th report in flight ends, whatever became of it. *)
Definition finish (r : UnknownModelReporter) (i : nat) : UnknownModelReporter :=
  match inflight r !! i with
  | None => r
  | Some rep => MkReporter (um_endpoint r) (um_secret r) (delete i (inflight r)) (sent r ++ [rep])
  end.

Inductive reporter_step : UnknownModelReporter -> UnknownModelReporter -> Prop :=
  | rs_report r r' apiKey model : Report_unknown (Some r) apiKey model = Some r' -> reporter_step r r'
  | rs_finish r i : reporter_step r (finish r i).

(** However reports and their ends interleave, at most sixteen are in flight. *)
Lemma reports_in_flight_bounded r r' :
  rtc reporter_step r r' -> (length (inflight r) <= unknownModelMaxInflight)%nat -> (length (inflight r') <= unknownModelMaxInflight)%nat.
Proof.
  induction 1 as [|r1 r2 r3 Hs _ IH]; [done|]. intros Hr. apply IH. destruct Hs as [r r' k m Hr'|r i].
  - unfold Report_unknown in Hr'. destruct (_ || _); [by simplify_eq|].
    destruct (_ <? _)%nat eqn:E; simplify_eq; [|done]. apply Nat.ltb_lt in E. cbn [inflight]. rewrite length_app. simpl. lia.
  - unfold finish. destruct (inflight r !! i) eqn:E; [|done]. cbn [inflight]. rewrite length_delete by done. lia.
Qed.

(** ** The usage header *)

Section Format.
Context (int_out_of_range : float64 -> Z).
Abbreviation requestCostNanos := (requestCostNanos int_out_of_range).
Abbreviation costNanos := (costNanos int_out_of_range).
Abbreviation otherCostNanos := (otherCostNanos int_out_of_range).

(** The cost of everything a request used, in nanodollars; [None] is the nil
    dereference of an unpriced session. *)
Definition total_cost (usage : Usage) (p : ModelPricing) (w : option WebSearchUsage) : option Z :=
  session ← costNanos w; Some (wrap64 (wrap64 (requestCostNanos usage p + session) + otherCostNanos w)).

Definition cost_field (usage : Usage) (pricing : option ModelPricing) (w : option WebSearchUsage) : option string :=
  match pricing with
  | Some p => if costKnown w then n ← total_cost usage p w; s ← formatNanosUSD n; Some (",cost_usd=" +:+ s) else Some ""
  | None => Some ""
  end.

(** [None] is a panic: a nil session price or a negative padding count. *)
Definition FormatUsage (usage : Usage) (model : string) (pricing : option ModelPricing) (w : option WebSearchUsage) : option string :=
  let formatted := "prompt=" +:+ FormatInt (PromptTokens usage) +:+ ",completion=" +:+ FormatInt (CompletionTokens usage)
                   +:+ ",total=" +:+ FormatInt (TotalTokens usage) in
  let formatted :=
    match CachedPromptTokens (Some usage) with
    | (cached, true) =>
        formatted +:+ ",cached_prompt_tokens=" +:+ FormatInt cached
          +:+ ",uncached_prompt_tokens=" +:+ FormatInt (Z.max 0 (wrap64 (PromptTokens usage - cached)))
    | (_, false) => formatted
    end in
  let formatted := if negb (String.eqb model "") then formatted +:+ ",model=" +:+ model else formatted in
  let formatted := if billed w then formatted +:+ ",web_search_calls=" +:+ FormatInt (match w with Some w => Calls w | None => 0 end) else formatted in
  formatted ← (if otherBilled w && costKnown w then s ← formatNanosUSD (otherCostNanos w); Some (formatted +:+ ",other_cost_usd=" +:+ s) else Some formatted);
  s ← cost_field usage pricing w;
  Some (formatted +:+ s).

(** *** The writer that adds the header after the body *)

Record usageMetricsWriter := MkWriter { uw_usage : option Usage; uw_model : string; uw_pricing : option ModelPricing; uw_trailerEnabled : bool }.

Definition SetUsage (w : usageMetricsWriter) (u : Usage) : usageMetricsWriter := MkWriter (Some u) (uw_model w) (uw_pricing w) (uw_trailerEnabled w).
Definition EnableTrailer (w : usageMetricsWriter) : usageMetricsWriter := MkWriter (uw_usage w) (uw_model w) (uw_pricing w) true.

Definition writer_FormatUsage (w : usageMetricsWriter) : option string :=
  match uw_usage w with None => Some "" | Some u => FormatUsage u (uw_model w) (uw_pricing w) None end.

(** [WriteTrailer] on the response's header. *)
Definition WriteTrailer (w : usageMetricsWriter) (h : Header) : option Header :=
  if negb (uw_trailerEnabled w) then Some h
  else s ← writer_FormatUsage w; if String.eqb s "" then Some h else Some (header_set h UsageMetricsResponseHeader s).


(** ** Properties *)

Lemma string_app_nil s : s +:+ "" = s.
Proof. induction s as [|c s IH]; [done|]. change (String c (s +:+ "") = String c s). by rewrite IH. Qed.

Lemma FormatUsage_split usage model pricing w :
  FormatUsage usage model pricing w = base ← FormatUsage usage model None w; s ← cost_field usage pricing w; Some (base +:+ s).
Proof.
  unfold FormatUsage. cbn [cost_field]. destruct (if otherBilled w && costKnown w then _ else _) as [f|]; [|done].
  cbn [mbind option_bind]. by rewrite string_app_nil.
Qed.

(** The header without its cost is always printed when the fees for services are
    representable. *)
Lemma base_printed usage model w : 0 <= otherCostNanos w <= int64_max -> is_Some (FormatUsage usage model None w).
Proof.
  intros Ho. unfold FormatUsage. cbn [cost_field]. destruct (otherBilled w && costKnown w); [|by eexists].
  destruct (formatNanosUSD_exact _ Ho) as (s & -> & _). by eexists.
Qed.

Lemma costKnown_total usage p w : costKnown w = true -> is_Some (total_cost usage p w).
Proof.
  unfold total_cost, costKnown, TokenCount.costNanos. destruct w as [ws|]; [|by eexists]. cbn [billed].
  destruct (Calls ws >? 0); cbn [negb andb mbind option_bind]; [|intros _; eexists; reflexivity].
  destruct (SessionPricing ws) as [q|]; [intros _; eexists; reflexivity|]. by rewrite orb_true_r.
Qed.

(** A partial cost is never shown as the full one. The usage header ends in
    a cost exactly when the model is priced and every fee of the request is
    known; that cost then reads back as the tokens' cost plus the session fee
    plus the fees of every other service; and in every other case the header is
    the one without a cost. *)
Theorem usage_cost_never_partial usage model pricing w :
  0 <= otherCostNanos w <= int64_max ->
  (forall p n, pricing = Some p -> total_cost usage p w = Some n -> 0 <= n <= int64_max) ->
  exists base, FormatUsage usage model None w = Some base
    /\ match pricing with
       | Some p =>
           if costKnown w then
             exists s n, FormatUsage usage model pricing w = Some (base +:+ ",cost_usd=" +:+ s)
               /\ total_cost usage p w = Some n /\ usd_nanos s = Some n
           else FormatUsage usage model pricing w = Some base
       | None => FormatUsage usage model pricing w = Some base
       end.
Proof.
  intros Ho Hn. destruct (base_printed usage model w Ho) as [base Hb]. exists base. split; [done|].
  rewrite FormatUsage_split, Hb. cbn [mbind option_bind]. destruct pricing as [p|]; cbn [cost_field]; [|by cbn; rewrite string_app_nil].
  destruct (costKnown w) eqn:Ek; [|by cbn; rewrite string_app_nil].
  destruct (costKnown_total usage p w Ek) as [n Et]. rewrite Et. cbn [mbind option_bind].
  destruct (formatNanosUSD_exact n (Hn p n eq_refl Et)) as (s & -> & Hs & _). exists s, n. by split_and!.
Qed.

End Format.

Definition example_search : WebSearchUsage :=
  MkWebSearch 2 (Some (MkPricing f64_zero f64_zero None (f64_of_int 1))) [MkService 3 (Some (MkPricing f64_zero f64_zero None (f64_of_int 2)))] false.

Lemma usage_cost_never_partial_witness :
  exists base s n, FormatUsage (fun _ => 0) zeroUsage "m" (Some (MkPricing f64_zero f64_zero None f64_zero)) (Some example_search)
    = Some (base +:+ ",cost_usd=" +:+ s) /\ usd_nanos s = Some n /\ n = 7000000000.
Proof.
  destruct (usage_cost_never_partial (fun _ => 0) zeroUsage "m" (Some (MkPricing f64_zero f64_zero None f64_zero)) (Some example_search))
    as (base & _ & s & n & H & Ht & Hs).
  - vm_compute; split; discriminate.
  - intros p n [= <-] H. vm_compute in H. injection H as <-. vm_compute; split; discriminate.
  - exists base, s, n. split; [exact H|]. split; [exact Hs|]. vm_compute in Ht. by injection Ht.
Defined.

(** Masked keys of one length that agree on their first three and last four
    bytes are the same text: nothing else of a key is logged. *)
Lemma maskAPIKey_hides k1 k2 :
  length (to_bytes k1) = length (to_bytes k2) -> take 3 (to_bytes k1) = take 3 (to_bytes k2) ->
  drop (length (to_bytes k1) - 4) (to_bytes k1) = drop (length (to_bytes k2) - 4) (to_bytes k2) -> maskAPIKey k1 = maskAPIKey k2.
Proof. intros Hl Ht Hd. unfold maskAPIKey. by rewrite Hd, Ht, Hl. Qed.

Lemma event_report_meters e :
  0 <= ev_PromptTokens e -> 0 <= ev_CompletionTokens e -> 0 <= ev_CachedPromptTokens e ->
  let r := event_report e in
  meter r MeterOutputTokens = ev_CompletionTokens e
  /\ meter r MeterInputTokens =
     (if (ev_PromptTokens e =? 0) && (ev_CompletionTokens e =? 0) then Z.max 0 (ev_TotalTokens e) else ev_PromptTokens e)
  /\ meter r MeterCachedInputTokens = Z.min (ev_CachedPromptTokens e) (meter r MeterInputTokens).
Proof.
  intros Hp Hc Hd. unfold event_report, meter. cbn [rep_Meters].
  set (input := if _ && _ && _ then _ else _).
  assert (input = if (ev_PromptTokens e =? 0) && (ev_CompletionTokens e =? 0) then Z.max 0 (ev_TotalTokens e) else ev_PromptTokens e) as Hi.
  { subst input. destruct (ev_PromptTokens e =? 0) eqn:E1, (ev_CompletionTokens e =? 0) eqn:E2; cbn [andb]; try done.
    destruct (ev_TotalTokens e >? 0) eqn:E3; bool_simp; lia. }
  assert (0 <= input) by (rewrite Hi; case_match; lia). rewrite <- Hi. clearbody input.
  destruct (ev_CachedPromptTokens e >? input) eqn:E1; bool_simp; destruct (_ >? 0) eqn:E2; bool_simp; cbn; lia.
Qed.

(** What a request used is what is reported. An event whose time can be
    encoded becomes exactly one report, under the caller's own key and with the
    request's customer-request count: its output meter is the completion tokens,
    its input meter the prompt tokens (or the total, when the backend gave only
    that), and its cached meter never exceeds the input; the log gets one line, in
    which the key is masked. *)
Theorem event_reported_once encodable_time reports log stopped e :
  encodable_time (ev_Timestamp e) = true ->
  0 <= ev_PromptTokens e -> 0 <= ev_CompletionTokens e -> 0 <= ev_CachedPromptTokens e ->
  exists r, AddEvent encodable_time (MkCollector (Some reports) log stopped) e
      = MkCollector (Some (reports ++ [r])) (log ++ [with_api_key e (maskAPIKey (ev_APIKey e))]) stopped
    /\ rep_APIKey r = ev_APIKey e /\ rep_RequestID r = ev_RequestID e /\ rep_CustomerRequests r = ev_CustomerRequests e
    /\ meter r MeterOutputTokens = ev_CompletionTokens e
    /\ meter r MeterInputTokens =
       (if (ev_PromptTokens e =? 0) && (ev_CompletionTokens e =? 0) then Z.max 0 (ev_TotalTokens e) else ev_PromptTokens e)
    /\ meter r MeterCachedInputTokens = Z.min (ev_CachedPromptTokens e) (meter r MeterInputTokens).
Proof.
  intros Ht Hp Hc Hd. exists (event_report e). unfold AddEvent. cbn [ev_Timestamp with_api_key]. rewrite Ht. cbn [negb].
  split_and!; try done; apply event_report_meters; done.
Qed.

Definition example_event : Event := MkEvent 0 "authenticated_user" "m" 0 7 0 5 "r" "h" "/v1/completions" false "sk-0123456789" 1.

Lemma event_reported_once_witness :
  exists r, AddEvent (fun _ => true) NewCollector example_event = MkCollector (Some [r]) [with_api_key example_event "sk-******6789"] false
    /\ meter r MeterInputTokens = 5 /\ meter r MeterCachedInputTokens = 5.
Proof.
  destruct (event_reported_once (fun _ => true) [] [] false example_event) as (r & H & _ & _ & _ & _ & Hi & Hc); [done..|].
  exists r. rewrite Hc, Hi. split; [exact H|done].
Defined.
