(* ===== verification/Citations.v ===== *)
(** * Citations in streamed and final answers ([toolruntime/citations])

    The recorded sources, the resolution of Harmony cursors, the streaming
    emitter that holds back half-written markdown links ([stream.go]), and the
    annotation shapes ([state.go]).

    A string is the list of its code points: Go decodes every delta rune by
    rune on entry and re-encodes what it forwards.  [net/url] (parsing, the
    query and its encoding, printing) and the Unicode lower-casing are
    parameters.  The non-streaming matcher [MatchesFor] and the prompt
    formatting of [format.go] are in [Annotations]. *)

From S2P Require Import Prelude Sha256 Strconv Json.
#[local] Open Scope list_scope.
#[local] Open Scope Z_scope.

Abbreviation text := (list Z).

(** ** Data *)

Record Source := MkSource { Index : Z; URL : text; Title : text }.

Record State := MkState { NextIndex : Z; Sources : list Source; Harmony : bool }.

Record Annotation := MkAnnotation { StartIndex : nat; EndIndex : nat; a_Source : Source }.

Definition MaxLinkBufferRunes : nat := 4096.

(** The code points the package matches on. *)
Definition lbracket : Z := 91.
Definition rbracket : Z := 93.
Definition lparen : Z := 40.
Definition rparen : Z := 41.
Definition flbracket : Z := 0x3010.
Definition frbracket : Z := 0x3011.
Definition dagger : Z := 0x2020.

(** A string literal as code points. *)
Definition runes (s : string) : text := map byte_val (to_bytes s).

(** [unicode.IsSpace] and [strings.TrimSpace]. *)
Definition IsSpace (r : Z) : bool :=
  ((9 <=? r) && (r <=? 13)) || (r =? 32) || (r =? 0x85) || (r =? 0xA0) || (r =? 0x1680)
  || ((0x2000 <=? r) && (r <=? 0x200a)) || (r =? 0x2028) || (r =? 0x2029) || (r =? 0x202f) || (r =? 0x205f) || (r =? 0x3000).

Fixpoint trim_left (t : text) : text :=
  match t with r :: t' => if IsSpace r then trim_left t' else t | [] => [] end.
Definition TrimSpace (t : text) : text := rev (trim_left (rev (trim_left t))).

(** ** Sources *)

Definition CitationTitle (s : Source) : text := if bool_decide (TrimSpace (Title s) = []) then URL s else Title s.

(** A nil state records nothing and answers 1. *)
Definition Record_ (c : option State) (url title : text) : option State * Z :=
  match c with
  | None => (None, 1)
  | Some c =>
      let index := if NextIndex c <=? 0 then 1 else NextIndex c in
      (Some (MkState (index + 1) (Sources c ++ [MkSource index url title]) (Harmony c)), index)
  end.

(** ** URL normalization *)

(** Format characters: the code's list, then the general category Cf. *)
Definition in_range (r : Z) (p : Z * Z) : bool := (p.1 <=? r) && (r <=? p.2).

Definition format_chars : list (Z * Z) :=
  [(0xAD, 0xAD); (0x600, 0x605); (0x61C, 0x61C); (0x6DD, 0x6DD); (0x70F, 0x70F); (0x890, 0x891); (0x8E2, 0x8E2);
   (0x180E, 0x180E); (0x200B, 0x200F); (0x202A, 0x202E); (0x2060, 0x2064); (0x2066, 0x206F); (0xFEFF, 0xFEFF);
   (0xFFF9, 0xFFFB); (0x110BD, 0x110BD); (0x110CD, 0x110CD); (0x13430, 0x1343F); (0x1BCA0, 0x1BCA3);
   (0x1D173, 0x1D17A); (0xE0001, 0xE0001); (0xE0020, 0xE007F)].

Definition shouldStripRune (r : Z) : bool :=
  existsb (in_range r) [(0x200B, 0x200F); (0x2028, 0x202E); (0x2060, 0x2064); (0xFEFF, 0xFEFF)]
  || existsb (in_range r) format_chars.

Definition stripInvisibleRunes (t : text) : text := filter (fun r => shouldStripRune r = false) t.

Definition citationTrackingParams : list text :=
  map runes ["utm_source"; "utm_medium"; "utm_campaign"; "utm_term"; "utm_content"; "utm_id";
             "fbclid"; "gclid"; "mc_cid"; "mc_eid"; "ref"; "ref_src"]%string.

Fixpoint trim_left_slash (t : text) : text :=
  match t with r :: t' => if r =? 47 then trim_left_slash t' else t | [] => [] end.
Definition TrimRightSlash (t : text) : text := rev (trim_left_slash (rev t)).

Fixpoint strip_prefix (p t : text) : option text :=
  match p, t with
  | [], _ => Some t
  | a :: p, b :: t => if a =? b then strip_prefix p t else None
  | _, [] => None
  end.

(** The fields of a parsed [url.URL] the code touches; [rest] holds the others. *)
Record ParsedURL := MkURL {
  Scheme : text; Host : text; Path : text; RawQuery : text; Fragment : text; RawFragment : text; rest : list text
}.

Section URLs.
Context (Parse : text -> option ParsedURL) (Query : ParsedURL -> gmap text (list text))
  (Encode : gmap text (list text) -> text) (Print : ParsedURL -> text) (ToLower : text -> text).

Definition NormalizeURL (raw : text) : text :=
  let raw := TrimSpace (stripInvisibleRunes raw) in
  if bool_decide (raw = []) then []
  else
    match Parse raw with
    | None => raw
    | Some p =>
        let host := ToLower (Host p) in
        let host := default host (strip_prefix (runes "www.") host) in
        let path := if (1 <? length (Path p))%nat then TrimRightSlash (Path p) else Path p in
        let p := MkURL (ToLower (Scheme p)) host path (RawQuery p) (Fragment p) (RawFragment p) (rest p) in
        let query := Query p in
        let raw_query :=
          if bool_decide (query = ∅) then RawQuery p
          else Encode (filter (fun kv => ToLower kv.1 ∉ citationTrackingParams) query) in
        Print (MkURL (Scheme p) (Host p) (Path p) raw_query [] [] (rest p))
    end.

(** The first source with the URL, unless it has no title and a later one has. *)
Definition better_source (target : text) (best : option Source) (s : Source) : option Source :=
  if bool_decide (NormalizeURL (URL s) = target) then
    match best with
    | None => Some s
    | Some b => if bool_decide (Title b = []) && negb (bool_decide (Title s = [])) then Some s else best
    end
  else best.

Definition ResolveSource (c : option State) (url : text) : option Source :=
  match c with
  | None => None
  | Some c =>
      if bool_decide (url = []) then None
      else
        let target := NormalizeURL url in
        if bool_decide (target = []) then None
        else foldl (better_source target) None (Sources c)
  end.

(** ** Harmony cursors *)

Definition is_digit_rune (r : Z) : bool := (48 <=? r) && (r <=? 57).

Fixpoint take_digits (t : text) : text * text :=
  match t with
  | r :: t' => if is_digit_rune r then let '(d, t'') := take_digits t' in (r :: d, t'') else ([], t)
  | [] => ([], [])
  end.

(** [L\d+] *)
Definition match_line_no (t : text) : option text :=
  match t with
  | 76 :: t => match take_digits t with ([], _) => None | (_, t) => Some t end
  | _ => None
  end.

(** [(?:†L\d+(?:-L\d+)?)?\x{3011}]: what follows a match. *)
Definition match_lines_close (t : text) : option text :=
  let close (t : text) := match t with r :: t => if r =? frbracket then Some t else None | [] => None end in
  match t with
  | r :: t' =>
      if r =? dagger then
        t1 ← match_line_no t';
        match t1 with
        | 45 :: t2 => t3 ← match_line_no t2; close t3
        | _ => close t1
        end
      else close t
  | [] => None
  end.

(** A token at the start of [t]: its digits and what follows it. *)
Definition match_harmony (t : text) : option (text * text) :=
  match t with
  | r :: t =>
      if r =? flbracket then
        match take_digits t with
        | ([], _) => None
        | (digits, t) => t' ← match_lines_close t; Some (digits, t')
        end
      else None
  | [] => None
  end.

Definition cursor_link (c : State) (digits : text) : option text :=
  cursor ← ParseInt (map byte_of digits);
  s ← head (filter (fun s => Index s = cursor) (Sources c));
  let title := if bool_decide (Title s = []) then runes "Source" else Title s in
  Some (lbracket :: title ++ rbracket :: lparen :: URL s ++ [rparen]).

(** The leftmost non-overlapping replacements; the fuel is the text's length. *)
Fixpoint resolve_tokens (fuel : nat) (c : State) (t : text) : text :=
  match fuel with
  | O => t
  | S fuel =>
      match t with
      | [] => []
      | r :: t' =>
          match match_harmony t with
          | Some (digits, after) =>
              let matched := take (length t - length after) t in
              default matched (cursor_link c digits) ++ resolve_tokens fuel c after
          | None => r :: resolve_tokens fuel c t'
          end
      end
  end.

Definition ResolveHarmonyCitations (c : option State) (t : text) : text :=
  match c with
  | Some c => if Harmony c && bool_decide (flbracket ∈ t) then resolve_tokens (length t) c t else t
  | None => t
  end.

(** ** Links *)

Fixpoint find_idx (P : Z -> bool) (l : text) (i : nat) : option nat :=
  match l with
  | [] => None
  | r :: l => if P r then Some i else find_idx P l (S i)
  end.
Definition find_from (P : Z -> bool) (t : text) (i : nat) : option nat := find_idx P (drop i t) i.

Definition slice (t : text) (a b : nat) : text := take (b - a) (drop a t).

Definition is_open (r : Z) : bool := (r =? lbracket) || (r =? flbracket).
Definition is_close (r : Z) : bool := (r =? rbracket) || (r =? frbracket).
Definition isSpaceRune (r : Z) : bool := (r =? 32) || ((9 <=? r) && (r <=? 13)).

Definition findNextLinkOpen (t : text) (from : nat) : option nat := find_from is_open t from.

Definition IsSupportedURL (url : text) : bool :=
  bool_decide (is_Some (strip_prefix (runes "http://") url)) || bool_decide (is_Some (strip_prefix (runes "https://") url)).

Inductive LinkMatchOutcome :=
  | LinkMatch (end_ labelStart labelEnd : nat) (url : text)
  | LinkIncomplete
  | LinkInvalid.

Definition MatchMarkdownLink (t : text) (start : nat) : LinkMatchOutcome :=
  match t !! start with
  | None => LinkIncomplete
  | Some open =>
      if negb (is_open open) then LinkInvalid
      else
        let labelStart := S start in
        match find_from is_close t labelStart with
        | None => LinkIncomplete
        | Some labelEnd =>
            if (labelEnd =? labelStart)%nat then LinkInvalid
            else
              match t !! S labelEnd with
              | None => LinkIncomplete
              | Some p =>
                  if negb (p =? lparen) then LinkInvalid
                  else
                    let urlStart := S (S labelEnd) in
                    match find_from (fun r => (r =? rparen) || isSpaceRune r) t urlStart with
                    | None => LinkIncomplete
                    | Some urlEnd =>
                        if negb (bool_decide (t !! urlEnd = Some rparen)) then LinkInvalid
                        else
                          let url := slice t urlStart urlEnd in
                          if negb (IsSupportedURL url) then LinkInvalid
                          else LinkMatch (S urlEnd) labelStart labelEnd url
                    end
              end
        end
  end.

(** In place: the opening bracket, and the first closing fullwidth one. *)
Definition NormalizeLinkBrackets (t : text) (start end_ : nat) : text :=
  if (length t <? end_)%nat || (end_ <=? start)%nat then t
  else
    let t := if bool_decide (t !! start = Some flbracket) then <[start := lbracket]> t else t in
    match find_from (fun r => r =? frbracket) t (S start) with
    | Some i => if (i <? end_)%nat then <[i := rbracket]> t else t
    | None => t
    end.

(** ** The emitter *)

Record Emitter := MkEmitter { e_state : option State; e_text : text; flushedRunes : nat }.

Definition NewEmitter (c : option State) : Emitter := MkEmitter c [] 0.

Definition resolveHarmonyTokens (e : Emitter) : Emitter :=
  match e_state e with
  | None => e
  | Some c =>
      if negb (Harmony c) || (length (e_text e) <=? flushedRunes e)%nat then e
      else MkEmitter (e_state e)
             (take (flushedRunes e) (e_text e) ++ ResolveHarmonyCitations (e_state e) (drop (flushedRunes e) (e_text e)))
             (flushedRunes e)
  end.

(** The loop of [drain]: every turn but the last flushes a rune or more, so the
    fuel is one more than the runes left. *)
Fixpoint drain_loop (fuel : nat) (final : bool) (e : Emitter) (content : text) (anns : list Annotation)
  : option (Emitter * text * list Annotation) :=
  match fuel with
  | O => None
  | S fuel =>
      let t := e_text e in
      let set t n := MkEmitter (e_state e) t n in
      if (length t <=? flushedRunes e)%nat then Some (e, content, anns)
      else
        match findNextLinkOpen t (flushedRunes e) with
        | None => Some (set t (length t), content ++ drop (flushedRunes e) t, anns)
        | Some openIndex =>
            let content := content ++ slice t (flushedRunes e) openIndex in
            let plain := content ++ slice t openIndex (S openIndex) in
            match MatchMarkdownLink t openIndex with
            | LinkMatch endIndex labelStart labelEnd url =>
                let t := NormalizeLinkBrackets t openIndex endIndex in
                let content := content ++ slice t openIndex endIndex in
                let anns :=
                  match ResolveSource (e_state e) url with
                  | Some s => anns ++ [MkAnnotation labelStart labelEnd (MkSource (Index s) url (Title s))]
                  | None => anns
                  end in
                drain_loop fuel final (set t endIndex) content anns
            | LinkIncomplete =>
                if final || (MaxLinkBufferRunes <? length t - openIndex)%nat
                then drain_loop fuel final (set t (S openIndex)) plain anns
                else Some (set t openIndex, content, anns)
            | LinkInvalid => drain_loop fuel final (set t (S openIndex)) plain anns
            end
        end
  end.

Definition drain (final : bool) (e : Emitter) : option (Emitter * text * list Annotation) :=
  let e := resolveHarmonyTokens e in
  drain_loop (S (length (e_text e) - flushedRunes e)) final e [] [].

Definition Push (e : Emitter) (delta : text) : option (Emitter * text * list Annotation) :=
  if bool_decide (delta = []) then Some (e, [], [])
  else drain false (MkEmitter (e_state e) (e_text e ++ delta) (flushedRunes e)).

Definition Flush (e : Emitter) : option (Emitter * text * list Annotation) := drain true e.

Definition Buffered (e : Emitter) : nat := length (e_text e) - flushedRunes e.

End URLs.

(** ** Searching and slicing *)

Lemma find_idx_spec P l : forall i,
  match find_idx P l i with
  | Some j => (i <= j < i + length l)%nat /\ (exists r, l !! (j - i)%nat = Some r /\ P r = true)
              /\ forall k r, (k < j - i)%nat -> l !! k = Some r -> P r = false
  | None => forall k r, l !! k = Some r -> P r = false
  end.
Proof.
  induction l as [|x l IH]; intros i; simpl; [by intros ? ?|]. destruct (P x) eqn:Ex.
  - rewrite Nat.sub_diag. split_and!; [lia|lia|by exists x|lia].
  - specialize (IH (S i)). destruct (find_idx P l (S i)) as [j|].
    + destruct IH as (Hj & (r & Hr & Hp) & Hb). replace (j - i)%nat with (S (j - S i)) by lia. split_and!; [lia|lia|by exists r|].
      intros [|k] r' Hk Hr'; [by simplify_eq/=|]. apply (Hb k); [lia|done].
    + intros [|k] r Hr; [by simplify_eq/=|by eapply IH].
Qed.

Lemma find_from_Some P t i j :
  find_from P t i = Some j ->
  (i <= j < length t)%nat /\ (exists r, t !! j = Some r /\ P r = true)
  /\ forall k r, (i <= k < j)%nat -> t !! k = Some r -> P r = false.
Proof.
  intros H. pose proof (find_idx_spec P (drop i t) i) as Hs. unfold find_from in H. rewrite H in Hs.
  rewrite length_drop in Hs. destruct Hs as (Hj & (r & Hr & Hp) & Hb). rewrite lookup_drop in Hr.
  replace (i + (j - i))%nat with j in Hr by lia. split; [|split; [by exists r|]].
  - apply lookup_lt_Some in Hr as ?. lia.
  - intros k r' Hk Hr'. apply (Hb (k - i)%nat); [lia|]. rewrite lookup_drop. by replace (i + (k - i))%nat with k by lia.
Qed.

Lemma find_from_None P t i k r : find_from P t i = None -> (i <= k)%nat -> t !! k = Some r -> P r = false.
Proof.
  intros H Hk Hr. pose proof (find_idx_spec P (drop i t) i) as Hs. unfold find_from in H. rewrite H in Hs.
  apply (Hs (k - i)%nat). rewrite lookup_drop. by replace (i + (k - i))%nat with k by lia.
Qed.

Lemma slice_join t a b : (a <= b)%nat -> take a t ++ slice t a b = take b t.
Proof. intros H. unfold slice. rewrite take_take_drop. f_equal. lia. Qed.

Lemma slice_lookup t a b k : slice t a b !! k = if decide (k < b - a)%nat then t !! (a + k)%nat else None.
Proof.
  unfold slice. case_decide; [by rewrite lookup_take_lt, lookup_drop|]. by apply lookup_take_ge; lia.
Qed.

(** ** Matched links *)

(** What a match says of the text. *)
Record link_at (t : text) (start end_ labelStart labelEnd : nat) (url : text) : Prop := {
  la_open : exists r, t !! start = Some r /\ is_open r = true;
  la_start : labelStart = S start;
  la_label : (labelStart < labelEnd)%nat;
  la_inside : forall k r, (labelStart <= k < labelEnd)%nat -> t !! k = Some r -> is_close r = false;
  la_close : exists r, t !! labelEnd = Some r /\ is_close r = true;
  la_paren : t !! S labelEnd = Some lparen;
  la_end : (S (S (S labelEnd)) <= end_ <= length t)%nat;
  la_rparen : t !! (end_ - 1)%nat = Some rparen;
  la_url : url = slice t (S (S labelEnd)) (end_ - 1)
}.

Lemma MatchMarkdownLink_spec t start end_ ls le url :
  MatchMarkdownLink t start = LinkMatch end_ ls le url -> link_at t start end_ ls le url.
Proof.
  unfold MatchMarkdownLink. destruct (t !! start) as [open|] eqn:Ho; [|done].
  destruct (is_open open) eqn:Hop; [|done]. cbn [negb].
  destruct (find_from is_close t (S start)) as [labelEnd|] eqn:Hl; [|done].
  destruct (labelEnd =? S start)%nat eqn:Ele; [done|]. apply Nat.eqb_neq in Ele.
  destruct (t !! S labelEnd) as [p|] eqn:Hp; [|done]. destruct (p =? lparen) eqn:Epp; [|done]. bool_simp. subst p. cbn [negb].
  destruct (find_from _ t (S (S labelEnd))) as [urlEnd|] eqn:Hu; [|done].
  destruct (bool_decide (t !! urlEnd = Some rparen)) eqn:Er; [|done]. bool_simp. cbn [negb].
  destruct (IsSupportedURL _); [|done]. cbn [negb]. intros [= <- <- <- <-].
  apply find_from_Some in Hl as (Hb & Hc & Hin). apply find_from_Some in Hu as (Hbu & _ & _).
  split; try done; [by exists open|lia|lia|by replace (S urlEnd - 1)%nat with urlEnd by lia|].
  by replace (S urlEnd - 1)%nat with urlEnd by lia.
Qed.

(** ** Normalization *)

(** Brackets may turn from fullwidth to ASCII; nothing else changes. *)
Definition same_rune (a b : Z) : Prop := a = b \/ (a = flbracket /\ b = lbracket) \/ (a = frbracket /\ b = rbracket).
Definition same_text (a b : text) : Prop := Forall2 same_rune a b.

Lemma same_rune_refl a : same_rune a a.
Proof. by left. Qed.

Lemma same_text_refl a : same_text a a.
Proof. apply Forall_Forall2_diag, Forall_forall. intros. apply same_rune_refl. Qed.

Lemma same_text_trans a b c : same_text a b -> same_text b c -> same_text a c.
Proof.
  apply Forall2_trans. unfold same_rune, flbracket, lbracket, frbracket, rbracket. intros x y z ? ?. lia.
Qed.

Lemma same_text_insert t i a b : t !! i = Some a -> same_rune a b -> same_text t (<[i := b]> t).
Proof.
  intros Ha Hs. rewrite <- (list_insert_id t i a Ha) at 1. apply Forall2_insert; [apply same_text_refl|done].
Qed.

(** The text after normalizing the brackets of a matched link. *)
Lemma normalize_spec t start end_ ls le url :
  link_at t start end_ ls le url ->
  let t' := NormalizeLinkBrackets t start end_ in
  length t' = length t /\ take start t' = take start t /\ same_text t t'
  /\ t' !! start = Some lbracket /\ t' !! le = Some rbracket /\ t' !! S le = Some lparen /\ t' !! (end_ - 1)%nat = Some rparen.
Proof.
  intros [(r0 & Hr0 & Hop) Hls Hlt Hin (rc & Hrc & Hcl) Hpar Hend Hrp _]. unfold NormalizeLinkBrackets.
  replace (length t <? end_)%nat with false by (symmetry; apply Nat.ltb_ge; lia).
  replace (end_ <=? start)%nat with false by (symmetry; apply Nat.leb_gt; lia). cbn [orb].
  set (t1 := if bool_decide (t !! start = Some flbracket) then <[start := lbracket]> t else t).
  assert (length t1 = length t /\ same_text t t1 /\ t1 !! start = Some lbracket /\ forall k, k <> start -> t1 !! k = t !! k)
    as (Hl1 & Hs1 & Hst1 & Hk1).
  { subst t1. case_bool_decide as Hb.
    - rewrite length_insert. split_and!; [done| |by apply list_lookup_insert_eq; lia|by intros; rewrite list_lookup_insert_ne].
      eapply same_text_insert; [done|]. right; left. done.
    - split_and!; [done|apply same_text_refl| |done]. unfold is_open in Hop. apply orb_true_iff in Hop as [?|?]; bool_simp; congruence. }
  assert (take start t1 = take start t) as Ht1.
  { apply list_eq. intros k. destruct (decide (k < start)%nat); [|by rewrite !lookup_take_ge by lia].
    rewrite !lookup_take_lt by done. apply Hk1. lia. }
  assert (t1 !! S le = Some lparen) as Hp1 by (rewrite Hk1 by lia; done).
  assert (t1 !! (end_ - 1)%nat = Some rparen) as Hr1 by (rewrite Hk1 by lia; done).
  assert (t1 !! le = Some rc) as Hc1 by (rewrite Hk1 by lia; done).
  (* the first fullwidth closing bracket *)
  destruct (find_from (fun r => r =? frbracket) t1 (S start)) as [i|] eqn:Hf.
  - apply find_from_Some in Hf as (Hi & (ri & Hri & Eri) & Hbefore). bool_simp. subst ri.
    assert (rc = frbracket -> i = le) as Hfirst.
    { intros ->. destruct (Nat.lt_total i le) as [Hlt'|[?|Hgt]]; [|done|].
      - specialize (Hin i frbracket ltac:(lia)). rewrite <- Hk1 in Hin by lia. by specialize (Hin Hri).
      - specialize (Hbefore le frbracket ltac:(lia) Hc1). done. }
    assert (rc = rbracket \/ i = le) as Hrc'.
    { unfold is_close in Hcl. apply orb_true_iff in Hcl as [?|?]; bool_simp; auto. }
    destruct (i <? end_)%nat eqn:Ei.
    + assert (forall k r, t1 !! k = Some r -> r <> frbracket -> <[i := rbracket]> t1 !! k = Some r) as Hother.
      { intros k r Hk Hne. rewrite list_lookup_insert_ne; [done|]. intros ->. congruence. }
      rewrite length_insert. split_and!; try done; try (by apply Hother).
      * rewrite take_insert_ge by lia. done.
      * eapply same_text_trans; [done|]. eapply same_text_insert; [done|]. right; right. done.
      * destruct Hrc' as [->| ->]; [by apply Hother|]. apply list_lookup_insert_eq. lia.
    + apply Nat.ltb_ge in Ei. destruct Hrc' as [->| ->]; [|lia]. by split_and!.
  - split_and!; try done. unfold is_close in Hcl. apply orb_true_iff in Hcl as [?|?]; bool_simp; [by subst|].
    subst rc. pose proof (find_from_None _ _ _ le frbracket Hf ltac:(lia) Hc1). done.
Qed.

(** ** Draining *)

(** An annotation spans the label of a link [\[label\](url)] of the emitted text,
    whose URL is the annotation's up to bracket normalization. *)
Record ann_ok (t : text) (fl : nat) (a : Annotation) : Prop := {
  an_open : exists o, StartIndex a = S o /\ t !! o = Some lbracket;
  an_label : (StartIndex a < EndIndex a)%nat;
  an_close : t !! EndIndex a = Some rbracket;
  an_paren : t !! S (EndIndex a) = Some lparen;
  an_url : exists u, (S (EndIndex a) < u < fl)%nat /\ t !! u = Some rparen
           /\ same_text (URL (a_Source a)) (slice t (S (S (EndIndex a))) u)
}.

Lemma take_lookup_eq (t t' : text) fl k : take fl t' = take fl t -> (k < fl)%nat -> t' !! k = t !! k.
Proof. intros H Hk. apply (f_equal (lookup k)) in H. by rewrite !lookup_take_lt in H. Qed.

Lemma slice_stable (t t' : text) fl a b : take fl t' = take fl t -> (b <= fl)%nat -> slice t' a b = slice t a b.
Proof.
  intros H Hb. apply list_eq. intros k. rewrite !slice_lookup. case_decide; [|done].
  eapply take_lookup_eq; [done|lia].
Qed.

Lemma ann_ok_stable t t' fl fl' a : ann_ok t fl a -> take fl t' = take fl t -> (fl <= fl')%nat -> ann_ok t' fl' a.
Proof.
  intros [(o & Ho & Hto) Hl Hc Hp (u & Hu & Htu & Hs)] Ht Hf.
  assert (forall k, (k < fl)%nat -> t' !! k = t !! k) as Hk by (intros; by eapply take_lookup_eq).
  split; rewrite ?Hk by lia; try done.
  - exists o. rewrite Hk by lia. done.
  - exists u. rewrite Hk by lia. split_and!; [lia|lia|done|]. by rewrite (slice_stable t t' fl) by (done || lia).
Qed.

(** What a run of the loop did: from [fl] runes flushed of [t] to [fl'] of [t']. *)
Record drained (t : text) (fl : nat) (t' : text) (fl' : nat) (out : text) (new : list Annotation) : Prop := {
  dr_length : length t' = length t;
  dr_range : (fl <= fl' <= length t)%nat;
  dr_take : take fl t' = take fl t;
  dr_same : same_text t t';
  dr_out : out = slice t' fl fl';
  dr_anns : Forall (ann_ok t' fl') new
}.

Lemma drained_refl t fl : (fl <= length t)%nat -> drained t fl t fl [] [].
Proof. intros. split; try done; [apply same_text_refl|]. unfold slice. by rewrite Nat.sub_diag. Qed.

Lemma slice_app (t : text) a b c : (a <= b)%nat -> (b <= c)%nat -> slice t a b ++ slice t b c = slice t a c.
Proof.
  intros H1 H2. unfold slice. replace (drop b t) with (drop (b - a) (drop a t)) by (rewrite drop_drop; f_equal; lia).
  rewrite take_take_drop. f_equal. lia.
Qed.

Lemma drained_trans t fl t1 fl1 o1 n1 t2 fl2 o2 n2 :
  drained t fl t1 fl1 o1 n1 -> drained t1 fl1 t2 fl2 o2 n2 -> drained t fl t2 fl2 (o1 ++ o2) (n1 ++ n2).
Proof.
  intros [Hl1 Hr1 Ht1 Hs1 Ho1 Ha1] [Hl2 Hr2 Ht2 Hs2 Ho2 Ha2]. split.
  - congruence.
  - lia.
  - rewrite <- Ht1. apply list_eq. intros k. destruct (decide (k < fl)%nat); [|by rewrite !lookup_take_ge by lia].
    rewrite !lookup_take_lt by done. eapply take_lookup_eq; [done|lia].
  - by eapply same_text_trans.
  - rewrite Ho1, Ho2. rewrite <- (slice_stable t1 t2 fl1) by (done || lia). by apply slice_app; lia.
  - apply Forall_app. split; [|done]. eapply Forall_impl; [exact Ha1|]. intros a Ha. eapply ann_ok_stable; [done|done|lia].
Qed.

(** Flushing as plain text. *)
Lemma drained_plain t fl fl' : (fl <= fl' <= length t)%nat -> drained t fl t fl' (slice t fl fl') [].
Proof. intros. split; try done. apply same_text_refl. Qed.

Lemma slice_same_text t t' a b : same_text t t' -> same_text (slice t a b) (slice t' a b).
Proof. intros. by apply Forall2_take, Forall2_drop. Qed.

(** Flushing a matched link. *)
Lemma drained_link t fl start end_ ls le url s :
  (fl <= start)%nat -> link_at t start end_ ls le url ->
  let t' := NormalizeLinkBrackets t start end_ in
  URL s = url ->
  drained t fl t' end_ (slice t fl start ++ slice t' start end_) [MkAnnotation ls le s]
  /\ drained t fl t' end_ (slice t fl start ++ slice t' start end_) [].
Proof.
  intros Hfl Hlink t' Hurl. destruct (normalize_spec _ _ _ _ _ _ Hlink) as (Hl & Ht & Hs & H1 & H2 & H3 & H4). fold t' in Hl, Ht, Hs, H1, H2, H3, H4.
  pose proof (la_end _ _ _ _ _ _ Hlink). pose proof (la_start _ _ _ _ _ _ Hlink). pose proof (la_label _ _ _ _ _ _ Hlink).
  assert (slice t fl start ++ slice t' start end_ = slice t' fl end_) as Hout.
  { rewrite <- (slice_stable t t' start) by (done || lia). apply slice_app; lia. }
  assert (take fl t' = take fl t) as Htake.
  { apply list_eq. intros k. destruct (decide (k < fl)%nat); [|by rewrite !lookup_take_ge by lia].
    rewrite !lookup_take_lt by done. eapply take_lookup_eq; [done|lia]. }
  split; split; try done; try lia. constructor; [|constructor]. split; simpl; try done.
  - exists start. by split.
  - exists (end_ - 1)%nat. split_and!; [lia|lia|done|]. rewrite Hurl, (la_url _ _ _ _ _ _ Hlink). by apply slice_same_text.
Qed.

Section Emitting.
Context (Parse : text -> option ParsedURL) (Query : ParsedURL -> gmap text (list text))
  (Encode : gmap text (list text) -> text) (Print : ParsedURL -> text) (ToLower : text -> text).

Abbreviation drain_loop := (drain_loop Parse Query Encode Print ToLower).
Abbreviation drain := (drain Parse Query Encode Print ToLower).
Abbreviation Push := (Push Parse Query Encode Print ToLower).
Abbreviation Flush := (Flush Parse Query Encode Print ToLower).
Abbreviation ResolveSource := (ResolveSource Parse Query Encode Print ToLower).

(** The annotation's source is the recorded one its URL resolves to, under the
    URL the model wrote. *)
Definition cites (st : option State) (a : Annotation) : Prop :=
  exists s, ResolveSource st (URL (a_Source a)) = Some s /\ Index (a_Source a) = Index s /\ Title (a_Source a) = Title s.

(** What a call did to the emitter, with what it sent. *)
Definition emitted (final : bool) (e e' : Emitter) (out : text) (new : list Annotation) : Prop :=
  e_state e' = e_state e /\ drained (e_text e) (flushedRunes e) (e_text e') (flushedRunes e') out new
  /\ Forall (cites (e_state e)) new
  /\ if final then flushedRunes e' = length (e_text e') else (Buffered e' <= MaxLinkBufferRunes)%nat.

(** One more turn of the loop. *)
Lemma emitted_step final e e1 e2 o1 n1 o2 n2 :
  e_state e1 = e_state e -> drained (e_text e) (flushedRunes e) (e_text e1) (flushedRunes e1) o1 n1 ->
  Forall (cites (e_state e)) n1 -> emitted final e1 e2 o2 n2 -> emitted final e e2 (o1 ++ o2) (n1 ++ n2).
Proof.
  intros Hs Hd Hc (Hs' & Hd' & Hc' & Hf). split; [congruence|]. split; [by eapply drained_trans|]. split; [|exact Hf].
  apply Forall_app. split; [done|by rewrite <- Hs].
Qed.

Lemma drain_loop_spec final fuel : forall e content anns,
  (flushedRunes e <= length (e_text e))%nat -> (length (e_text e) - flushedRunes e < fuel)%nat ->
  exists e' out new, drain_loop fuel final e content anns = Some (e', content ++ out, anns ++ new) /\ emitted final e e' out new.
Proof.
  induction fuel as [|fuel IH]; intros [st t fl] content anns Hle Hfuel; cbn [e_text flushedRunes] in *; [lia|].
  (* flush up to [n] of [t1], sending [o1] and [n1], and go on *)
  assert (forall t1 n o1 n1 content1 anns1, drained t fl t1 n o1 n1 -> Forall (cites st) n1 -> (fl < n)%nat -> content1 = content ++ o1 -> anns1 = anns ++ n1 ->
    exists e' out new, drain_loop fuel final (MkEmitter st t1 n) content1 anns1 = Some (e', content ++ out, anns ++ new)
      /\ emitted final (MkEmitter st t fl) e' out new) as Hgo.
  { intros t1 n o1 n1 content1 anns1 Hd Hc Hn -> ->. pose proof (dr_length _ _ _ _ _ _ Hd). pose proof (dr_range _ _ _ _ _ _ Hd).
    destruct (IH (MkEmitter st t1 n) (content ++ o1) (anns ++ n1)) as (e' & out & new & -> & He); [cbn; lia|cbn; lia|].
    exists e', (o1 ++ out), (n1 ++ new). rewrite <- !app_assoc. split; [done|]. exact (emitted_step final (MkEmitter st t fl) (MkEmitter st t1 n) e' o1 n1 out new eq_refl Hd Hc He). }
  cbn [Citations.drain_loop e_text flushedRunes e_state].
  destruct (length t <=? fl)%nat eqn:Edone.
  { apply Nat.leb_le in Edone. assert (fl = length t) as -> by lia. exists (MkEmitter st t (length t)), [], [].
    rewrite !app_nil_r. split; [done|]. split; [done|]. split; [by apply drained_refl|]. split; [done|]. destruct final; [done|]. unfold Buffered; cbn; lia. }
  apply Nat.leb_gt in Edone. destruct (findNextLinkOpen t fl) as [o|] eqn:Ho.
  2: { exists (MkEmitter st t (length t)), (drop fl t), []. rewrite app_nil_r. split; [done|]. split; [done|]. split.
       - replace (drop fl t) with (slice t fl (length t)) by (unfold slice; rewrite take_ge by (rewrite length_drop; lia); done).
         apply drained_plain. lia.
       - split; [done|]. destruct final; [done|]. unfold Buffered; cbn; lia. }
  apply find_from_Some in Ho as (Ho & _ & _).
  assert (drained t fl t (S o) (slice t fl o ++ slice t o (S o)) []) as Hplain.
  { rewrite slice_app by lia. apply drained_plain. lia. }
  assert (drained t fl t o (slice t fl o) []) as Hheld by (apply drained_plain; lia).
  destruct (MatchMarkdownLink t o) as [end_ ls le url| |] eqn:Em.
  - apply MatchMarkdownLink_spec in Em. pose proof (la_end _ _ _ _ _ _ Em). pose proof (la_start _ _ _ _ _ _ Em). pose proof (la_label _ _ _ _ _ _ Em).
    destruct (ResolveSource st url) as [s|] eqn:Er; cbn zeta iota.
    + eapply Hgo; [exact (proj1 (drained_link _ _ _ _ _ _ _ (MkSource (Index s) url (Title s)) (proj1 Ho) Em eq_refl))|constructor; [by exists s|done]|lia|by rewrite app_assoc|done].
    + eapply Hgo; [exact (proj2 (drained_link _ _ _ _ _ _ _ (MkSource 0 url []) (proj1 Ho) Em eq_refl))|done|lia|by rewrite app_assoc|by rewrite app_nil_r].
  - destruct (final || (MaxLinkBufferRunes <? length t - o)%nat) eqn:Ef.
    + eapply Hgo; [exact Hplain|done|lia|by rewrite app_assoc|by rewrite app_nil_r].
    + apply orb_false_iff in Ef as [-> Eb]. apply Nat.ltb_ge in Eb. exists (MkEmitter st t o), (slice t fl o), [].
      rewrite app_nil_r. split; [done|]. by split_and!.
  - eapply Hgo; [exact Hplain|done|lia|by rewrite app_assoc|by rewrite app_nil_r].
Qed.

(** ** Streams *)

(** What happens to an emitter while a response streams: a delta arrives, a tool
    call records a source in the state it shares, the stream ends. *)
Inductive Event := Pushed (delta : text) | Recorded (url title : text) | Ended.

Definition event_step (e : Emitter) (ev : Event) : option (Emitter * text * list Annotation) :=
  match ev with
  | Pushed delta => Push e delta
  | Recorded url title => Some (MkEmitter (fst (Record_ (e_state e) url title)) (e_text e) (flushedRunes e), [], [])
  | Ended => Flush e
  end.

(** What the client has received after the events. *)
Definition run (c : option State) (evs : list Event) : option (Emitter * text * list Annotation) :=
  foldl (fun acc ev => '(e, out, anns) ← acc; '(e', o, n) ← event_step e ev; Some (e', out ++ o, anns ++ n))
    (Some (NewEmitter c, [], [])) evs.

Definition pushed (ev : Event) : text := match ev with Pushed delta => delta | _ => [] end.

Definition harmony (c : option State) : bool := match c with Some c => Harmony c | None => false end.

(** A source the annotation stands for. *)
Definition cited (st : option State) (a : Annotation) : Prop :=
  exists c s, st = Some c /\ s ∈ Sources c
    /\ NormalizeURL Parse Query Encode Print ToLower (URL s) = NormalizeURL Parse Query Encode Print ToLower (URL (a_Source a))
    /\ Index (a_Source a) = Index s /\ Title (a_Source a) = Title s.

Lemma ResolveSource_spec st url s :
  ResolveSource st url = Some s ->
  exists c, st = Some c /\ s ∈ Sources c
    /\ NormalizeURL Parse Query Encode Print ToLower (URL s) = NormalizeURL Parse Query Encode Print ToLower url.
Proof.
  unfold Citations.ResolveSource. destruct st as [c|]; [|done]. do 2 (case_bool_decide; [done|]).
  intros Hf. exists c. split; [done|]. revert Hf.
  apply (foldl_inv _ (fun best => best = Some s -> s ∈ Sources c
    /\ NormalizeURL Parse Query Encode Print ToLower (URL s) = NormalizeURL Parse Query Encode Print ToLower url)); [done|].
  intros best x Hx IH. unfold better_source. case_bool_decide as Hn; [|done].
  destruct best as [b|]; [|by intros [= ->]]. destruct (_ && _); [by intros [= ->]|done].
Qed.

Lemma cites_cited st a : cites st a -> cited st a.
Proof. intros (s & Hr & Hi & Ht). apply ResolveSource_spec in Hr as (c & -> & Hs & Hn). by exists c, s. Qed.

Lemma cited_record st url title a : cited st a -> cited (fst (Record_ st url title)) a.
Proof.
  intros (c & s & -> & Hs & H). simpl. eexists _, s. split; [done|]. cbn [Sources]. split; [set_solver|done].
Qed.

(** What holds after any events: the text received is the flushed text, its
    annotations are links of it, and no more than the limit is held back. *)
Record received (c : option State) (evs : list Event) (e : Emitter) (out : text) (anns : list Annotation) : Prop := {
  rc_flushed : (flushedRunes e <= length (e_text e))%nat;
  rc_out : out = take (flushedRunes e) (e_text e);
  rc_spans : Forall (ann_ok (e_text e) (flushedRunes e)) anns;
  rc_cited : Forall (cited (e_state e)) anns;
  rc_held : (Buffered e <= MaxLinkBufferRunes)%nat;
  rc_harmony : harmony (e_state e) = harmony c;
  rc_same : harmony c = false -> same_text (concat (map pushed evs)) (e_text e)
}.

(** Resolving tokens rewrites text that was not flushed, in Harmony mode only. *)
Lemma resolve_spec e :
  (flushedRunes e <= length (e_text e))%nat ->
  let e' := resolveHarmonyTokens e in
  e_state e' = e_state e /\ flushedRunes e' = flushedRunes e /\ (flushedRunes e <= length (e_text e'))%nat
  /\ take (flushedRunes e) (e_text e') = take (flushedRunes e) (e_text e)
  /\ (harmony (e_state e) = false -> e_text e' = e_text e).
Proof.
  intros Hle. unfold resolveHarmonyTokens, harmony. destruct (e_state e) as [c|] eqn:Es; [|done].
  destruct (_ || _) eqn:Eg; [done|]. cbn. rewrite length_app, length_take, take_app_le, take_take by (rewrite length_take; lia).
  split_and!; [done|done|lia|f_equal; lia|]. intros H. rewrite H in Eg. done.
Qed.

Lemma drain_spec final e :
  (flushedRunes e <= length (e_text e))%nat ->
  exists e' out new, drain final e = Some (e', out, new) /\ emitted final (resolveHarmonyTokens e) e' out new.
Proof.
  intros Hle. destruct (resolve_spec e Hle) as (_ & Hf & Hle' & _). unfold Citations.drain.
  eapply (drain_loop_spec final _ (resolveHarmonyTokens e) [] []); [by rewrite Hf|lia].
Qed.

(** One drain, of the buffer with [delta] appended. *)
Lemma received_drain c evs ev final e out anns delta :
  received c evs e out anns -> pushed ev = delta ->
  exists e' o n, drain final (MkEmitter (e_state e) (e_text e ++ delta) (flushedRunes e)) = Some (e', o, n)
    /\ received c (evs ++ [ev]) e' (out ++ o) (anns ++ n) /\ (final = true -> Buffered e' = 0%nat).
Proof.
  intros [Hfl Hout Hsp Hci Hbuf Hh Hsame] Hev. set (e0 := MkEmitter _ _ _).
  assert (flushedRunes e0 <= length (e_text e0))%nat as Hle0 by (cbn; rewrite length_app; lia).
  destruct (drain_spec final e0 Hle0) as (e' & o & n & -> & Hst & Hdr & Hcn & Hfin). exists e', o, n. split; [done|].
  destruct (resolve_spec e0 Hle0) as (Hrs & Hrf & Hrle & Hrt & Hrh). rewrite Hrf, Hrs in *.
  destruct Hdr as [Hl Hr Ht Hs Ho Ha]. change (flushedRunes e0) with (flushedRunes e) in *. change (e_state e0) with (e_state e) in *.
  assert (take (flushedRunes e) (e_text e') = take (flushedRunes e) (e_text e)) as Htake.
  { rewrite Ht, Hrt. cbn [e0 e_text]. by rewrite take_app_le. }
  split; [|intros ->; unfold Buffered; lia]. split.
  - lia.
  - rewrite Hout, Ho, <- Htake. apply slice_join. lia.
  - apply Forall_app. split; [|done]. eapply Forall_impl; [exact Hsp|]. intros a Hok. eapply ann_ok_stable; [done|done|lia].
  - apply Forall_app. rewrite Hst. split; [done|]. eapply Forall_impl; [exact Hcn|]. intros a. apply cites_cited.
  - destruct final; [unfold Buffered; lia|done].
  - by rewrite Hst.
  - intros Hnh. rewrite map_app, concat_app. cbn [map concat]. rewrite app_nil_r, Hev.
    eapply same_text_trans; [|exact Hs]. rewrite Hrh by congruence. cbn [e0 e_text]. apply Forall2_app; [by apply Hsame|apply same_text_refl].
Qed.

Lemma received_step c evs e out anns ev :
  received c evs e out anns ->
  exists e' o n, event_step e ev = Some (e', o, n) /\ received c (evs ++ [ev]) e' (out ++ o) (anns ++ n)
    /\ (ev = Ended -> Buffered e' = 0%nat).
Proof.
  intros Hrc. destruct ev as [delta|url title|]; cbn [event_step].
  - unfold Citations.Push. case_bool_decide as Hd.
    + exists e, [], []. rewrite !app_nil_r. split; [done|]. split; [|done]. destruct Hrc as [? ? ? ? ? ? Hs]. split; try done.
      intros Hh. rewrite map_app, concat_app. cbn. rewrite Hd, !app_nil_r. by apply Hs.
    + destruct (received_drain c evs (Pushed delta) false e out anns delta Hrc eq_refl) as (e' & o & n & H1 & H2 & _). by exists e', o, n.
  - eexists _, [], []. rewrite !app_nil_r. split; [done|]. split; [|done]. destruct Hrc as [? ? ? Hc ? Hh Hs]. split; try done.
    + eapply Forall_impl; [exact Hc|]. intros a. apply cited_record.
    + rewrite <- Hh. cbn. by destruct (e_state e).
    + intros H. rewrite map_app, concat_app. cbn. rewrite !app_nil_r. by apply Hs.
  - unfold Citations.Flush.
    destruct (received_drain c evs Ended true e out anns [] Hrc eq_refl) as (e' & o & n & H1 & H2 & H3).
    rewrite app_nil_r in H1. destruct e. exists e', o, n. split; [done|]. split; [done|]. intros _. by apply H3.
Qed.

(** Every stream of events is processed. *)
Lemma run_received c evs : exists e out anns, run c evs = Some (e, out, anns) /\ received c evs e out anns.
Proof.
  induction evs as [|ev evs IH] using rev_ind.
  - exists (NewEmitter c), [], []. split; [done|]. split; try done; cbn; try lia. intros _. constructor.
  - destruct IH as (e & out & anns & Hrun & Hrc). destruct (received_step _ _ _ _ _ ev Hrc) as (e' & o & n & Hs & Hrc' & _).
    exists e', (out ++ o), (anns ++ n). split; [|done]. unfold run in *. rewrite foldl_snoc, Hrun. cbn [mbind option_bind]. by rewrite Hs.
Qed.

End Emitting.

(** ** Properties *)


(** A toy [net/url] for the evaluated examples: the path is the whole string. *)
Definition toy_parse (t : text) : option ParsedURL := Some (MkURL [] [] t [] [] [] []).
Definition toy_query (p : ParsedURL) : gmap text (list text) := ∅.
Definition toy_encode (q : gmap text (list text)) : text := [].
Definition toy_print (p : ParsedURL) : text := Path p.
Definition toy_run : option State -> list Event -> option (Emitter * text * list Annotation) :=
  run toy_parse toy_query toy_encode toy_print (fun t => t).

Definition example_events : list Event :=
  [Recorded (runes "https://a.io/x/") (runes "A"); Pushed (runes "see [he"); Pushed (runes "re](https://a.io/x) and [");
   Pushed (runes "more")].


(** The open bracket is held back until the link completes. *)
Example held_then_cited :
  option_map (fun r => (r.1.2, map (fun a => (StartIndex a, EndIndex a, Index (a_Source a), URL (a_Source a))) r.2)) (toy_run (Some (MkState 1 [] false)) example_events)
  = Some (runes "see [here](https://a.io/x) and ", [(5%nat, 9%nat, 1, runes "https://a.io/x")]).
Proof. vm_compute. done. Qed.

(** Every annotation sent marks the label of a complete markdown link of the
    text the client has received, by rune offsets, and cites a source recorded by
    a tool call whose normalized URL is the link's; in Harmony mode too. *)
Theorem annotations_span_cited_links Parse Query Encode Print ToLower c evs :
  exists e out anns, run Parse Query Encode Print ToLower c evs = Some (e, out, anns)
    /\ Forall (fun a => ann_ok out (length out) a /\ cited Parse Query Encode Print ToLower (e_state e) a) anns.
Proof.
  destruct (run_received Parse Query Encode Print ToLower c evs) as (e & out & anns & Hrun & Hrc).
  exists e, out, anns. split; [done|]. destruct Hrc as [Hf Ho Hs Hc _ _ _].
  assert (length out = flushedRunes e) as Hl by (rewrite Ho, length_take; lia). rewrite Hl.
  apply Forall_forall. rewrite Forall_forall in Hs, Hc. intros a Ha. split; [|by apply Hc].
  eapply ann_ok_stable; [by apply Hs|rewrite Ho, take_take; f_equal; lia|lia].
Qed.

(** A URL that holds a fullwidth closing bracket, in a link whose label is closed
    by an ASCII one, is rewritten on its way to the client, while the annotation
    keeps the URL the model wrote. *)
Example link_url_rewritten :
  let url := runes "https://a.io/" ++ [frbracket] in
  let sent := runes "[a](https://a.io/])" in
  exists e anns, toy_run (Some (MkState 2 [MkSource 1 url []] false)) [Pushed (runes "[a](" ++ url ++ [rparen])] = Some (e, sent, anns)
    /\ map (fun a => URL (a_Source a)) anns = [url].
Proof. eexists _, _. split; [vm_compute; reflexivity|]. vm_compute. done. Qed.
