(* ===== verification/Latency.v ===== *)
(** * Streaming latency observation ([latency.go])

    The detector that scans the bytes sent to a client for the first event that
    carries generated output, the response writer that observes first tokens and
    gaps, and the outcome classes of a finished request.

    The decoding of a chunk into [streamChunk], of a raw value into a string or
    an array, and [mime.ParseMediaType] are parameters.  What is observed is a
    list of [observation]s, in order; durations are in nanoseconds. *)

From S2P Require Import Prelude Sha256 CacheSalt Lines.
From Stdlib Require Import Ascii.
#[local] Open Scope string_scope.
#[local] Open Scope list_scope.
#[local] Open Scope Z_scope.

(** ** Stream chunks *)

Record choice := MkChoice {
  choice_Text : string;
  Content : string;
  ReasoningContent : string;
  Reasoning : string;
  Refusal : string;
  ToolCalls : bytes;
  FunctionCall : bytes
}.

Record streamChunk := MkChunk {
  Type_ : string;
  Delta : bytes;
  Text : string;
  Error_ : bytes;
  Choices : list choice
}.

Definition jsonPresent (raw : bytes) : bool :=
  (0 <? Z.of_nat (length raw)) && negb (bool_decide (raw = to_bytes "null")).

(** ** The detector *)

Definition maxSSEBufferBytes : Z := Z.shiftl 64 10.

Record sseTokenDetector := MkDetector {
  line : bytes;
  data : bytes;
  hasData : bool;
  skipLine : bool;
  skipEvent : bool;
  sawError : bool
}.

Definition newDetector : sseTokenDetector := MkDetector [] [] false false false false.

Definition len (b : bytes) : Z := Z.of_nat (length b).

(** [bytes.IndexByte(p, '\n')] and the two slices around it. *)
Fixpoint cut_newline (p : bytes) : option (bytes * bytes) :=
  match p with
  | [] => None
  | c :: p => if Ascii.eqb c newline then Some ([], p) else '(a, b) ← cut_newline p; Some (c :: a, b)
  end.


Definition hasSuffix (s suffix : string) : bool :=
  bool_decide (is_Some (trim_prefix (rev (to_bytes suffix)) (rev (to_bytes s)))).

Section Detector.
Context (unmarshal : bytes -> option streamChunk) (unmarshal_string : bytes -> option string)
  (unmarshal_array : bytes -> option (list bytes)).

Definition nonEmptyJSONArray (raw : bytes) : bool :=
  (0 <? len raw) && match unmarshal_array raw with Some arr => 0 <? Z.of_nat (length arr) | None => false end.

Definition carries_output (c : choice) : bool :=
  negb (String.eqb (choice_Text c) "") || negb (String.eqb (Content c) "")
  || negb (String.eqb (ReasoningContent c) "") || negb (String.eqb (Reasoning c) "")
  || negb (String.eqb (Refusal c) "")
  || nonEmptyJSONArray (ToolCalls c) || jsonPresent (FunctionCall c).

(** Whether the event carries generated output, and whether it is an error event. *)
Definition classifyEvent (data : bytes) : bool * bool :=
  match data with
  | c :: _ =>
      if negb (Ascii.eqb c (byte_of 123)) then (false, false)
      else
        match unmarshal data with
        | None => (false, false)
        | Some chunk =>
            if jsonPresent (Error_ chunk) then (false, true)
            else if negb (String.eqb (Type_ chunk) "") then
              if String.eqb (Type_ chunk) "error" || String.eqb (Type_ chunk) "response.failed" then (false, true)
              else if hasSuffix (Type_ chunk) ".delta" then
                (match unmarshal_string (Delta chunk) with Some d => negb (String.eqb d "") | None => false end, false)
              else if String.eqb (Type_ chunk) "response.output_text.done" then
                (negb (String.eqb (Text chunk) ""), false)
              else (false, false)
            else (existsb carries_output (Choices chunk), false)
        end
  | [] => (false, false)
  end.

Definition bufferPartial (d : sseTokenDetector) (p : bytes) : sseTokenDetector :=
  if skipLine d then d
  else if len (line d) + len p >? maxSSEBufferBytes then
    MkDetector [] (data d) (hasData d) true true (sawError d)
  else MkDetector (line d ++ p) (data d) (hasData d) (skipLine d) (skipEvent d) (sawError d).

Definition processLine (d : sseTokenDetector) (l : bytes) : sseTokenDetector * bool :=
  let l := trim_cr l in
  match l with
  | [] =>
      let '(token, err) := if negb (skipEvent d) && hasData d then classifyEvent (data d) else (false, false) in
      (MkDetector (line d) [] false (skipLine d) false (sawError d || err), token)
  | _ =>
      match trim_prefix (to_bytes "data:") l with
      | None => (d, false)
      | Some value =>
          if skipEvent d then (d, false)
          else
            let value := TrimPrefix value (to_bytes " ") in
            if len (data d) + len value >=? maxSSEBufferBytes then
              (MkDetector (line d) [] false (skipLine d) true (sawError d), false)
            else
              let joined := if hasData d then data d ++ [newline] else data d in
              (MkDetector (line d) (joined ++ value) true (skipLine d) (skipEvent d) (sawError d), false)
      end
  end.

Fixpoint feed_loop (fuel : nat) (d : sseTokenDetector) (p : bytes) (token : bool) : sseTokenDetector * bool :=
  match fuel, p with
  | O, _ | _, [] => (d, token)
  | S fuel, _ =>
      match cut_newline p with
      | None => (bufferPartial d p, token)
      | Some (segment, p) =>
          if skipLine d then
            feed_loop fuel (MkDetector (line d) (data d) (hasData d) false (skipEvent d) (sawError d)) p token
          else
            let l := line d ++ segment in
            let d := MkDetector [] (data d) (hasData d) (skipLine d) (skipEvent d) (sawError d) in
            if len l >? maxSSEBufferBytes then
              feed_loop fuel (MkDetector [] (data d) (hasData d) (skipLine d) true (sawError d)) p token
            else let '(d, t) := processLine d l in feed_loop fuel d p (token || t)
      end
  end.

(** Each iteration but the last consumes a byte. *)
Definition feed (d : sseTokenDetector) (p : bytes) : sseTokenDetector * bool := feed_loop (length p) d p false.

(** ** What the stream says, without buffers *)


Definition blank (l : bytes) : bool := bool_decide (trim_cr l = []).

(** The events closed by a blank line, given the lines already seen of an open one. *)
Fixpoint events_of (open : list bytes) (ls : list bytes) : list (list bytes) :=
  match ls with
  | [] => []
  | l :: ls => if blank l then open :: events_of [] ls else events_of (open ++ [l]) ls
  end.

Definition data_value (l : bytes) : option bytes :=
  v ← trim_prefix (to_bytes "data:") (trim_cr l); Some (TrimPrefix v (to_bytes " ")).


Definition event_data (lines : list bytes) : option bytes :=
  match omap data_value lines with [] => None | vs => Some (join_values vs) end.

Definition oversized (lines : list bytes) : bool :=
  existsb (fun l => len l >? maxSSEBufferBytes) lines || (len (default [] (event_data lines)) >? maxSSEBufferBytes).

(** Token and error of an event. *)
Definition event_class (lines : list bytes) : bool * bool :=
  if oversized lines then (false, false)
  else match event_data lines with Some d => classifyEvent d | None => (false, false) end.

Definition stream_events (body : bytes) : list (list bytes) := events_of [] (fst (lines_of body)).
Definition has_token (body : bytes) : bool := existsb (fun e => fst (event_class e)) (stream_events body).
Definition has_error (body : bytes) : bool := existsb (fun e => snd (event_class e)) (stream_events body).

Definition feed_all (d : sseTokenDetector) (chunks : list bytes) : sseTokenDetector * bool :=
  foldl (fun '(d, t) p => let '(d, t') := feed d p in (d, t || t')) (d, false) chunks.

(** ** Lines and events *)

(** The detector between two lines: nothing of a line is held. *)
Definition clean (d : sseTokenDetector) : Prop := line d = [] /\ skipLine d = false.

(** The detector that has seen [l] of the current line. *)
Definition with_partial (l : bytes) (d : sseTokenDetector) : sseTokenDetector :=
  if len l >? maxSSEBufferBytes then MkDetector [] (data d) (hasData d) true true (sawError d)
  else MkDetector l (data d) (hasData d) false (skipEvent d) (sawError d).

(** A whole line at a clean detector. *)
Definition scan_line (d : sseTokenDetector) (l : bytes) : sseTokenDetector * bool :=
  if len l >? maxSSEBufferBytes then (MkDetector [] (data d) (hasData d) false true (sawError d), false)
  else processLine d l.

Fixpoint scan_lines (d : sseTokenDetector) (ls : list bytes) : sseTokenDetector * bool :=
  match ls with
  | [] => (d, false)
  | l :: ls => let '(d, t) := scan_line d l in let '(d, t') := scan_lines d ls in (d, t || t')
  end.


Lemma len_app a b : len (a ++ b) = len a + len b.
Proof. unfold len. rewrite length_app. lia. Qed.

Lemma len_nonneg b : 0 <= len b.
Proof. unfold len. lia. Qed.

Lemma maxSSE_pos : maxSSEBufferBytes = 65536.
Proof. done. Qed.




Lemma cut_newline_None p : cut_newline p = None -> lines_of p = ([], p).
Proof.
  induction p as [|c p IH]; simpl; [done|]. destruct (Ascii.eqb c newline); [done|].
  destruct (cut_newline p) as [[]|]; simpl; [done|]. intros _. by rewrite IH.
Qed.

Lemma cut_newline_Some p a b :
  cut_newline p = Some (a, b) ->
  (length b < length p)%nat /\ lines_of p = (a :: fst (lines_of b), snd (lines_of b)).
Proof.
  revert a. induction p as [|c p IH]; simpl; [done|]. intros a.
  destruct (Ascii.eqb c newline); [intros [= <- <-]; split; [lia|by destruct (lines_of p)]|].
  destruct (cut_newline p) as [[a' b']|]; simpl; [|done]. intros [= <- <-].
  destruct (IH a' eq_refl) as [? ->]. split; [lia|done].
Qed.

Lemma processLine_frame d l d' t : processLine d l = (d', t) -> line d' = line d /\ skipLine d' = skipLine d.
Proof.
  unfold processLine. intros H.
  repeat match type of H with
  | context [match ?x with _ => _ end] => destruct x
  end; by simplify_eq/=.
Qed.

Lemma scan_line_clean d l d' t : clean d -> scan_line d l = (d', t) -> clean d'.
Proof.
  unfold clean, scan_line. intros [Hl Hs]. destruct (_ >? _); [intros [= <- <-]; done|].
  intros [-> ->]%processLine_frame. done.
Qed.

Lemma scan_lines_clean ls : forall d d' t, clean d -> scan_lines d ls = (d', t) -> clean d'.
Proof.
  induction ls as [|l ls IH]; simpl; intros d d' t Hc; [intros [= <- <-]; done|].
  destruct (scan_line d l) as [d1 t1] eqn:E. apply scan_line_clean in E; [|done].
  destruct (scan_lines d1 ls) as [d2 t2] eqn:E2. intros [= <- <-]. eauto.
Qed.

Lemma scan_lines_app ls1 ls2 d :
  scan_lines d (ls1 ++ ls2) =
    let '(d1, t1) := scan_lines d ls1 in let '(d2, t2) := scan_lines d1 ls2 in (d2, t1 || t2).
Proof.
  revert d. induction ls1 as [|l ls IH]; simpl; intros d; [by destruct (scan_lines d ls2)|].
  destruct (scan_line d l) as [d1 t1]. rewrite IH. destruct (scan_lines d1 ls) as [d2 t2].
  destruct (scan_lines d2 ls2). by rewrite orb_assoc.
Qed.

Lemma clean_eta d : clean d -> d = MkDetector [] (data d) (hasData d) false (skipEvent d) (sawError d).
Proof. destruct d. by intros [[= ->] [= ->]]. Qed.

Lemma with_partial_nil d : clean d -> with_partial [] d = d.
Proof. intros Hc. rewrite (clean_eta d Hc) at 2. done. Qed.

Lemma bufferPartial_with_partial l d p : bufferPartial (with_partial l d) p = with_partial (l ++ p) d.
Proof.
  unfold bufferPartial, with_partial. rewrite len_app.
  pose proof (len_nonneg p). destruct (len l >? maxSSEBufferBytes) eqn:E; simpl.
  - bool_simp. replace (len l + len p >? maxSSEBufferBytes) with true; [done|]. symmetry. lia.
  - done.
Qed.

(** A newline completes the held line. *)
Lemma feed_newline fuel l d p a b token : clean d -> cut_newline p = Some (a, b) ->
  feed_loop (S fuel) (with_partial l d) p token =
    let '(d', t) := scan_line d (l ++ a) in feed_loop fuel d' b (token || t).
Proof.
  intros Hc Hp. destruct p as [|c p]; [done|]. cbn [feed_loop]. rewrite Hp.
  unfold with_partial, scan_line. pose proof (len_nonneg a). pose proof (len_app l a).
  destruct (len l >? maxSSEBufferBytes) eqn:E; simpl.
  - bool_simp. replace (len (l ++ a) >? maxSSEBufferBytes) with true by (symmetry; lia).
    cbn. by rewrite orb_false_r.
  - rewrite <- (clean_eta d Hc). destruct (len (l ++ a) >? _); cbn; [by rewrite orb_false_r|done].
Qed.

Lemma feed_loop_lines fuel : forall p l d token, clean d -> (length p <= fuel)%nat ->
  feed_loop fuel (with_partial l d) p token =
    let '(ls, r) := lines_from l p in let '(d', t) := scan_lines d ls in (with_partial r d', token || t).
Proof.
  assert (forall l d token fuel, feed_loop fuel (with_partial l d) [] token = (with_partial l d, token)) as Hnil.
  { by intros ? ? ? []. }
  induction fuel as [|fuel IH]; intros [|c p] l d token Hc Hlen;
    try (rewrite Hnil; unfold lines_from; simpl; by rewrite app_nil_r, orb_false_r); [simpl in *; lia|].
  destruct (cut_newline (c :: p)) as [[a b]|] eqn:E.
  - rewrite (feed_newline _ _ _ _ _ _ _ Hc E). apply cut_newline_Some in E as [Hb E]. simpl in Hlen, Hb.
    unfold lines_from. rewrite E. cbn [scan_lines].
    destruct (scan_line d (l ++ a)) as [d1 t1] eqn:E1. pose proof (scan_line_clean _ _ _ _ Hc E1) as Hc1.
    rewrite <- (with_partial_nil d1 Hc1) at 1. rewrite IH, lines_from_nil by (try done; lia).
    destruct (lines_of b) as [ls r]. cbn [fst snd]. destruct (scan_lines d1 ls). by rewrite orb_assoc.
  - cbn [feed_loop]. rewrite E, bufferPartial_with_partial. unfold lines_from.
    rewrite (cut_newline_None _ E). simpl. by rewrite orb_false_r.
Qed.

(** Feeding is scanning the lines completed so far and holding the rest. *)
Lemma feed_lines p l d : clean d ->
  feed (with_partial l d) p =
    let '(ls, r) := lines_from l p in let '(d', t) := scan_lines d ls in (with_partial r d', t).
Proof. intros Hc. unfold feed. by rewrite feed_loop_lines. Qed.

Lemma feed_all_lines chunks : forall l d token, clean d ->
  foldl (fun '(d, t) p => let '(d, t') := feed d p in (d, t || t')) (with_partial l d, token) chunks =
    let '(ls, r) := lines_from l (concat chunks) in let '(d', t) := scan_lines d ls in (with_partial r d', token || t).
Proof.
  induction chunks as [|p chunks IH]; intros l d token Hc; simpl.
  { unfold lines_from. simpl. by rewrite app_nil_r, orb_false_r. }
  rewrite feed_lines by done. rewrite lines_from_app.
  destruct (lines_from l p) as [ls r]. destruct (scan_lines d ls) as [d1 t1] eqn:E.
  rewrite IH by (by eapply scan_lines_clean). destruct (lines_from r (concat chunks)) as [ls' r'].
  rewrite scan_lines_app, E. destruct (scan_lines d1 ls'). by rewrite orb_assoc.
Qed.

(** *** Lines of an event *)

(** [d] holds the open event [o]. *)
Definition holds (o : list bytes) (d : sseTokenDetector) : Prop :=
  clean d /\ skipEvent d = oversized o /\
  (oversized o = false -> data d = default [] (event_data o) /\ hasData d = bool_decide (is_Some (event_data o))).


Lemma event_data_snoc o l :
  event_data (o ++ [l]) =
    match data_value l with
    | None => event_data o
    | Some v => Some (match event_data o with None => v | Some d => d ++ newline :: v end)
    end.
Proof.
  unfold event_data. rewrite omap_app. simpl. destruct (data_value l) as [v|]; [|by rewrite app_nil_r].
  generalize (omap data_value o) as vs. intros vs. pose proof (join_values_snoc vs v) as H.
  destruct vs as [|w vs]; [done|]. exact (f_equal Some H).
Qed.

Lemma oversized_snoc o l :
  oversized (o ++ [l]) =
    oversized o || (len l >? maxSSEBufferBytes)
    || match data_value l with
       | Some v => len (default [] (event_data o)) + len v + (if decide (is_Some (event_data o)) then 1 else 0) >? maxSSEBufferBytes
       | None => false
       end.
Proof.
  unfold oversized. rewrite existsb_app, event_data_snoc. simpl. rewrite orb_false_r.
  destruct (data_value l) as [v|]; [|rewrite orb_false_r; by destruct (existsb _ o), (_ >? _), (_ >? _)].
  pose proof (len_nonneg v) as Hv. destruct (event_data o) as [d|]; simpl.
  - rewrite len_app. change (newline :: v) with ([newline] ++ v). rewrite len_app.
    replace (len d + (len [newline] + len v)) with (len d + len v + 1) by (unfold len; simpl; lia).
    destruct (len d >? maxSSEBufferBytes) eqn:E; [|by destruct (existsb _ o), (_ >? _), (_ >? _)].
    bool_simp. replace (len d + len v + 1 >? maxSSEBufferBytes) with true by (symmetry; lia).
    by destruct (existsb _ o), (_ >? _).
  - rewrite Z.add_0_r. by destruct (existsb _ o), (_ >? _), (_ >? _).
Qed.

Lemma trim_prefix_len p s v : trim_prefix p s = Some v -> len s = len p + len v.
Proof.
  revert s. induction p as [|a p IH]; intros [|b s]; simpl; try done; [by intros [= <-]..|].
  destruct (Ascii.eqb a b); [|done]. intros H%IH. unfold len in *. simpl. lia.
Qed.

Lemma trim_cr_len l : len (trim_cr l) <= len l.
Proof.
  unfold trim_cr. destruct (last l) as [c|]; [|done]. destruct (Ascii.eqb c _); [|done].
  unfold len. rewrite removelast_firstn_len, length_firstn. lia.
Qed.

Lemma TrimPrefix_len s p : len (TrimPrefix s p) <= len s.
Proof.
  unfold TrimPrefix. destruct (trim_prefix p s) as [v|] eqn:E; simpl; [|done].
  apply trim_prefix_len in E. pose proof (len_nonneg p). lia.
Qed.

Lemma data_value_len l v : data_value l = Some v -> len v + 5 <= len l.
Proof.
  unfold data_value. destruct (trim_prefix _ _) as [w|] eqn:E; simpl; [|done]. intros [= <-].
  apply trim_prefix_len in E. pose proof (trim_cr_len l). pose proof (TrimPrefix_len w (to_bytes " ")).
  change (len (to_bytes "data:")) with 5 in E. simpl in *. lia.
Qed.

(** What [processLine] does with a line that is not blank. *)
Lemma processLine_field d l : blank l = false ->
  processLine d l =
    (match data_value l with
     | Some v =>
         if skipEvent d then d
         else if len (data d) + len v >=? maxSSEBufferBytes then MkDetector (line d) [] false (skipLine d) true (sawError d)
         else MkDetector (line d) ((if hasData d then data d ++ [newline] else data d) ++ v) true (skipLine d) (skipEvent d) (sawError d)
     | None => d
     end, false).
Proof.
  unfold blank, processLine, data_value. intros Hb%bool_decide_eq_false.
  destruct (trim_cr l) as [|c l']; [done|]. destruct (trim_prefix _ _) as [v|]; simpl; [|done].
  destruct (skipEvent d); [done|]. by destruct (_ >=? _).
Qed.

Lemma holds_line o d l : holds o d -> blank l = false ->
  exists d', scan_line d l = (d', false) /\ holds (o ++ [l]) d' /\ sawError d' = sawError d.
Proof.
  intros (Hc & Hs & Hd) Hb. unfold scan_line. destruct (len l >? maxSSEBufferBytes) eqn:El.
  { eexists. split; [done|]. split; [|done]. split; [done|]. cbn [skipEvent].
    rewrite oversized_snoc, El, orb_true_r. done. }
  rewrite processLine_field by done. eexists. split; [done|].
  pose proof (oversized_snoc o l) as Ho. rewrite El, orb_false_r in Ho.
  destruct (data_value l) as [v|] eqn:Ev.
  2:{ rewrite orb_false_r in Ho. split; [|done]. split; [done|]. by rewrite Ho, event_data_snoc, Ev. }
  destruct Hc as [Hl Hk]. rewrite Hl, Hk. destruct (skipEvent d) eqn:Ek.
  { rewrite <- Hs in Ho. split; [|done]. split; [done|]. by rewrite Ho. }
  rewrite <- Hs in Ho. destruct (Hd (eq_sym Hs)) as [Hdata Hhas]. simpl in Ho.
  pose proof (data_value_len _ _ Ev). bool_simp.
  destruct (len (data d) + len v >=? maxSSEBufferBytes) eqn:Eo; (split; [|done]); (split; [done|]); cbn [data hasData skipEvent];
    rewrite Ho, event_data_snoc, Ev; rewrite Hdata in *; rewrite ?Hhas.
  - bool_simp. destruct (event_data o) as [w|]; simpl in *; [|rewrite maxSSE_pos in *; change (len []) with 0 in *; lia].
    replace (len w + len v + 1 >? maxSSEBufferBytes) with true; [done|symmetry; lia].
  - bool_simp. destruct (event_data o) as [w|]; simpl in *.
    + replace (len w + len v + 1 >? maxSSEBufferBytes) with false by (symmetry; lia).
      split; [done|]. intros _. by rewrite <- app_assoc.
    + replace (len [] + len v + 0 >? maxSSEBufferBytes) with false by (symmetry; lia). done.
Qed.

Lemma holds_blank o d l : holds o d -> blank l = true ->
  exists d', scan_line d l = (d', fst (event_class o)) /\ holds [] d' /\ sawError d' = sawError d || snd (event_class o).
Proof.
  intros (Hc & Hs & Hd) Hb. unfold scan_line, blank in *. bool_simp.
  replace (len l >? maxSSEBufferBytes) with false.
  2:{ symmetry. pose proof (len_nonneg l). rewrite maxSSE_pos. unfold trim_cr in Hb.
      destruct (last l) as [c|] eqn:El; [destruct (Ascii.eqb c _)|]; subst; try done.
      destruct l as [|a [|b l]]; done. }
  unfold processLine. rewrite Hb. unfold event_class. rewrite Hs. destruct Hc as [Hl Hk]. rewrite Hl, Hk.
  destruct (oversized o) eqn:Eo; simpl; [by rewrite orb_false_r; eexists; repeat split|].
  destruct (Hd eq_refl) as [-> ->]. destruct (event_data o) as [w|]; simpl; [|by rewrite orb_false_r; eexists; repeat split].
  destruct (classifyEvent w) as [t err]. by eexists; repeat split.
Qed.

(** Scanning lines is classifying the events they close. *)
Lemma scan_lines_events ls : forall o d, holds o d ->
  exists d', scan_lines d ls = (d', existsb (fun e => fst (event_class e)) (events_of o ls))
    /\ clean d' /\ sawError d' = sawError d || existsb (fun e => snd (event_class e)) (events_of o ls).
Proof.
  induction ls as [|l ls IH]; intros o d Hd; simpl.
  { exists d. rewrite orb_false_r. split; [done|]. split; [apply Hd|done]. }
  destruct (blank l) eqn:Hb.
  - destruct (holds_blank _ _ _ Hd Hb) as (d1 & -> & H1 & E1).
    destruct (IH _ _ H1) as (d2 & E2 & H2 & E3). rewrite E2. exists d2. simpl. split; [done|]. split; [done|].
    by rewrite E3, E1, orb_assoc.
  - destruct (holds_line _ _ _ Hd Hb) as (d1 & -> & H1 & E1).
    destruct (IH _ _ H1) as (d2 & E2 & H2 & E3). rewrite E2. exists d2. simpl. split; [done|]. split; [done|].
    by rewrite E3, E1.
Qed.

Lemma holds_new : holds [] newDetector.
Proof. done. Qed.

(** The detector after any chunks: what it holds of the last line, and the events so far. *)
Lemma feed_all_events chunks :
  exists d l, feed_all newDetector chunks = (with_partial l d, has_token (concat chunks))
    /\ clean d /\ sawError d = has_error (concat chunks).
Proof.
  unfold feed_all, has_token, has_error, stream_events.
  rewrite <- (with_partial_nil newDetector) by done. rewrite feed_all_lines by done.
  rewrite lines_from_nil. destruct (lines_of (concat chunks)) as [ls r].
  destruct (scan_lines_events ls [] newDetector holds_new) as (d & -> & Hc & He). by exists d, r.
Qed.

Lemma with_partial_sawError l d : sawError (with_partial l d) = sawError d.
Proof. unfold with_partial. by destruct (_ >? _). Qed.

(** *** Bounded buffers *)

Definition bounded (d : sseTokenDetector) : Prop := len (line d) <= maxSSEBufferBytes /\ len (data d) <= maxSSEBufferBytes.

Lemma processLine_bounded d l : bounded d -> bounded (fst (processLine d l)).
Proof.
  intros [Hl Hd]. destruct (blank l) eqn:Hb.
  - unfold blank, processLine in *. bool_simp. rewrite Hb. destruct (if _ : bool then _ else _). by split.
  - rewrite processLine_field by done. simpl. destruct (data_value l) as [v|]; [|done].
    destruct (skipEvent d); [done|]. destruct (_ >=? _) eqn:E; (split; [done|]); simpl; [done|].
    bool_simp. rewrite len_app. destruct (hasData d); rewrite ?len_app; change (len [newline]) with 1; lia.
Qed.

Lemma feed_loop_bounded fuel : forall d p token, bounded d -> bounded (fst (feed_loop fuel d p token)).
Proof.
  induction fuel as [|fuel IH]; intros d p token Hd; [done|]. cbn [feed_loop].
  destruct p as [|c p]; [done|]. destruct (cut_newline (c :: p)) as [[a b]|].
  - destruct (skipLine d); [by apply IH|]. destruct (_ >? _); [by apply IH; destruct Hd|].
    match goal with |- context [processLine ?d1 ?l1] => assert (bounded (fst (processLine d1 l1))) as H end.
    { apply processLine_bounded. destruct Hd. by split. }
    destruct (processLine _ _). by apply IH.
  - simpl. unfold bufferPartial. destruct (skipLine d); [done|]. destruct Hd as [Hl Hd].
    destruct (_ >? _) eqn:E; (split; [|done]); simpl; [done|]. bool_simp. by rewrite len_app.
Qed.

Lemma feed_all_bounded chunks : forall d t, bounded d ->
  bounded (fst (foldl (fun '(d, t) p => let '(d, t') := feed d p in (d, t || t')) (d, t) chunks)).
Proof.
  induction chunks as [|p chunks IH]; intros d t Hd; simpl; [done|].
  pose proof (feed_loop_bounded (length p) d p false Hd) as H. unfold feed. destruct (feed_loop _ _ _ _). by apply IH.
Qed.

Lemma feed_all_flags chunks :
  let '(d, token) := feed_all newDetector chunks in token = has_token (concat chunks) /\ sawError d = has_error (concat chunks).
Proof.
  destruct (feed_all_events chunks) as (d & l & -> & Hc & He). split; [done|]. by rewrite with_partial_sawError.
Qed.

(** C36: however the bytes of a stream are cut into writes, the detector reports
    a token exactly when some completed event of the byte stream carries
    generated output, has seen an error exactly when one is an error event, and
    never holds more than 64 KiB of a line or of an event's data. *)
Theorem detector_matches_stream chunks :
  let '(d, token) := feed_all newDetector chunks in
  token = has_token (concat chunks) /\ sawError d = has_error (concat chunks) /\ bounded d.
Proof.
  pose proof (feed_all_bounded chunks newDetector false ltac:(done)) as Hb. fold (feed_all newDetector chunks) in Hb.
  pose proof (feed_all_flags chunks) as Hf. destruct (feed_all newDetector chunks). by destruct Hf.
Qed.
End Detector.

(** ** The writer *)

Inductive media_error := NoMediaError | ErrInvalidMediaParameter | OtherMediaError.

Inductive ctx_err := CtxAlive | Canceled | DeadlineExceeded.

Record latencyWriter := MkWriter {
  model : string;
  enclave : string;
  pool : string;
  class : string;
  arrival : Z;
  start : Z;
  status : Z;
  lw_last : Z;
  observeLegacy : bool;
  detector : option sseTokenDetector;
  tokenSeen : bool;
  aborted : bool
}.

(** The metric series touched, with their labels. *)
Inductive observation :=
  | TTFTSeconds (model class : string) (d : Z)
  | ReplicaTTFTSeconds (model enclave pool class : string) (d : Z)
  | InterTokenSeconds (model class : string) (d : Z)
  | FirstTokenSeconds (model enclave pool class : string) (d : Z)
  | NoFirstTokenTotal (model enclave pool class reason : string) (n : Z)
  | RequestDurationSeconds (model pool class stream outcome : string) (d : Z).

Definition latencyMetricPaths : list string := ["/v1/chat/completions"; "/v1/completions"; "/v1/responses"].

Definition priorityClass (hasConfiguredPriority : bool) : string :=
  if hasConfiguredPriority then "configured" else "none".

Definition requestOutcome (ctx : ctx_err) (status : Z) (aborted : bool) : string :=
  match ctx with
  | Canceled => "canceled"
  | DeadlineExceeded => "timeout"
  | CtxAlive => if aborted || (status >=? 500) then "error" else if status >=? 400 then "http_4xx" else "ok"
  end.

Definition observeRequestDuration (ctx : ctx_err) (model pool class : string) (streaming : bool)
    (status : Z) (aborted : bool) (start now : Z) : observation :=
  RequestDurationSeconds model pool class (if streaming then "streaming" else "non_streaming")
    (requestOutcome ctx status aborted) (time_sub now start).

Definition noFirstTokenReasons : list string := ["canceled"; "timeout"; "error"; "no_output"].

Definition initNoFirstTokenSeries (model enclave pool class : string) : list observation :=
  map (fun reason => NoFirstTokenTotal model enclave pool class reason 0) noFirstTokenReasons.

Definition newLatencyWriter (now arrival : Z) (model enclave pool class : string) : latencyWriter * list observation :=
  (MkWriter model enclave pool class arrival now 0 time_zero true None false false,
   initNoFirstTokenSeries model enclave pool class).

Definition toolRuntimeLabel : string := "tool-runtime".

Definition newToolLatencyWriter (now arrival : Z) (model class : string) : latencyWriter * list observation :=
  (MkWriter model toolRuntimeLabel toolRuntimeLabel class arrival now 0 time_zero false None false false,
   initNoFirstTokenSeries model toolRuntimeLabel toolRuntimeLabel class).

(** A replay on another replica points the writer at it. *)
Definition retarget (enclave pool : string) (now : Z) (lw : latencyWriter) : latencyWriter * list observation :=
  (MkWriter (model lw) enclave pool (class lw) (arrival lw) now (status lw) (lw_last lw) (observeLegacy lw)
     (detector lw) (tokenSeen lw) (aborted lw),
   initNoFirstTokenSeries (model lw) enclave pool (class lw)).

Definition WriteHeader (code : Z) (lw : latencyWriter) : latencyWriter :=
  MkWriter (model lw) (enclave lw) (pool lw) (class lw) (arrival lw) (start lw)
    (if status lw <? 200 then code else status lw) (lw_last lw) (observeLegacy lw)
    (detector lw) (tokenSeen lw) (aborted lw).

Definition observeFirstToken (now : Z) (lw : latencyWriter) : latencyWriter * list observation :=
  (MkWriter (model lw) (enclave lw) (pool lw) (class lw) (arrival lw) (start lw) (status lw) (lw_last lw)
     (observeLegacy lw) None true (aborted lw),
   [FirstTokenSeconds (model lw) (enclave lw) (pool lw) (class lw) (time_sub now (arrival lw))]).

Definition with_detector (det : option sseTokenDetector) (lw : latencyWriter) : latencyWriter :=
  MkWriter (model lw) (enclave lw) (pool lw) (class lw) (arrival lw) (start lw) (status lw) (lw_last lw)
    (observeLegacy lw) det (tokenSeen lw) (aborted lw).

Definition with_last (now : Z) (lw : latencyWriter) : latencyWriter :=
  MkWriter (model lw) (enclave lw) (pool lw) (class lw) (arrival lw) (start lw) (status lw) now
    (observeLegacy lw) (detector lw) (tokenSeen lw) (aborted lw).

Definition with_aborted (a : bool) (lw : latencyWriter) : latencyWriter :=
  MkWriter (model lw) (enclave lw) (pool lw) (class lw) (arrival lw) (start lw) (status lw) (lw_last lw)
    (observeLegacy lw) (detector lw) (tokenSeen lw) a.

(** The deferred count of a request that ended before any token. *)
Definition finish (ctx : ctx_err) (lw : latencyWriter) : list observation :=
  if tokenSeen lw then []
  else
    let reason :=
      match ctx with
      | Canceled => "canceled"
      | DeadlineExceeded => "timeout"
      | CtxAlive =>
          if (status lw >=? 300) || aborted lw || match detector lw with Some d => sawError d | None => false end
          then "error" else "no_output"
      end in
    [NoFirstTokenTotal (model lw) (enclave lw) (pool lw) (class lw) reason 1].

Section Writer.
Context (unmarshal : bytes -> option streamChunk) (unmarshal_string : bytes -> option string)
  (unmarshal_array : bytes -> option (list bytes)) (ParseMediaType : string -> string * media_error).

Definition isEventStream (contentType : string) : bool :=
  let '(mediaType, err) := ParseMediaType contentType in
  match err with OtherMediaError => false | _ => String.eqb mediaType "text/event-stream" end.

(** A write of [b] at [now] under the response's content type; the underlying
    writer wrote [n] bytes and succeeded if [ok]. *)
Definition Write (now : Z) (contentType : string) (b : bytes) (n : Z) (ok : bool) (lw : latencyWriter)
    : latencyWriter * list observation :=
  let observe := status lw <? 300 in
  let '(lw, legacy) :=
    if observe then
      let '(lw, legacy) :=
        if IsZero (lw_last lw) then
          let legacy :=
            if observeLegacy lw then
              let ttft := time_sub now (start lw) in
              [TTFTSeconds (model lw) (class lw) ttft; ReplicaTTFTSeconds (model lw) (enclave lw) (pool lw) (class lw) ttft]
            else [] in
          (if isEventStream contentType then with_detector (Some newDetector) lw else lw, legacy)
        else (lw, if observeLegacy lw then [InterTokenSeconds (model lw) (class lw) (time_sub now (lw_last lw))] else []) in
      (with_last now lw, legacy)
    else (lw, []) in
  if observe && ok && negb (tokenSeen lw) then
    match detector lw with
    | None => if n >? 0 then let '(lw, o) := observeFirstToken now lw in (lw, legacy ++ o) else (lw, legacy)
    | Some d =>
        let '(d, token) := feed unmarshal unmarshal_string unmarshal_array d b in
        let lw := with_detector (Some d) lw in
        if token then let '(lw, o) := observeFirstToken now lw in (lw, legacy ++ o) else (lw, legacy)
    end
  else (lw, legacy).

(** The calls a request makes on its writer. *)
Inductive call :=
  | CallWriteHeader (code : Z)
  | CallWrite (now : Z) (contentType : string) (b : bytes) (n : Z) (ok : bool)
  | CallRetarget (enclave pool : string) (now : Z).

Definition do_call (lw : latencyWriter) (c : call) : latencyWriter * list observation :=
  match c with
  | CallWriteHeader code => (WriteHeader code lw, [])
  | CallWrite now ct b n ok => Write now ct b n ok lw
  | CallRetarget e p now => retarget e p now lw
  end.

Fixpoint run (lw : latencyWriter) (calls : list call) : latencyWriter * list observation :=
  match calls with
  | [] => (lw, [])
  | c :: calls => let '(lw, o) := do_call lw c in let '(lw, os) := run lw calls in (lw, o ++ os)
  end.

(** A request from its writer's creation to the deferred calls, which see
    whether the handler returned ([served]) and how the context ended. *)
Definition serve_request (w : latencyWriter * list observation) (calls : list call) (ctx : ctx_err) (served : bool) (now : Z)
    : list observation :=
  let '(lw, os) := run (fst w) calls in
  let lw := with_aborted (negb served) lw in
  snd w ++ os ++ finish ctx lw
    ++ [observeRequestDuration ctx (model lw) (pool lw) (class lw) true (status lw) (aborted lw) (arrival lw) now].

(** ** Accounting *)

(** How much an observation counts towards the request's token accounting. *)
Definition accounted (o : observation) : Z :=
  match o with FirstTokenSeconds _ _ _ _ _ => 1 | NoFirstTokenTotal _ _ _ _ _ n => n | _ => 0 end.

Lemma accounted_app l1 l2 : sum_by accounted (l1 ++ l2) = sum_by accounted l1 + sum_by accounted l2.
Proof. unfold sum_by. induction l1 as [|o l1 IH]; simpl; lia. Qed.

Lemma series_at_zero m e p c : sum_by accounted (initNoFirstTokenSeries m e p c) = 0.
Proof. done. Qed.

Definition seen (lw : latencyWriter) : Z := if tokenSeen lw then 1 else 0.

(** The part of a write before the delegated one. *)
Lemma legacy_frame (lw lw' : latencyWriter) now ct legacy :
  (if status lw <? 300 then
     let '(lw, legacy) :=
       if IsZero (lw_last lw) then
         let legacy :=
           if observeLegacy lw then
             let ttft := time_sub now (start lw) in
             [TTFTSeconds (model lw) (class lw) ttft; ReplicaTTFTSeconds (model lw) (enclave lw) (pool lw) (class lw) ttft]
           else [] in
         (if isEventStream ct then with_detector (Some newDetector) lw else lw, legacy)
       else (lw, if observeLegacy lw then [InterTokenSeconds (model lw) (class lw) (time_sub now (lw_last lw))] else []) in
     (with_last now lw, legacy)
   else (lw, [])) = (lw', legacy) ->
  tokenSeen lw' = tokenSeen lw /\ Forall (fun o => accounted o = 0) legacy.
Proof.
  intros H. destruct (status lw <? 300); [|by injection H as <- <-].
  destruct (IsZero (lw_last lw)), (observeLegacy lw) eqn:?, (isEventStream ct); injection H as <- <-; by repeat constructor.
Qed.

Lemma accounted_zero l : Forall (fun o => accounted o = 0) l -> sum_by accounted l = 0.
Proof. unfold sum_by. induction 1; simpl; lia. Qed.

Lemma do_call_accounting lw c lw' os : do_call lw c = (lw', os) -> sum_by accounted os + seen lw = seen lw'.
Proof.
  destruct c as [code|now ct b n ok|e p now]; simpl; [intros [= <- <-]; done| |intros [= <- <-]; done].
  unfold Write. destruct (if status lw <? 300 : bool then _ else _) as [lw1 legacy] eqn:E.
  apply legacy_frame in E as [Ht Hl%accounted_zero]. unfold seen. rewrite Ht.
  destruct (_ && _ && negb _) eqn:Eo; [|intros [= <- <-]; rewrite Ht; lia].
  bool_simp. match goal with H : tokenSeen _ = false |- _ => rewrite H in * end.
  destruct (detector lw1) as [d|].
  - destruct (feed _ _ _ d b) as [d' [|]]; intros [= <- <-]; simpl; rewrite ?accounted_app, ?Ht; simpl; lia.
  - destruct (n >? 0); intros [= <- <-]; simpl; rewrite ?accounted_app, ?Ht; simpl; lia.
Qed.

Lemma run_accounting calls : forall lw lw' os, run lw calls = (lw', os) -> sum_by accounted os + seen lw = seen lw'.
Proof.
  induction calls as [|c calls IH]; intros lw lw' os; simpl; [intros [= <- <-]; done|].
  destruct (do_call lw c) as [lw1 o] eqn:E1. destruct (run lw1 calls) as [lw2 os2] eqn:E2. intros [= <- <-].
  rewrite accounted_app. apply do_call_accounting in E1. apply IH in E2. lia.
Qed.

(** Every streaming request is accounted for exactly once: whatever is
    written, refused, replayed or aborted, the first-token observations and the
    no-first-token counts of a request add up to one. *)
Theorem first_token_accounted_once t0 arrival m e p c calls ctx served now :
  sum_by accounted (serve_request (newLatencyWriter t0 arrival m e p c) calls ctx served now) = 1 /\
  sum_by accounted (serve_request (newToolLatencyWriter t0 arrival m c) calls ctx served now) = 1.
Proof.
  assert (forall w, tokenSeen (fst w) = false -> sum_by accounted (snd w) = 0 ->
    sum_by accounted (serve_request w calls ctx served now) = 1) as H; [|by split; apply H].
  intros [w o] Hw Ho. simpl in *. unfold serve_request. simpl.
  destruct (run w calls) as [lw os] eqn:E. apply run_accounting in E.
  rewrite !accounted_app, Ho. unfold seen, finish in *. rewrite Hw in E. simpl.
  destruct (tokenSeen lw); simpl; lia.
Qed.

(** ** What a stream reports *)

(** The time of the first write that completes an event with output. *)
Fixpoint first_token_at (sent : bytes) (writes : list (Z * bytes)) : option Z :=
  match writes with
  | [] => None
  | (now, b) :: writes =>
      if has_token unmarshal unmarshal_string unmarshal_array (sent ++ b) then Some now else first_token_at (sent ++ b) writes
  end.

Definition no_token_reason (ctx : ctx_err) (failed : bool) : string :=
  match ctx with
  | Canceled => "canceled"
  | DeadlineExceeded => "timeout"
  | CtxAlive => if failed then "error" else "no_output"
  end.

Definition token_obs (os : list observation) : list observation := List.filter (fun o => accounted o >? 0) os.

Definition writes_of (ct : string) (writes : list (Z * bytes)) : list call :=
  map (fun '(now, b) => CallWrite now ct b (len b) true) writes.

Lemma token_obs_app l1 l2 : token_obs (l1 ++ l2) = token_obs l1 ++ token_obs l2.
Proof. apply List.filter_app. Qed.

Lemma feed_all_snoc chunks b d t :
  feed_all unmarshal unmarshal_string unmarshal_array newDetector chunks = (d, t) ->
  feed_all unmarshal unmarshal_string unmarshal_array newDetector (chunks ++ [b]) =
    let '(d', t') := feed unmarshal unmarshal_string unmarshal_array d b in (d', t || t').
Proof. unfold feed_all. intros H. by rewrite foldl_app, H. Qed.

(** The writer is scanning a stream of which [chunks] were sent. *)
Definition scanning (chunks : list bytes) (lw : latencyWriter) : Prop :=
  status lw < 300 /\ IsZero (lw_last lw) = false /\ tokenSeen lw = false /\
  exists d, detector lw = Some d /\ feed_all unmarshal unmarshal_string unmarshal_array newDetector chunks = (d, false).

(** A write once the stream is being scanned. *)
Lemma scanning_write chunks lw now ct b : scanning chunks lw -> IsZero now = false ->
  let '(lw', os) := Write now ct b (len b) true lw in
  arrival lw' = arrival lw /\ status lw' = status lw /\
  if has_token unmarshal unmarshal_string unmarshal_array (concat chunks ++ b) then
    tokenSeen lw' = true
    /\ token_obs os = [FirstTokenSeconds (model lw) (enclave lw) (pool lw) (class lw) (time_sub now (arrival lw))]
  else scanning (chunks ++ [b]) lw' /\ token_obs os = [] /\ (model lw', enclave lw', pool lw', class lw') = (model lw, enclave lw, pool lw, class lw).
Proof.
  intros (Hs & Hl & Ht & d & Hd & Hf) Hn. unfold Write. rewrite Hl.
  replace (status lw <? 300) with true by (symmetry; lia). cbn [andb tokenSeen with_last detector]. rewrite Ht, Hd. cbn [negb].
  pose proof (feed_all_snoc _ b _ _ Hf) as Hsnoc.
  pose proof (feed_all_flags unmarshal unmarshal_string unmarshal_array (chunks ++ [b])) as Hm.
  destruct (feed _ _ _ d b) as [d' t]. rewrite Hsnoc in Hm. destruct Hm as [Hm _]. simpl in Hm.
  rewrite concat_app in Hm. simpl in Hm. rewrite app_nil_r in Hm. rewrite <- Hm.
  destruct t; (split; [done|]); (split; [done|]); destruct (observeLegacy lw); simpl.
  1-2: done.
  1-2: split; [|done]; repeat split; [done..|]; by exists d'.
Qed.

Lemma legacy_no_token_obs l : Forall (fun o => accounted o = 0) l -> token_obs l = [].
Proof. unfold token_obs. induction 1 as [|o l Ho _ IH]; simpl; [done|]. by rewrite Ho. Qed.

(** Nothing more is reported once a token was seen. *)
Lemma seen_run calls : forall lw, tokenSeen lw = true ->
  Forall (fun c => match c with CallRetarget _ _ _ => False | _ => True end) calls ->
  let '(lw', os) := run lw calls in tokenSeen lw' = true /\ token_obs os = [].
Proof.
  induction calls as [|c calls IH]; intros lw Ht Hc; simpl; [done|]. inversion_clear Hc.
  assert (let '(lw', os) := do_call lw c in tokenSeen lw' = true /\ token_obs os = []) as H1.
  { destruct c as [code|now ct b n ok|]; [done| |done]. simpl. unfold Write.
    destruct (if status lw <? 300 : bool then _ else _) as [lw1 legacy] eqn:E.
    apply legacy_frame in E as [E Hl]. rewrite E, Ht, andb_false_r. split; [by rewrite E|by apply legacy_no_token_obs]. }
  destruct (do_call lw c) as [lw1 o]. destruct H1 as [H1 Ho]. specialize (IH lw1 H1 ltac:(done)).
  destruct (run lw1 calls). rewrite token_obs_app, Ho. done.
Qed.

Lemma scanning_run ct writes : forall chunks lw, scanning chunks lw -> Forall (fun w => IsZero (fst w) = false) writes ->
  let '(lw', os) := run lw (writes_of ct writes) in
  match first_token_at (concat chunks) writes with
  | Some t => tokenSeen lw' = true /\ token_obs os = [FirstTokenSeconds (model lw) (enclave lw) (pool lw) (class lw) (time_sub t (arrival lw))]
  | None => scanning (chunks ++ map snd writes) lw' /\ token_obs os = [] /\
      (model lw', enclave lw', pool lw', class lw') = (model lw, enclave lw, pool lw, class lw)
  end.
Proof.
  induction writes as [|[now b] writes IH]; intros chunks lw Hs Hz; [by rewrite app_nil_r|].
  inversion_clear Hz as [|? ? Hn Hz']. cbn [writes_of map run do_call first_token_at].
  pose proof (scanning_write chunks lw now ct b Hs Hn) as H. destruct (Write _ _ _ _ _ lw) as [lw1 o].
  destruct H as (Ha & _ & H). fold (writes_of ct writes).
  destruct (has_token _ _ _ (concat chunks ++ b)).
  - destruct H as [Ht Ho]. pose proof (seen_run (writes_of ct writes) lw1 Ht) as H.
    destruct (run lw1 _). rewrite token_obs_app, Ho. destruct H as [? ->]; [|done].
    apply Forall_forall. intros ? [[] [-> _]]%list_elem_of_fmap. done.
  - destruct H as (Hs1 & Ho & [= Hm He Hp Hcl]). specialize (IH _ _ Hs1 Hz').
    destruct (run lw1 _) as [lw2 os]. rewrite token_obs_app, Ho. rewrite concat_app in IH. simpl in IH. rewrite app_nil_r in IH.
    destruct (first_token_at _ writes); [|by rewrite <- app_assoc, Hm, He, Hp, Hcl in IH].
    by rewrite Hm, He, Hp, Hcl, Ha in IH.
Qed.

(** The first write of a stream starts the scan. *)
Lemma first_write now ct b n lw : status lw < 300 -> IsZero (lw_last lw) = true -> isEventStream ct = true -> IsZero now = false ->
  let '(lw1, os1) := Write now ct b n true lw in
  let '(lw2, os2) := Write now ct b n true (with_last now (with_detector (Some newDetector) lw)) in
  lw1 = lw2 /\ token_obs os1 = token_obs os2.
Proof.
  intros Hs Hl Hct Hn. unfold Write. rewrite Hl, Hct. cbn [status lw_last with_last with_detector observeLegacy]. rewrite Hn.
  replace (status lw <? 300) with true by (symmetry; lia). cbn [andb detector tokenSeen with_last with_detector].
  destruct (tokenSeen lw); simpl; [by destruct (observeLegacy lw)|].
  destruct (feed _ _ _ newDetector b) as [d [|]]; simpl; by destruct (observeLegacy lw).
Qed.

(** A streamed answer reports its first token at the first write that
    completes an event with generated output in the bytes sent so far,
    whatever the writes' boundaries, and, without one, the reason its context,
    its handler and the stream's error events give. *)
Theorem stream_first_token t0 arrival m e p c ct code writes ctx served now :
  isEventStream ct = true -> Forall (fun w => IsZero (fst w) = false) writes -> 200 <= code < 300 ->
  token_obs (serve_request (newLatencyWriter t0 arrival m e p c) (CallWriteHeader code :: writes_of ct writes) ctx served now) =
    match first_token_at [] writes with
    | Some t => [FirstTokenSeconds m e p c (time_sub t arrival)]
    | None => [NoFirstTokenTotal m e p c (no_token_reason ctx
        (negb served || has_error unmarshal unmarshal_string unmarshal_array (concat (map snd writes)))) 1]
    end.
Proof.
  intros Hct Hz Hcode. unfold serve_request. cbn [run do_call fst snd newLatencyWriter].
  set (lw0 := WriteHeader code _).
  assert (token_obs (initNoFirstTokenSeries m e p c) = []) as Hi by done.
  destruct writes as [|[tw b] writes].
  { simpl. destruct ctx; simpl; [|done..].
    replace (code >=? 300) with false by (symmetry; lia). by destruct served. }
  pose proof Hz as Hz0. inversion_clear Hz0 as [|? ? Hn _]. simpl in Hn.
  set (lw1 := with_last tw (with_detector (Some newDetector) lw0)).
  assert (scanning [] lw1) as Hsc by (split; [simpl; lia|]; split; [done|]; split; [done|]; by exists newDetector).
  pose proof (scanning_run ct ((tw, b) :: writes) [] lw1 Hsc Hz) as H.
  cbn [writes_of map run do_call] in *. fold (writes_of ct writes) in *.
  pose proof (first_write tw ct b (len b) lw0 ltac:(simpl; lia) eq_refl Hct Hn) as Hf.
  fold lw1 in Hf. destruct (Write _ _ _ _ _ lw0) as [lwa oa], (Write _ _ _ _ _ lw1) as [lwb ob].
  destruct Hf as [-> Hobs]. destruct (run lwb _) as [lw' os]. rewrite !token_obs_app, Hi, Hobs.
  change (concat []) with (@nil ascii) in H. rewrite token_obs_app in H.
  change (token_obs []) with (@nil observation). rewrite !app_nil_l, app_assoc.
  destruct (first_token_at [] _).
  - destruct H as [Ht ->]. unfold finish. simpl. by rewrite Ht.
  - destruct H as ((Hst & _ & Ht & d & Hd & Hfd) & -> & [= <- <- <- <-]). unfold finish. simpl. rewrite Ht, Hd.
    pose proof (feed_all_flags unmarshal unmarshal_string unmarshal_array (b :: map snd writes)) as Hm.
    simpl in Hfd. rewrite Hfd in Hm. destruct Hm as (_ & ->).
    destruct ctx; simpl; [|done..]. by replace (status lw' >=? 300) with false by (symmetry; lia).
Qed.
End Writer.

(** A decoder that finds one delta in every object, for evaluation. *)
Definition hello_chunk (_ : bytes) : option streamChunk :=
  Some (MkChunk "" [] "" [] [MkChoice "" "Hello" "" "" "" [] []]).

Definition sse_media (_ : string) : string * media_error := ("text/event-stream", NoMediaError).

Definition sse_writes : list (Z * bytes) :=
  [(5, to_bytes ": ping" ++ [newline; newline] ++ to_bytes "da"); (9, to_bytes "ta: {}" ++ [newline]); (12, [newline])].

Lemma stream_first_token_witness :
  Forall (fun w => IsZero (fst w) = false) sse_writes /\
  token_obs (serve_request hello_chunk (fun _ => None) (fun _ => None) sse_media
    (newLatencyWriter 1 0 "m" "e" "p" "c") (CallWriteHeader 200 :: writes_of "text/event-stream" sse_writes) CtxAlive true 20)
  = [FirstTokenSeconds "m" "e" "p" "c" 12].
Proof.
  assert (Forall (fun w => IsZero (fst w) = false) sse_writes) as H by (repeat constructor).
  split; [exact H|].
  rewrite (stream_first_token hello_chunk (fun _ => None) (fun _ => None) sse_media 1 0 "m" "e" "p" "c" "text/event-stream" 200
    sse_writes CtxAlive true 20 eq_refl H ltac:(lia)).
  vm_compute. reflexivity.
Defined.

(** An error event before any token, and an event too large to hold. *)
Example error_event_reason :
  token_obs (serve_request (fun _ => Some (MkChunk "response.failed" [] "" [] [])) (fun _ => None) (fun _ => None) sse_media
    (newLatencyWriter 1 0 "m" "e" "p" "c") (CallWriteHeader 200 :: writes_of "text/event-stream" sse_writes) CtxAlive true 20)
  = [NoFirstTokenTotal "m" "e" "p" "c" "error" 1].
Proof. vm_compute. reflexivity. Qed.
