(* ===== verification/InputTokens.v ===== *)
(** * Input-token counting ([input_tokens.go])

    The conversion of a Responses or Chat request into the body of a backend's
    tokenize call, and the handler around it.

    [%q] quoting, the resolution of the model "auto" (which edits the body) and
    the tokenize call are parameters. *)

From S2P Require Import Prelude Sha256 Json Errors.
#[local] Open Scope string_scope.
#[local] Open Scope list_scope.
#[local] Open Scope Z_scope.

Definition chatInputTokensPath := "/v1/chat/completions/input_tokens".
Definition responsesInputTokensPath := "/v1/responses/input_tokens".
Definition tokenizePath := "/tokenize".

Definition tokenizeChatFields : list string :=
  ["add_generation_prompt"; "continue_final_message"; "add_special_tokens"; "chat_template";
   "chat_template_kwargs"; "mm_processor_kwargs"; "media_io_kwargs"].

Definition unsupportedResponsesCountFields : list string :=
  ["conversation"; "previous_response_id"; "previous_input_messages"].

Definition inputTokensParamError (param message : string) : APIError :=
  WithMessage (WithParam ErrInvalidRequest param) message.

Definition isInputTokensPath (path : string) : bool :=
  String.eqb path chatInputTokensPath || String.eqb path responsesInputTokensPath.

Definition inputTokensCompletionPath (path : string) : string :=
  if String.eqb path chatInputTokensPath then "/v1/chat/completions"
  else if String.eqb path responsesInputTokensPath then "/v1/responses"
  else path.

Definition ErrMsgInvalidParam (p why : string) : string := "Invalid parameter: '" +:+ p +:+ "' " +:+ why +:+ ".".
Definition ErrMsgAutoUnavailable := "Model 'auto' is not available for this request.".

(** An object's string field that is not empty. *)
Definition nonempty_string (v : json) : option string :=
  match v with JStr s => if String.eqb s "" then None else Some s | _ => None end.

Section Convert.
Context (Quote : string -> string).

(** ** Content *)

Definition input_error (message : string) : APIError := inputTokensParamError "input" message.

Definition text_part (text : string) : json := JObj {["type" := JStr "text"; "text" := JStr text]}.

Definition convert_part (rawPart : json) : APIError + json :=
  match rawPart with
  | JObj part =>
      let partType := get_string "type" part in
      if bool_decide (partType ∈ ["input_text"; "output_text"]) then
        match get "text" part with
        | JStr text => inr (text_part text)
        | _ => inl (input_error ("Responses " +:+ partType +:+ " content requires string 'text'."))
        end
      else if String.eqb partType "input_image" then
        match nonempty_string (get "image_url" part) with
        | None => inl (input_error "Responses input_image content requires string 'image_url'.")
        | Some imageURL =>
            let image : object := {["url" := JStr imageURL]} in
            let image := match nonempty_string (get "detail" part) with Some d => <["detail" := JStr d]> image | None => image end in
            inr (JObj {["type" := JStr "image_url"; "image_url" := JObj image]})
        end
      else if String.eqb partType "refusal" then
        match get "refusal" part with
        | JStr refusal => inr (text_part refusal)
        | _ => inl (input_error "Responses refusal content requires string 'refusal'.")
        end
      else inl (input_error ("Unsupported Responses content part type " +:+ Quote partType +:+ "."))
  | _ => inl (input_error "Invalid Responses content part: expected an object.")
  end.

(** A conversion loop with an early return. *)
Fixpoint convert_all (f : json -> APIError + json) (l : list json) : APIError + list json :=
  match l with
  | [] => inr []
  | x :: l =>
      match f x with
      | inl e => inl e
      | inr y => match convert_all f l with inl e => inl e | inr ys => inr (y :: ys) end
      end
  end.

Definition responsesContent (content : json) : APIError + json :=
  match content with
  | JStr text => inr (JStr text)
  | JArr parts => match convert_all convert_part parts with inl e => inl e | inr ps => inr (JArr ps) end
  | _ => inl (input_error "Responses message 'content' must be a string or array.")
  end.

(** ** Items *)

Definition responsesMessage (item : object) : APIError + object :=
  match nonempty_string (get "role" item) with
  | None => inl (input_error "Responses message items require a non-empty 'role'.")
  | Some role =>
      match item !! "content" with
      | None => inl (input_error "Responses message items require 'content'.")
      | Some content =>
          match responsesContent content with
          | inl e => inl e
          | inr converted => inr {["role" := JStr role; "content" := converted]}
          end
      end
  end.

Definition tool_call (callID name arguments : string) : json :=
  JObj {["id" := JStr callID; "type" := JStr "function";
         "function" := JObj {["name" := JStr name; "arguments" := JStr arguments]}]}.

Definition call_message (calls : list json) : object :=
  {["role" := JStr "assistant"; "content" := JNull; "tool_calls" := JArr calls]}.

Definition responsesFunctionCall (item : object) : APIError + object :=
  match nonempty_string (get "call_id" item), nonempty_string (get "name" item), get "arguments" item with
  | Some callID, Some name, JStr arguments => inr (call_message [tool_call callID name arguments])
  | _, _, _ => inl (input_error "Responses function_call items require string 'call_id', 'name', and 'arguments'.")
  end.

(** Consecutive calls share one message; the last message is updated in place. *)
Definition appendFunctionCall (messages : list json) (message : object) : list json :=
  match last messages with
  | Some (JObj previous) =>
      if String.eqb (get_string "role" previous) "assistant" && is_nil (get "content" previous) then
        match get "tool_calls" previous, get "tool_calls" message with
        | JArr previousCalls, JArr newCalls =>
            removelast messages ++ [JObj (<["tool_calls" := JArr (previousCalls ++ newCalls)]> previous)]
        | _, _ => messages ++ [JObj message]
        end
      else messages ++ [JObj message]
  | _ => messages ++ [JObj message]
  end.

Definition responsesFunctionCallOutput (item : object) : APIError + object :=
  match nonempty_string (get "call_id" item) with
  | None => inl (input_error "Responses function_call_output items require string 'call_id'.")
  | Some callID =>
      match item !! "output" with
      | None => inl (input_error "Responses function_call_output items require 'output'.")
      | Some output =>
          match responsesContent output with
          | inl e => inl (input_error ("Invalid function_call_output output: " +:+ Message e))
          | inr converted => inr {["role" := JStr "tool"; "tool_call_id" := JStr callID; "content" := converted]}
          end
      end
  end.

(** One iteration of the loop over the input items. *)
Definition add_item (messages : list json) (rawItem : json) : APIError + list json :=
  match rawItem with
  | JObj item =>
      let itemType := get_string "type" item in
      if bool_decide (itemType ∈ [""; "message"]) then
        match responsesMessage item with inl e => inl e | inr m => inr (messages ++ [JObj m]) end
      else if String.eqb itemType "function_call" then
        match responsesFunctionCall item with inl e => inl e | inr m => inr (appendFunctionCall messages m) end
      else if String.eqb itemType "function_call_output" then
        match responsesFunctionCallOutput item with inl e => inl e | inr m => inr (messages ++ [JObj m]) end
      else inl (input_error ("Unsupported Responses input item type " +:+ Quote itemType +:+ "."))
  | _ => inl (input_error "Invalid item in 'input': expected an object.")
  end.

Fixpoint add_items (messages : list json) (items : list json) : APIError + list json :=
  match items with
  | [] => inr messages
  | item :: items => match add_item messages item with inl e => inl e | inr messages => add_items messages items end
  end.

Definition system_messages (body : object) : APIError + list json :=
  match body !! "instructions" with
  | None => inr []
  | Some JNull => inr []
  | Some (JStr text) =>
      inr (if String.eqb text "" then [] else [JObj {["role" := JStr "system"; "content" := JStr text]}])
  | Some _ => inl (inputTokensParamError "instructions" (ErrMsgInvalidParam "instructions" "must be a string"))
  end.

Definition responsesMessages (body : object) : APIError + list json :=
  match system_messages body with
  | inl e => inl e
  | inr messages =>
      match body !! "input" with
      | None => inl (inputTokensParamError "input" (ErrMsgMissingParam "input"))
      | Some (JStr text) => inr (messages ++ [JObj {["role" := JStr "user"; "content" := JStr text]}])
      | Some (JArr items) => add_items messages items
      | Some _ => inl (inputTokensParamError "input" (ErrMsgInvalidParam "input" "must be a string or array"))
      end
  end.

(** ** Tools *)

Definition copy_fields (fields : list string) (target source : object) : object :=
  foldl (fun t f => match source !! f with Some v => <[f := v]> t | None => t end) target fields.

Definition convert_tool (rawTool : json) : APIError + json :=
  match rawTool with
  | JObj tool =>
      let toolType := get_string "type" tool in
      if negb (String.eqb toolType "function") then
        inl (inputTokensParamError "tools" ("Unsupported Responses tool type " +:+ Quote toolType +:+ "."))
      else
        match nonempty_string (get "name" tool) with
        | None => inl (inputTokensParamError "tools" "Responses function tools require a non-empty string 'name'.")
        | Some name =>
            inr (JObj {["type" := JStr "function";
              "function" := JObj (copy_fields ["description"; "parameters"; "strict"] {["name" := JStr name]} tool)]})
        end
  | _ => inl (inputTokensParamError "tools" "Invalid tool: expected an object.")
  end.

Definition responsesTools (tools : json) : APIError + list json :=
  match tools with
  | JArr items => convert_all convert_tool items
  | _ => inl (inputTokensParamError "tools" (ErrMsgInvalidParam "tools" "must be an array"))
  end.

(** ** Bodies *)

Definition copyTokenizeChatFields (target source : object) : object := copy_fields tokenizeChatFields target source.

Definition responsesContinuesFinalMessage (input : json) : bool :=
  match input with
  | JArr items =>
      match last items with
      | Some (JObj l) =>
          bool_decide (get_string "type" l ∈ [""; "message"; "reasoning"])
          && bool_decide (get_string "status" l ∈ ["in_progress"; "incomplete"])
      | _ => false
      end
  | _ => false
  end.

Definition chatTokenizeBody (body : object) (modelName : string) : APIError + object :=
  match get "messages" body with
  | JArr messages =>
      let tokenizeBody : object := {["model" := JStr modelName; "messages" := JArr messages]} in
      let tokenizeBody := match body !! "tools" with Some tools => <["tools" := tools]> tokenizeBody | None => tokenizeBody end in
      inr (copyTokenizeChatFields tokenizeBody body)
  | _ => inl (inputTokensParamError "messages" "Missing or invalid required parameter: 'messages'.")
  end.

(** The first unsupported field that is present and not null. *)
Definition unsupported_field (body : object) : option string :=
  head (filter (fun f => is_nil (get f body) = false) unsupportedResponsesCountFields).

(** The reasoning effort becomes template arguments, in a copy of the client's. *)
Definition effort_kwargs (body tokenizeBody : object) : object :=
  match get "reasoning" body with
  | JObj reasoning =>
      match nonempty_string (get "effort" reasoning) with
      | Some effort =>
          let kwargs := default ∅ (as_object (get "chat_template_kwargs" tokenizeBody)) in
          let kwargs := <["reasoning_effort" := JStr effort]> kwargs in
          let kwargs :=
            match kwargs !! "enable_thinking" with
            | Some _ => kwargs
            | None => <["enable_thinking" := JBool (negb (String.eqb effort "none"))]> kwargs
            end in
          <["chat_template_kwargs" := JObj kwargs]> tokenizeBody
      | None => tokenizeBody
      end
  | _ => tokenizeBody
  end.

Definition responsesTokenizeBody (body : object) (modelName : string) : APIError + object :=
  match unsupported_field body with
  | Some field =>
      inl (inputTokensParamError field ("Input-token counting does not support Responses parameter " +:+ Quote field +:+ "."))
  | None =>
      match responsesMessages body with
      | inl e => inl e
      | inr messages =>
          let tokenizeBody : object := {["model" := JStr modelName; "messages" := JArr messages]} in
          let with_tools : APIError + object :=
            match body !! "tools" with
            | Some tools =>
                if String.eqb (get_string "tool_choice" body) "none" then inr tokenizeBody
                else match responsesTools tools with inl e => inl e | inr converted => inr (<["tools" := JArr converted]> tokenizeBody) end
            | None => inr tokenizeBody
            end in
          match with_tools with
          | inl e => inl e
          | inr tokenizeBody =>
              let tokenizeBody := effort_kwargs body (copyTokenizeChatFields tokenizeBody body) in
              inr (if responsesContinuesFinalMessage (get "input" body) then
                     <["continue_final_message" := JBool true]> (<["add_generation_prompt" := JBool false]> tokenizeBody)
                   else tokenizeBody)
          end
      end
  end.
End Convert.

(** ** The handler *)

(** What [errors.As] finds in an error of the dispatch. *)
Inductive dispatch_error :=
  | LookupError (retryAfter : string) (e : APIError)
  | DispatchAPIError (e : APIError)
  | OtherError.

(** A backend's answer: its status, what reading its limited body yields, and
    what decoding [count] from it yields. *)
Record tokenize_response := MkTokenizeResponse {
  StatusCode : Z;
  resp_body : option bytes;
  resp_count : option (option Z)
}.

Inductive answer :=
  | Answer (body : object)
  | AnswerError (header : option (string * string)) (e : APIError).

Definition ErrMsgMethodNotAllowed := "Method not allowed.".
Definition ErrMethodNotAllowed := MkAPIError 405 ErrTypeInvalidRequest "method_not_allowed" "" ErrMsgMethodNotAllowed "".

(** An API error stays itself; any other error's text becomes a 400. *)
Definition asAPIError (err : APIError + string) : APIError :=
  match err with inl e => e | inr text => WithMessage ErrInvalidRequest text end.

Section Handler.
Context (Quote : string -> string) (unmarshal : bytes -> option object).
Context (resolveModel : option (object -> (APIError + string) + (string * object))).
Context (dispatch : string -> string -> object -> Header -> dispatch_error + tokenize_response).

(** The model, and the body as the resolution of "auto" leaves it. *)
Definition inputTokensModel (body : object) : (APIError + string) + (string * object) :=
  match body !! "model" with
  | None => inl (inl (inputTokensParamError "model" (ErrMsgMissingParam "model")))
  | Some v =>
      match nonempty_string v with
      | None => inl (inl (inputTokensParamError "model" (ErrMsgInvalidParam "model" "must be a non-empty string")))
      | Some modelName =>
          if negb (String.eqb modelName "auto") then inr (modelName, body)
          else match resolveModel with
               | None => inl (inl (inputTokensParamError "model" ErrMsgAutoUnavailable))
               | Some resolve => resolve body
               end
      end
  end.

Definition forwardInputTokensError (resp : tokenize_response) : answer :=
  match resp_body resp with
  | None => AnswerError None ErrUpstream
  | Some body =>
      if Z.of_nat (length body) >? MaxUpstreamErrorBodyBytes then AnswerError None ErrUpstream
      else AnswerError None (fst (NormalizeUpstreamError unmarshal (StatusCode resp) body))
  end.

(** The body of the tokenize call for a path. *)
Definition tokenize_body (path : string) (body : object) (modelName : string) : APIError + object :=
  if String.eqb path chatInputTokensPath then chatTokenizeBody body modelName
  else if String.eqb path responsesInputTokensPath then responsesTokenizeBody Quote body modelName
  else inl (WithMessage ErrInvalidRequest ("Unsupported input-token route: " +:+ path +:+ ".")).

(** [decoded] is the request body, or the error of reading or decoding it.
    Decoded JSON always encodes again, so encoding does not fail here. *)
Definition handleInputTokens (method path apiKey : string) (decoded : APIError + object) : answer :=
  if negb (String.eqb method "POST") then AnswerError (Some ("Allow", "POST")) ErrMethodNotAllowed
  else if String.eqb apiKey "" then AnswerError None ErrMissingAPIKey
  else
    match decoded with
    | inl e => AnswerError None e
    | inr body =>
        match inputTokensModel body with
        | inl err => AnswerError None (asAPIError err)
        | inr (modelName, body) =>
            match tokenize_body path body modelName with
            | inl e => AnswerError None e
            | inr tokenizeBody =>
                let headers : Header := {["Authorization" := ["Bearer " +:+ apiKey]; "Content-Type" := ["application/json"]]} in
                match dispatch modelName tokenizePath tokenizeBody headers with
                | inl (LookupError retryAfter e) =>
                    AnswerError (if String.eqb retryAfter "" then None else Some ("Retry-After", retryAfter)) e
                | inl (DispatchAPIError e) => AnswerError None e
                | inl OtherError => AnswerError None ErrUpstream
                | inr resp =>
                    if (StatusCode resp <? 200) || (StatusCode resp >=? 300) then forwardInputTokensError resp
                    else
                      match resp_count resp with
                      | Some (Some count) =>
                          if count <? 0 then AnswerError None ErrUpstream
                          else
                            let obj := if String.eqb path responsesInputTokensPath then "response.input_tokens"
                                       else "chat.completion.input_tokens" in
                            Answer {["object" := JStr obj; "input_tokens" := JInt count]}
                      | _ => AnswerError None ErrUpstream
                      end
                end
            end
        end
    end.
End Handler.

(** ** Well-formed chat messages *)

Definition is_string (v : json) : bool := match v with JStr _ => true | _ => false end.
Definition is_nonempty_string (v : json) : bool := match nonempty_string v with Some _ => true | None => false end.

(** A content part the chat template accepts. *)
Definition chat_part (v : json) : bool :=
  match v with
  | JObj p =>
      (String.eqb (get_string "type" p) "text" && is_string (get "text" p))
      || (String.eqb (get_string "type" p) "image_url"
          && match get "image_url" p with JObj i => is_nonempty_string (get "url" i) | _ => false end)
  | _ => false
  end.

Definition chat_content (v : json) : bool :=
  match v with JStr _ => true | JArr parts => forallb chat_part parts | _ => false end.

Definition chat_tool_call (v : json) : bool :=
  match v with
  | JObj c =>
      is_nonempty_string (get "id" c) && String.eqb (get_string "type" c) "function"
      && match get "function" c with
         | JObj f => is_nonempty_string (get "name" f) && is_string (get "arguments" f)
         | _ => false
         end
  | _ => false
  end.

(** A message: a role with content, or an assistant's tool calls without. *)
Definition chat_message (v : json) : bool :=
  match v with
  | JObj m =>
      is_nonempty_string (get "role" m)
      && (chat_content (get "content" m)
          || (String.eqb (get_string "role" m) "assistant" && is_nil (get "content" m)
              && match get "tool_calls" m with JArr (c :: cs) => forallb chat_tool_call (c :: cs) | _ => false end))
  | _ => false
  end.

(** A function tool in chat form. *)
Definition chat_tool (v : json) : bool :=
  match v with
  | JObj t => String.eqb (get_string "type" t) "function"
      && match get "function" t with JObj f => is_nonempty_string (get "name" f) | _ => false end
  | _ => false
  end.

(** ** Turns: the messages as a reader would group them *)

Inductive turn := Calls (cs : list json) | Said (m : object).

Definition turn_message (t : turn) : json :=
  match t with Calls cs => JObj (call_message cs) | Said m => JObj m end.

(** A turn before others: calls join the calls that follow. *)
Definition merge (t : turn) (ts : list turn) : list turn :=
  match t, ts with Calls cs, Calls cs' :: ts => Calls (cs ++ cs') :: ts | _, _ => t :: ts end.

Definition group (ts : list turn) : list turn := foldr merge [] ts.

Section Turns.
Context (Quote : string -> string).

(** An item on its own. *)
Definition item_turn (rawItem : json) : APIError + turn :=
  match rawItem with
  | JObj item =>
      let itemType := get_string "type" item in
      if bool_decide (itemType ∈ [""; "message"]) then
        match responsesMessage Quote item with inl e => inl e | inr m => inr (Said m) end
      else if String.eqb itemType "function_call" then
        match nonempty_string (get "call_id" item), nonempty_string (get "name" item), get "arguments" item with
        | Some callID, Some name, JStr arguments => inr (Calls [tool_call callID name arguments])
        | _, _, _ => inl (input_error "Responses function_call items require string 'call_id', 'name', and 'arguments'.")
        end
      else if String.eqb itemType "function_call_output" then
        match responsesFunctionCallOutput Quote item with inl e => inl e | inr m => inr (Said m) end
      else inl (input_error ("Unsupported Responses input item type " +:+ Quote itemType +:+ "."))
  | _ => inl (input_error "Invalid item in 'input': expected an object.")
  end.

Fixpoint item_turns (items : list json) : APIError + list turn :=
  match items with
  | [] => inr []
  | x :: items =>
      match item_turn x with
      | inl e => inl e
      | inr t => match item_turns items with inl e => inl e | inr ts => inr (t :: ts) end
      end
  end.
End Turns.

(** ** Lemmas *)

Lemma nonempty_string_Some v s : nonempty_string v = Some s -> v = JStr s /\ s <> "".
Proof. destruct v; simpl; try done. destruct (String.eqb_spec s0 ""); [done|]. by intros [= <-]. Qed.

Lemma is_nonempty_JStr s : s <> "" -> is_nonempty_string (JStr s) = true.
Proof. intros H. unfold is_nonempty_string. simpl. by destruct (String.eqb_spec s ""). Qed.

(** Updating the last turn. *)
Definition snoc_merge (gs : list turn) (t : turn) : list turn :=
  match t, last gs with
  | Calls c, Some (Calls cs) => removelast gs ++ [Calls (cs ++ c)]
  | _, _ => gs ++ [t]
  end.

Lemma snoc_merge_cons g g' gs t : snoc_merge (g :: g' :: gs) t = g :: snoc_merge (g' :: gs) t.
Proof. unfold snoc_merge. cbn [last removelast]. destruct t; [|done]. by destruct (last (g' :: gs)) as [[]|]. Qed.

Lemma merge_snoc_merge u gs t : merge u (snoc_merge gs t) = snoc_merge (merge u gs) t.
Proof.
  destruct gs as [|g [|g' gs]]; [by destruct u, t| |].
  - destruct u, g, t; unfold snoc_merge; simpl; rewrite ?app_assoc; done.
  - rewrite snoc_merge_cons. destruct u as [cs|m], g as [cs'|m']; simpl; rewrite ?snoc_merge_cons; done.
Qed.

Lemma group_snoc ts t : group (ts ++ [t]) = snoc_merge (group ts) t.
Proof.
  induction ts as [|u ts IH]; [by destruct t|]. cbn [app]. unfold group in *. cbn [foldr].
  by rewrite IH, merge_snoc_merge.
Qed.

(** Messages that are not calls have content. *)
Definition said (t : turn) : Prop := match t with Said m => is_nil (get "content" m) = false | Calls _ => True end.

Lemma merge_said u gs : said u -> Forall said gs -> Forall said (merge u gs).
Proof.
  intros Hu Hg. destruct u as [cs|m], gs as [|[cs'|m'] gs]; simpl; try inversion_clear Hg; by repeat constructor.
Qed.

Lemma group_said ts : Forall said ts -> Forall said (group ts).
Proof. induction 1; [constructor|]. by apply merge_said. Qed.

Lemma call_message_fields cs :
  get_string "role" (call_message cs) = "assistant" /\ get "content" (call_message cs) = JNull
  /\ get "tool_calls" (call_message cs) = JArr cs.
Proof. split_and!; reflexivity. Qed.

Lemma call_message_append cs cs' : <["tool_calls" := JArr (cs ++ cs')]> (call_message cs) = call_message (cs ++ cs').
Proof. reflexivity. Qed.

Lemma removelast_map {A B} (f : A -> B) l : removelast (map f l) = map f (removelast l).
Proof. induction l as [|a [|b l] IH]; [done..|]. cbn [map removelast] in *. by rewrite IH. Qed.

(** The in-place update of the last message is the update of the last turn. *)
Lemma appendFunctionCall_turns gs c : Forall said gs ->
  appendFunctionCall (map turn_message gs) (call_message [c]) = map turn_message (snoc_merge gs (Calls [c])).
Proof.
  intros Hs. unfold appendFunctionCall, snoc_merge. change (map turn_message gs) with (turn_message <$> gs).
  rewrite fmap_last. destruct (last gs) as [t|] eqn:El; simpl; [|by rewrite map_app].
  assert (said t) as Ht by (rewrite Forall_forall in Hs; by apply Hs, last_Some_elem_of).
  destruct t as [cs|m]; simpl.
  - destruct (call_message_fields cs) as (-> & -> & ->), (call_message_fields [c]) as (_ & _ & ->).
    simpl. by rewrite removelast_map, map_app, call_message_append.
  - simpl in Ht. by rewrite Ht, andb_false_r, map_app.
Qed.

(** *** Content *)

Lemma convert_all_Forall f (P : json -> Prop) l ys :
  (forall x y, f x = inr y -> P y) -> convert_all f l = inr ys -> Forall P ys.
Proof.
  intros Hf. revert ys. induction l as [|x l IH]; simpl; intros ys; [intros [= <-]; constructor|].
  destruct (f x) eqn:E; [done|]. destruct (convert_all f l); [done|]. intros [= <-]. constructor; eauto.
Qed.

Lemma convert_all_error f (P : APIError -> Prop) l e :
  (forall x e, f x = inl e -> P e) -> convert_all f l = inl e -> P e.
Proof.
  intros Hf. revert e. induction l as [|x l IH]; simpl; intros e; [done|].
  destruct (f x) eqn:E; [intros [= <-]; eauto|]. destruct (convert_all f l); [intros [= <-]; eauto|done].
Qed.

(** The errors of a conversion are 400s that name [param]. *)
Definition param_error (param : string) (e : APIError) : Prop :=
  Status e = 400 /\ err_Type e = ErrTypeInvalidRequest /\ Code e = "" /\ Param e = param.

Section Facts.
Context (Quote : string -> string).

(** Takes a conversion apart, branch by branch. *)
Ltac branches :=
  repeat match goal with
  | |- context [match ?x with _ => _ end] => destruct x eqn:?
  end; intros; simplify_eq; try done.

Lemma convert_part_ok x y : convert_part Quote x = inr y -> chat_part y = true.
Proof.
  unfold convert_part. branches;
    match goal with H : nonempty_string (get "image_url" _) = Some ?u |- _ =>
      apply nonempty_string_Some in H as [_ H]; change (is_nonempty_string (JStr u) = true); by apply is_nonempty_JStr
    end.
Qed.

Lemma convert_part_error x e : convert_part Quote x = inl e -> param_error "input" e.
Proof. unfold convert_part. branches. Qed.

Lemma responsesContent_ok c v : responsesContent Quote c = inr v -> chat_content v = true /\ is_nil v = false.
Proof.
  unfold responsesContent. destruct c; try done; [by intros [= <-]|].
  destruct (convert_all _ _) as [|ps] eqn:E; [done|]. intros [= <-]. split; [|done]. simpl.
  apply forallb_forall. apply (convert_all_Forall _ (fun y => chat_part y = true)) in E; [|apply convert_part_ok].
  intros y Hy. rewrite Forall_forall in E. by apply E, list_elem_of_In.
Qed.

Lemma responsesContent_error c e : responsesContent Quote c = inl e -> param_error "input" e.
Proof.
  unfold responsesContent. destruct c; try (intros [= <-]; done).
  destruct (convert_all _ _) eqn:E; [intros [= <-]|done].
  eapply (convert_all_error _ (param_error "input")); [apply convert_part_error|done].
Qed.

Definition turn_ok (t : turn) : Prop :=
  match t with
  | Calls cs => cs <> [] /\ forallb chat_tool_call cs = true
  | Said m => is_nil (get "content" m) = false /\ chat_message (JObj m) = true
  end.

Lemma turn_ok_said t : turn_ok t -> said t.
Proof. by destruct t; [|intros []]. Qed.

Lemma turn_ok_message t : turn_ok t -> chat_message (turn_message t) = true.
Proof.
  destruct t as [cs|m]; simpl; [|by intros [_ ?]]. intros [Hne Hcs].
  destruct (call_message_fields cs) as (Hr & Hc & Ht). rewrite Hr, Hc, Ht. simpl.
  destruct cs; [done|]. simpl in Hcs; by rewrite Hcs.
Qed.

Lemma group_turn_ok ts : Forall turn_ok ts -> Forall turn_ok (group ts).
Proof.
  induction 1 as [|t ts Ht _ IH]; [constructor|]. cbn [group foldr]. fold (group ts).
  destruct t as [cs|m], (group ts) as [|[cs'|m'] gs]; simpl; try (by apply Forall_cons).
  apply Forall_cons in IH as [[Hne Hcs] ?]. constructor; [|done]. destruct Ht as [Hn Hc].
  split; [by destruct cs|]. by rewrite forallb_app, Hc.
Qed.

Lemma said_message_ok role v : role <> "" -> chat_content v = true -> is_nil v = false ->
  turn_ok (Said {["role" := JStr role; "content" := v]}).
Proof.
  intros Hr Hv Hn. assert (get "content" {["role" := JStr role; "content" := v]} = v) as Hc by reflexivity.
  split; [by rewrite Hc|]. simpl. rewrite Hc, Hv. change (get "role" _) with (JStr role). by rewrite is_nonempty_JStr.
Qed.

Lemma responsesMessage_ok item m : responsesMessage Quote item = inr m -> turn_ok (Said m).
Proof.
  unfold responsesMessage. destruct (nonempty_string _) as [role|] eqn:Er; [|done].
  apply nonempty_string_Some in Er as [_ Er]. destruct (item !! _) as [c|]; [|done].
  destruct (responsesContent Quote c) as [|v] eqn:E; [done|]. apply responsesContent_ok in E as [? ?].
  intros [= <-]. by apply said_message_ok.
Qed.

Lemma responsesFunctionCallOutput_ok item m : responsesFunctionCallOutput Quote item = inr m -> turn_ok (Said m).
Proof.
  unfold responsesFunctionCallOutput. destruct (nonempty_string _) as [id|] eqn:Er; [|done].
  destruct (item !! _) as [c|]; [|done].
  destruct (responsesContent Quote c) as [|v] eqn:E; [done|]. apply responsesContent_ok in E as [Hv Hn].
  intros [= <-].
  assert (get "content" {["role" := JStr "tool"; "tool_call_id" := JStr id; "content" := v]} = v) as Hc by reflexivity.
  split; [by rewrite Hc|]. simpl. rewrite Hc, Hv. done.
Qed.

Lemma item_turn_ok x t : item_turn Quote x = inr t -> turn_ok t.
Proof.
  unfold item_turn. destruct x; try done. case_bool_decide.
  { destruct (responsesMessage Quote m) eqn:E; [done|]. intros [= <-]. by eapply responsesMessage_ok. }
  destruct (String.eqb _ _).
  { destruct (nonempty_string (get "call_id" m)) eqn:E1, (nonempty_string (get "name" m)) eqn:E2, (get "arguments" m); try done.
    intros [= <-]. split; [done|]. apply nonempty_string_Some in E1 as [_ E1], E2 as [_ E2].
    cbn [forallb]. match goal with |- chat_tool_call (tool_call ?i ?n _) && true = true =>
      change (is_nonempty_string (JStr i) && true && (is_nonempty_string (JStr n) && true) && true = true) end.
    by rewrite !is_nonempty_JStr. }
  destruct (String.eqb _ _); [|done].
  destruct (responsesFunctionCallOutput Quote m) eqn:E; [done|]. intros [= <-]. by eapply responsesFunctionCallOutput_ok.
Qed.

Lemma item_turns_ok items ts : item_turns Quote items = inr ts -> Forall turn_ok ts.
Proof.
  revert ts. induction items as [|x items IH]; simpl; intros ts; [intros [= <-]; constructor|].
  destruct (item_turn Quote x) eqn:E; [done|]. destruct (item_turns Quote items); [done|].
  intros [= <-]. constructor; [by eapply item_turn_ok|eauto].
Qed.

(** *** Grouping *)

Lemma add_item_turn gs x : Forall said gs ->
  add_item Quote (map turn_message gs) x =
    match item_turn Quote x with inl e => inl e | inr t => inr (map turn_message (snoc_merge gs t)) end.
Proof.
  intros Hs. unfold add_item, item_turn. destruct x; try done.
  assert (forall m, map turn_message gs ++ [JObj m] = map turn_message (snoc_merge gs (Said m))) as Hm.
  { intros m'. unfold snoc_merge. by rewrite map_app. }
  case_bool_decide; [destruct (responsesMessage Quote m); [done|by rewrite Hm]|].
  destruct (String.eqb _ "function_call").
  - unfold responsesFunctionCall.
    destruct (nonempty_string (get "call_id" m)), (nonempty_string (get "name" m)), (get "arguments" m); try done.
    by rewrite appendFunctionCall_turns.
  - destruct (String.eqb _ _); [|done]. destruct (responsesFunctionCallOutput Quote m); [done|by rewrite Hm].
Qed.

Lemma add_items_turns items : forall ts, Forall said ts ->
  add_items Quote (map turn_message (group ts)) items =
    match item_turns Quote items with inl e => inl e | inr ts' => inr (map turn_message (group (ts ++ ts'))) end.
Proof.
  induction items as [|x items IH]; intros ts Hs; simpl; [by rewrite app_nil_r|].
  rewrite add_item_turn by (by apply group_said). destruct (item_turn Quote x) as [|t] eqn:E; [done|].
  rewrite <- group_snoc, IH.
  - destruct (item_turns Quote items); [done|]. by rewrite <- app_assoc.
  - apply Forall_app. split; [done|]. apply item_turn_ok, turn_ok_said in E. by constructor.
Qed.

Lemma system_messages_turns body sys : system_messages body = inr sys ->
  exists ts, sys = map turn_message ts /\ Forall turn_ok ts /\ (forall ts', group (ts ++ ts') = ts ++ group ts').
Proof.
  unfold system_messages. intros H.
  destruct (body !! _) as [[]|]; try done; try (injection H as <-; exists []; by repeat constructor).
  injection H as <-. destruct (String.eqb_spec s ""); [exists []; by repeat constructor|].
  exists [Said {["role" := JStr "system"; "content" := JStr s]}]. split; [done|]. split; [|done].
  constructor; [|constructor]. by apply said_message_ok.
Qed.

(** The reference keeps every turn and never leaves two runs of calls side by side. *)
Definition single_calls (t : turn) : list turn :=
  match t with Calls cs => map (fun c => Calls [c]) cs | Said m => [Said m] end.

Lemma group_same_turns ts : flat_map single_calls (group ts) = flat_map single_calls ts.
Proof.
  induction ts as [|t ts IH]; [done|]. cbn [group foldr flat_map]. fold (group ts). rewrite <- IH.
  destruct t as [cs|m], (group ts) as [|[cs'|m'] gs]; simpl; try done. by rewrite map_app, <- app_assoc.
Qed.

Fixpoint no_adjacent_calls (ts : list turn) : bool :=
  match ts with
  | Calls _ :: (Calls _ :: _) => false
  | _ :: ts => no_adjacent_calls ts
  | [] => true
  end.

Lemma group_no_adjacent ts : no_adjacent_calls (group ts) = true.
Proof.
  induction ts as [|t ts IH]; [done|]. cbn [group foldr]. fold (group ts).
  destruct t as [cs|m], (group ts) as [|[cs'|m'] gs]; simpl in *; try done; by destruct gs as [|[]].
Qed.

(** Updating the last message in place groups the items as the reference
    does: an input array becomes the system message followed by one message
    per turn, a turn being a message, a tool output or a maximal run of
    consecutive function calls, in order and with none lost; an item that
    cannot be converted is the error of the first such item. *)
Theorem responses_messages_grouped body items sys :
  system_messages body = inr sys -> body !! "input" = Some (JArr items) ->
  match item_turns Quote items with
  | inl e => responsesMessages Quote body = inl e
  | inr ts =>
      responsesMessages Quote body = inr (sys ++ map turn_message (group ts))
      /\ flat_map single_calls (group ts) = ts /\ no_adjacent_calls (group ts) = true
  end.
Proof.
  intros Hsys Hin. unfold responsesMessages. rewrite Hsys, Hin.
  destruct (system_messages_turns _ _ Hsys) as (ts0 & -> & Hok & Hg).
  assert (group ts0 = ts0) as Hg0 by (specialize (Hg []); by rewrite !app_nil_r in Hg).
  pose proof (add_items_turns items ts0) as H. rewrite Hg0 in H. rewrite H.
  2:{ eapply Forall_impl; [done|]. apply turn_ok_said. }
  destruct (item_turns Quote items) as [e|ts] eqn:E; [done|]. rewrite Hg, map_app, group_same_turns.
  split; [done|]. split; [|apply group_no_adjacent]. clear -E. revert ts E.
  induction items as [|x items IH]; simpl; intros ts; [by intros [= <-]|].
  destruct (item_turn Quote x) as [|t] eqn:Et; [done|]. destruct (item_turns Quote items); [done|]. intros [= <-]. simpl.
  rewrite IH by done. assert (single_calls t = [t]) as ->; [|done]. unfold item_turn in Et.
  repeat case_in Et; by simplify_eq.
Qed.

(** *** Bodies *)

Lemma copy_fields_lookup fields source k : forall target,
  copy_fields fields target source !! k =
    if bool_decide (k ∈ fields) then (match source !! k with Some v => Some v | None => target !! k end) else target !! k.
Proof.
  unfold copy_fields. induction fields as [|f fields IH]; intros target; simpl; [done|].
  rewrite IH. destruct (decide (k = f)) as [->|Hne].
  - rewrite (bool_decide_eq_true_2 (f ∈ f :: fields)) by left.
    destruct (source !! f) eqn:E; [rewrite lookup_insert_eq|]; by case_bool_decide.
  - rewrite (bool_decide_ext (k ∈ f :: fields) (k ∈ fields)) by (rewrite elem_of_cons; naive_solver).
    destruct (source !! f); [|done]. by rewrite lookup_insert_ne.
Qed.

Lemma effort_kwargs_lookup body tb k : k <> "chat_template_kwargs" -> effort_kwargs body tb !! k = tb !! k.
Proof.
  intros Hk. unfold effort_kwargs. destruct (get "reasoning" body); try done.
  destruct (nonempty_string _); [|done]. by rewrite lookup_insert_ne.
Qed.

(** The fields of a tokenize body. *)
Definition tokenizeFields : list string := ["model"; "messages"; "tools"] ++ tokenizeChatFields.

Lemma convert_tool_ok x y : convert_tool Quote x = inr y -> chat_tool y = true.
Proof.
  unfold convert_tool. destruct x; try done. destruct (negb _); [done|].
  destruct (nonempty_string _) as [name|] eqn:En; [|done]. apply nonempty_string_Some in En as [_ En]. intros [= <-].
  change (is_nonempty_string (get "name" (copy_fields ["description"; "parameters"; "strict"] {["name" := JStr name]} m)) = true).
  unfold get at 1. rewrite copy_fields_lookup. by apply is_nonempty_JStr.
Qed.

Lemma responsesMessages_ok body ms : responsesMessages Quote body = inr ms -> forallb chat_message ms = true.
Proof.
  unfold responsesMessages. destruct (system_messages body) as [|sys] eqn:Es; [done|].
  destruct (system_messages_turns _ _ Es) as (ts0 & -> & Hok & Hg).
  assert (forall ts, Forall turn_ok ts -> forallb chat_message (map turn_message ts) = true) as Hall.
  { intros ts. induction 1; simpl; [done|]. by rewrite turn_ok_message. }
  destruct (body !! "input") as [[]|]; try done.
  - intros [= <-]. rewrite forallb_app, Hall by done. done.
  - assert (group ts0 = ts0) as Hg0 by (specialize (Hg []); by rewrite !app_nil_r in Hg).
    pose proof (add_items_turns l ts0) as H. rewrite Hg0 in H. rewrite H.
    2:{ eapply Forall_impl; [done|]. apply turn_ok_said. }
    destruct (item_turns Quote l) as [|ts] eqn:E; [done|]. intros [= <-]. apply item_turns_ok in E.
    apply Hall, group_turn_ok. by apply Forall_app.
Qed.

(** What a successful conversion is made of. *)
Lemma responsesTokenizeBody_inv body m tb : responsesTokenizeBody Quote body m = inr tb ->
  exists ms tools,
    responsesMessages Quote body = inr ms
    /\ (tools = None \/ exists v l, body !! "tools" = Some v /\ responsesTools Quote v = inr l /\ tools = Some (JArr l))
    /\ let base := <["model" := JStr m]> (<["messages" := JArr ms]> match tools with Some t => {["tools" := t]} | None => ∅ end) in
       let full := effort_kwargs body (copyTokenizeChatFields base body) in
       tb = if responsesContinuesFinalMessage (get "input" body)
            then <["continue_final_message" := JBool true]> (<["add_generation_prompt" := JBool false]> full) else full.
Proof.
  unfold responsesTokenizeBody. destruct (unsupported_field body); [done|].
  destruct (responsesMessages Quote body) as [|ms]; [done|]. intros H. exists ms.
  destruct (match body !! "tools" with Some _ => _ | None => _ end) as [|base] eqn:Et; [done|]. injection H as <-.
  destruct (body !! "tools") as [v|]; [|injection Et as <-; exists None; by split; [|split; [left|]]].
  destruct (String.eqb _ _); [injection Et as <-; exists None; by split; [|split; [left|]]|].
  destruct (responsesTools Quote v) as [|l] eqn:El; [done|]. injection Et as <-.
  exists (Some (JArr l)). split; [done|]. split; [right; by exists v, l|done].
Qed.

(** C37: a successful conversion is well typed: it names the resolved model, its
    messages are chat messages (a role with text or parts, or an assistant's
    nonempty list of calls), its tools are function tools, and it has no field
    besides these and the template fields, whatever else the client sent. *)
Theorem tokenize_body_well_typed body m tb :
  responsesTokenizeBody Quote body m = inr tb ->
  tb !! "model" = Some (JStr m)
  /\ (exists ms, tb !! "messages" = Some (JArr ms) /\ forallb chat_message ms = true)
  /\ (tb !! "tools" = None \/ exists ts, tb !! "tools" = Some (JArr ts) /\ forallb chat_tool ts = true)
  /\ (forall k, is_Some (tb !! k) -> k ∈ tokenizeFields).
Proof.
  intros H. destruct (responsesTokenizeBody_inv _ _ _ H) as (ms & tools & Hms & Htools & ->). cbv zeta.
  set (base := <["model" := _]> _). set (full := effort_kwargs _ _).
  assert (forall k, k ∉ tokenizeChatFields -> forall b : bool,
    (if b then <["continue_final_message" := JBool true]> (<["add_generation_prompt" := JBool false]> full) else full) !! k = base !! k) as Hk.
  { intros k Hk b. assert (full !! k = base !! k) as Hf.
    { unfold full. rewrite effort_kwargs_lookup by (intros ->; set_solver).
      unfold copyTokenizeChatFields. by rewrite copy_fields_lookup, bool_decide_eq_false_2. }
    destruct b; [|done]. rewrite !lookup_insert_ne by (intros <-; set_solver). done. }
  rewrite !Hk by (apply (bool_decide_unpack _); vm_compute; exact I).
  split; [by unfold base; rewrite lookup_insert_eq|]. split.
  { exists ms. split; [by unfold base; rewrite lookup_insert_ne, lookup_insert_eq|]. by eapply responsesMessages_ok. }
  split.
  - unfold base. rewrite !lookup_insert_ne by done.
    destruct Htools as [->|(v & l & _ & Hl & ->)]; [by left|]. right. exists l. split; [by rewrite lookup_singleton_eq|].
    unfold responsesTools in Hl. destruct v; try done.
    apply (convert_all_Forall _ (fun y => chat_tool y = true)) in Hl; [|apply convert_tool_ok].
    apply forallb_forall. intros y Hy. rewrite Forall_forall in Hl. by apply Hl, list_elem_of_In.
  - intros k Hs. destruct (decide (k ∈ tokenizeChatFields)) as [Hin|Hin]; [apply elem_of_app; by right|].
    rewrite Hk in Hs by done. apply elem_of_app. left. unfold base in Hs.
    destruct (decide (k = "model")) as [->|]; [left|]. rewrite lookup_insert_ne in Hs by done.
    destruct (decide (k = "messages")) as [->|]; [right; left|]. rewrite lookup_insert_ne in Hs by done.
    destruct tools; [|by destruct Hs]. destruct (decide (k = "tools")) as [->|]; [do 2 right; left|].
    rewrite lookup_singleton_ne in Hs by done. by destruct Hs.
Qed.

(** *** Errors *)

Lemma item_turn_error x e : item_turn Quote x = inl e -> param_error "input" e.
Proof.
  unfold item_turn. destruct x; try (by intros [= <-]). case_bool_decide.
  { unfold responsesMessage. destruct (nonempty_string _); [|by intros [= <-]]. destruct (_ !! _); [|by intros [= <-]].
    destruct (responsesContent Quote j) eqn:E; [intros [= <-]; by eapply responsesContent_error|done]. }
  destruct (String.eqb _ _).
  { destruct (nonempty_string (get "call_id" m)), (nonempty_string (get "name" m)), (get "arguments" m); by intros [= <-]. }
  destruct (String.eqb _ _); [|by intros [= <-]].
  unfold responsesFunctionCallOutput. destruct (nonempty_string _); [|by intros [= <-]]. destruct (_ !! _); [|by intros [= <-]].
  destruct (responsesContent Quote j); [by intros [= <-]|done].
Qed.

Lemma item_turns_error items e : item_turns Quote items = inl e -> param_error "input" e.
Proof.
  induction items as [|x items IH]; simpl; [done|].
  destruct (item_turn Quote x) eqn:E; [intros [= <-]; by eapply item_turn_error|].
  destruct (item_turns Quote items); [intros [= <-]; auto|done].
Qed.

Lemma responsesMessages_error body e : responsesMessages Quote body = inl e ->
  param_error "instructions" e \/ param_error "input" e.
Proof.
  unfold responsesMessages. destruct (system_messages body) as [e'|sys] eqn:Es.
  { intros [= <-]. left. unfold system_messages in Es. repeat case_in Es; by simplify_eq. }
  intros H. right. destruct (body !! "input") as [[]|]; try done; try (by injection H as <-).
  destruct (system_messages_turns _ _ Es) as (ts0 & -> & Hok & Hg).
  assert (group ts0 = ts0) as Hg0 by (specialize (Hg []); by rewrite !app_nil_r in Hg).
  pose proof (add_items_turns l ts0) as Ha. rewrite Hg0 in Ha. rewrite Ha in H.
  2:{ eapply Forall_impl; [done|]. apply turn_ok_said. }
  destruct (item_turns Quote l) eqn:E; [|done]. injection H as <-. by eapply item_turns_error.
Qed.

Lemma convert_tool_error x e : convert_tool Quote x = inl e -> param_error "tools" e.
Proof.
  unfold convert_tool. destruct x; try (by intros [= <-]). destruct (negb _); [by intros [= <-]|].
  destruct (nonempty_string _); [done|by intros [= <-]].
Qed.

(** A request that cannot be converted is refused with a 400 that names the
    parameter at fault; except for a missing input, it is one the client sent. *)
Theorem conversion_errors_name_parameter body m e :
  responsesTokenizeBody Quote body m = inl e ->
  exists p, param_error p e
    /\ (p ∈ unsupportedResponsesCountFields /\ is_nil (get p body) = false
        \/ p = "input" \/ p ∈ ["instructions"; "tools"] /\ is_Some (body !! p)).
Proof.
  unfold responsesTokenizeBody. destruct (unsupported_field body) as [f|] eqn:Ef.
  { intros [= <-]. exists f. split; [done|]. left. unfold unsupported_field in Ef.
    apply head_Some_elem_of in Ef. by apply list_elem_of_filter in Ef as [? ?]. }
  destruct (responsesMessages Quote body) as [e'|ms] eqn:Em.
  { intros [= <-]. pose proof (responsesMessages_error _ _ Em) as [H|H]; [|by exists "input"; auto].
    exists "instructions". split; [done|]. right; right. split; [left|]. unfold responsesMessages, system_messages in Em.
    destruct (body !! "instructions"); [done|]. exfalso. simpl in Em. destruct H as (_ & _ & _ & H).
    assert (Param e' = "input") as Hp; [|by rewrite Hp in H].
    destruct (body !! "input") as [[]|]; try (by injection Em as <-); try done.
    pose proof (add_items_turns l []) as Ha. simpl in Ha. rewrite Ha in Em by constructor.
    destruct (item_turns Quote l) eqn:E; [|done]. injection Em as <-. by apply item_turns_error in E as (_ & _ & _ & ?). }
  destruct (body !! "tools") as [v|] eqn:Et; [|done]. destruct (String.eqb _ _); [done|].
  destruct (responsesTools Quote v) as [e'|] eqn:El; [|done]. intros [= <-].
  exists "tools". split; [|right; right; split; [right; left|by exists v]].
  unfold responsesTools in El. destruct v; try (by injection El as <-).
  eapply (convert_all_error _ (param_error "tools")); [apply convert_tool_error|done].
Qed.
End Facts.

Section HandlerFacts.
Context (Quote : string -> string) (unmarshal : bytes -> option object).
Context (resolveModel : option (object -> (APIError + string) + (string * object))).
Context (dispatch : string -> string -> object -> Header -> dispatch_error + tokenize_response).

(** A count is answered exactly when an authenticated POST names a model,
    its converted body was sent to that model's tokenize endpoint under the
    caller's key, and the backend answered 2xx with a count that is not
    negative, which is the count answered. *)
Theorem count_answer_iff method path apiKey decoded o :
  handleInputTokens Quote unmarshal resolveModel dispatch method path apiKey decoded = Answer o <->
  method = "POST" /\ apiKey <> "" /\
  exists body name body' tb resp n,
    decoded = inr body /\ inputTokensModel resolveModel body = inr (name, body')
    /\ tokenize_body Quote path body' name = inr tb
    /\ dispatch name tokenizePath tb {["Authorization" := ["Bearer " +:+ apiKey]; "Content-Type" := ["application/json"]]} = inr resp
    /\ 200 <= StatusCode resp < 300 /\ resp_count resp = Some (Some n) /\ 0 <= n
    /\ o = {["object" := JStr (if String.eqb path responsesInputTokensPath then "response.input_tokens" else "chat.completion.input_tokens");
             "input_tokens" := JInt n]}.
Proof.
  unfold handleInputTokens. split.
  - destruct (String.eqb_spec method "POST") as [->|]; [simpl|done]. destruct (String.eqb_spec apiKey "") as [|Hkey]; [done|].
    destruct decoded as [|body]; [done|]. destruct (inputTokensModel resolveModel body) as [|[name body']] eqn:Em; [done|].
    destruct (tokenize_body Quote path body' name) as [|tb] eqn:Et; [done|].
    destruct (dispatch _ _ _ _) as [[]|resp] eqn:Ed; try done.
    destruct (_ || _) eqn:Es.
    { unfold forwardInputTokensError. destruct (resp_body resp); [|done]. by destruct (_ >? _). }
    destruct (resp_count resp) as [[n|]|] eqn:Ec; try done. destruct (n <? 0) eqn:En; [done|]. intros [= <-].
    bool_simp. split; [done|]. split; [done|]. exists body, name, body', tb, resp, n. split_and!; try done; lia.
  - intros (-> & Hk & body & name & body' & tb & resp & n & -> & Em & Et & Ed & [Hs1 Hs2] & Ec & Hn & ->). simpl.
    destruct (String.eqb_spec apiKey ""); [done|]. rewrite Em, Et, Ed, Ec.
    replace (StatusCode resp <? 200) with false by (symmetry; lia).
    replace (StatusCode resp >=? 300) with false by (symmetry; lia).
    by replace (n <? 0) with false by (symmetry; lia).
Qed.
End HandlerFacts.

(** *** Witnesses *)

Definition sample_items : list json :=
  [JObj {["role" := JStr "user"; "content" := JStr "weather?"]};
   JObj {["type" := JStr "function_call"; "call_id" := JStr "c1"; "name" := JStr "get"; "arguments" := JStr "{}"]};
   JObj {["type" := JStr "function_call"; "call_id" := JStr "c2"; "name" := JStr "get"; "arguments" := JStr "[]"]};
   JObj {["type" := JStr "function_call_output"; "call_id" := JStr "c1"; "output" := JStr "sunny"]}].

Definition sample_body : object :=
  {["instructions" := JStr "be brief"; "input" := JArr sample_items; "tools" := JArr []; "temperature" := JInt 1]}.

Definition sample_messages : list json :=
  [JObj {["role" := JStr "system"; "content" := JStr "be brief"]};
   JObj {["role" := JStr "user"; "content" := JStr "weather?"]};
   JObj (call_message [tool_call "c1" "get" "{}"; tool_call "c2" "get" "[]"]);
   JObj {["role" := JStr "tool"; "tool_call_id" := JStr "c1"; "content" := JStr "sunny"]}].

Lemma responses_messages_grouped_witness : responsesMessages (fun s => s) sample_body = inr sample_messages.
Proof.
  pose proof (responses_messages_grouped (fun s => s) sample_body sample_items
    [JObj {["role" := JStr "system"; "content" := JStr "be brief"]}] eq_refl eq_refl) as H.
  exact (proj1 H).
Defined.

Definition sample_tokenize_body : object :=
  {["model" := JStr "m"; "messages" := JArr sample_messages; "tools" := JArr []]}.

Lemma tokenize_body_well_typed_witness :
  responsesTokenizeBody (fun s => s) sample_body "m" = inr sample_tokenize_body
  /\ (forall k, is_Some (sample_tokenize_body !! k) -> k ∈ tokenizeFields).
Proof.
  assert (responsesTokenizeBody (fun s => s) sample_body "m" = inr sample_tokenize_body) as H by (vm_compute; reflexivity).
  split; [exact H|]. destruct (tokenize_body_well_typed (fun s => s) sample_body "m" sample_tokenize_body H) as (_ & _ & _ & Hf).
  exact Hf.
Defined.

Lemma conversion_errors_name_parameter_witness :
  exists p, param_error p (inputTokensParamError "input" "Responses message items require 'content'.") /\ p <> "tools".
Proof.
  destruct (conversion_errors_name_parameter (fun s => s) {["input" := JArr [JObj {["role" := JStr "user"]}]]} "m"
    (inputTokensParamError "input" "Responses message items require 'content'.")) as (p & Hp & Hcase); [vm_compute; reflexivity|].
  exists p. split; [exact Hp|]. destruct Hp as (_ & _ & _ & Hp). intros ->. discriminate Hp.
Defined.
