(* ===== verification/Coerce.v ===== *)
(** * Coercion of tool arguments ([toolruntime/coerce.go])

    Models emit tool arguments with the wrong JSON types; the router rewrites
    an argument when the rewritten one satisfies the tool's schema.

    [jsonschema.Schema] is a record of the fields the code reads.  Parsing and
    printing of decimal floats, [json.Unmarshal] of a literal and the result of
    an out-of-range conversion to [int64] are parameters.  A nil slice or map
    is the JSON null it encodes as.  Arguments and their containers are updated
    in place; no two of them are shared, so an update is a new value here. *)

From S2P Require Import Prelude Float64 Sha256 Strconv Json CacheSalt.
From Stdlib Require Import Ascii.
#[local] Open Scope string_scope.
#[local] Open Scope list_scope.
#[local] Open Scope Z_scope.

Definition coerceMaxIntFromFloat : float64 := f64_of_int (Z.shiftl 1 53).

(** ** Schemas *)

Inductive Schema := MkSchema {
  Type_ : string;
  Types : list string;
  Properties : gmap string (option Schema);
  AllOf : list (option Schema);
  AnyOf : list (option Schema);
  OneOf : list (option Schema);
  Items : option Schema;
  Minimum : option float64;
  Maximum : option float64;
  ExclusiveMinimum : option float64;
  ExclusiveMaximum : option float64;
  MultipleOf : option float64;
  Enum : list json
}.

(** The loops over the branches of a composition keyword. *)
Section Branches.
Context (lookup : Schema -> option Schema).

Fixpoint first_branch (branches : list (option Schema)) : option Schema :=
  match branches with
  | [] => None
  | None :: branches => first_branch branches
  | Some branch :: branches => match lookup branch with Some sub => Some sub | None => first_branch branches end
  end.
End Branches.

(** The first declaration of the property. *)
Fixpoint propertySchema (parent : Schema) (key : string) {struct parent} : option Schema :=
  match parent with
  | MkSchema _ _ props allOf anyOf oneOf _ _ _ _ _ _ _ =>
      let search := first_branch (fun branch => propertySchema branch key) in
      match props !! key with
      | Some (Some sub) => Some sub
      | _ =>
          match search allOf with
          | Some sub => Some sub
          | None => match search anyOf with Some sub => Some sub | None => search oneOf end
          end
      end
  end.

Fixpoint keep_first (seen l : list string) : list string :=
  match l with
  | [] => []
  | t :: l => if bool_decide (t ∈ seen) then keep_first seen l else t :: keep_first (t :: seen) l
  end.

Definition declaredTypes (s : Schema) : list string :=
  if negb (String.eqb (Type_ s) "") then [Type_ s] else keep_first [] (Types s).

(** ** Types of values *)

(** [json.Number.Int64] *)
Definition number_int (lit : string) : option Z := ParseInt (to_bytes lit).

Definition isNumericValue (v : json) : bool :=
  match v with JFloat _ | JInt _ | JNumber _ => true | _ => false end.

Definition isIntegerValue (v : json) : bool :=
  match v with
  | JInt _ => true
  | JNumber lit => match number_int lit with Some _ => true | None => false end
  | _ => false
  end.

Definition valueMatchesType (v : json) (t : string) : bool :=
  if String.eqb t "string" then match v with JStr _ => true | _ => false end
  else if String.eqb t "boolean" then match v with JBool _ => true | _ => false end
  else if String.eqb t "integer" then isIntegerValue v
  else if String.eqb t "number" then isNumericValue v
  else if String.eqb t "array" then match v with JArr _ => true | _ => false end
  else if String.eqb t "object" then match v with JObj _ => true | _ => false end
  else if String.eqb t "null" then is_nil v
  else false.

Definition valueMatchesAnyType (v : json) (types : list string) : bool := existsb (valueMatchesType v) types.

(** ** Comma-separated lists *)

(** [strings.Split(s, ",")] *)
Fixpoint split_comma (s : bytes) : list bytes :=
  match s with
  | [] => [[]]
  | c :: s =>
      match split_comma s with
      | part :: rest => if Ascii.eqb c ","%char then [] :: part :: rest else (c :: part) :: rest
      | [] => [[c]]
      end
  end.

Definition splitCSV (s : string) : list string :=
  List.filter (fun p => negb (String.eqb p "")) (map (fun p => of_bytes (TrimSpaceBytes p)) (split_comma (to_bytes s))).

Definition looksLikeCSV (s : string) : bool :=
  bool_decide (","%char ∈ to_bytes s) && (2 <=? Z.of_nat (length (splitCSV s))).

Section Coerce.
Context (ParseFloat : string -> option float64) (FormatFloat : float64 -> string)
  (int_out_of_range : float64 -> Z).
(** [None] is an error; a literal [null] gives the nil slice or map. *)
Context (unmarshal_array : string -> option (option (list json)))
  (unmarshal_object : string -> option (option object)).

(** ** Constraints *)

Definition enumContainsNumeric (enum : list json) (candidate : float64) : bool :=
  match enum with
  | [] => true
  | _ => existsb (fun entry =>
           match entry with
           | JFloat e => f64_eq e candidate
           | JInt e => f64_eq (f64_of_int e) candidate
           | JNumber lit => match ParseFloat lit with Some f => f64_eq f candidate | None => false end
           | _ => false
           end) enum
  end.

Definition violates (bound : option float64) (test : float64 -> bool) : bool :=
  match bound with Some b => test b | None => false end.

Definition numberSatisfiesSchema (f : float64) (s : Schema) : bool :=
  if violates (Minimum s) (fun b => f64_lt f b) then false
  else if violates (Maximum s) (fun b => f64_lt b f) then false
  else if violates (ExclusiveMinimum s) (fun b => f64_le f b) then false
  else if violates (ExclusiveMaximum s) (fun b => f64_le b f) then false
  else if violates (MultipleOf s) (fun b => negb (f64_eq b f64_zero) && negb (f64_eq (f64_mod f b) f64_zero)) then false
  else enumContainsNumeric (Enum s) f.

(** The same tests of the integer as a float. *)
Definition integerSatisfiesSchema (n : Z) (s : Schema) : bool := numberSatisfiesSchema (f64_of_int n) s.

(** ** Primitives *)

Definition floatToBoundedInt64 (f : float64) : option Z :=
  if IsNaN f || IsInf f then None
  else if negb (is_integral f) then None
  else if f64_lt coerceMaxIntFromFloat (SFabs f) then None
  else Some (int_of_f64 int_out_of_range f).

Definition satisfying (n : option Z) (s : Schema) : option Z :=
  match n with Some n => if integerSatisfiesSchema n s then Some n else None | None => None end.

Definition coerceToInteger (v : json) (s : Schema) : option Z :=
  match v with
  | JStr str =>
      let t := TrimSpace str in
      if String.eqb t "" then None
      else match ParseInt (to_bytes t) with
           | Some n => satisfying (Some n) s
           | None => match ParseFloat t with Some f => satisfying (floatToBoundedInt64 f) s | None => None end
           end
  | JFloat f => satisfying (floatToBoundedInt64 f) s
  | JNumber lit => satisfying (number_int lit) s
  | _ => None
  end.

Definition coerceToNumber (v : json) (s : Schema) : option float64 :=
  match v with
  | JStr str =>
      let t := TrimSpace str in
      if String.eqb t "" then None
      else match ParseFloat t with Some f => if numberSatisfiesSchema f s then Some f else None | None => None end
  | JNumber lit => match ParseFloat lit with Some f => if numberSatisfiesSchema f s then Some f else None | None => None end
  | _ => None
  end.

Definition coerceToBoolean (v : json) : option bool :=
  match v with
  | JStr str =>
      let t := of_bytes (to_lower (to_bytes (TrimSpace str))) in
      if bool_decide (t ∈ ["true"; "1"; "yes"; "on"; "y"; "t"]) then Some true
      else if bool_decide (t ∈ ["false"; "0"; "no"; "off"; "n"; "f"]) then Some false
      else None
  | JFloat f => if f64_eq f (f64_of_int 1) then Some true else if f64_eq f f64_zero then Some false else None
  | JInt n => if n =? 1 then Some true else if n =? 0 then Some false else None
  | _ => None
  end.

(** [v == math.Trunc(v)] *)
Definition is_whole (f : float64) : bool := IsInf f || is_integral f.

Definition coerceToString (v : json) : option string :=
  match v with
  | JFloat f => Some (if is_whole f then FormatInt (int_of_f64 int_out_of_range f) else FormatFloat f)
  | JBool b => Some (if b then "true" else "false")
  | JNumber lit => Some lit
  | _ => None
  end.

Definition coerceToNull (v : json) : option json :=
  match v with
  | JStr str => if String.eqb (of_bytes (to_lower (to_bytes (TrimSpace str)))) "null" then Some JNull else None
  | _ => None
  end.

(** ** Containers, given the coercion of what they hold *)

Section Containers.
Context (coerce : json -> Schema -> json * bool).

Definition coerceItems (items : option Schema) (l : list json) : list json :=
  match items with Some s => map (fun item => fst (coerce item s)) l | None => l end.

(** Each property is rewritten on its own, so the map's order is immaterial. *)
Definition coerceObject (obj : object) (s : Schema) : object :=
  map_imap (fun key v => Some (match propertySchema s key with Some sub => fst (coerce v sub) | None => v end)) obj.

(** The boolean is always [false]: containers change in place. *)
Definition descendIntoContainers (v : json) (s : Schema) : json * bool :=
  match v with
  | JObj m => (JObj (coerceObject m s), false)
  | JArr l => (JArr (coerceItems (Items s) l), false)
  | _ => (v, false)
  end.

(** A value that is an array already matched, and does not get here. *)
Definition coerceToArray (v : json) (s : Schema) : option json :=
  match v with
  | JStr str =>
      let t := TrimSpace str in
      if String.eqb t "" then None
      else match unmarshal_array t with
           | Some None => Some JNull
           | Some (Some parsed) => Some (JArr (coerceItems (Items s) parsed))
           | None =>
               if looksLikeCSV t then Some (JArr (coerceItems (Items s) (map JStr (splitCSV t)))) else None
           end
  | _ => None
  end.

Definition coerceToObject (v : json) (s : Schema) : option json :=
  match v with
  | JStr str =>
      let t := TrimSpace str in
      if String.eqb t "" then None
      else match unmarshal_object t with
           | Some None => Some JNull
           | Some (Some parsed) => Some (JObj (coerceObject parsed s))
           | None => None
           end
  | _ => None
  end.

(** The case of one declared type. *)
Definition coerceToType (v : json) (s : Schema) (t : string) : option json :=
  if String.eqb t "integer" then JInt <$> coerceToInteger v s
  else if String.eqb t "number" then JFloat <$> coerceToNumber v s
  else if String.eqb t "boolean" then JBool <$> coerceToBoolean v
  else if String.eqb t "string" then JStr <$> coerceToString v
  else if String.eqb t "array" then coerceToArray v s
  else if String.eqb t "object" then coerceToObject v s
  else if String.eqb t "null" then coerceToNull v
  else None.

Fixpoint first_coercion (v : json) (s : Schema) (types : list string) : option json :=
  match types with
  | [] => None
  | t :: types => match coerceToType v s t with Some c => Some c | None => first_coercion v s types end
  end.

(** The body of [coerceValue]. *)
Definition coerceStep (v : json) (s : Schema) : json * bool :=
  let types := declaredTypes s in
  match types with
  | [] => descendIntoContainers v s
  | _ =>
      if valueMatchesAnyType v types then descendIntoContainers v s
      else match first_coercion v s types with
           | Some c => (c, true)
           | None => descendIntoContainers v s
           end
  end.
End Containers.

(** ** The recursion, on the size of the schema *)

Fixpoint schema_size (s : Schema) : nat :=
  match s with
  | MkSchema _ _ props allOf anyOf oneOf items _ _ _ _ _ _ =>
      let size := from_option schema_size 0%nat in
      let sizes := foldr (fun o n => (size o + n)%nat) 0%nat in
      S (map_fold (fun _ o n => (size o + n)%nat) 0%nat props + sizes allOf + sizes anyOf + sizes oneOf + size items)%nat
  end.

Fixpoint coerceFuel (fuel : nat) (v : json) (s : Schema) : json * bool :=
  match fuel with
  | O => (v, false)
  | S fuel => coerceStep (coerceFuel fuel) v s
  end.

Definition coerceValue (v : json) (s : Schema) : json * bool := coerceFuel (schema_size s) v s.

(** ** Tool calls *)

Definition schemaLookup (parseInputSchema : json -> option (option Schema)) (tools : list (option (string * json))) : gmap string Schema :=
  foldl (fun out tool =>
    match tool with
    | Some (name, raw) =>
        if is_nil raw then out
        else match parseInputSchema raw with Some (Some schema) => <[name := schema]> out | _ => out end
    | None => out
    end) ∅ tools.

Definition coerceArgumentsToSchema (toolName : string) (arguments : object) (schemas : gmap string Schema) : object :=
  match schemas !! toolName with
  | Some schema => coerceObject coerceValue arguments schema
  | None => arguments
  end.

(** ** The recursion descends *)

Lemma sizes_elem b (l : list (option Schema)) : Some b ∈ l ->
  (schema_size b <= foldr (fun o n => (from_option schema_size 0 o + n)%nat) 0%nat l)%nat.
Proof.
  induction l as [|o l IH]; [by intros ?%not_elem_of_nil|]. intros [<-|Hb]%elem_of_cons; simpl; [lia|]. specialize (IH Hb). lia.
Qed.

Lemma sizes_lookup (m : gmap string (option Schema)) k b : m !! k = Some (Some b) ->
  (schema_size b <= map_fold (fun _ o n => (from_option schema_size 0 o + n)%nat) 0%nat m)%nat.
Proof.
  intros Hk. rewrite (map_fold_delete_L _ _ k (Some b) m); [simpl; lia| |done]. intros j1 j2 z1 z2 y ? ? ?. lia.
Qed.

Lemma first_branch_Some f l sub : first_branch f l = Some sub -> exists b, Some b ∈ l /\ f b = Some sub.
Proof.
  induction l as [|[b|] l IH]; simpl; [done| |].
  - destruct (f b) eqn:E; [intros [= <-]; exists b; split; [left|done]|].
    intros (b' & ? & ?)%IH. exists b'. split; [by right|done].
  - intros (b' & ? & ?)%IH. exists b'. split; [by right|done].
Qed.

Lemma propertySchema_size key sub : forall s, propertySchema s key = Some sub -> (schema_size sub < schema_size s)%nat.
Proof.
  intros s. remember (schema_size s) as n eqn:Hn. revert s Hn.
  induction n as [n IH] using (well_founded_induction lt_wf). intros s ->.
  assert (forall l, first_branch (fun b => propertySchema b key) l = Some sub ->
    (foldr (fun o n => (from_option schema_size 0 o + n)%nat) 0%nat l < schema_size s)%nat ->
    (schema_size sub < schema_size s)%nat) as Hl.
  { intros l (b & Hb & E)%first_branch_Some Hs. apply sizes_elem in Hb.
    pose proof (IH (schema_size b) ltac:(lia) b eq_refl E). lia. }
  destruct s as [ty tys props allOf anyOf oneOf items mn mx emn emx mo en]. cbn [propertySchema]. intros H.
  destruct (props !! key) as [[b|]|] eqn:Ek.
  { injection H as ->. apply sizes_lookup in Ek. cbn [schema_size]. lia. }
  all: destruct (first_branch _ allOf) eqn:E1; [injection H as ->; apply (Hl _ E1); cbn [schema_size]; lia|];
    destruct (first_branch _ anyOf) eqn:E2; [injection H as ->; apply (Hl _ E2); cbn [schema_size]; lia|];
    apply (Hl _ H); cbn [schema_size]; lia.
Qed.

Lemma items_size s it : Items s = Some it -> (schema_size it < schema_size s)%nat.
Proof. destruct s. cbn [Items schema_size]. intros ->. simpl. lia. Qed.

Lemma schema_size_pos s : (0 < schema_size s)%nat.
Proof. destruct s. simpl. lia. Qed.

(** Coercions that agree below a schema give the same step at it. *)
Lemma coerceItems_ext f g s l :
  (forall v sub, (schema_size sub < schema_size s)%nat -> f v sub = g v sub) -> coerceItems f (Items s) l = coerceItems g (Items s) l.
Proof.
  intros H. unfold coerceItems. destruct (Items s) as [it|] eqn:E; [|done].
  apply items_size in E. apply map_ext. intros v. by rewrite H.
Qed.

Lemma coerceObject_ext f g s m :
  (forall v sub, (schema_size sub < schema_size s)%nat -> f v sub = g v sub) -> coerceObject f m s = coerceObject g m s.
Proof.
  intros H. unfold coerceObject. apply map_imap_ext. intros k.
  destruct (m !! k) as [v|]; simpl; [|done].
  destruct (propertySchema s k) as [sub|] eqn:E; [|done]. apply propertySchema_size in E. by rewrite H.
Qed.

Lemma coerceStep_ext f g v s :
  (forall v sub, (schema_size sub < schema_size s)%nat -> f v sub = g v sub) -> coerceStep f v s = coerceStep g v s.
Proof.
  intros H. unfold coerceStep.
  assert (descendIntoContainers f v s = descendIntoContainers g v s) as Hd.
  { destruct v; simpl; [done..| |]; [by rewrite (coerceItems_ext f g)|by rewrite (coerceObject_ext f g)]. }
  rewrite Hd. destruct (declaredTypes s) as [|t ts]; [done|]. destruct (valueMatchesAnyType _ _); [done|].
  assert (forall ts, first_coercion f v s ts = first_coercion g v s ts) as ->; [|done].
  clear t ts Hd. induction ts as [|t ts IH]; simpl; [done|]. rewrite IH.
  assert (coerceToType f v s t = coerceToType g v s t) as ->; [|done].
  unfold coerceToType, coerceToArray, coerceToObject.
  destruct (String.eqb t "integer"), (String.eqb t "number"), (String.eqb t "boolean"), (String.eqb t "string"); try done.
  destruct v; try done. rewrite (coerceItems_ext f g s (map JStr _)) by done.
  destruct (unmarshal_array (TrimSpace s0)) as [[]|], (unmarshal_object (TrimSpace s0)) as [[]|];
    by rewrite ?(coerceItems_ext f g s), ?(coerceObject_ext f g s).
Qed.

Lemma coerceFuel_enough n : forall v s, (schema_size s <= n)%nat -> coerceFuel n v s = coerceValue v s.
Proof.
  induction n as [n IH] using (well_founded_induction lt_wf). intros v s Hn. unfold coerceValue.
  pose proof (schema_size_pos s). destruct n as [|n]; [lia|]. destruct (schema_size s) as [|k] eqn:Ek; [lia|].
  cbn [coerceFuel]. apply coerceStep_ext. intros v' sub Hs.
  rewrite (IH n) by lia. destruct (decide (k = n)) as [->|]; [by rewrite (IH n) by lia|]. by rewrite (IH k) by lia.
Qed.

(** The recursion terminates on every schema: [coerceValue] satisfies the
    equation the code is written as, with no bound left in it. *)
Theorem coerceValue_equation v s : coerceValue v s = coerceStep coerceValue v s.
Proof.
  unfold coerceValue at 1. pose proof (schema_size_pos s). destruct (schema_size s) as [|k] eqn:Ek; [lia|].
  cbn [coerceFuel]. apply coerceStep_ext. intros v' sub Hs. apply coerceFuel_enough. lia.
Qed.

(** ** What a rewriting yields *)

Lemma keep_first_In seen l t : t ∈ keep_first seen l -> t ∈ l.
Proof.
  revert seen. induction l as [|x l IH]; intros seen; simpl; [done|].
  case_bool_decide; [intros Hin; right; eauto|]. intros [->|Hin]%elem_of_cons; [left|right; eauto].
Qed.

Lemma first_coercion_Some f v s ts c : first_coercion f v s ts = Some c -> exists t, t ∈ ts /\ coerceToType f v s t = Some c.
Proof.
  induction ts as [|t ts IH]; simpl; [done|]. destruct (coerceToType f v s t) as [c'|] eqn:E.
  - intros [= <-]. exists t. split; [left|done].
  - intros (t' & ? & ?)%IH. exists t'. split; [by right|done].
Qed.

(** A literal null read as a container. *)
Definition null_literal (v : json) : Prop :=
  exists str, v = JStr str /\ (unmarshal_array (TrimSpace str) = Some None \/ unmarshal_object (TrimSpace str) = Some None).

(** The shape of a coercion's result, by the type it was coerced to. *)
Definition coerced_shape (v : json) (s : Schema) (t : string) (c : json) : Prop :=
  match c with
  | JInt n => t = "integer" /\ integerSatisfiesSchema n s = true
      /\ ((exists b, ParseInt b = Some n) \/ (exists f, floatToBoundedInt64 f = Some n /\ (v = JFloat f \/ exists t, ParseFloat t = Some f)))
  | JFloat f => t = "number" /\ numberSatisfiesSchema f s = true
  | JBool _ => t = "boolean"
  | JStr _ => t = "string"
  | JArr _ => t = "array"
  | JObj _ => t = "object"
  | JNull => t = "null" \/ t ∈ ["array"; "object"] /\ null_literal v
  | JNumber _ => False
  end.

Lemma satisfying_Some n s n' : satisfying n s = Some n' -> n = Some n' /\ integerSatisfiesSchema n' s = true.
Proof. unfold satisfying. destruct n as [n|]; [|done]. destruct (integerSatisfiesSchema n s) eqn:E; [|done]. by intros [= <-]. Qed.

Lemma coerceToInteger_Some v s n : coerceToInteger v s = Some n -> coerced_shape v s "integer" (JInt n).
Proof.
  unfold coerceToInteger. destruct v as [| |f|lit| |str| |]; try done.
  - intros [H ?]%satisfying_Some. split; [done|]. split; [done|]. right. exists f. auto.
  - intros [H ?]%satisfying_Some. split; [done|]. split; [done|]. left. by eexists.
  - destruct (String.eqb _ _); [done|]. destruct (ParseInt _) as [n'|] eqn:E.
    + intros [[= ->] ?]%satisfying_Some. split; [done|]. split; [done|]. left. by eexists.
    + destruct (ParseFloat (TrimSpace str)) as [f|] eqn:Ef; [|done]. intros [H ?]%satisfying_Some.
      split; [done|]. split; [done|]. right. exists f. split; [done|]. right. by eexists.
Qed.

Lemma coerceToNumber_Some v s f : coerceToNumber v s = Some f -> numberSatisfiesSchema f s = true.
Proof.
  unfold coerceToNumber. intros H. destruct v; try done; repeat case_in H.
Qed.

Lemma coerceToType_shape f v s t c : coerceToType f v s t = Some c -> coerced_shape v s t c.
Proof.
  unfold coerceToType. destruct (String.eqb_spec t "integer") as [->|].
  { destruct (coerceToInteger v s) eqn:E; [|done]. intros [= <-]. by apply coerceToInteger_Some. }
  destruct (String.eqb_spec t "number") as [->|].
  { destruct (coerceToNumber v s) eqn:E; [|done]. intros [= <-]. split; [done|]. by apply coerceToNumber_Some in E. }
  destruct (String.eqb_spec t "boolean") as [->|]; [destruct (coerceToBoolean v); [by intros [= <-]|done]|].
  destruct (String.eqb_spec t "string") as [->|]; [destruct (coerceToString v); [by intros [= <-]|done]|].
  destruct (String.eqb_spec t "array") as [->|].
  { unfold coerceToArray. destruct v; try done. destruct (String.eqb _ _); [done|].
    destruct (unmarshal_array _) as [[l|]|] eqn:E; [by intros [= <-]| |].
    - intros [= <-]. right. split; [left|]. exists s0. auto.
    - destruct (looksLikeCSV _); [by intros [= <-]|done]. }
  destruct (String.eqb_spec t "object") as [->|].
  { unfold coerceToObject. destruct v; try done. destruct (String.eqb _ _); [done|].
    destruct (unmarshal_object _) as [[l|]|] eqn:E; [by intros [= <-]| |done].
    intros [= <-]. right. split; [right; left|]. exists s0. auto. }
  destruct (String.eqb_spec t "null") as [->|]; [|done].
  unfold coerceToNull. destruct v; try done. destruct (String.eqb _ _); [|done]. intros [= <-]. by left.
Qed.

(** A rewriting is a coercion of a value that matched no declared type. *)
Lemma coerceValue_changed v s c : coerceValue v s = (c, true) ->
  valueMatchesAnyType v (declaredTypes s) = false /\ exists t, t ∈ declaredTypes s /\ coerceToType coerceValue v s t = Some c.
Proof.
  rewrite coerceValue_equation. unfold coerceStep.
  assert (descendIntoContainers coerceValue v s <> (c, true)) as Hd by (by destruct v).
  destruct (declaredTypes s) as [|t ts]; [done|]. destruct (valueMatchesAnyType v (t :: ts)); [done|].
  destruct (first_coercion _ _ _ _) as [c'|] eqn:E; [|done]. intros [= <-]. split; [done|].
  by apply first_coercion_Some in E.
Qed.

Lemma canonical_digits m e : bounded 53 1024 m e = true -> Zpos m < 2 ^ 53.
Proof.
  unfold bounded, canonical_mantissa. intros H. bool_simp. unfold fexp in *.
  pose proof (digits2_pos_bounds m) as [_ Hm].
  assert (2 ^ Zpos (digits2_pos m) <= 2 ^ 53) by (apply Z.pow_le_mono_r; lia). lia.
Qed.

(** A bounded conversion stays within 2^53. *)
Lemma floatToBoundedInt64_range f n : valid_binary 53 1024 f = true -> floatToBoundedInt64 f = Some n -> - 2 ^ 53 <= n <= 2 ^ 53.
Proof.
  unfold floatToBoundedInt64. destruct f as [sg|sg| |sg m e]; simpl; try done; [intros _ [= <-]; lia|].
  intros Hb%canonical_digits. destruct (_ || _); simpl; [|done].
  destruct (f64_lt _ _) eqn:El; [done|]. intros [= <-].
  assert (0 <= trunc_pos m e <= 2 ^ 53) as Ht.
  { unfold trunc_pos. destruct (0 <=? e) eqn:Ee; bool_simp.
    - change coerceMaxIntFromFloat with (S754_finite false 4503599627370496 1) in El.
      unfold f64_lt, SFltb in El. cbn [SFcompare SFabs] in El.
      change (Pos.compare_cont Eq 4503599627370496 m) with (Zpos 4503599627370496 ?= Zpos m) in El.
      destruct (Z.compare_spec 1 e) as [<-|He|He]; [|done|].
      + destruct (Z.compare_spec (Zpos 4503599627370496) (Zpos m)); try done; lia.
      + replace e with 0 by lia. lia.
    - assert (0 < 2 ^ (- e)) by (apply Z.pow_pos_nonneg; lia). split; [by apply Z.div_pos; lia|].
      transitivity (Zpos m); [|lia]. apply Z.div_le_upper_bound; nia. }
  unfold clip_int, int64_min, int64_max. unfold signed. destruct sg;
    (replace (_ && _) with true by (symmetry; apply andb_true_iff; lia)); lia.
Qed.

(** A value is only rewritten when it has none of its schema's declared
    types, and the rewritten one has one of them (unless the string was a
    literal null read as a container) and meets the schema's numeric bounds,
    multiple and enumeration; an integer is a 64-bit one. *)
Theorem rewritten_value_typed v s c :
  (forall t f, ParseFloat t = Some f -> valid_binary 53 1024 f = true) ->
  (forall f, v = JFloat f -> valid_binary 53 1024 f = true) ->
  coerceValue v s = (c, true) ->
  valueMatchesAnyType v (declaredTypes s) = false
  /\ ((exists t, t ∈ declaredTypes s /\ valueMatchesType c t = true) \/ c = JNull /\ null_literal v)
  /\ (forall n, c = JInt n -> in_int64 n /\ integerSatisfiesSchema n s = true)
  /\ (forall f, c = JFloat f -> numberSatisfiesSchema f s = true).
Proof.
  intros Hp Hv (Hm & t & Ht & Hc)%coerceValue_changed. apply coerceToType_shape in Hc. split; [done|].
  destruct c; simpl in Hc; (split; [|split; [intros n Hn|intros f' Hf]; simplify_eq]).
  - destruct Hc as [->|[_ ?]]; [left; by exists "null"|by right].
  - left. subst t. by exists "boolean".
  - left. destruct Hc as [-> _]. by exists "number".
  - by destruct Hc.
  - done.
  - left. destruct Hc as (-> & _ & _). by exists "integer".
  - destruct Hc as (-> & Hs & [[b Hb]|(f & Hf & Hor)]); (split; [|done]).
    + by eapply ParseInt_range.
    + assert (valid_binary 53 1024 f = true) as Hvf by (destruct Hor as [->|[? ?]]; eauto).
      pose proof (floatToBoundedInt64_range _ _ Hvf Hf). unfold in_int64, int64_min, int64_max. lia.
  - left. subst t. by exists "string".
  - left. subst t. by exists "array".
  - left. subst t. by exists "object".
Qed.

(** *** Coercing twice *)

Lemma coerce_array l s : coerceValue (JArr l) s = (JArr (coerceItems coerceValue (Items s) l), false).
Proof.
  rewrite coerceValue_equation. unfold coerceStep. destruct (declaredTypes s) as [|t ts]; [done|].
  destruct (valueMatchesAnyType _ _); [done|].
  assert (forall ts, first_coercion coerceValue (JArr l) s ts = None) as ->; [|done].
  intros us. induction us as [|u us IH]; simpl; [done|]. unfold coerceToType. by repeat destruct (String.eqb u _).
Qed.

Lemma coerce_object m s : coerceValue (JObj m) s = (JObj (coerceObject coerceValue m s), false).
Proof.
  rewrite coerceValue_equation. unfold coerceStep. destruct (declaredTypes s) as [|t ts]; [done|].
  destruct (valueMatchesAnyType _ _); [done|].
  assert (forall ts, first_coercion coerceValue (JObj m) s ts = None) as ->; [|done].
  intros us. induction us as [|u us IH]; simpl; [done|]. unfold coerceToType. by repeat destruct (String.eqb u _).
Qed.

Lemma coerce_null s : coerceValue JNull s = (JNull, false).
Proof.
  rewrite coerceValue_equation. unfold coerceStep. destruct (declaredTypes s) as [|t ts]; [done|].
  destruct (valueMatchesAnyType _ _); [done|].
  assert (forall ts, first_coercion coerceValue JNull s ts = None) as ->; [|done].
  intros us. induction us as [|u us IH]; simpl; [done|]. unfold coerceToType. by repeat destruct (String.eqb u _).
Qed.

Definition scalar (v : json) : bool := match v with JArr _ | JObj _ => false | _ => true end.

(** A scalar of a declared type stays. *)
Lemma coerce_matching v s t : scalar v = true -> t ∈ declaredTypes s -> valueMatchesType v t = true -> coerceValue v s = (v, false).
Proof.
  intros Hs Ht Hm. rewrite coerceValue_equation. unfold coerceStep.
  assert (valueMatchesAnyType v (declaredTypes s) = true) as Ha.
  { apply existsb_exists. exists t. split; [by apply list_elem_of_In|done]. }
  destruct (declaredTypes s); [by destruct v|]. rewrite Ha. by destruct v.
Qed.

(** The containers a string is read as are themselves coerced. *)
Lemma coerceToType_container v s t c : coerceToType coerceValue v s t = Some c ->
  match c with
  | JArr l => exists l', l = coerceItems coerceValue (Items s) l'
  | JObj m => exists m', m = coerceObject coerceValue m' s
  | _ => True
  end.
Proof.
  unfold coerceToType. intros H. destruct c; try done.
  - repeat (destruct (String.eqb t _); [try (by match type of H with _ <$> ?o = _ => destruct o end); try (by destruct v)|]); try done.
    all: unfold coerceToArray, coerceToObject, coerceToNull in H; destruct v; try done; repeat case_in H; eauto.
  - repeat (destruct (String.eqb t _); [try (by match type of H with _ <$> ?o = _ => destruct o end); try (by destruct v)|]); try done.
    all: unfold coerceToArray, coerceToObject, coerceToNull in H; destruct v; try done; repeat case_in H; eauto.
Qed.

Lemma map_stable {A} (f : A -> A) l : (forall x, f (f x) = f x) -> map f (map f l) = map f l.
Proof. intros H. rewrite map_map. by apply map_ext. Qed.

Lemma coerceObject_stable f s m :
  (forall key sub v, propertySchema s key = Some sub -> fst (f (fst (f v sub)) sub) = fst (f v sub)) ->
  coerceObject f (coerceObject f m s) s = coerceObject f m s.
Proof.
  intros H. unfold coerceObject. apply map_eq. intros k. rewrite !map_lookup_imap.
  destruct (m !! k) as [v|]; simpl; [|done]. destruct (propertySchema s k) eqn:E; [|done]. by erewrite H.
Qed.

Lemma coerceValue_idempotent s : forall v, fst (coerceValue (fst (coerceValue v s)) s) = fst (coerceValue v s).
Proof.
  remember (schema_size s) as n eqn:Hn. revert s Hn.
  induction n as [n IH] using (well_founded_induction lt_wf). intros s ->.
  assert (forall l, coerceItems coerceValue (Items s) (coerceItems coerceValue (Items s) l) = coerceItems coerceValue (Items s) l) as Hi.
  { intros l. unfold coerceItems. destruct (Items s) as [it|] eqn:E; [|done]. apply items_size in E.
    apply map_stable. intros x. by apply (IH (schema_size it)). }
  assert (forall m, coerceObject coerceValue (coerceObject coerceValue m s) s = coerceObject coerceValue m s) as Ho.
  { intros m. apply coerceObject_stable. intros k sub v E%propertySchema_size. by apply (IH (schema_size sub)). }
  intros v. destruct (coerceValue v s) as [c [|]] eqn:E; simpl.
  - pose proof (coerceValue_changed _ _ _ E) as (_ & t & Ht & Hc).
    pose proof (coerceToType_container _ _ _ _ Hc) as Hcont. apply coerceToType_shape in Hc.
    destruct c; simpl in Hc; try (by rewrite coerce_null).
    + subst t. by rewrite (coerce_matching _ _ "boolean").
    + destruct Hc as [-> _]. by rewrite (coerce_matching _ _ "number").
    + destruct Hc.
    + destruct Hc as (-> & _). by rewrite (coerce_matching _ _ "integer").
    + subst t. by rewrite (coerce_matching _ _ "string").
    + destruct Hcont as [l' ->]. by rewrite coerce_array, Hi.
    + destruct Hcont as [m' ->]. by rewrite coerce_object, Ho.
  - destruct v; try (by rewrite coerce_array in E; injection E as <-; rewrite coerce_array, Hi);
      try (by rewrite coerce_object in E; injection E as <-; rewrite coerce_object, Ho).
    all: assert (c = fst (c, false)) as Hc0 by done; rewrite <- E in Hc0; rewrite coerceValue_equation in E;
      unfold coerceStep in E; destruct (declaredTypes s) eqn:?; [injection E as <-; exact (eq_sym Hc0)|];
      destruct (valueMatchesAnyType _ _); [injection E as <-; exact (eq_sym Hc0)|];
      destruct (first_coercion _ _ _ _); [done|injection E as <-; exact (eq_sym Hc0)].
Qed.

(** Coercion is idempotent: coercing a call's arguments again changes
    nothing, at any depth, whatever the schema. *)
Theorem coercion_idempotent toolName arguments schemas :
  coerceArgumentsToSchema toolName (coerceArgumentsToSchema toolName arguments schemas) schemas
  = coerceArgumentsToSchema toolName arguments schemas.
Proof.
  unfold coerceArgumentsToSchema. destruct (schemas !! toolName) as [s|]; [|done].
  apply coerceObject_stable. intros. apply coerceValue_idempotent.
Qed.
End Coerce.

(** ** Errors of a tool server, shortened for the model *)

(** [strings.Index(s, sep)] with the text before the match and after it. *)
Fixpoint cut (sep s : bytes) : option (bytes * bytes) :=
  match trim_prefix sep s with
  | Some rest => Some ([], rest)
  | None => match s with [] => None | c :: s => '(a, b) ← cut sep s; Some (c :: a, b) end
  end.

Fixpoint drop_any (cutset s : bytes) : bytes :=
  match s with
  | c :: s' => if bool_decide (c ∈ cutset) then drop_any cutset s' else s
  | [] => []
  end.

Definition TrimRight (s cutset : bytes) : bytes := rev (drop_any cutset (rev s)).
Definition Trim (s cutset : bytes) : bytes := TrimRight (drop_any cutset s) cutset.

(** The expected and the actual type. *)
Definition parseTypeMismatch (s : bytes) : string * string :=
  match cut (to_bytes "want ") s with
  | None => ("", "")
  | Some (before, after) =>
      let want := of_bytes (Trim (TrimSpaceBytes after) (byte_of 34 :: to_bytes "' .,")) in
      match cut (to_bytes "has type ") before with
      | None => (want, "")
      | Some (_, actual) => (want, of_bytes (TrimRight (TrimSpaceBytes actual) (to_bytes " ,")))
      end
  end.

Section Humanize.
Context (Quote : string -> string) (marshal : object -> option string).

Definition invalid_field (field : string) : string := "Invalid field " +:+ Quote field +:+ ".".

Definition extractValidatorSummary (raw : string) : string :=
  match cut (to_bytes "/properties/") (to_bytes raw) with
  | None => ""
  | Some (_, tail) =>
      match cut (to_bytes ":") tail with
      | None => ""
      | Some (field, rest) =>
          let field := of_bytes (TrimSpaceBytes field) in
          match cut (to_bytes "type:") rest with
          | None => invalid_field field
          | Some (_, mismatch) =>
              let '(expected, actualQuoted) := parseTypeMismatch mismatch in
              if String.eqb expected "" || String.eqb actualQuoted "" then invalid_field field
              else "Field " +:+ Quote field +:+ " must be " +:+ expected +:+ " (received " +:+ actualQuoted
                   +:+ "). Retry with the corrected type."
          end
      end
  end.

(** [err] is the error's text; the preview of a production build is the
    arguments' JSON. *)
Definition humanizeToolArgError (toolName : string) (err : option string) (arguments : object) : string :=
  match err with
  | None => ""
  | Some raw =>
      let summary := extractValidatorSummary raw in
      if String.eqb summary "" then "Tool " +:+ Quote toolName +:+ " rejected the arguments: " +:+ raw
      else "Tool " +:+ Quote toolName +:+ " rejected the arguments. " +:+ summary +:+ " Original args: "
           +:+ default "" (marshal arguments)
  end.
End Humanize.

(** ** Examples

    A decoder of the literals the examples use, and an out-of-range conversion
    that yields the least [int64]. *)

Definition toy_ParseFloat (s : string) : option float64 := if String.eqb s "nan" then Some S754_nan else None.
Definition toy_array (s : string) : option (option (list json)) := if String.eqb s "null" then Some None else None.
Definition toy_object (s : string) : option (option object) :=
  if String.eqb s "{}" then Some (Some {["n" := JStr "3"]}) else None.

Definition toy_coerce : json -> Schema -> json * bool :=
  coerceValue toy_ParseFloat (fun _ => "") (fun _ => int64_min) toy_array toy_object.

Definition typed (t : string) (props : gmap string (option Schema)) (items : option Schema) (mn mx : option float64) : Schema :=
  MkSchema t [] props [] [] [] items mn mx None None None [].

Definition max_results : Schema := typed "integer" ∅ None (Some (f64_of_int 1)) (Some (f64_of_int 50)).
Definition domains : Schema := typed "array" ∅ (Some (typed "string" ∅ None None None)) None None.

Lemma rewritten_value_typed_witness :
  toy_coerce (JStr " 7 ") max_results = (JInt 7, true) /\ in_int64 7 /\ integerSatisfiesSchema toy_ParseFloat 7 max_results = true.
Proof.
  assert (toy_coerce (JStr " 7 ") max_results = (JInt 7, true)) as H by (vm_compute; reflexivity).
  split; [exact H|].
  refine (proj1 (proj2 (proj2 (rewritten_value_typed toy_ParseFloat (fun _ => "") (fun _ => int64_min) toy_array toy_object
    (JStr " 7 ") max_results (JInt 7) _ _ H))) 7 eq_refl).
  - unfold toy_ParseFloat. intros t f. destruct (String.eqb t "nan"); [by intros [= <-]|done].
  - intros f Hf. discriminate Hf.
Defined.

Example out_of_bounds_untouched : toy_coerce (JStr "51") max_results = (JStr "51", false).
Proof. vm_compute. reflexivity. Qed.

Example csv_becomes_array : toy_coerce (JStr "a.org, b.org,") domains = (JArr [JStr "a.org"; JStr "b.org"], true).
Proof. vm_compute. reflexivity. Qed.

Example nested_literal_coerced :
  toy_coerce (JStr "{}") (typed "object" {["n" := Some max_results]} None None None) = (JObj {["n" := JInt 3]}, true).
Proof. vm_compute. reflexivity. Qed.

(** The literal [null] for an array reaches the server as a null. *)
Example null_for_an_array : toy_coerce (JStr "null") domains = (JNull, true) /\ valueMatchesAnyType JNull (declaredTypes domains) = false.
Proof. vm_compute. split; reflexivity. Qed.

(** Not-a-number passes every bound, and has no JSON encoding. *)
Example nan_passes_bounds :
  toy_coerce (JStr "nan") (typed "number" ∅ None (Some (f64_of_int 0)) (Some (f64_of_int 10))) = (JFloat S754_nan, true).
Proof. vm_compute. reflexivity. Qed.

(** A whole number beyond 64 bits given for a string becomes another number. *)
Example large_number_for_a_string :
  toy_coerce (JFloat (f64_of_int (10 ^ 20))) (typed "string" ∅ None None None) = (JStr "-9223372036854775808", true).
Proof. vm_compute. reflexivity. Qed.

(** Enumerations of strings are not consulted. *)
Example string_enum_ignored :
  toy_coerce (JBool true) (MkSchema "string" [] ∅ [] [] [] None None None None None None [JStr "highlights"; JStr "text"])
  = (JStr "true", true).
Proof. vm_compute. reflexivity. Qed.

(** The summary of the validator's type error, quotes written as [|]. *)
Definition bar_quotes (s : string) : string :=
  of_bytes (map (fun c => if Ascii.eqb c "|"%char then byte_of 34 else c) (to_bytes s)).

Example mismatch_summarized :
  extractValidatorSummary (fun s => s)
    (bar_quotes "validating |arguments|: validating root: validating /properties/max_results: type: 1 has type |string|, want |integer|")
  = bar_quotes "Field max_results must be integer (received |string|). Retry with the corrected type.".
Proof. vm_compute. reflexivity. Qed.
