(* ===== verification/Quirks.v ===== *)
(** * Repairs of model output ([toolruntime/quirks.go])

    Control tokens leaked into URLs, and prose after the JSON of a tool call's
    arguments.  Strings hold valid UTF-8, as decoded JSON does; [json.Valid]
    is a parameter. *)

From S2P Require Import Prelude Sha256 Strconv Json CacheSalt Coerce.
From Stdlib Require Import Ascii.
#[local] Open Scope string_scope.
#[local] Open Scope list_scope.
#[local] Open Scope Z_scope.

Definition quirksEnabled : bool := true.

(** ** Control tokens *)

(** A byte that starts a rune of valid UTF-8. *)
Definition starts_rune (c : ascii) : bool := negb ((128 <=? byte_val c) && (byte_val c <? 192)).
Definition rune_count (s : bytes) : Z := Z.of_nat (length (List.filter starts_rune s)).

Definition token_delimiter (c : ascii) : bool := bool_decide (c ∈ ["|"%char; "<"%char; ">"%char]).

(** The longest prefix without a delimiter, and the rest. *)
Fixpoint span_inner (s : bytes) : bytes * bytes :=
  match s with
  | [] => ([], [])
  | c :: s' => if token_delimiter c then ([], s) else let '(a, b) := span_inner s' in (c :: a, b)
  end.

(** [<\|[^|<>]{0,64}\|>?] at the front of [s]: what follows the match. *)
Definition match_token (s : bytes) : option bytes :=
  match trim_prefix (to_bytes "<|") s with
  | None => None
  | Some s =>
      let '(inner, rest) := span_inner s in
      if rune_count inner >? 64 then None
      else match trim_prefix (to_bytes "|") rest with
           | Some rest => Some (TrimPrefix rest (to_bytes ">"))
           | None => None
           end
  end.

(** [ReplaceAllString(s, "")]; a match consumes at least a byte. *)
Fixpoint remove_tokens (fuel : nat) (s : bytes) : bytes :=
  match fuel with
  | O => s
  | S fuel =>
      match match_token s with
      | Some rest => remove_tokens fuel rest
      | None => match s with [] => [] | c :: s => c :: remove_tokens fuel s end
      end
  end.

Definition contains_open (s : string) : bool := match cut (to_bytes "<|") (to_bytes s) with Some _ => true | None => false end.

Definition stripModelControlTokens (s : string) : string :=
  if negb (contains_open s) then s else of_bytes (remove_tokens (length (to_bytes s)) (to_bytes s)).

Definition has_prefix (s p : string) : bool := bool_decide (is_Some (trim_prefix (to_bytes p) (to_bytes s))).

Definition looksLikeLeakedURL (s : string) : bool :=
  if negb (contains_open s) then false
  else let stripped := stripModelControlTokens s in has_prefix stripped "http://" || has_prefix stripped "https://".

Definition urlFieldAllowlist : list string := ["url"; "urls"; "fetch_url"; "page_url"; "href"; "link"].

Definition isURLField (key : string) : bool := bool_decide (of_bytes (to_lower (to_bytes key)) ∈ urlFieldAllowlist).

(** The rewriting of a string at a key. *)
Definition strip_at (urlField : bool) (s : string) : string :=
  if urlField then stripModelControlTokens s
  else if looksLikeLeakedURL s then stripModelControlTokens s else s.

(** The body of the walk, in place; its boolean, whether anything changed, is
    only logged. *)
Definition strip_item (walk : json -> json) (urlField : bool) (item : json) : json :=
  match item with JStr s => JStr (strip_at urlField s) | _ => walk item end.

Definition strip_step (walk : json -> json) (v : json) : json :=
  match v with
  | JObj m =>
      JObj (map_imap (fun key child => Some
        match child with
        | JStr s => JStr (strip_at (isURLField key) s)
        | JArr l => JArr (map (strip_item walk (isURLField key)) l)
        | JObj _ => walk child
        | _ => child
        end) m)
  | JArr l => JArr (map walk l)
  | _ => v
  end.

Fixpoint stripFuel (fuel : nat) (v : json) : json :=
  match fuel with O => v | S fuel => strip_step (stripFuel fuel) v end.

Definition deepStripURLTokens (v : json) : json := stripFuel (json_size v) v.

Definition sanitizeToolCallArguments (args : object) : object :=
  if negb quirksEnabled then args
  else match deepStripURLTokens (JObj args) with JObj args => args | _ => args end.

(** ** Arguments followed by prose *)

Record scanner := MkScanner { depth : Z; inString : bool; escaped : bool }.

(** One byte of the scan: the next state, or the verdict. *)
Definition scan_byte (st : scanner) (c : ascii) : scanner + bool :=
  if escaped st then inl (MkScanner (depth st) (inString st) false)
  else if inString st then
    if Ascii.eqb c (byte_of 92) then inl (MkScanner (depth st) true true)
    else if Ascii.eqb c (byte_of 34) then inl (MkScanner (depth st) false false)
    else inl st
  else if Ascii.eqb c (byte_of 34) then inl (MkScanner (depth st) true false)
  else if Ascii.eqb c (byte_of 123) then inl (MkScanner (depth st + 1) false false)
  else if Ascii.eqb c (byte_of 125) then
    if depth st - 1 =? 0 then inr true
    else if depth st - 1 <? 0 then inr false
    else inl (MkScanner (depth st - 1) false false)
  else inl st.

Fixpoint scan_object (st : scanner) (s : bytes) : option bytes :=
  match s with
  | [] => None
  | c :: s =>
      match scan_byte st c with
      | inl st => rest ← scan_object st s; Some (c :: rest)
      | inr true => Some [c]
      | inr false => None
      end
  end.

Definition extractFirstJSONObject (s : bytes) : option bytes :=
  match s with
  | c :: _ => if Ascii.eqb c (byte_of 123) then scan_object (MkScanner 0 false false) s else None
  | [] => None
  end.

Section Repair.
Context (jsonBytesValid : bytes -> bool).

Definition sanitizeToolCallArgumentsJSON (raw : bytes) : bytes * bool :=
  if negb quirksEnabled then (raw, false)
  else
    let trimmed := TrimSpaceBytes raw in
    match trimmed with
    | [] => (raw, false)
    | _ =>
        if jsonBytesValid trimmed then (raw, false)
        else match extractFirstJSONObject trimmed with Some obj => (obj, true) | None => (raw, false) end
    end.

(** The arguments of one tool call of the history. *)
Definition sanitize_call (rawCall : json) : json * bool :=
  match rawCall with
  | JObj call =>
      match get "function" call with
      | JObj fn =>
          match get "arguments" fn with
          | JStr args =>
              if String.eqb args "" then (rawCall, false)
              else if jsonBytesValid (to_bytes args) then (rawCall, false)
              else
                let '(repaired, ok) := sanitizeToolCallArgumentsJSON (to_bytes args) in
                let args := if ok && jsonBytesValid repaired then of_bytes repaired else "{}" in
                (JObj (<["function" := JObj (<["arguments" := JStr args]> fn)]> call), true)
          | _ => (rawCall, false)
          end
      | _ => (rawCall, false)
      end
  | _ => (rawCall, false)
  end.

Definition sanitize_message (msg : json) : json * Z :=
  match msg with
  | JObj m =>
      if negb (String.eqb (get_string "role" m) "assistant") then (msg, 0)
      else match get "tool_calls" m with
           | JArr calls =>
               let results := map sanitize_call calls in
               (JObj (<["tool_calls" := JArr (map fst results)]> m), Z.of_nat (length (List.filter snd results)))
           | _ => (msg, 0)
           end
  | _ => (msg, 0)
  end.

(** The messages after the repair, and the number of arguments replaced. *)
Definition sanitizeAssistantToolCallsInMessages (messages : list json) : list json * Z :=
  if negb quirksEnabled then (messages, 0)
  else let results := map sanitize_message messages in (map fst results, sum_by snd results).
End Repair.

(** ** The walk reaches every depth *)

Lemma strip_step_ext f g v :
  (forall w, (json_size w < json_size v)%nat -> f w = g w) -> strip_step f v = strip_step g v.
Proof.
  intros H. destruct v as [| | | | | |l|m]; try done; simpl in *; f_equal.
  - apply map_ext_in. intros w Hw%list_elem_of_In%json_size_elem. apply H. lia.
  - apply map_imap_ext. intros k. destruct (m !! k) as [w|] eqn:Ek; simpl; [|done].
    apply json_size_lookup in Ek. destruct w as [| | | | | |l|m']; try done; [|by rewrite H by lia].
    do 2 f_equal. f_equal. apply map_ext_in. intros w Hw%list_elem_of_In%json_size_elem. unfold strip_item.
    destruct w; try done; apply H; simpl in *; lia.
Qed.

Lemma json_size_pos v : (0 < json_size v)%nat.
Proof. destruct v; simpl; lia. Qed.

Lemma stripFuel_enough n : forall v, (json_size v <= n)%nat -> stripFuel n v = deepStripURLTokens v.
Proof.
  induction n as [n IH] using (well_founded_induction lt_wf). intros v Hn. unfold deepStripURLTokens.
  pose proof (json_size_pos v). destruct n as [|n]; [lia|]. destruct (json_size v) as [|k] eqn:Ek; [lia|].
  cbn [stripFuel]. apply strip_step_ext. intros w Hw.
  rewrite (IH n) by lia. destruct (decide (k = n)) as [->|]; [by rewrite (IH n) by lia|]. by rewrite (IH k) by lia.
Qed.

Lemma deepStripURLTokens_equation v : deepStripURLTokens v = strip_step deepStripURLTokens v.
Proof.
  unfold deepStripURLTokens at 1. pose proof (json_size_pos v). destruct (json_size v) as [|k] eqn:Ek; [lia|].
  cbn [stripFuel]. apply strip_step_ext. intros w Hw. apply stripFuel_enough. lia.
Qed.

(** ** Balanced objects *)

Definition quote : ascii := byte_of 34.
Definition backslash : ascii := byte_of 92.
Definition open_brace : ascii := byte_of 123.
Definition close_brace : ascii := byte_of 125.

(** A string literal after its opening quote. *)
Inductive string_body : bytes -> Prop :=
  | string_end : string_body [quote]
  | string_escape c s : string_body s -> string_body (backslash :: c :: s)
  | string_char c s : c <> quote -> c <> backslash -> string_body s -> string_body (c :: s).

(** What an object's braces enclose: literals, objects and other bytes. *)
Inductive content : bytes -> Prop :=
  | content_nil : content []
  | content_char c s : c <> quote -> c <> open_brace -> c <> close_brace -> content s -> content (c :: s)
  | content_string b s : string_body b -> content s -> content (quote :: b ++ s)
  | content_object o s : content o -> content s -> content (open_brace :: o ++ close_brace :: s).

Definition object_text (o : bytes) : bytes := open_brace :: o ++ [close_brace].

Notation scanning d := (MkScanner (Z.of_nat d) false false).

Lemma scan_close d : scan_byte (scanning (S d)) close_brace = match d with O => inr true | _ => inl (scanning d) end.
Proof.
  unfold scan_byte. cbn [escaped inString depth].
  change (Ascii.eqb close_brace (byte_of 34)) with false. change (Ascii.eqb close_brace (byte_of 123)) with false.
  change (Ascii.eqb close_brace (byte_of 125)) with true. cbv iota.
  replace (Z.of_nat (S d) - 1) with (Z.of_nat d) by lia. by destruct d.
Qed.

Lemma scan_string d b t : string_body b ->
  scan_object (MkScanner d true false) (b ++ t) = app b <$> scan_object (MkScanner d false false) t.
Proof.
  induction 1 as [|c s _ IH|c s Hq Hb _ IH]; simpl.
  - by destruct (scan_object _ t).
  - unfold scan_byte. simpl. rewrite IH. by destruct (scan_object _ t).
  - unfold scan_byte. simpl. destruct (Ascii.eqb_spec c (byte_of 92)); [done|].
    destruct (Ascii.eqb_spec c (byte_of 34)); [done|]. rewrite IH. by destruct (scan_object _ t).
Qed.

Lemma scan_content o : content o -> forall d t, (0 < d)%nat ->
  scan_object (scanning d) (o ++ t) = app o <$> scan_object (scanning d) t.
Proof.
  induction 1 as [|c s Hq Ho Hc _ IH|b s Hb _ IH|o s _ IHo _ IHs]; intros d t Hd; simpl.
  - by destruct (scan_object _ t).
  - unfold scan_byte. simpl. destruct (Ascii.eqb_spec c (byte_of 34)); [done|].
    destruct (Ascii.eqb_spec c (byte_of 123)); [done|]. destruct (Ascii.eqb_spec c (byte_of 125)); [done|].
    rewrite IH by done. by destruct (scan_object _ t).
  - rewrite <- app_assoc, scan_string, IH by done. destruct (scan_object _ t); simpl; [by rewrite app_assoc|done].
  - replace (Z.of_nat d + 1) with (Z.of_nat (S d)) by lia.
    rewrite <- app_assoc, IHo by lia. cbn [app scan_object]. rewrite scan_close.
    destruct d; [lia|]. rewrite IHs by done. destruct (scan_object _ t); simpl; [by rewrite <- app_assoc|done].
Qed.

(** Objects whose braces [d] levels deep are still to be closed. *)
Inductive closes : nat -> bytes -> Prop :=
  | closes_last o : content o -> closes 1 (o ++ [close_brace])
  | closes_more o d r : content o -> closes (S d) r -> closes (S (S d)) (o ++ close_brace :: r).

Lemma closes_prepend p d r : (forall o, content o -> content (p ++ o)) -> closes d r -> closes d (p ++ r).
Proof.
  intros Hp. destruct 1 as [o Ho|o d r Ho Hr]; rewrite app_assoc; constructor; auto.
Qed.

(** What a successful scan has read, by the state it started in. *)
Definition read_as (st : scanner) (d : nat) (obj : bytes) : Prop :=
  if escaped st then exists c b r, obj = c :: b ++ r /\ string_body b /\ closes d r
  else if inString st then exists b r, obj = b ++ r /\ string_body b /\ closes d r
  else closes d obj.

Lemma scan_sound s : forall st d obj, depth st = Z.of_nat d -> (0 < d)%nat -> (escaped st = true -> inString st = true) ->
  scan_object st s = Some obj -> read_as st d obj /\ exists trail, s = obj ++ trail.
Proof.
  induction s as [|c s IH]; intros [dp str esc] d obj Hd Hpos Hinv; [done|]. cbn [scan_object]. cbn in Hd, Hinv. subst dp.
  assert (forall st' d', depth st' = Z.of_nat d' -> (0 < d')%nat -> (escaped st' = true -> inString st' = true) ->
    (forall rest, read_as st' d' rest -> read_as (MkScanner (Z.of_nat d) str esc) d (c :: rest)) ->
    (rest ← scan_object st' s; Some (c :: rest)) = Some obj ->
    read_as (MkScanner (Z.of_nat d) str esc) d obj /\ exists trail, c :: s = obj ++ trail) as Hstep.
  { intros st' d' Hd' Hpos' Hi' Hr H. destruct (scan_object st' s) as [rest|] eqn:E; [|done]. injection H as <-.
    destruct (IH _ _ _ Hd' Hpos' Hi' E) as [H1 [trail ->]]. split; [by apply Hr|by exists trail]. }
  unfold scan_byte. cbn [depth inString escaped]. unfold read_as in *. cbn [depth inString escaped] in *. destruct esc.
  { rewrite (Hinv eq_refl) in *. apply (Hstep (MkScanner (Z.of_nat d) true false) d); [done..|].
    intros rest (b & r & -> & Hb & Hc). by exists c, b, r. }
  destruct str.
  { destruct (Ascii.eqb_spec c (byte_of 92)) as [->|Hn]; [|destruct (Ascii.eqb_spec c (byte_of 34)) as [->|Hq]].
    - apply (Hstep (MkScanner (Z.of_nat d) true true) d); [done..|].
      intros rest (c & b & r & -> & Hb & Hc). exists (backslash :: c :: b), r. repeat split; [by constructor|done].
    - apply (Hstep (MkScanner (Z.of_nat d) false false) d); [done..|].
      intros rest Hc. exists [quote], rest. repeat split; [by constructor|done].
    - apply (Hstep (MkScanner (Z.of_nat d) true false) d); [done..|].
      intros rest (b & r & -> & Hb & Hc). exists (c :: b), r. repeat split; [by constructor|done]. }
  destruct (Ascii.eqb_spec c (byte_of 34)) as [->|Hq].
  { apply (Hstep (MkScanner (Z.of_nat d) true false) d); [done..|]. intros rest (b & r & -> & Hb & Hc).
    apply (closes_prepend (quote :: b)); [|done]. intros o Ho. by constructor. }
  destruct (Ascii.eqb_spec c (byte_of 123)) as [->|Ho].
  { apply (Hstep (MkScanner (Z.of_nat d + 1) false false) (S d)); [simpl; lia|lia|done|]. cbn [escaped inString].
    intros rest Hc. inversion Hc as [|o d' r Ho Hr]; subst; [lia|].
    change (byte_of 123 :: o ++ close_brace :: r) with ((open_brace :: o) ++ ([close_brace] ++ r)). rewrite app_assoc.
    apply closes_prepend; [|done]. intros o' Ho'. cbn [app]. rewrite <- app_assoc. by constructor. }
  destruct (Ascii.eqb_spec c (byte_of 125)) as [->|Hc].
  { destruct d as [|[|d]]; [lia| |].
    - simpl. intros [= <-]. split; [apply (closes_last []); constructor|by exists s].
    - replace (Z.of_nat (S (S d)) - 1) with (Z.of_nat (S d)) by lia. cbn [Z.eqb Z.ltb Z.of_nat Z.compare].
      apply (Hstep (MkScanner (Z.of_nat (S d)) false false) (S d)); [done|lia|done|].
      intros rest Hc. apply (closes_more []); [constructor|done]. }
  apply (Hstep (MkScanner (Z.of_nat d) false false) d); [done..|].
  intros rest Hcl. apply (closes_prepend [c]); [|done]. intros o Ho'. by constructor.
Qed.

(** The repair of arguments followed by prose extracts exactly the first
    balanced object, braces in string literals and escapes respected: it
    succeeds precisely on a text that starts with one, whatever follows. *)
Theorem extracts_first_object s obj :
  extractFirstJSONObject s = Some obj <-> exists o trail, content o /\ obj = object_text o /\ s = obj ++ trail.
Proof.
  split.
  - destruct s as [|c s]; simpl; [done|]. destruct (Ascii.eqb_spec c (byte_of 123)) as [->|]; [|done].
    unfold scan_byte. simpl. destruct (scan_object _ s) as [rest|] eqn:E; [|done]. intros [= <-].
    destruct (scan_sound s (MkScanner 1 false false) 1 rest eq_refl ltac:(lia) ltac:(done) E) as [Hc [trail ->]].
    unfold read_as in Hc. simpl in Hc. inversion Hc as [o Ho Heq|]; subst. exists o, trail. split; [done|]. split; done.
  - intros (o & trail & Ho & -> & ->). unfold object_text. cbn [app]. rewrite <- app_assoc. cbn [app extractFirstJSONObject].
    change (Ascii.eqb open_brace (byte_of 123)) with true. cbn [scan_object]. cbv iota.
    change (scan_byte (MkScanner 0 false false) open_brace) with (@inl scanner bool (scanning 1)). cbv iota.
    rewrite scan_content by (done || lia). cbn [scan_object]. rewrite scan_close. done.
Qed.

(** ** The history stays replayable *)

Section History.
Context (jsonBytesValid : bytes -> bool).

(** A tool call whose arguments an upstream server can parse. *)
Definition call_ok (call : json) : bool :=
  match call with
  | JObj c =>
      match get "function" c with
      | JObj fn => match get "arguments" fn with JStr a => String.eqb a "" || jsonBytesValid (to_bytes a) | _ => true end
      | _ => true
      end
  | _ => true
  end.

Definition message_ok (msg : json) : bool :=
  match msg with
  | JObj m =>
      negb (String.eqb (get_string "role" m) "assistant")
      || match get "tool_calls" m with JArr calls => forallb call_ok calls | _ => true end
  | _ => true
  end.

Lemma sanitize_call_clean call : call_ok call = true -> sanitize_call jsonBytesValid call = (call, false).
Proof.
  unfold call_ok, sanitize_call. destruct call as [| | | | | | |c]; try done.
  destruct (get "function" c) as [| | | | | | |fn]; try done. destruct (get "arguments" fn) as [| | | | |a| |]; try done.
  destruct (String.eqb a ""); [done|]. simpl. by intros ->.
Qed.

Lemma sanitize_call_dirty call : call_ok call = false -> snd (sanitize_call jsonBytesValid call) = true.
Proof.
  unfold call_ok, sanitize_call. destruct call as [| | | | | | |c]; try done.
  destruct (get "function" c) as [| | | | | | |fn]; try done. destruct (get "arguments" fn) as [| | | | |a| |]; try done.
  destruct (String.eqb a ""); [done|]. simpl. intros ->. by destruct (sanitizeToolCallArgumentsJSON _ _).
Qed.

Lemma sanitize_call_ok call : jsonBytesValid (to_bytes "{}") = true -> call_ok (fst (sanitize_call jsonBytesValid call)) = true.
Proof.
  intros Hempty. destruct (call_ok call) eqn:E; [by rewrite sanitize_call_clean|].
  unfold call_ok, sanitize_call in *. destruct call as [| | | | | | |c]; try done.
  destruct (get "function" c) as [| | | | | | |fn]; try done. destruct (get "arguments" fn) as [| | | | |a| |]; try done.
  destruct (String.eqb a ""); [done|]. simpl in E. rewrite E.
  destruct (sanitizeToolCallArgumentsJSON _ _) as [r ok]. cbn [fst].
  rewrite !get_insert.
  destruct (ok && jsonBytesValid r) eqn:Er; [|by rewrite Hempty]. bool_simp. rewrite to_of_bytes.
  by match goal with H : jsonBytesValid r = true |- _ => rewrite H, orb_true_r end.
Qed.

Lemma sanitize_calls_clean calls : forallb call_ok calls = true ->
  map (sanitize_call jsonBytesValid) calls = map (fun c => (c, false)) calls.
Proof.
  induction calls as [|c calls IH]; simpl; [done|]. intros [? ?]%andb_true_iff. by rewrite sanitize_call_clean, IH.
Qed.

Lemma sanitize_message_clean msg : message_ok msg = true -> sanitize_message jsonBytesValid msg = (msg, 0).
Proof.
  unfold message_ok, sanitize_message. destruct msg as [| | | | | | |m]; try done.
  destruct (String.eqb _ _); [simpl|done]. destruct (get "tool_calls" m) as [| | | | | |calls|] eqn:E; try done.
  intros H. rewrite sanitize_calls_clean by done. rewrite !map_map. simpl. rewrite map_id.
  assert (forall l : list json, List.filter snd (map (fun c => (c, false)) l) = []) as -> by (induction l; done).
  rewrite insert_id; [done|]. unfold get in E. destruct (m !! "tool_calls"); simpl in E; by simplify_eq.
Qed.

Lemma sanitize_message_ok msg : jsonBytesValid (to_bytes "{}") = true -> message_ok (fst (sanitize_message jsonBytesValid msg)) = true.
Proof.
  intros He. unfold message_ok, sanitize_message. destruct msg as [| | | | | | |m]; try done.
  destruct (String.eqb (get_string "role" m) "assistant") eqn:Er; simpl; [|by rewrite Er].
  destruct (get "tool_calls" m) as [| | | | | |calls|] eqn:E; cbn [fst]; try (by rewrite E, orb_true_r).
  rewrite get_insert.
  apply orb_true_iff. right. apply forallb_forall. intros c (? & <- & (call & <- & _)%in_map_iff)%in_map_iff.
  by apply sanitize_call_ok.
Qed.

Lemma sanitize_message_count msg : 0 <= snd (sanitize_message jsonBytesValid msg).
Proof. unfold sanitize_message. repeat case_match; simpl; lia. Qed.

(** One malformed frame cannot poison the history: after the repair every
    assistant tool call's arguments are empty or valid JSON, a valid history is
    left alone, and repairing twice is repairing once. *)
Theorem history_arguments_valid messages :
  jsonBytesValid (to_bytes "{}") = true ->
  let '(repaired, changed) := sanitizeAssistantToolCallsInMessages jsonBytesValid messages in
  forallb message_ok repaired = true
  /\ (forallb message_ok messages = true -> repaired = messages /\ changed = 0)
  /\ sanitizeAssistantToolCallsInMessages jsonBytesValid repaired = (repaired, 0).
Proof.
  intros He. unfold sanitizeAssistantToolCallsInMessages. cbn [quirksEnabled negb].
  assert (forall ms, forallb message_ok ms = true ->
    map (sanitize_message jsonBytesValid) ms = map (fun m => (m, 0)) ms) as Hclean.
  { induction ms as [|m ms IH]; simpl; [done|]. intros [? ?]%andb_true_iff. by rewrite sanitize_message_clean, IH. }
  assert (forall ms : list json, map fst (map (fun m => (m, 0)) ms) = ms /\ sum_by snd (map (fun m => (m, 0)) ms) = 0) as Hz.
  { induction ms as [|m ms [IH1 IH2]]; simpl; [done|]. by rewrite IH1, IH2. }
  assert (forallb message_ok (map fst (map (sanitize_message jsonBytesValid) messages)) = true) as Hok.
  { apply forallb_forall. intros m (? & <- & (msg & <- & _)%in_map_iff)%in_map_iff. by apply sanitize_message_ok. }
  split; [done|]. split.
  - intros H. rewrite Hclean by done. apply Hz.
  - rewrite (Hclean _ Hok). by destruct (Hz (map fst (map (sanitize_message jsonBytesValid) messages))) as [-> ->].
Qed.
End History.

(** ** Examples *)

Definition only_empty (b : bytes) : bool := bool_decide (b = to_bytes "{}").

Definition bad_call : object := {["function" := JObj {["name" := JStr "f"; "arguments" := JStr "oops"]}]}.

Definition bad_history : list json := [JObj {["role" := JStr "assistant"; "tool_calls" := JArr [JObj bad_call]]}].

Lemma history_arguments_valid_witness :
  forallb (message_ok only_empty) (fst (sanitizeAssistantToolCallsInMessages only_empty bad_history)) = true
  /\ snd (sanitizeAssistantToolCallsInMessages only_empty bad_history) = 1.
Proof.
  pose proof (history_arguments_valid only_empty bad_history ltac:(reflexivity)) as H.
  assert (snd (sanitizeAssistantToolCallsInMessages only_empty bad_history) = 1) as Hc by (vm_compute; reflexivity).
  destruct (sanitizeAssistantToolCallsInMessages only_empty bad_history) as [r n]. split; [exact (proj1 H)|exact Hc].
Defined.

Example prose_after_arguments :
  sanitizeToolCallArgumentsJSON (fun _ => false) (to_bytes "{'a':{}}Now I will } {")
  = (to_bytes "{'a':{}}", true).
Proof. vm_compute. reflexivity. Qed.

Example leaked_tokens_removed :
  stripModelControlTokens "https://a.org<|tool_call_argument_begin|>/x<|'|" = "https://a.org/x".
Proof. vm_compute. reflexivity. Qed.

(** Removing a token can put the pieces of another together. *)
Example stripping_twice_differs :
  stripModelControlTokens "<<|a|>|b|>" = "<|b|>" /\ stripModelControlTokens (stripModelControlTokens "<<|a|>|b|>") = "".
Proof. vm_compute. split; reflexivity. Qed.
