(* ===== verification/WebSearch.v ===== *)
(** * Web search options ([toolruntime/options.go], [websearch_options.go],
      [router_tool_names.go], [profile.go])

    The options a client sends about the built-in search tool: how they are
    lifted off the body, parsed, and merged into the calls a model makes.

    Unicode case mapping, [strconv.ParseFloat] and package [time] are
    parameters.  A call's arguments are [None] when they are a nil map. *)

From S2P Require Import Prelude Float64 Sha256 Strconv Json CacheSalt Errors InputTokens.
#[local] Open Scope string_scope.
#[local] Open Scope list_scope.
#[local] Open Scope Z_scope.

(** ** Profiles and names *)

Definition routerSearchToolName := "router_search".
Definition routerFetchToolName := "router_fetch".
Definition mcpSearchToolName := "search".
Definition mcpFetchToolName := "fetch".

Record Profile := MkProfile { p_Name : string; ToolServerModel : string }.

Definition WebSearch : Profile := MkProfile "web_search" "websearch".

Record RouterOptions := MkRouterOptions { ro_WebSearch : option (option object); PIICheck : bool }.

Record Descriptor := MkDescriptor {
  d_Profile : Profile;
  ResponsesToolType : string;
  OptionsActive : RouterOptions -> bool;
  Aliases : gmap string string
}.

Definition profiles : list Descriptor :=
  [MkDescriptor WebSearch "web_search" (fun o => bool_decide (is_Some (ro_WebSearch o)))
     {[mcpSearchToolName := routerSearchToolName; mcpFetchToolName := routerFetchToolName]}].

Definition descriptorForProfile (name : string) : option Descriptor :=
  head (List.filter (fun d => String.eqb (p_Name (d_Profile d)) name) profiles).

Definition outwardRouterToolName (profileName toolName : string) : string :=
  match descriptorForProfile profileName with
  | Some d => default toolName (Aliases d !! toolName)
  | None => toolName
  end.

(** The first alias of the first profile that has the name; a profile's aliases
    are distinct, so the order of its map is immaterial. *)
Definition dispatchRouterToolName (toolName : string) : string :=
  default toolName (head (flat_map (fun d =>
    map fst (List.filter (fun a => String.eqb (snd a) toolName) (map_to_list (Aliases d)))) profiles)).

Definition isRouterSearchToolName (toolName : string) : bool := String.eqb (dispatchRouterToolName toolName) mcpSearchToolName.
Definition isRouterFetchToolName (toolName : string) : bool := String.eqb (dispatchRouterToolName toolName) mcpFetchToolName.

(** [stringValue(v)] *)
Definition stringValue (v : json) : string := default "" (as_string v).

Definition responsesToolTypePresent (body : object) (toolType : string) : bool :=
  match get "tools" body with
  | JArr tools => existsb (fun t => match t with JObj m => String.eqb (get_string "type" m) toolType | _ => String.eqb "" toolType end) tools
  | _ => false
  end.

Definition activated (path : string) (opts : RouterOptions) (body : object) (d : Descriptor) : bool :=
  (String.eqb path "/v1/chat/completions" && OptionsActive d opts)
  || (String.eqb path "/v1/responses" && negb (String.eqb (ResponsesToolType d) "")
      && responsesToolTypePresent body (ResponsesToolType d)).

(** Each active profile once. *)
Definition DetectProfiles (path : string) (opts : RouterOptions) (body : object) : list Profile :=
  foldl (fun active d =>
    if activated path opts body d && negb (existsb (fun p => String.eqb (p_Name p) (p_Name (d_Profile d))) active)
    then active ++ [d_Profile d] else active) [] profiles.

(** ** Lifting the options off the body *)

Definition fieldWebSearchOptions := "web_search_options".
Definition fieldPIICheckOptions := "pii_check_options".
Definition fieldExternalWebAccess := "external_web_access".

Definition optionsParamError (param detail : string) : APIError :=
  WithMessage (WithParam ErrInvalidRequest param) (ErrMsgInvalidParam param detail).

(** [None]: valid. A nil settings map has no fields. *)
Definition validateExternalWebAccess (settings : object) (param : string) : option APIError :=
  match get fieldExternalWebAccess settings with
  | JNull | JBool _ => None
  | _ => Some (optionsParamError (param +:+ "." +:+ fieldExternalWebAccess) "must be a boolean")
  end.

Definition tool_object (tool : json) : object := default ∅ (as_object tool).

Fixpoint validate_tools (i : Z) (tools : list json) : option APIError :=
  match tools with
  | [] => None
  | tool :: tools =>
      if negb (String.eqb (get_string "type" (tool_object tool)) "web_search") then validate_tools (i + 1) tools
      else match validateExternalWebAccess (tool_object tool) ("tools[" +:+ FormatInt i +:+ "]") with
           | Some e => Some e
           | None => validate_tools (i + 1) tools
           end
  end.

Definition validateWebSearchTools (body : object) : option APIError :=
  validate_tools 0 (default [] (as_array (get "tools" body))).

(** The rest of the lifting: the tools' settings and the PII options. *)
Definition lift_pii (webSearch : option (option object)) (body : object) : APIError + (RouterOptions * object) :=
  match validateWebSearchTools body with
  | Some e => inl e
  | None =>
      match body !! fieldPIICheckOptions with
      | Some _ => inr (MkRouterOptions webSearch true, delete fieldPIICheckOptions body)
      | None => inr (MkRouterOptions webSearch false, body)
      end
  end.

Definition ExtractRouterOptions (body : object) : APIError + (RouterOptions * object) :=
  let lifted : APIError + (option (option object) * object) :=
    match body !! fieldWebSearchOptions with
    | Some raw =>
        match validateExternalWebAccess (tool_object raw) fieldWebSearchOptions with
        | Some e => inl e
        | None => inr (Some (as_object raw), delete fieldWebSearchOptions body)
        end
    | None => inr (None, body)
    end in
  match lifted with
  | inl e => inl e
  | inr (webSearch, body) => lift_pii webSearch body
  end.

(** ** Options *)

Definition searchContextResultsLow := 10.
Definition searchContextResultsMedium := 20.
Definition searchContextResultsHigh := 30.
Definition searchContextCharsLow := 500.
Definition searchContextCharsMedium := 700.
Definition searchContextCharsHigh := 2000.
Definition contentModeHighlights := "highlights".
Definition contentModeText := "text".
Definition maxAgeHoursCacheOnly := -1.

Record webSearchOptions := MkOptions {
  userLocationCountry : string;
  allowedDomains : list string;
  excludedDomains : list string;
  searchContextSize : string;
  contentMode : string;
  maxContentChars : Z;
  category : string;
  startPublishedDate : string;
  endPublishedDate : string;
  maxAgeHours : option Z;
  piiCheck : option bool;
  injectionCheck : option bool;
  includeActionSources : bool;
  cacheOnly : bool
}.

Definition noOptions : webSearchOptions := MkOptions "" [] [] "" "" 0 "" "" "" None None None false false.

Section Options.
Context (ToLower ToUpper : string -> string) (ParseFloat : string -> option float64) (int_out_of_range : float64 -> Z).
Context (parse_day parse_rfc3339 : string -> option Z) (format_rfc3339 : Z -> string).

(** *** Tiers *)

Definition normalizedContextSize (o : webSearchOptions) : string := ToLower (TrimSpace (searchContextSize o)).

(** The value of a tier, or that of none. *)
Definition by_tier {A} (o : webSearchOptions) (low medium high none : A) : A :=
  let size := normalizedContextSize o in
  if String.eqb size "low" then low
  else if String.eqb size "medium" then medium
  else if String.eqb size "high" then high else none.

Definition maxResults (o : webSearchOptions) : Z :=
  by_tier o searchContextResultsLow searchContextResultsMedium searchContextResultsHigh 0.
Definition tierContentMode (o : webSearchOptions) : string :=
  by_tier o contentModeHighlights contentModeHighlights contentModeText "".
Definition tierMaxContentChars (o : webSearchOptions) : Z :=
  by_tier o searchContextCharsLow searchContextCharsMedium searchContextCharsHigh 0.

Definition effectiveContentMode (o : webSearchOptions) : string :=
  let mode := ToLower (TrimSpace (contentMode o)) in if negb (String.eqb mode "") then mode else tierContentMode o.
Definition effectiveMaxContentChars (o : webSearchOptions) : Z :=
  if maxContentChars o >? 0 then maxContentChars o else tierMaxContentChars o.

(** *** Merging into a call *)

Definition toAnySlice (values : list string) : json := JArr (map JStr values).

(** [if _, set := arguments[k]; !set { arguments[k] = v }] *)
Definition set_default (k : string) (v : option json) (arguments : object) : object :=
  match v with
  | Some v => match arguments !! k with Some _ => arguments | None => <[k := v]> arguments end
  | None => arguments
  end.

Definition positive_int (n : Z) : option json := if n >? 0 then Some (JInt n) else None.
Definition nonempty (s : string) : option json := if String.eqb s "" then None else Some (JStr s).
Definition nonempty_list (l : list string) : option json := match l with [] => None | _ => Some (toAnySlice l) end.

Definition applyToSearchArgs (o : webSearchOptions) (arguments : option object) : option object :=
  match arguments with
  | None => None
  | Some arguments =>
      let arguments := set_default "max_results" (positive_int (maxResults o)) arguments in
      let arguments := set_default "content_mode" (nonempty (effectiveContentMode o)) arguments in
      let arguments := set_default "max_content_chars" (positive_int (effectiveMaxContentChars o)) arguments in
      let arguments := set_default "user_location_country" (nonempty (userLocationCountry o)) arguments in
      let arguments := set_default "allowed_domains" (nonempty_list (allowedDomains o)) arguments in
      let arguments := set_default "excluded_domains" (nonempty_list (excludedDomains o)) arguments in
      let arguments := set_default "category" (nonempty (category o)) arguments in
      let arguments := set_default "start_published_date" (nonempty (startPublishedDate o)) arguments in
      let arguments := set_default "end_published_date" (nonempty (endPublishedDate o)) arguments in
      Some (if cacheOnly o then <["max_age_hours" := JInt maxAgeHoursCacheOnly]> arguments
            else set_default "max_age_hours" (JInt <$> maxAgeHours o) arguments)
  end.

Definition disabledRouterTools (o : webSearchOptions) : list string :=
  if cacheOnly o then [routerFetchToolName] else [].

Definition applyToFetchArgs (o : webSearchOptions) (arguments : option object) : option object :=
  match arguments with
  | None => None
  | Some arguments =>
      Some (set_default "excluded_domains" (nonempty_list (excludedDomains o))
        (set_default "allowed_domains" (nonempty_list (allowedDomains o)) arguments))
  end.

Definition applyWebSearchOptionsToToolCall (toolName : string) (arguments : option object) (o : webSearchOptions) : option object :=
  if isRouterSearchToolName toolName then applyToSearchArgs o arguments
  else if isRouterFetchToolName toolName then applyToFetchArgs o arguments
  else arguments.

(** *** Parsing *)

Definition includeActionSourcesFlag := "web_search_call.action.sources".

Definition parseIncludeActionSources (body : object) : bool :=
  match get "include" body with
  | JArr raw => existsb (fun item => String.eqb (stringValue item) includeActionSourcesFlag) raw
  | _ => false
  end.

Definition stripRouterOwnedIncludes (body : object) : object :=
  match get "include" body with
  | JArr raw =>
      match List.filter (fun item => negb (String.eqb (stringValue item) includeActionSourcesFlag)) raw with
      | [] => delete "include" body
      | filtered => <["include" := JArr filtered]> body
      end
  | _ => body
  end.

Definition parseSafetyOptIn (raw : json) : option bool := if is_nil raw then None else Some true.

Record safetyOptIns := MkSafety { pii : option bool; injection : option bool }.

Definition opted_in (routerOpts : option RouterOptions) : option bool :=
  match routerOpts with Some o => if PIICheck o then Some true else None | None => None end.

Definition parseSafetyOptIns (routerOpts : option RouterOptions) (body : object) : safetyOptIns :=
  MkSafety (opted_in routerOpts) (parseSafetyOptIn (get "prompt_injection_check_options" body)).

Definition extractUserLocationCountry (raw : json) : string :=
  let loc := tool_object raw in
  if (size loc =? 0)%nat then ""
  else
    let direct := ToUpper (TrimSpace (get_string "country" loc)) in
    match get "approximate" loc with
    | JObj approx =>
        let country := TrimSpace (get_string "country" approx) in
        if String.eqb country "" then direct else ToUpper country
    | _ => direct
    end.

(** Lower-cased, trimmed, without empty ones and repetitions. *)
Fixpoint domains_from (seen : list string) (raw : list json) : list string :=
  match raw with
  | [] => []
  | item :: raw =>
      let domain := ToLower (TrimSpace (stringValue item)) in
      if String.eqb domain "" || bool_decide (domain ∈ seen) then domains_from seen raw
      else domain :: domains_from (domain :: seen) raw
  end.

Definition extractDomainListFromFilterMap (filters : object) (key : string) : list string :=
  match get key filters with JArr raw => domains_from [] raw | _ => [] end.

Definition extractAllowedDomains (raw : json) : list string :=
  match raw with JObj filters => extractDomainListFromFilterMap filters "allowed_domains" | _ => [] end.
Definition extractExcludedDomains (raw : json) : list string :=
  match raw with JObj filters => extractDomainListFromFilterMap filters "excluded_domains" | _ => [] end.

Definition int_of_whole_float (v : float64) : option Z :=
  if IsNaN v || IsInf v then None
  else if negb (is_integral v) then None
  else if f64_lt v (f64_of_int int64_min) || f64_le (SFopp (f64_of_int int64_min)) v then None
  else Some (int_of_f64 int_out_of_range v).

Definition intValue (raw : json) : option Z :=
  match raw with
  | JInt n => Some n
  | JFloat v => int_of_whole_float v
  | JNumber lit => match ParseFloat lit with Some v => int_of_whole_float v | None => None end
  | JStr s => let trimmed := TrimSpace s in if String.eqb trimmed "" then None else ParseInt (to_bytes trimmed)
  | _ => None
  end.

Definition normalizePublishedDate (raw : json) : string :=
  let str := TrimSpace (stringValue raw) in
  if String.eqb str "" then ""
  else match parse_day str with
       | Some t => format_rfc3339 t
       | None => match parse_rfc3339 str with Some t => format_rfc3339 t | None => "" end
       end.

(** A new value unless it is empty. *)
Definition override (old new : string) : string := if String.eqb new "" then old else new.

Definition applyAdvancedSearchFields (o : webSearchOptions) (raw : object) : webSearchOptions :=
  MkOptions (userLocationCountry o) (allowedDomains o) (excludedDomains o) (searchContextSize o)
    (override (contentMode o) (TrimSpace (get_string "content_mode" raw)))
    (match intValue (get "max_content_chars" raw) with Some n => if n >? 0 then n else maxContentChars o | None => maxContentChars o end)
    (override (category o) (TrimSpace (get_string "category" raw)))
    (override (startPublishedDate o) (normalizePublishedDate (get "start_published_date" raw)))
    (override (endPublishedDate o) (normalizePublishedDate (get "end_published_date" raw)))
    (match intValue (get "max_age_hours" raw) with Some n => Some n | None => maxAgeHours o end)
    (piiCheck o) (injectionCheck o) (includeActionSources o)
    (match get fieldExternalWebAccess raw with JBool false => true | _ => cacheOnly o end).

(** The fields of a block: a chat body's or a tool entry's. *)
Definition options_of_block (raw : object) : webSearchOptions :=
  applyAdvancedSearchFields
    (MkOptions (extractUserLocationCountry (get "user_location" raw)) (extractAllowedDomains (get "filters" raw))
       (extractExcludedDomains (get "filters" raw)) (get_string "search_context_size" raw)
       "" 0 "" "" "" None None None false false) raw.

Definition with_request_flags (routerOpts : option RouterOptions) (body : object) (o : webSearchOptions) : webSearchOptions :=
  MkOptions (userLocationCountry o) (allowedDomains o) (excludedDomains o) (searchContextSize o) (contentMode o)
    (maxContentChars o) (category o) (startPublishedDate o) (endPublishedDate o) (maxAgeHours o)
    (opted_in routerOpts) (parseSafetyOptIn (get "prompt_injection_check_options" body)) (parseIncludeActionSources body)
    (cacheOnly o).

(** The top-level filters stand in for empty lists. *)
Definition with_fallback_filters (body : object) (o : webSearchOptions) : webSearchOptions :=
  match get "filters" body with
  | JObj filters =>
      let fallback l key := match l with [] => extractDomainListFromFilterMap filters key | _ => l end in
      MkOptions (userLocationCountry o) (fallback (allowedDomains o) "allowed_domains")
        (fallback (excludedDomains o) "excluded_domains") (searchContextSize o) (contentMode o)
        (maxContentChars o) (category o) (startPublishedDate o) (endPublishedDate o) (maxAgeHours o)
        (piiCheck o) (injectionCheck o) (includeActionSources o) (cacheOnly o)
  | _ => o
  end.

Definition parseChatWebSearchOptions (routerOpts : option RouterOptions) (body : object) : webSearchOptions :=
  let o := match ro_WebSearch <$> routerOpts with Some (Some (Some raw)) => options_of_block raw | _ => noOptions end in
  with_request_flags routerOpts body (with_fallback_filters body o).

(** The first [web_search] tool. *)
Definition parseResponsesWebSearchOptions (routerOpts : option RouterOptions) (body : object) : webSearchOptions :=
  match head (List.filter (fun t => String.eqb (get_string "type" (tool_object t)) "web_search")
                (default [] (as_array (get "tools" body)))) with
  | Some tool => with_request_flags routerOpts body (options_of_block (tool_object tool))
  | None => noOptions
  end.

Definition parseWebSearchOptions (path : string) (routerOpts : option RouterOptions) (body : object) : webSearchOptions :=
  if String.eqb path "/v1/responses" then parseResponsesWebSearchOptions routerOpts body
  else parseChatWebSearchOptions routerOpts body.

(** ** Lemmas *)

Lemma set_default_lookup k v m k' :
  set_default k v m !! k' =
    match m !! k' with Some w => Some w | None => if String.eqb k k' then v else None end.
Proof.
  unfold set_default. destruct v as [v|]; [|by destruct (m !! k'), (String.eqb k k')].
  destruct (String.eqb_spec k k') as [->|Hne].
  - destruct (m !! k') eqn:E; [done|]. by rewrite lookup_insert_eq.
  - destruct (m !! k); [by destruct (m !! k')|]. rewrite lookup_insert_ne by done. by destruct (m !! k').
Qed.

(** What the options say about an argument of a search. *)
Definition search_default (o : webSearchOptions) (k : string) : option json :=
  if String.eqb k "max_results" then positive_int (maxResults o)
  else if String.eqb k "content_mode" then nonempty (effectiveContentMode o)
  else if String.eqb k "max_content_chars" then positive_int (effectiveMaxContentChars o)
  else if String.eqb k "user_location_country" then nonempty (userLocationCountry o)
  else if String.eqb k "allowed_domains" then nonempty_list (allowedDomains o)
  else if String.eqb k "excluded_domains" then nonempty_list (excludedDomains o)
  else if String.eqb k "category" then nonempty (category o)
  else if String.eqb k "start_published_date" then nonempty (startPublishedDate o)
  else if String.eqb k "end_published_date" then nonempty (endPublishedDate o)
  else if String.eqb k "max_age_hours" then JInt <$> maxAgeHours o
  else None.

(** Merging the caller's options into a search leaves every argument the
    model set as it is and fills in exactly the arguments the options define,
    except that a cache-only request fixes the age limit whatever the model or
    the caller say. *)
Theorem search_args_merged o m :
  exists r, applyToSearchArgs o (Some m) = Some r /\
  forall k, r !! k =
    if String.eqb k "max_age_hours" && cacheOnly o then Some (JInt maxAgeHoursCacheOnly)
    else match m !! k with Some v => Some v | None => search_default o k end.
Proof.
  eexists. split; [done|]. intros k. unfold search_default.
  assert (forall a : option json, match a with Some w => Some w | None => None end = a) as Hid by (by intros []).
  destruct (cacheOnly o); simpl; [destruct (String.eqb_spec k "max_age_hours") as [->|Hne]; [by rewrite lookup_insert_eq|];
    rewrite lookup_insert_ne by done|rewrite andb_false_r]; simpl;
    rewrite !set_default_lookup, !(String.eqb_sym _ k); (destruct (m !! k); [done|]);
    
    repeat match goal with |- context [String.eqb k ?s] => destruct (String.eqb_spec k s) as [->|?]; [simpl; by rewrite ?Hid|] end; done.
Qed.

Lemma domains_from_spec seen raw :
  NoDup (domains_from seen raw) /\ (forall d, d ∈ domains_from seen raw -> d <> "" /\ d ∉ seen).
Proof.
  revert seen. induction raw as [|item raw IH]; intros seen; simpl; [split; [constructor|set_solver]|].
  destruct (String.eqb_spec (ToLower (TrimSpace (stringValue item))) "") as [|Hne]; simpl; [apply IH|].
  case_bool_decide as Hin; [apply IH|]. destruct (IH (ToLower (TrimSpace (stringValue item)) :: seen)) as [Hnd Hd].
  split; [constructor; [intros Hd'%Hd; set_solver|done]|]. intros d [->|Hd'%Hd]%elem_of_cons; set_solver.
Qed.

(** A recognized integer fits, even out of a float. *)
Lemma intValue_range raw n : (forall z, raw = JInt z -> in_int64 z) -> (forall v, in_int64 (int_out_of_range v)) ->
  intValue raw = Some n -> in_int64 n.
Proof.
  intros Hz Ho. assert (forall v m, int_of_whole_float v = Some m -> in_int64 m) as Hf.
  { intros v m. unfold int_of_whole_float. repeat case_match; try done. intros [= <-]. unfold int_of_f64.
    destruct v; try apply Ho; [done|]. unfold clip_int. destruct (_ && _) eqn:E; [|apply Ho]. bool_simp.
    unfold in_int64, int64_min, int64_max in *. lia. }
  unfold intValue. destruct raw; try done.
  - apply Hf.
  - destruct (ParseFloat lit); [apply Hf|done].
  - intros [= <-]. by apply Hz.
  - destruct (String.eqb _ _); [done|]. apply ParseInt_range.
Qed.
End Options.

(** ** The body after lifting *)

Definition well_formed_access (settings : object) : bool :=
  match get fieldExternalWebAccess settings with JNull | JBool _ => true | _ => false end.

(** The settings of the web search tools. *)
Definition web_search_tools (body : object) : list json :=
  List.filter (fun t => String.eqb (get_string "type" (tool_object t)) "web_search") (default [] (as_array (get "tools" body))).

Definition tools_well_formed (body : object) : bool :=
  forallb (fun t => well_formed_access (tool_object t)) (web_search_tools body).

Lemma validate_tools_spec tools : forall i,
  let ok := forallb (fun t => well_formed_access (tool_object t))
    (List.filter (fun t => String.eqb (get_string "type" (tool_object t)) "web_search") tools) in
  match validate_tools i tools with None => ok = true | Some e => ok = false /\ Status e = 400 end.
Proof.
  induction tools as [|t tools IH]; intros i; [done|]. cbn [validate_tools List.filter].
  destruct (String.eqb _ _); simpl; [|apply IH]. unfold validateExternalWebAccess, well_formed_access at 1 3.
  destruct (get fieldExternalWebAccess _); simpl; try done; apply IH.
Qed.

Lemma lift_pii_spec ws body :
  match lift_pii ws body with
  | inl e => tools_well_formed body = false /\ Status e = 400
  | inr (opts, forwarded) =>
      tools_well_formed body = true /\ forwarded = delete fieldPIICheckOptions body /\ ro_WebSearch opts = ws
      /\ PIICheck opts = bool_decide (is_Some (body !! fieldPIICheckOptions))
  end.
Proof.
  unfold lift_pii, validateWebSearchTools.
  pose proof (validate_tools_spec (default [] (as_array (get "tools" body))) 0) as H. cbv zeta in H.
  destruct (validate_tools _ _); [done|]. destruct (body !! fieldPIICheckOptions) eqn:E; [done|].
  split; [done|]. split; [|done]. by rewrite delete_id.
Qed.

(** Lifting the router's options off a body either refuses it, exactly when
    some web search setting holds an opt-out of live access that is not a
    boolean, or forwards it without the router's fields and otherwise
    unchanged, the options telling what they were. *)
Theorem router_options_lifted body :
  let well_formed := well_formed_access (tool_object (get fieldWebSearchOptions body)) && tools_well_formed body in
  match ExtractRouterOptions body with
  | inl e => well_formed = false /\ Status e = 400
  | inr (opts, forwarded) =>
      well_formed = true
      /\ forwarded = delete fieldPIICheckOptions (delete fieldWebSearchOptions body)
      /\ ro_WebSearch opts = as_object <$> body !! fieldWebSearchOptions
      /\ PIICheck opts = bool_decide (is_Some (body !! fieldPIICheckOptions))
  end.
Proof.
  unfold ExtractRouterOptions. cbv zeta.
  assert (get fieldWebSearchOptions body = default JNull (body !! fieldWebSearchOptions)) as -> by done.
  destruct (body !! fieldWebSearchOptions) as [raw|] eqn:E; simpl.
  - unfold validateExternalWebAccess. destruct (well_formed_access (tool_object raw)) eqn:Ew; unfold well_formed_access in Ew;
      destruct (get fieldExternalWebAccess (tool_object raw)); try done; simpl.
    all: pose proof (lift_pii_spec (Some (as_object raw)) (delete fieldWebSearchOptions body)) as H;
      unfold tools_well_formed, web_search_tools, get in *; rewrite !lookup_delete_ne in H by done; done.
  - rewrite (delete_id body fieldWebSearchOptions) by done. apply lift_pii_spec.
Qed.
