(* ===== verification/Session.v ===== *)
(** * Tool sessions and calls ([toolruntime/session_registry.go], [tool_call.go],
      the call preparation of [tool_loop.go] and [tool_progress.go])

    The registry that routes a router-owned tool call to the session whose
    server advertised the tool, the calls read off a model's answer, and what a
    call goes through before it is dispatched.

    Dialing a profile and listing a session's tools are parameters; a session
    is a number. *)

From S2P Require Import Prelude Float64 Sha256 Json CacheSalt Coerce Quirks Errors InputTokens WebSearch.
#[local] Open Scope string_scope.
#[local] Open Scope list_scope.
#[local] Open Scope Z_scope.

(** The fields of [mcp.Tool] the router reads. *)
Record Tool := MkTool { t_Name : string; t_Description : string; t_InputSchema : json }.

Definition outwardRouterTool (profileName : string) (tool : Tool) : Tool :=
  MkTool (outwardRouterToolName profileName (t_Name tool)) (t_Description tool) (t_InputSchema tool).

(** ** The registry *)

Record sessionEntry := MkEntry { profile : Profile; session : Z; entry_tools : list Tool }.

Record sessionRegistry := MkRegistry {
  entries : list sessionEntry;
  byTool : gmap string Z;
  dispatchByTool : gmap string string;
  owned : gset string;
  tools : list Tool
}.

Definition newRegistry : sessionRegistry := MkRegistry [] ∅ ∅ ∅ [].

Inductive registry_error :=
  | NoProfiles
  | DialFailed (p : Profile)
  | ListToolsFailed (p : Profile)
  | ToolNameClash (name : string).

(** The sessions [CloseAll] closes. *)
Definition CloseAll (r : sessionRegistry) : list Z := map session (entries r).

Section Registry.
Context (disabledTools : list string) (dial : Profile -> option Z) (ListTools : Z -> option (list Tool)).

(** The tools of one session; the kept ones, or the name that clashes. *)
Fixpoint add_tools (profileName : string) (s : Z) (ts : list Tool) (r : sessionRegistry) : string + (sessionRegistry * list Tool) :=
  match ts with
  | [] => inr (r, [])
  | tool :: ts =>
      let outwardName := outwardRouterToolName profileName (t_Name tool) in
      if bool_decide (outwardName ∈ disabledTools) then add_tools profileName s ts r
      else
        match byTool r !! outwardName with
        | Some _ => inl outwardName
        | None =>
            let r := MkRegistry (entries r) (<[outwardName := s]> (byTool r))
              (<[outwardName := t_Name tool]> (dispatchByTool r)) ({[outwardName]} ∪ owned r) (tools r) in
            match add_tools profileName s ts r with
            | inl name => inl name
            | inr (r, kept) => inr (r, tool :: kept)
            end
        end
  end.

(** An error comes with the sessions closed on the way out. *)
Fixpoint add_profiles (ps : list Profile) (r : sessionRegistry) : registry_error * list Z + sessionRegistry :=
  match ps with
  | [] => inr r
  | p :: ps =>
      match dial p with
      | None => inl (DialFailed p, CloseAll r)
      | Some s =>
          match ListTools s with
          | None => inl (ListToolsFailed p, s :: CloseAll r)
          | Some ts =>
              match add_tools (p_Name p) s ts r with
              | inl name => inl (ToolNameClash name, s :: CloseAll r)
              | inr (r, kept) =>
                  add_profiles ps (MkRegistry (entries r ++ [MkEntry p s kept]) (byTool r) (dispatchByTool r) (owned r)
                    (tools r ++ map (outwardRouterTool (p_Name p)) kept))
              end
          end
      end
  end.

Definition buildSessionRegistry (ps : list Profile) : registry_error * list Z + sessionRegistry :=
  match ps with [] => inl (NoProfiles, []) | _ => add_profiles ps newRegistry end.
End Registry.

Definition sessionFor (r : sessionRegistry) (toolName : string) : option Z := byTool r !! toolName.

Definition dispatchName (r : sessionRegistry) (toolName : string) : string :=
  default (dispatchRouterToolName toolName) (dispatchByTool r !! toolName).

Definition profileNames (r : sessionRegistry) : list string := map (fun e => p_Name (profile e)) (entries r).

(** ** Calls *)

Record toolCall := MkCall { id : string; name : string; arguments : option object }.

Section Calls.
Context (jsonBytesValid : bytes -> bool) (unmarshal_object : string -> option (option object)).

Definition parseArguments (raw : json) : option object :=
  match raw with
  | JStr value =>
      match unmarshal_object (of_bytes (fst (sanitizeToolCallArgumentsJSON jsonBytesValid (to_bytes value)))) with
      | Some parsed => parsed
      | None => Some ∅
      end
  | JObj value => Some value
  | _ => Some ∅
  end.

(** The first choice's message and its calls. *)
Definition parseChatToolCalls (response : object) : option object * list toolCall :=
  match get "choices" response with
  | JArr (choice :: _) =>
      match get "message" (tool_object choice) with
      | JObj message =>
          let rawCalls := default [] (as_array (get "tool_calls" message)) in
          (Some message, map (fun rawCall =>
             let callMap := tool_object rawCall in
             let functionMap := tool_object (get "function" callMap) in
             MkCall (get_string "id" callMap) (get_string "name" functionMap) (parseArguments (get "arguments" functionMap))) rawCalls)
      | _ => (None, [])
      end
  | _ => (None, [])
  end.

Definition parseResponsesToolCalls (response : object) : list toolCall :=
  omap (fun item =>
    let itemMap := tool_object item in
    let itemType := get_string "type" itemMap in
    if bool_decide (itemType ∈ ["function_call"; "mcp_call"]) then
      let callID := get_string "call_id" itemMap in
      Some (MkCall (if String.eqb callID "" then get_string "id" itemMap else callID) (get_string "name" itemMap)
        (parseArguments (get "arguments" itemMap)))
    else None) (default [] (as_array (get "output" response))).
End Calls.

Definition ownedToolNames (ts : list Tool) : gset string :=
  list_to_set (List.filter (fun n => negb (String.eqb n "")) (map t_Name ts)).

Definition splitToolCalls (ownedTools : gset string) (calls : list toolCall) : list toolCall * list toolCall :=
  (List.filter (fun c => bool_decide (name c ∈ ownedTools)) calls,
   List.filter (fun c => negb (bool_decide (name c ∈ ownedTools))) calls).

Definition existingTools (raw : json) : list json := default [] (as_array raw).

Definition routerOwnedToolTypes : list string := ["web_search"].

(** Replaces the first router-owned placeholder and drops the others. *)
Fixpoint replace_owned (injected : bool) (replacements ts : list json) : list json :=
  match ts with
  | [] => []
  | t :: ts =>
      if bool_decide (get_string "type" (tool_object t) ∈ routerOwnedToolTypes) then
        (if injected then [] else replacements) ++ replace_owned true replacements ts
      else t :: replace_owned injected replacements ts
  end.

Definition replaceRouterOwnedResponsesTools (raw : json) (replacements : list json) : list json :=
  match existingTools raw with [] => replacements | ts => replace_owned false replacements ts end.

(** ** Preparing and dispatching a call *)

Section Prepare.
Context (ToLower : string -> string).
Context (ParseFloat : string -> option float64) (FormatFloat : float64 -> string) (int_out_of_range : float64 -> Z)
  (unmarshal_array : string -> option (option (list json))) (unmarshal_object : string -> option (option object)).

(** The caller's options, the repairs and the coercion, in this order. *)
Definition prepare_arguments (toolName : string) (args : option object) (o : webSearchOptions) (schemas : gmap string Schema) : option object :=
  (fun m => coerceArgumentsToSchema ParseFloat FormatFloat int_out_of_range unmarshal_array unmarshal_object toolName
    (sanitizeToolCallArguments m) schemas) <$> applyWebSearchOptionsToToolCall ToLower toolName args o.

(** The MCP request a router-owned call becomes; [None] when no session has the
    tool, which is answered with an error text. *)
Definition dispatch_call (r : sessionRegistry) (call : toolCall) (o : webSearchOptions) (schemas : gmap string Schema)
    : option (Z * string * option object) :=
  s ← sessionFor r (name call);
  Some (s, dispatchName r (name call), prepare_arguments (name call) (arguments call) o schemas).
End Prepare.

(** ** The registry's invariants *)

Section RegistryFacts.
Context (disabledTools : list string) (dial : Profile -> option Z) (ListTools : Z -> option (list Tool)).

Definition outward (p : Profile) (t : Tool) : string := outwardRouterToolName (p_Name p) (t_Name t).
Definition enabled (p : Profile) (ts : list Tool) : list Tool := filter (fun t => outward p t ∉ disabledTools) ts.

Lemma add_tools_spec p s ts : forall r r' kept, add_tools disabledTools (p_Name p) s ts r = inr (r', kept) ->
  kept = enabled p ts /\ NoDup (map (outward p) kept) /\ entries r' = entries r /\ tools r' = tools r
  /\ owned r' = list_to_set (map (outward p) kept) ∪ owned r
  /\ (forall n, n ∈ map (outward p) kept -> byTool r !! n = None)
  /\ (forall n, byTool r' !! n = if bool_decide (n ∈ map (outward p) kept) then Some s else byTool r !! n)
  /\ (forall t, t ∈ kept -> dispatchByTool r' !! outward p t = Some (t_Name t))
  /\ (forall n, n ∉ map (outward p) kept -> dispatchByTool r' !! n = dispatchByTool r !! n).
Proof.
  induction ts as [|t ts IH]; intros r r' kept; simpl.
  { intros [= <- <-]. split_and!; try done; [constructor|set_solver|set_solver|set_solver]. }
  unfold enabled. rewrite filter_cons. fold (enabled p ts).
  change (outwardRouterToolName (p_Name p) (t_Name t)) with (outward p t).
  case_bool_decide as Hd; [rewrite decide_False by naive_solver; apply IH|rewrite decide_True by done].
  destruct (byTool r !! outward p t) eqn:Eb; [done|]. destruct (add_tools _ _ _ ts _) as [|[r1 kept1]] eqn:E; [done|].
  intros [= <- <-]. apply IH in E as (-> & Hnd & -> & -> & -> & Hfresh & Hby & Hdisp & Hkeep). cbn [map byTool dispatchByTool owned] in *.
  assert (outward p t ∉ map (outward p) (enabled p ts)) as Hnew.
  { intros Hin%Hfresh. by rewrite lookup_insert_eq in Hin. }
  split_and!; try done.
  - by constructor.
  - set_solver.
  - intros n [->|Hn]%elem_of_cons; [done|]. specialize (Hfresh n Hn). by apply lookup_insert_None in Hfresh as [? _].
  - intros n. rewrite Hby. destruct (decide (n = outward p t)) as [->|Hne].
    + rewrite bool_decide_eq_false_2, bool_decide_eq_true_2 by (done || by left). by rewrite lookup_insert_eq.
    + rewrite lookup_insert_ne by done. rewrite (bool_decide_ext (n ∈ outward p t :: _) (n ∈ map (outward p) (enabled p ts))); [done|].
      rewrite elem_of_cons. naive_solver.
  - intros t' [->|Ht']%elem_of_cons; [|auto]. rewrite Hkeep by done. by rewrite lookup_insert_eq.
  - intros n [Hne Hn]%not_elem_of_cons. rewrite Hkeep by done. by rewrite lookup_insert_ne.
Qed.

(** A registry built from [ps]. *)
Record registry_ok (ps : list Profile) (r : sessionRegistry) : Prop := {
  ok_profiles : map profile (entries r) = ps;
  ok_entries : forall e, e ∈ entries r -> dial (profile e) = Some (session e)
    /\ exists ts, ListTools (session e) = Some ts /\ entry_tools e = enabled (profile e) ts;
  ok_tools : tools r = flat_map (fun e => map (outwardRouterTool (p_Name (profile e))) (entry_tools e)) (entries r);
  ok_names : NoDup (map t_Name (tools r));
  ok_owned : forall n, n ∈ owned r <-> n ∈ map t_Name (tools r);
  ok_byTool : forall n s, byTool r !! n = Some s <->
    exists e t, e ∈ entries r /\ t ∈ entry_tools e /\ session e = s /\ outward (profile e) t = n;
  ok_dispatch : forall e t, e ∈ entries r -> t ∈ entry_tools e -> dispatchByTool r !! outward (profile e) t = Some (t_Name t)
}.

Lemma registry_ok_new : registry_ok [] newRegistry.
Proof.
  constructor; simpl; try done; [|constructor|set_solver| |]; intros *; try (intros He; by apply not_elem_of_nil in He).
  split; [done|]. intros (e & t & He & _). by apply not_elem_of_nil in He.
Qed.

Lemma outward_names p kept : map t_Name (map (outwardRouterTool (p_Name p)) kept) = map (outward p) kept.
Proof. by rewrite map_map. Qed.

Lemma tool_names_in es n :
  n ∈ map t_Name (flat_map (fun e => map (outwardRouterTool (p_Name (profile e))) (entry_tools e)) es) <->
  exists e t, e ∈ es /\ t ∈ entry_tools e /\ outward (profile e) t = n.
Proof.
  induction es as [|e es IH]; simpl; [split; [set_solver|intros (? & ? & ? & _); set_solver]|].
  rewrite map_app, elem_of_app, IH, outward_names. setoid_rewrite elem_of_cons. split.
  - intros [(t & -> & Ht)%list_elem_of_fmap|(e' & t & ? & ? & ?)]; eauto 10.
  - intros (e' & t & [->|He] & Ht & <-); [left; by apply list_elem_of_fmap_2|right; eauto].
Qed.

Lemma registry_ok_add ps r p s ts r' kept :
  registry_ok ps r -> dial p = Some s -> ListTools s = Some ts -> add_tools disabledTools (p_Name p) s ts r = inr (r', kept) ->
  registry_ok (ps ++ [p]) (MkRegistry (entries r' ++ [MkEntry p s kept]) (byTool r') (dispatchByTool r') (owned r')
    (tools r' ++ map (outwardRouterTool (p_Name p)) kept)).
Proof.
  intros [Hp He Ht Hn Ho Hb Hd] Hdial Hl Ha.
  apply add_tools_spec in Ha as (Hkept & Hnd & He' & Ht' & Ho' & Hfresh & Hby & Hdisp & Hkeep).
  assert (forall n, n ∈ map t_Name (tools r) -> n ∉ map (outward p) kept) as Hdisj.
  { intros n Hin Hk%Hfresh. rewrite Ht in Hin. apply tool_names_in in Hin as (e & t & ? & ? & ?).
    assert (byTool r !! n = Some (session e)) by (apply Hb; by exists e, t). congruence. }
  constructor; cbn [entries tools owned byTool dispatchByTool]; rewrite ?He', ?Ht'.
  - by rewrite map_app, Hp.
  - intros e [Hin| ->%list_elem_of_singleton]%elem_of_app; [by apply He|]. split; [done|]. by exists ts.
  - by rewrite flat_map_app, Ht; simpl; rewrite app_nil_r.
  - rewrite map_app, outward_names. apply NoDup_app. split_and!; [done|done|done].
  - intros n. rewrite Ho', map_app, outward_names, elem_of_union, elem_of_app, elem_of_list_to_set, Ho. tauto.
  - intros n s'. rewrite Hby. setoid_rewrite elem_of_app. setoid_rewrite list_elem_of_singleton.
    case_bool_decide as Hk.
    + split.
      * intros [= <-]. apply list_elem_of_fmap in Hk as (t & -> & Hk). exists (MkEntry p s kept), t. auto.
      * intros (e & t & [Hin| ->] & Hte & <- & <-); [|done].
        exfalso. apply (Hdisj (outward (profile e) t)); [|done]. rewrite Ht. apply tool_names_in. eauto.
    + rewrite Hb. split; [intros (e & t & ? & ? & ? & ?); eauto 10|].
      intros (e & t & [Hin| ->] & Hte & <- & <-); [eauto 10|]. exfalso. apply Hk. by apply list_elem_of_fmap_2.
  - intros e t [Hin| ->%list_elem_of_singleton]%elem_of_app Hte; [|by apply Hdisp].
    rewrite Hkeep; [by apply Hd|]. apply Hdisj. rewrite Ht. apply tool_names_in. eauto.
Qed.

Lemma add_profiles_ok ps2 : forall ps1 r r', registry_ok ps1 r -> add_profiles disabledTools dial ListTools ps2 r = inr r' ->
  registry_ok (ps1 ++ ps2) r'.
Proof.
  induction ps2 as [|p ps2 IH]; intros ps1 r r' Hok; simpl; [intros [= <-]; by rewrite app_nil_r|].
  destruct (dial p) as [s|] eqn:Ed; [|done]. destruct (ListTools s) as [ts|] eqn:El; [|done].
  destruct (add_tools _ _ _ _ _) as [|[r1 kept]] eqn:Ea; [done|]. intros H.
  rewrite cons_middle, app_assoc. eapply IH; [|done]. by eapply registry_ok_add.
Qed.

Lemma buildSessionRegistry_ok ps r : buildSessionRegistry disabledTools dial ListTools ps = inr r -> registry_ok ps r.
Proof.
  unfold buildSessionRegistry. destruct ps as [|p ps]; [done|]. intros H.
  by apply (add_profiles_ok (p :: ps) []) in H; [|apply registry_ok_new].
Qed.

Lemma entry_tool_enabled ps r e t : registry_ok ps r -> e ∈ entries r -> t ∈ entry_tools e -> outward (profile e) t ∉ disabledTools.
Proof.
  intros [_ He _ _ _ _ _] Hin Hte. destruct (He e Hin) as (_ & ts & _ & Heq). rewrite Heq in Hte.
  unfold enabled in Hte. by apply list_elem_of_filter in Hte as [? _].
Qed.

(** The tool a routed name stands for. *)
Lemma session_for_tool ps r n s : registry_ok ps r -> sessionFor r n = Some s ->
  exists e t, e ∈ entries r /\ t ∈ entry_tools e /\ outward (profile e) t = n /\ session e = s /\ dispatchName r n = t_Name t.
Proof.
  intros [_ _ _ _ _ Hb Hd] (e & t & Hin & Hte & Hs & <-)%Hb. exists e, t. split_and!; try done.
  unfold dispatchName. by rewrite Hd.
Qed.

Lemma owned_routed ps r n : registry_ok ps r -> n ∈ owned r <-> is_Some (sessionFor r n).
Proof.
  intros [_ _ Ht _ Ho Hb _]. rewrite Ho, Ht, tool_names_in. unfold sessionFor. split.
  - intros (e & t & ? & ? & ?). exists (session e). apply Hb. by exists e, t.
  - intros [s (e & t & ? & ? & ? & ?)%Hb]. eauto.
Qed.

(** A registry that is built routes: it has one session per profile, in
    order; a tool name leads to a session exactly when that session's profile
    advertised it under that name and the request did not disable it; no two
    tools share a name; and a name is dispatched as the server's own. *)
Theorem registry_routes ps r : buildSessionRegistry disabledTools dial ListTools ps = inr r ->
  map profile (entries r) = ps
  /\ (forall n s, sessionFor r n = Some s <->
        exists e t ts, e ∈ entries r /\ dial (profile e) = Some s /\ ListTools s = Some ts /\ t ∈ ts
          /\ outward (profile e) t = n /\ n ∉ disabledTools)
  /\ (forall n, n ∈ owned r <-> is_Some (sessionFor r n))
  /\ NoDup (map t_Name (tools r))
  /\ (forall n, n ∈ owned r -> exists e t, e ∈ entries r /\ outward (profile e) t = n /\ dispatchName r n = t_Name t).
Proof.
  intros H%buildSessionRegistry_ok. pose proof H as [Hp He Ht Hn Ho Hb Hd].
  split; [done|]. split; [|split; [intros n; by eapply owned_routed|split; [done|]]].
  - intros n s. split.
    + intros (e & t & Hin & Hte & <- & <- & _)%(session_for_tool ps r n s H). destruct (He e Hin) as (Hdial & ts & Hl & Heq).
      exists e, t, ts. split_and!; try done; [|by eapply entry_tool_enabled].
      rewrite Heq in Hte. unfold enabled in Hte. by apply list_elem_of_filter in Hte as [_ ?].
    + intros (e & t & ts & Hin & Hs & Hl & Hts & <- & Hdis). apply Hb. destruct (He e Hin) as (Hdial & ts' & Hl' & Heq).
      exists e, t. split_and!; try done; [|congruence]. rewrite Heq.
      assert (session e = s) as Hss by congruence. rewrite Hss in Hl'. assert (ts' = ts) as -> by congruence.
      unfold enabled. by apply list_elem_of_filter.
  - intros n [s (e & t & ? & _ & ? & _ & ?)%(session_for_tool ps r n s H)]%(owned_routed ps r n H). by exists e, t.
Qed.

Lemma add_tools_entries p s ts : forall r r' kept, add_tools disabledTools p s ts r = inr (r', kept) -> entries r' = entries r.
Proof.
  induction ts as [|t ts IH]; intros r r' kept; simpl; [by intros [= <- <-]|]. case_bool_decide; [apply IH|].
  destruct (byTool r !! _); [done|]. destruct (add_tools _ _ _ ts _) as [|[r1 k1]] eqn:E; [done|].
  intros [= <- <-]. by apply IH in E.
Qed.

Lemma add_profiles_closed ps2 : forall ps1 r e closed, CloseAll r = omap dial ps1 ->
  add_profiles disabledTools dial ListTools ps2 r = inl (e, closed) ->
  exists k p rest, ps2 = k ++ p :: rest /\ closed ≡ₚ omap dial (ps1 ++ k ++ [p]).
Proof.
  induction ps2 as [|p ps2 IH]; intros ps1 r e closed Hr; simpl; [done|].
  destruct (dial p) as [s|] eqn:Ed.
  2:{ intros [= <- <-]. exists [], p, ps2. split; [done|]. rewrite omap_app. simpl. by rewrite Ed, app_nil_r, Hr. }
  assert (s :: CloseAll r ≡ₚ omap dial (ps1 ++ [] ++ [p])) as Hclosed.
  { rewrite omap_app. simpl. rewrite Ed, Hr. apply Permutation_cons_append. }
  destruct (ListTools s) as [ts|] eqn:El; [|intros [= <- <-]; by exists [], p, ps2].
  destruct (add_tools _ _ _ _ _) as [|[r1 kept]] eqn:Ea; [intros [= <- <-]; by exists [], p, ps2|].
  intros H. apply add_tools_entries in Ea. apply (IH (ps1 ++ [p])) in H as (k & p' & rest & -> & Hc).
  - exists (p :: k), p', rest. split; [done|]. by rewrite <- app_assoc in Hc.
  - unfold CloseAll in *. cbn [entries]. rewrite Ea, map_app, Hr, omap_app. simpl. by rewrite Ed.
Qed.

(** A registry that cannot be built leaks nothing: the sessions opened up
    to the profile that failed are closed, each once, and no later profile is
    dialed. *)
Theorem failed_registry_closes_sessions ps e closed :
  buildSessionRegistry disabledTools dial ListTools ps = inl (e, closed) ->
  (ps = [] /\ closed = []) \/ exists k p rest, ps = k ++ p :: rest /\ closed ≡ₚ omap dial (k ++ [p]).
Proof.
  unfold buildSessionRegistry. destruct ps as [|p ps]; [intros [= <- <-]; by left|]. intros H. right.
  by apply (add_profiles_closed (p :: ps) []) in H.
Qed.
End RegistryFacts.

(** ** Cache-only requests *)

Section CacheOnly.
Context (ToLower : string -> string).
Context (ParseFloat : string -> option float64) (FormatFloat : float64 -> string) (int_out_of_range : float64 -> Z)
  (unmarshal_array : string -> option (option (list json))) (unmarshal_object : string -> option (option object)).
Context (dial : Profile -> option Z) (ListTools : Z -> option (list Tool)).

Notation coerceV := (coerceValue ParseFloat FormatFloat int_out_of_range unmarshal_array unmarshal_object).

(** No schema rewrites the cache-only age. *)
Lemma coerce_cache_only s : fst (coerceV (JInt maxAgeHoursCacheOnly) s) = JInt maxAgeHoursCacheOnly.
Proof.
  rewrite coerceValue_equation. unfold coerceStep. destruct (declaredTypes s) as [|t ts]; [done|].
  destruct (valueMatchesAnyType _ _); [done|].
  assert (forall f us, first_coercion ParseFloat FormatFloat int_out_of_range unmarshal_array unmarshal_object f
    (JInt maxAgeHoursCacheOnly) s us = None) as ->; [|done].
  intros f us. induction us as [|u us IH]; simpl; [done|]. unfold coerceToType. by repeat destruct (String.eqb u _).
Qed.

Lemma coerceArguments_keeps k v toolName m schemas :
  m !! k = Some v -> (forall s, fst (coerceV v s) = v) ->
  coerceArgumentsToSchema ParseFloat FormatFloat int_out_of_range unmarshal_array unmarshal_object toolName m schemas !! k = Some v.
Proof.
  intros Hk Hv. unfold coerceArgumentsToSchema. destruct (schemas !! toolName) as [s|]; [|done].
  unfold coerceObject. rewrite map_lookup_imap, Hk. simpl. by destruct (propertySchema s k); rewrite ?Hv.
Qed.

Lemma sanitize_keeps_int k n m : m !! k = Some (JInt n) -> sanitizeToolCallArguments m !! k = Some (JInt n).
Proof.
  intros Hk. unfold sanitizeToolCallArguments. cbn [quirksEnabled negb]. rewrite deepStripURLTokens_equation.
  cbn [strip_step]. by rewrite map_lookup_imap, Hk.
Qed.

Lemma profiles_detected path opts body p : p ∈ DetectProfiles path opts body -> p = WebSearch.
Proof.
  unfold DetectProfiles. cbn [foldl profiles]. destruct (_ && _); simpl; [|set_solver]. set_solver.
Qed.

Lemma outward_WebSearch t : outward WebSearch t =
  if String.eqb (t_Name t) mcpSearchToolName then routerSearchToolName
  else if String.eqb (t_Name t) mcpFetchToolName then routerFetchToolName else t_Name t.
Proof.
  unfold outward, outwardRouterToolName.
  assert (descriptorForProfile (p_Name WebSearch) = head profiles) as -> by reflexivity. cbn [head profiles Aliases].
  destruct (String.eqb_spec (t_Name t) mcpSearchToolName) as [->|H1]; [done|].
  destruct (String.eqb_spec (t_Name t) mcpFetchToolName) as [->|H2]; [done|].
  by rewrite lookup_insert_ne, lookup_singleton_ne by done.
Qed.

Lemma bind_triple {A B C} (oa : option A) (b b' : B) (c c' : C) a :
  (a ← oa; Some (a, b, c)) = Some (a, b', c') -> oa = Some a /\ b = b' /\ c = c'.
Proof. destruct oa; simpl; [by intros [= -> -> ->]|done]. Qed.

(** No call of a cache-only request is dispatched to the server's fetch tool,
    and a search is dispatched with the cache-only age (unless its arguments
    are a literal null, which carry no query either). *)
Lemma dispatch_cache_only path opts body o r call schemas s tool args :
  cacheOnly o = true ->
  buildSessionRegistry (disabledRouterTools o) dial ListTools (DetectProfiles path opts body) = inr r ->
  dispatch_call ToLower ParseFloat FormatFloat int_out_of_range unmarshal_array unmarshal_object r call o schemas = Some (s, tool, args) ->
  tool <> mcpFetchToolName
  /\ (tool = mcpSearchToolName ->
      (arguments call = None /\ args = None)
      \/ exists m, args = Some m /\ m !! "max_age_hours" = Some (JInt maxAgeHoursCacheOnly)).
Proof.
  intros Hc Hb%buildSessionRegistry_ok Hd. apply bind_triple in Hd as (Es & <- & <-).
  destruct (session_for_tool _ _ _ _ _ _ _ Hb Es) as (e & t & He & Hte & Hout & _ & ->).
  pose proof (entry_tool_enabled _ _ _ _ _ _ _ Hb He Hte) as Hdis. rewrite Hout in Hdis.
  assert (profile e = WebSearch) as Hpe.
  { eapply profiles_detected. rewrite <- (ok_profiles _ _ _ _ _ Hb). by apply list_elem_of_fmap_2. }
  rewrite Hpe, outward_WebSearch in Hout. unfold disabledRouterTools in Hdis. rewrite Hc in Hdis. split.
  - intros Ht. rewrite Ht in Hout. simpl in Hout. rewrite <- Hout in Hdis. apply Hdis. by left.
  - intros Ht. rewrite Ht in Hout. simpl in Hout. rewrite <- Hout. unfold prepare_arguments.
    change (applyWebSearchOptionsToToolCall ToLower routerSearchToolName (arguments call) o) with (applyToSearchArgs ToLower o (arguments call)).
    destruct (arguments call) as [m|]; [right|by left].
    destruct (search_args_merged ToLower o m) as (m' & -> & Hm). eexists. split; [done|].
    apply coerceArguments_keeps; [|apply coerce_cache_only]. apply sanitize_keeps_int. by rewrite Hm, Hc.
Qed.
End CacheOnly.

(** ** Replacing placeholders *)

Definition placeholder (t : json) : bool := bool_decide (get_string "type" (tool_object t) ∈ routerOwnedToolTypes).

(** The upstream request names no router-owned tool type, keeps the client's
    tools in order and gets the replacements once. *)
Lemma replace_owned_spec injected replacements ts :
  exists before after,
    replace_owned injected replacements ts =
      before ++ (if injected || negb (existsb placeholder ts) then [] else replacements) ++ after
    /\ before ++ after = List.filter (fun t => negb (placeholder t)) ts.
Proof.
  revert injected. induction ts as [|t ts IH]; intros injected; simpl.
  { exists [], []. by rewrite orb_true_r. }
  fold (placeholder t). destruct (placeholder t) eqn:E; simpl.
  - destruct (IH true) as (b & a & -> & Hba). simpl. destruct injected; simpl; [by exists b, a|].
    exists [], (b ++ a). split; [done|done].
  - destruct (IH injected) as (b & a & -> & Hba). exists (t :: b), a. simpl. by rewrite Hba.
Qed.

(** ** Example *)

Definition one_server (_ : Z) : option (list Tool) :=
  Some [MkTool "search" "" JNull; MkTool "fetch" "" JNull; MkTool "summarize" "" JNull].

Definition cache_only_options : webSearchOptions :=
  MkOptions "" [] [] "high" "" 0 "" "" "" (Some 24) None None false true.

Definition search_request : object := {["tools" := JArr [JObj {["type" := JStr "web_search"]}]]}.

Definition search_call : toolCall := MkCall "c1" "router_search" (Some {["query" := JStr "q"; "max_age_hours" := JStr "0"]}).

Definition cache_registry : sessionRegistry :=
  MkRegistry [MkEntry WebSearch 7 [MkTool "search" "" JNull; MkTool "summarize" "" JNull]]
    {["router_search" := 7; "summarize" := 7]} {["router_search" := "search"; "summarize" := "summarize"]}
    {["router_search"; "summarize"]} [MkTool "router_search" "" JNull; MkTool "summarize" "" JNull].

Lemma registry_routes_witness :
  sessionFor cache_registry "router_fetch" = None /\ NoDup (map t_Name (tools cache_registry)).
Proof.
  assert (buildSessionRegistry ["router_fetch"] (fun _ => Some 7) one_server [WebSearch] = inr cache_registry) as Hb by (vm_compute; reflexivity).
  destruct (registry_routes ["router_fetch"] (fun _ => Some 7) one_server [WebSearch] cache_registry Hb) as (_ & _ & _ & Hn & _).
  split; [reflexivity|exact Hn].
Defined.

Definition three_profiles : list Profile := [MkProfile "a" "x"; MkProfile "b" "y"; MkProfile "c" "z"].
Definition dial_a (p : Profile) : option Z := if String.eqb (p_Name p) "a" then Some 1 else None.

Lemma failed_registry_closes_sessions_witness :
  exists k p rest, three_profiles = k ++ p :: rest /\ [1] ≡ₚ omap dial_a (k ++ [p]).
Proof.
  assert (buildSessionRegistry [] dial_a one_server three_profiles = inl (DialFailed (MkProfile "b" "y"), [1])) as H
    by (vm_compute; reflexivity).
  destruct (failed_registry_closes_sessions [] dial_a one_server three_profiles _ _ H) as [[Hn _]|Hx]; [discriminate Hn|exact Hx].
Defined.
