(* ===== verification/Events.v ===== *)
(** * What tool calls look like to the client ([toolruntime/events.go],
      [search_evidence.go])

    The log of router-owned calls, what is read off a search server's answer
    (sources, masking report, billing receipt), the opt-in text markers of the
    Chat surface, the [web_search_call] items of the Responses surface, and the
    last pass over a finished answer that adds them together with the citation
    annotations.

    [json.Marshal] and the identifiers [uuid.NewString] draws are parameters;
    the n-th identifier drawn is [uuid n]. *)

From Stdlib Require Import Ascii.
From S2P Require Import Prelude Float64 Sha256 CacheSalt Json Quirks Utf8 Citations Annotations WebSearch Strconv.
#[local] Open Scope string_scope.
#[local] Open Scope list_scope.
#[local] Open Scope Z_scope.

Definition tinfoilEventsHeader := "X-Tinfoil-Events".
Definition tinfoilEventsWebSearch := "web_search".
Definition tinfoilEventOpenTag := "<tinfoil-event>".
Definition tinfoilEventCloseTag := "</tinfoil-event>".
Definition tinfoilEventPayloadType := "tinfoil.web_search_call".
Definition piiFilterRequestsField := "pii_filter_requests".
Definition publicToolErrorReasonString := "tool_error".

(** ** Records *)

Record serviceBilling := MkBilling { calls : Z; unknown : bool }.

Record piiRedaction := MkRedaction { kind : string; r_start : Z; r_end : Z }.

Record piiCheckResult := MkPII { masked : bool; redactedQuery : string; redactions : list piiRedaction }.

Record toolCallSource := MkCallSource {
  url : string; title : string; snippet : string; publishedDate : string; author : string
}.

Record toolCallRecord := MkRecord {
  rec_name : string;
  rec_arguments : object;
  resultURLs : list string;
  resultSources : list toolCallSource;
  errorReason : string;
  rec_pii : option piiCheckResult;
  piiBilling : serviceBilling
}.

Abbreviation toolCallLog := (list toolCallRecord).

Definition isWebSearchTool (name : string) : bool := isRouterSearchToolName name || isRouterFetchToolName name.

Definition webSearchCalls (l : toolCallLog) : Z := Z.of_nat (length (List.filter (fun r => isWebSearchTool (rec_name r)) l)).

Definition piiFilterCalls (l : toolCallLog) : Z := sum_by (fun r => calls (piiBilling r)) l.

(** [content, _ := structured.(map[string]any)]; a nil map reads as empty. *)
Definition structured_object (structured : option json) : object := tool_object (default JNull structured).

Definition get_bool (k : string) (m : object) : bool := match get k m with JBool b => b | _ => false end.

(** The call's receipt: an absent count is known to be zero only when the check
    did not run and the call did not fail. *)
Definition piiBillingFromStructured (name : string) (structured : option json) (failed : bool) : serviceBilling :=
  if negb (isRouterSearchToolName name) then MkBilling 0 false
  else
    let content := structured_object structured in
    match content !! piiFilterRequestsField with
    | Some (JInt n) => if n =? 0 then MkBilling 0 false else if n =? 1 then MkBilling 1 false else MkBilling 0 true
    | Some (JFloat f) =>
        if f64_eq f (f64_of_int 0) then MkBilling 0 false
        else if f64_eq f (f64_of_int 1) then MkBilling 1 false else MkBilling 0 true
    | Some _ => MkBilling 0 true
    | None => MkBilling 0 (get_bool "pii_checked" content || failed)
    end.

Section Reading.
Context (ParseFloat : string -> option float64) (int_out_of_range : float64 -> Z).

Definition read_redaction (raw : json) : option piiRedaction :=
  let span := tool_object raw in
  start ← intValue ParseFloat int_out_of_range (get "start" span);
  end_ ← intValue ParseFloat int_out_of_range (get "end" span);
  Some (MkRedaction (get_string "type" span) start end_).

Definition piiCheckResultFromStructured (name : string) (structured : option json) : option piiCheckResult :=
  if negb (isRouterSearchToolName name) then None
  else
    let content := structured_object structured in
    if negb (get_bool "pii_checked" content) then None
    else Some (MkPII (get_bool "pii_masked" content) (get_string "redacted_query" content)
           (omap read_redaction (default [] (as_array (get "pii_redactions" content))))).
End Reading.

Definition encodePIICheckResult (pii : option piiCheckResult) : option json :=
  pii ← pii;
  Some (JObj {["masked" := JBool (masked pii); "redacted_query" := JStr (redactedQuery pii);
    "redactions" := JArr (map (fun span => JObj {["type" := JStr (kind span); "start" := JInt (r_start span); "end" := JInt (r_end span)]})
                           (redactions pii))]}).

Definition publicToolErrorReason (failed : bool) : string := if failed then publicToolErrorReasonString else "".

(** ** Sources *)

Definition toolOutputSourcesToToolCallSources (sources : list ToolOutputSource) : list toolCallSource :=
  map (fun s => MkCallSource (string_of (ts_URL s)) (string_of (ts_Title s)) "" "" "") sources.

Definition trimmed_field (k : string) (m : object) : string := TrimSpace (get_string k m).

(** The results with a URL, each URL once. *)
Fixpoint search_sources (seen : list string) (results : list json) : list toolCallSource :=
  match results with
  | [] => []
  | rawResult :: results =>
      let result := tool_object rawResult in
      let u := trimmed_field "url" result in
      if String.eqb u "" || bool_decide (u ∈ seen) then search_sources seen results
      else MkCallSource u (trimmed_field "title" result) (get_string "content" result) (trimmed_field "published_date" result)
             (trimmed_field "author" result) :: search_sources (u :: seen) results
  end.

Definition structuredSearchToolCallSources (name : string) (structured : option json) : list toolCallSource :=
  if negb (isRouterSearchToolName name) then []
  else search_sources [] (default [] (as_array (get "results" (structured_object structured)))).

Definition structuredFetchToolCallSources (name : string) (structured : option json) : list toolCallSource :=
  if negb (isRouterFetchToolName name) then []
  else
    omap (fun raw =>
      let page := tool_object raw in
      let u := trimmed_field "url" page in
      if String.eqb u "" then None else Some (MkCallSource u "Fetched page" (get_string "content" page) "" ""))
      (default [] (as_array (get "pages" (structured_object structured)))).

Definition sourcesForURL (sources : list toolCallSource) (u : string) : list toolCallSource :=
  List.filter (fun s => String.eqb (url s) u) sources.

Definition toolCallSourcesForResult (name : string) (structured : option json) (output : string) : list toolCallSource :=
  match structuredSearchToolCallSources name structured with
  | (_ :: _) as sources => sources
  | [] =>
      match structuredFetchToolCallSources name structured with
      | (_ :: _) as sources => sources
      | [] => toolOutputSourcesToToolCallSources (ExtractToolOutputSources (text_of output))
      end
  end.

Definition toolCallSourceURLs (sources : list toolCallSource) : list string :=
  List.filter (fun u => negb (String.eqb u "")) (map url sources).

Definition statusForRecord (record : toolCallRecord) : string := if String.eqb (errorReason record) "" then "completed" else "failed".

Definition fetchArgumentURLs (arguments : object) : list string :=
  omap (fun item => let u := TrimSpace (stringValue item) in if String.eqb u "" then None else Some u)
    (default [] (as_array (get "urls" arguments))).

(** ** The opt-in header *)

Fixpoint split_comma (s : bytes) : list bytes :=
  match s with
  | [] => [[]]
  | c :: s =>
      if Ascii.eqb c (byte_of 44) then [] :: split_comma s
      else match split_comma s with l :: ls => (c :: l) :: ls | [] => [[c]] end
  end.

(** [strings.EqualFold] with an ASCII string: besides the case of letters, the
    long s (U+017F) and the Kelvin sign (U+212A) fold to ASCII. *)
Fixpoint fold_ascii (s : bytes) : bytes :=
  match s with
  | a :: ((b :: s'') as s') =>
      if (byte_val a =? 0xC5) && (byte_val b =? 0xBF) then "s"%char :: fold_ascii s''
      else match s'' with
           | c :: s''' =>
               if (byte_val a =? 0xE2) && (byte_val b =? 0x84) && (byte_val c =? 0xAA) then "k"%char :: fold_ascii s'''
               else lower_ascii a :: fold_ascii s'
           | [] => lower_ascii a :: fold_ascii s'
           end
  | a :: s' => lower_ascii a :: fold_ascii s'
  | [] => []
  end.

Definition EqualFold (s t : bytes) : bool := bool_decide (fold_ascii s = fold_ascii t).

(** The header's value, empty when it is absent. *)
Definition parseTinfoilEventFlags (raw : string) : bool :=
  if String.eqb raw "" then false
  else existsb (fun part => EqualFold (TrimSpaceBytes part) (to_bytes tinfoilEventsWebSearch)) (split_comma (to_bytes raw)).

(** ** Text markers *)

Section Markers.
(** [json.Marshal], as text, and the identifiers drawn. *)
Context (Marshal : json -> option text) (uuid : nat -> string).

Definition encodeMarkerSources (sources : list toolCallSource) : list json :=
  map (fun s =>
    let entry : object := {["url" := JStr (url s); "title" := JStr (title s)]} in
    JObj (if String.eqb (snippet s) "" then entry else <["snippet" := JStr (snippet s)]> entry))
    (List.filter (fun s => negb (String.eqb (url s) "")) sources).

Definition set_some (k : string) (v : option json) (m : object) : object :=
  match v with Some v => <[k := v]> m | None => m end.

Definition marker_payload (id status : string) (action : object) (reason : string) (sources : list toolCallSource)
    (pii : option piiCheckResult) : object :=
  let payload : object := {["type" := JStr tinfoilEventPayloadType; "item_id" := JStr id; "status" := JStr status; "action" := JObj action]} in
  let payload := if String.eqb reason "" then payload else <["error" := JObj {["code" := JStr reason]}]> payload in
  let payload := match encodeMarkerSources sources with [] => payload | encoded => <["sources" := JArr encoded]> payload end in
  set_some "pii" (encodePIICheckResult pii) payload.

Definition quoted (s : string) : text := 34 :: runes s ++ [34].

(** [{"type":"tinfoil.web_search_call"}] *)
Definition fallback_payload : text := runes "{" ++ quoted "type" ++ runes ":" ++ quoted tinfoilEventPayloadType ++ runes "}".

Definition tinfoilEventMarker (id status : string) (action : object) (reason : string) (sources : list toolCallSource)
    (pii : option piiCheckResult) : text :=
  nl :: runes tinfoilEventOpenTag ++ default fallback_payload (Marshal (JObj (marker_payload id status action reason sources pii)))
    ++ runes tinfoilEventCloseTag ++ [nl].

Definition search_action (arguments : object) : object :=
  let query := get_string "query" arguments in
  let action : object := {["type" := JStr "search"]} in
  if String.eqb query "" then action else <["query" := JStr query]> action.

Definition open_page_action (u : string) : object := {["type" := JStr "open_page"; "url" := JStr u]}.

(** What a record shows: its actions, with what belongs to each. *)
Definition record_actions (record : toolCallRecord) : list (object * list toolCallSource * option piiCheckResult) :=
  if isRouterSearchToolName (rec_name record) then [(search_action (rec_arguments record), resultSources record, rec_pii record)]
  else if isRouterFetchToolName (rec_name record) then
    map (fun u => (open_page_action u, sourcesForURL (resultSources record) u, None)) (fetchArgumentURLs (rec_arguments record))
  else [].

Definition write_pair (record : toolCallRecord) (acc : text * nat) (shown : object * list toolCallSource * option piiCheckResult) : text * nat :=
  let '(out, n) := acc in
  let '(action, sources, pii) := shown in
  let id := "ws_" +:+ uuid n in
  (out ++ tinfoilEventMarker id "in_progress" action "" [] None
       ++ tinfoilEventMarker id (statusForRecord record) action (errorReason record) sources pii, S n).

(** The markers of a log, drawing identifiers from the [n]-th on. *)
Definition tinfoilEventMarkersForRecords (records : toolCallLog) (n : nat) : text * nat :=
  foldl (fun acc record => foldl (write_pair record) acc (record_actions record)) ([], n) records.

(** ** Output items *)

Definition toActionSources (results : list toolCallSource) : list json :=
  map (fun s =>
    let optional k v := set_default k (nonempty v) in
    JObj (optional "author" (author s) (optional "published_date" (publishedDate s) (optional "title" (title s)
           (optional "snippet" (snippet s) {["type" := JStr "url"; "url" := JStr (url s)]})))))
    (List.filter (fun s => negb (String.eqb (url s) "")) results).

Definition tinfoilSidecar (errorCode : string) (pii : option piiCheckResult) : option object :=
  if String.eqb errorCode "" && match pii with None => true | Some _ => false end then None
  else
    let sidecar : object := if String.eqb errorCode "" then ∅ else {["error" := JObj {["code" := JStr errorCode]}]} in
    Some (set_some "pii" (encodePIICheckResult pii) sidecar).

Definition webSearchCallEvent (id status errorCode : string) (action : object) (pii : option piiCheckResult) : object :=
  set_some "_tinfoil" (JObj <$> tinfoilSidecar errorCode pii)
    {["type" := JStr "web_search_call"; "id" := JStr id; "status" := JStr status; "action" := JObj action]}.

(** The action of a search item, with the sources the client asked for. *)
Definition with_sources (includeActionSources : bool) (record : toolCallRecord) (action : object) : object :=
  if includeActionSources then
    let sources := match resultSources record with
                   | [] => map (fun u => MkCallSource u "" "" "" "") (resultURLs record)
                   | sources => sources
                   end in
    match toActionSources sources with [] => action | sources => <["sources" := JArr sources]> action end
  else action.

Definition record_items (includeActionSources : bool) (record : toolCallRecord) (n : nat) : list json :=
  if isRouterSearchToolName (rec_name record) then
    [JObj (webSearchCallEvent ("ws_" +:+ uuid n) (statusForRecord record) (errorReason record)
             (with_sources includeActionSources record (search_action (rec_arguments record))) (rec_pii record))]
  else if isRouterFetchToolName (rec_name record) then
    imap (fun i u => JObj (webSearchCallEvent ("ws_" +:+ uuid (n + i)%nat) (statusForRecord record) (errorReason record) (open_page_action u) None))
      (fetchArgumentURLs (rec_arguments record))
  else [].

Fixpoint buildWebSearchCallOutputItems (records : toolCallLog) (includeActionSources : bool) (n : nat) : list json * nat :=
  match records with
  | [] => ([], n)
  | record :: records =>
      let items := record_items includeActionSources record n in
      let '(rest, m) := buildWebSearchCallOutputItems records includeActionSources (n + length items)%nat in
      (items ++ rest, m)
  end.

Definition routerSynthesizedResponseItemTypes : list string := ["web_search_call"].

Definition synthesized (raw : json) : bool :=
  match raw with JObj item => bool_decide (get_string "type" item ∈ routerSynthesizedResponseItemTypes) | _ => false end.

Definition stripClientSyntheticResponseItems (input : json) : json :=
  match input with
  | JArr items => JArr (List.filter (fun raw => negb (synthesized raw)) items)
  | _ => input
  end.

(** ** The finished answer *)

Section URLs.
Context (Parse : text -> option ParsedURL) (Query : ParsedURL -> gmap text (list text))
  (Encode : gmap text (list text) -> text) (Print : ParsedURL -> text) (ToLower : text -> text).

(** The text a client reads for the model's. *)
Definition rendered (state : State) (s : string) : text := NormalizeLinks (ResolveHarmonyCitations (Some state) (text_of s)).

Definition RuneCount (t : text) : Z := Z.of_nat (length t).

(** One message of the Chat surface. *)
Definition attach_message (state : State) (records : toolCallLog) (webSearch : bool) (message : object) (n : nat) : object * nat :=
  let content := rendered state (get_string "content" message) in
  let annotations := NestedAnnotationsFor Parse Query Encode Print ToLower (Some state) content in
  let '(prefix, n) := if webSearch then tinfoilEventMarkersForRecords records n else ([], n) in
  let '(content, annotations) :=
    match prefix with
    | [] => (content, annotations)
    | _ => (prefix ++ content, ShiftNestedAnnotationIndices annotations (RuneCount prefix))
    end in
  let message := <["content" := JStr (string_of content)]> message in
  (match annotations with [] => message | _ => <["annotations" := JArr annotations]> message end, n).

Fixpoint attach_choices (state : State) (records : toolCallLog) (webSearch : bool) (choices : list json) (n : nat) : list json * nat :=
  match choices with
  | [] => ([], n)
  | rawChoice :: choices =>
      let '(choice, n) :=
        match rawChoice with
        | JObj choice =>
            match get "message" choice with
            | JObj message =>
                let '(message, n) := attach_message state records webSearch message n in
                (JObj (<["message" := JObj message]> choice), n)
            | _ => (rawChoice, n)
            end
        | _ => (rawChoice, n)
        end in
      let '(choices, n) := attach_choices state records webSearch choices n in
      (choice :: choices, n)
  end.

(** The body afterwards; a choice is changed in place. *)
Definition attachChatOutput (body : object) (state : State) (records : toolCallLog) (webSearch : bool) (n : nat) : object * nat :=
  match get "choices" body with
  | JArr choices =>
      let '(choices, n) := attach_choices state records webSearch choices n in
      (<["choices" := JArr choices]> body, n)
  | _ => (body, n)
  end.

Definition attach_content (state : State) (rawContent : json) : json :=
  match rawContent with
  | JObj content =>
      if String.eqb (get_string "type" content) "output_text" then
        let t := rendered state (get_string "text" content) in
        let content := <["text" := JStr (string_of t)]> content in
        JObj (match FlatAnnotationsFor Parse Query Encode Print ToLower (Some state) t with
              | [] => content
              | annotations => <["annotations" := JArr annotations]> content
              end)
      else rawContent
  | _ => rawContent
  end.

Definition attach_item (state : State) (rawItem : json) : json :=
  match rawItem with
  | JObj item =>
      if String.eqb (get_string "type" item) "message" then
        match get "content" item with
        | JArr contentList => JObj (<["content" := JArr (map (attach_content state) contentList)]> item)
        | _ => rawItem
        end
      else rawItem
  | _ => rawItem
  end.

Definition attachResponsesOutput (body : object) (state : State) (records : toolCallLog) (includeActionSources : bool) (n : nat) : object * nat :=
  let outputItems := map (attach_item state) (default [] (as_array (get "output" body))) in
  let body := match get "output" body with JArr _ => <["output" := JArr outputItems]> body | _ => body end in
  let '(wsEvents, n) := buildWebSearchCallOutputItems records includeActionSources n in
  match wsEvents with [] => (body, n) | _ => (<["output" := JArr (wsEvents ++ outputItems)]> body, n) end.
End URLs.
End Markers.

(** ** Valid text *)

Abbreviation valid_text := (fun t : text => forallb valid_rune t = true).

(** The recorded sources are text, as decoded strings are. *)
Definition valid_sources (c : State) : Prop := Forall (fun s => valid_text (URL s) /\ valid_text (Title s)) (Sources c).

Lemma valid_app t1 t2 : valid_text (t1 ++ t2) <-> valid_text t1 /\ valid_text t2.
Proof. simpl. rewrite forallb_app, andb_true_iff. done. Qed.

Lemma valid_cons r t : valid_text (r :: t) <-> valid_rune r = true /\ valid_text t.
Proof. simpl. rewrite andb_true_iff. done. Qed.

Lemma runes_valid s : Forall (fun c => byte_val c < 0x80) (to_bytes s) -> valid_text (runes s).
Proof.
  unfold runes. induction 1 as [|c l Hc _ IH]; [done|]. cbn [map]. apply valid_cons. split; [|done].
  apply valid_rune_spec. pose proof (byte_val_range c). lia.
Qed.

Lemma match_bracketed_Some open close t label url rest : match_bracketed open close t = Some (label, url, rest) ->
  exists c, t = open :: label ++ c :: lparen :: url ++ rparen :: rest.
Proof.
  unfold match_bracketed. destruct t as [|r t]; [done|]. destruct (r =? open) eqn:Er; [|done]. bool_simp. subst. cbn [negb].
  pose proof (span_spec (fun r => negb (close r)) t) as Hs. destruct (span _ t) as [[|l0 l] [|c [|p t']]]; try done.
  destruct Hs as (-> & _ & _). destruct (p =? lparen) eqn:Ep; [|done]. bool_simp. subst. cbn [negb].
  destruct (match_url t') as [[u after]|] eqn:E; [|done]. cbn [mbind option_bind]. apply match_url_Some in E as [-> _].
  destruct after as [|q after]; [done|]. destruct (q =? rparen) eqn:Eq; [|done]. bool_simp. subst.
  intros [= <- <- <-]. by exists c.
Qed.

Lemma markdown_link_valid label url : valid_text label -> valid_text url -> valid_text (markdown_link label url).
Proof. intros Hl Hu. unfold markdown_link. rewrite valid_cons, valid_app, !valid_cons, valid_app. by repeat split. Qed.

Lemma replace_links_valid fuel : forall t, valid_text t -> valid_text (replace_links fuel t).
Proof.
  induction fuel as [|fuel IH]; intros t Ht; [by destruct t|]. destruct t as [|r t]; [done|]. cbn [replace_links].
  destruct (fullwidthBracketedLinkPattern (r :: t)) as [[[label url] rest]|] eqn:E.
  - apply match_bracketed_Some in E as [c E]. rewrite E in Ht. apply valid_cons in Ht as [_ [Hl Ht]%valid_app].
    apply valid_cons in Ht as [_ [_ [Hu [_ Hr]%valid_cons]%valid_app]%valid_cons].
    apply valid_app. split; [by apply markdown_link_valid|by apply IH].
  - apply valid_cons in Ht as [Hr Ht]. apply valid_cons. split; [done|by apply IH].
Qed.

Lemma take_digits_suffix t : let '(d, t') := take_digits t in t = d ++ t'.
Proof. induction t as [|r t IH]; [done|]. simpl. destruct (is_digit_rune r); [|done]. destruct (take_digits t). by rewrite IH. Qed.

Lemma match_line_no_suffix t t' : match_line_no t = Some t' -> exists p, t = p ++ t'.
Proof.
  unfold match_line_no. destruct t as [|r t]; [done|]. intros H.
  assert (r = 76 /\ match take_digits t with ([], _) => None | (_, t) => Some t end = Some t') as [-> Hm].
  { destruct r as [|p|p]; try done. do 7 (destruct p as [p|p|]; try done). }
  pose proof (take_digits_suffix t) as Hs. destruct (take_digits t) as [[|d ds] t2]; [done|]. injection Hm as <-.
  exists (76 :: d :: ds). by rewrite Hs.
Qed.

Lemma match_harmony_suffix t digits after : match_harmony t = Some (digits, after) -> exists p, t = p ++ after.
Proof.
  unfold match_harmony. destruct t as [|r t]; [done|]. destruct (r =? flbracket) eqn:E; [|done]. bool_simp. subst.
  pose proof (take_digits_suffix t) as Hd. destruct (take_digits t) as [[|d ds] t1]; [done|].
  destruct (match_lines_close t1) as [t2|] eqn:Em; [|done]. cbn [mbind option_bind]. intros [= <- <-].
  enough (exists p, t1 = p ++ t2) as [p Hp] by (exists (flbracket :: (d :: ds) ++ p); rewrite Hd, Hp; simpl; by rewrite <- app_assoc).
  assert (forall t t', (match t with r :: t => if r =? frbracket then Some t else None | [] => None end) = Some t' -> exists p, t = p ++ t') as Hclose.
  { intros [|r u] u'; [done|]. destruct (r =? frbracket); [|done]. intros [= <-]. by exists [r]. }
  clear Hd. unfold match_lines_close in Em. destruct t1 as [|r t1]; [done|]. destruct (r =? dagger).
  - destruct (match_line_no t1) as [t3|] eqn:E1; [|done]. cbn [mbind option_bind] in Em. apply match_line_no_suffix in E1 as [p1 ->].
    assert (exists p, t3 = p ++ t2) as [p ->].
    { destruct t3 as [|q t3]; [done|]. destruct (decide (q = 45)) as [->|Hq].
      - destruct (match_line_no t3) as [t4|] eqn:E2; [|done]. cbn [mbind option_bind] in Em. apply match_line_no_suffix in E2 as [p2 ->].
        apply Hclose in Em as [p ->]. exists (45 :: p2 ++ p). simpl. by rewrite <- app_assoc.
      - apply Hclose. rewrite <- Em. destruct q as [|q|q]; try done. do 6 (destruct q as [q|q|]; try done). }
    exists (r :: p1 ++ p). simpl. by rewrite <- app_assoc.
  - by apply Hclose.
Qed.

Lemma cursor_link_valid c digits link : valid_sources c -> cursor_link c digits = Some link -> valid_text link.
Proof.
  intros Hs. unfold cursor_link. destruct (ParseInt _) as [n|]; [|done]. cbn [mbind option_bind].
  destruct (head _) as [s|] eqn:E; [|done]. cbn [mbind option_bind]. intros [= <-].
  assert (s ∈ Sources c) as Hin.
  { destruct (filter _ (Sources c)) as [|s' l] eqn:Ef; [done|]. injection E as ->.
    assert (s ∈ filter (fun s => Index s = n) (Sources c)) as H by (rewrite Ef; left). by apply list_elem_of_filter in H as [_ H]. }
  unfold valid_sources in Hs. rewrite Forall_forall in Hs. destruct (Hs s Hin) as [Hu Ht].
  change (valid_text (markdown_link (if bool_decide (Title s = []) then runes "Source" else Title s) (URL s))).
  apply markdown_link_valid; [|done]. by case_bool_decide.
Qed.

Lemma resolve_tokens_valid c fuel : valid_sources c -> forall t, valid_text t -> valid_text (resolve_tokens fuel c t).
Proof.
  intros Hs. induction fuel as [|fuel IH]; intros t Ht; [done|]. cbn [resolve_tokens]. destruct t as [|r t]; [done|].
  destruct (match_harmony (r :: t)) as [[digits after]|] eqn:E.
  - apply match_harmony_suffix in E as [p E]. rewrite E in Ht |- *. apply valid_app in Ht as [Hp Ha]. apply valid_app. split; [|by apply IH].
    destruct (cursor_link c digits) as [link|] eqn:El; [by eapply cursor_link_valid|]. cbn [default].
    rewrite length_app, Nat.add_sub, take_app_length. done.
  - apply valid_cons in Ht as [Hr Ht]. apply valid_cons. split; [done|by apply IH].
Qed.

Lemma rendered_valid c s : valid_sources c -> valid_text (rendered c s).
Proof.
  intros Hs. unfold rendered, NormalizeLinks, ResolveHarmonyCitations.
  assert (valid_text (text_of s)) as Ht by apply decode_valid.
  assert (valid_text (if Harmony c && bool_decide (flbracket ∈ text_of s) then resolve_tokens (length (text_of s)) c (text_of s) else text_of s)) as Hr.
  { destruct (_ && _); [by apply resolve_tokens_valid|done]. }
  destruct (_ || _); [done|by apply replace_links_valid].
Qed.

(** ** The annotations of the Chat surface *)

Definition shift_annotation (k : nat) (m : Annotation) : Annotation := MkAnnotation (StartIndex m + k) (EndIndex m + k) (a_Source m).

Lemma shift_nested_one k m : (StartIndex m <= EndIndex m)%nat -> Z.of_nat (EndIndex m + k) <= int64_max ->
  shift_nested (Z.of_nat k) (nested_annotation m) = nested_annotation (shift_annotation k m).
Proof.
  intros Hle Hb.
  assert (forall n, (n <= EndIndex m)%nat -> wrap64 (Z.of_nat n + Z.of_nat k) = Z.of_nat (n + k)) as Hw.
  { intros n Hn. rewrite wrap64_id; [lia|]. unfold in_int64, int64_min. lia. }
  transitivity (JObj {["type" := JStr "url_citation";
    "url_citation" := JObj {["url" := jtext (URL (a_Source m)); "title" := jtext (CitationTitle (a_Source m));
                             "start_index" := JInt (wrap64 (Z.of_nat (StartIndex m) + Z.of_nat k));
                             "end_index" := JInt (wrap64 (Z.of_nat (EndIndex m) + Z.of_nat k))]}]}); [reflexivity|].
  by rewrite !Hw by lia.
Qed.

Lemma shift_nested_all l k : Forall (fun m => (StartIndex m <= EndIndex m)%nat /\ Z.of_nat (EndIndex m + k) <= int64_max) l ->
  ShiftNestedAnnotationIndices (map nested_annotation l) (Z.of_nat k) = map nested_annotation (map (shift_annotation k) l).
Proof.
  intros Hl. unfold ShiftNestedAnnotationIndices. destruct (Z.of_nat k =? 0) eqn:E; bool_simp.
  - rewrite map_map. apply map_ext. intros m. unfold shift_annotation. replace k with 0%nat by lia. rewrite !Nat.add_0_r. by destruct m.
  - rewrite !map_map. rewrite Forall_forall in Hl. apply map_ext_in. intros m Hm%list_elem_of_In. by apply shift_nested_one; apply Hl.
Qed.

Section Attach.
Context (Marshal : json -> option text) (uuid : nat -> string).
(** [json.Marshal] emits valid UTF-8. *)
Context (Marshal_valid : forall v t, Marshal v = Some t -> valid_text t).
Context (Parse : text -> option ParsedURL) (Query : ParsedURL -> gmap text (list text))
  (Encode : gmap text (list text) -> text) (Print : ParsedURL -> text) (ToLower : text -> text).

Lemma marker_valid id status action reason sources pii : valid_text (tinfoilEventMarker Marshal id status action reason sources pii).
Proof.
  unfold tinfoilEventMarker. apply valid_cons. split; [done|]. apply valid_app. split; [done|]. apply valid_app. split; [|done].
  destruct (Marshal _) as [t|] eqn:E; [by eapply Marshal_valid|done].
Qed.

Lemma markers_valid records n : valid_text (tinfoilEventMarkersForRecords Marshal uuid records n).1.
Proof.
  unfold tinfoilEventMarkersForRecords. apply (foldl_inv _ (fun acc => valid_text acc.1)); [done|].
  intros acc record _ Hacc. apply (foldl_inv _ (fun acc => valid_text acc.1)); [done|].
  intros [out m] [[action sources] pii] _ Ho. cbn [write_pair fst] in *. rewrite !valid_app. split; [done|]. split; apply marker_valid.
Qed.

(** An annotation of a text: the label of a link, whose URL it cites. *)
Definition annotates (state : State) (shown : text) (ann : json) : Prop :=
  exists pre label url post s a, shown = pre ++ markdown_link label url ++ post /\ is_link label url
    /\ ResolveSource Parse Query Encode Print ToLower (Some state) url = Some s
    /\ a = MkAnnotation (S (length pre)) (S (length pre) + length label) (MkSource (Index s) url (Title s)) /\ ann = nested_annotation a.

Lemma cited_annotates state t f a k prefix : valid_text t -> f ∈ find_links (length t) 0 t -> length prefix = k ->
  cite Parse Query Encode Print ToLower state f = Some a -> annotates state (prefix ++ t) (nested_annotation (shift_annotation k a)).
Proof.
  intros Hv Hf Hk Ha. unfold cite in Ha. destruct (ResolveSource _ _ _ _ _ _ _) as [s|] eqn:Es; [|done]. injection Ha as <-.
  apply find_links_sound in Hf as (pre & post & Ht & Hs & Hl).
  exists (prefix ++ pre), (f_label f), (f_url f), post, s. eexists. split; [rewrite <- app_assoc, <- Ht; reflexivity|]. split; [exact Hl|]. split; [exact Es|].
  split; [reflexivity|]. f_equal. unfold shift_annotation, label_start, label_end. cbn [StartIndex EndIndex a_Source]. rewrite Hs, length_app, Hk.
  f_equal; lia.
Qed.

(** The annotations found, moved past what is put in front. *)
Lemma nested_annotates state prefix s : valid_sources state -> Z.of_nat (length (prefix ++ rendered state s)) <= int64_max ->
  exists anns, ShiftNestedAnnotationIndices (NestedAnnotationsFor Parse Query Encode Print ToLower (Some state) (rendered state s)) (RuneCount prefix) = anns
    /\ Forall (annotates state (prefix ++ rendered state s)) anns.
Proof.
  intros Hs Hb. pose proof (rendered_valid state s Hs) as Hv. unfold NestedAnnotationsFor, RuneCount.
  rewrite MatchesFor_spec by done. rewrite shift_nested_all.
  - eexists. split; [reflexivity|]. apply Forall_forall. intros ann (b & -> & (a & -> & Ha)%list_elem_of_fmap)%list_elem_of_fmap.
    apply list_elem_of_omap in Ha as (f & Hf & Ha). by eapply cited_annotates.
  - apply Forall_forall. intros a (f & Hf & Ha)%list_elem_of_omap. unfold cite in Ha. destruct (ResolveSource _ _ _ _ _ _ _) as [src|]; [|done].
    injection Ha as <-. cbn [StartIndex EndIndex]. split; [unfold label_start, label_end; lia|].
    apply find_links_sound in Hf as (pre & post & Ht & Hst & _). unfold label_end. rewrite Hst. rewrite length_app, Ht in Hb.
    rewrite !length_app in Hb. unfold markdown_link in Hb. cbn [length] in Hb. rewrite !length_app in Hb. cbn [length] in Hb.
    rewrite !length_app in Hb. simpl in *. lia.
Qed.

(** What the Chat surface shows for the model's text is that text behind the
    markers the client opted into, and every annotation marks, by the rune
    offsets of the text shown, the label of a link to a recorded source. *)
Theorem chat_annotations_span_labels state records webSearch message n :
  valid_sources state ->
  let message' := (attach_message Marshal uuid Parse Query Encode Print ToLower state records webSearch message n).1 in
  let shown := text_of (get_string "content" message') in
  Z.of_nat (length shown) <= int64_max ->
  exists prefix anns, shown = prefix ++ rendered state (get_string "content" message)
    /\ prefix = (if webSearch then (tinfoilEventMarkersForRecords Marshal uuid records n).1 else [])
    /\ get "annotations" message' = match anns with [] => get "annotations" message | _ => JArr anns end
    /\ Forall (annotates state shown) anns.
Proof.
  intros Hs. cbv zeta. unfold attach_message.
  set (prefix_n := if webSearch then _ else _).
  assert (valid_text prefix_n.1) as Hp by (unfold prefix_n; destruct webSearch; [apply markers_valid|done]).
  assert (prefix_n.1 = if webSearch then (tinfoilEventMarkersForRecords Marshal uuid records n).1 else []) as Hpe by (unfold prefix_n; by destruct webSearch).
  destruct prefix_n as [prefix m]. cbn [fst] in *.
  pose proof (rendered_valid state (get_string "content" message) Hs) as Hr.
  set (t := rendered state (get_string "content" message)) in *.
  set (anns := ShiftNestedAnnotationIndices (NestedAnnotationsFor Parse Query Encode Print ToLower (Some state) t) (RuneCount prefix)).
  assert (exists content, content = prefix ++ t /\
    match prefix with [] => (t, NestedAnnotationsFor Parse Query Encode Print ToLower (Some state) t) | _ => (prefix ++ t, anns) end = (content, anns)) as (content & Hc & ->).
  { destruct prefix; [by exists t|]. by eexists. }
  assert (text_of (string_of content) = content) as Hround.
  { apply text_of_string_of. rewrite Hc. by apply valid_app. }
  assert (get_string "content" (match anns with [] => <["content" := JStr (string_of content)]> message
    | _ => <["annotations" := JArr anns]> (<["content" := JStr (string_of content)]> message) end) = string_of content) as Hg.
  { unfold get_string. destruct anns; [by rewrite get_insert|]. rewrite get_insert_ne by done. by rewrite get_insert. }
  cbn [fst]. rewrite Hg, Hround. intros Hb. exists prefix, anns. split; [done|]. split; [done|]. split.
  - destruct anns; [by rewrite get_insert_ne|by rewrite get_insert].
  - rewrite Hc. destruct (nested_annotates state prefix (get_string "content" message) Hs) as (anns' & <- & H); [|exact H].
    by rewrite Hc in Hb.
Qed.
End Attach.

(** ** The items of the Responses surface *)

Lemma imap_forallb {A B} (f : nat -> A -> B) (P : B -> bool) l : (forall i x, P (f i x) = true) -> forallb P (imap f l) = true.
Proof. intros H. revert f H. induction l as [|x l IH]; intros f H; [done|]. simpl. rewrite H. apply IH. intros. apply H. Qed.

Lemma set_some_type k v m : k <> "type" -> get_string "type" (set_some k v m) = get_string "type" m.
Proof. intros Hk. unfold set_some. destruct v; [|done]. unfold get_string. by rewrite get_insert_ne. Qed.

Lemma event_synthesized id status code action pii : synthesized (JObj (webSearchCallEvent id status code action pii)) = true.
Proof. unfold synthesized, webSearchCallEvent. rewrite set_some_type by done. reflexivity. Qed.

Lemma record_items_spec uuid include record n :
  forallb synthesized (record_items uuid include record n) = true
  /\ length (record_items uuid include record n) = length (record_actions record).
Proof.
  unfold record_items, record_actions. destruct (isRouterSearchToolName _).
  { split; [|done]. cbn [forallb]. by rewrite event_synthesized. }
  destruct (isRouterFetchToolName _); [|done]. rewrite length_imap, length_map. split; [|done].
  apply imap_forallb. intros. apply event_synthesized.
Qed.

Lemma items_spec uuid include records : forall n,
  let '(items, _) := buildWebSearchCallOutputItems uuid records include n in
  forallb synthesized items = true /\ length items = length (flat_map record_actions records).
Proof.
  induction records as [|record records IH]; intros n; [done|]. cbn [buildWebSearchCallOutputItems flat_map].
  destruct (record_items_spec uuid include record n) as [Hs Hl].
  specialize (IH (n + length (record_items uuid include record n))%nat). destruct (buildWebSearchCallOutputItems _ _ _ _) as [rest m].
  destruct IH as [IHs IHl]. rewrite forallb_app, Hs, !length_app, Hl, IHl. split; [exact IHs|reflexivity].
Qed.

Lemma filter_synthesized l : forallb synthesized l = true -> List.filter (fun raw => negb (synthesized raw)) l = [].
Proof. induction l as [|x l IH]; [done|]. simpl. intros [-> Hl]%andb_true_iff. by apply IH. Qed.

Lemma filter_not_synthesized l : forallb (fun raw => negb (synthesized raw)) l = true -> List.filter (fun raw => negb (synthesized raw)) l = l.
Proof. induction l as [|x l IH]; [done|]. simpl. intros [-> Hl]%andb_true_iff. by rewrite IH. Qed.

(** Annotating an item leaves its type alone. *)
Lemma attach_item_synthesized Parse Query Encode Print ToLower state raw :
  synthesized (attach_item Parse Query Encode Print ToLower state raw) = synthesized raw.
Proof.
  unfold attach_item. destruct raw as [| | | | | | |item]; try done. destruct (String.eqb _ _); [|done].
  destruct (get "content" item); try done. unfold synthesized, get_string. by rewrite get_insert_ne.
Qed.


(** ** Examples *)

Definition empty_object (_ : json) : option text := Some (runes "{}").

Definition search_record : toolCallRecord :=
  MkRecord "router_search" {["query" := JStr "q"]} ["https://a.io/x"] [MkCallSource "https://a.io/x" "A" "" "" ""] "" None (MkBilling 0 false).

Definition example_state : State := MkState 2 [MkSource 1 (runes "https://a.io/x") (runes "A")] false.
Definition example_message : object := {["content" := JStr "see [here](https://a.io/x)"]}.

Lemma chat_annotations_span_labels_witness :
  let message' := (attach_message empty_object (fun _ => "1") toy_parse toy_query toy_encode toy_print (fun t => t) example_state [search_record] true example_message 0).1 in
  exists anns, get "annotations" message' = JArr anns /\ length anns = 1%nat
    /\ Forall (annotates toy_parse toy_query toy_encode toy_print (fun t => t) example_state (text_of (get_string "content" message'))) anns.
Proof.
  destruct (chat_annotations_span_labels empty_object (fun _ => "1") ltac:(intros v t [= <-]; reflexivity) toy_parse toy_query toy_encode toy_print
    (fun t => t) example_state [search_record] true example_message 0) as (prefix & anns & _ & _ & Ha & Hf).
  - constructor; [split; reflexivity|constructor].
  - vm_compute. discriminate.
  - exists anns. split; [|split; [|exact Hf]].
    + destruct anns as [|a anns]; [vm_compute in Ha; discriminate Ha|exact Ha].
    + destruct anns as [|a [|b anns]]; [vm_compute in Ha; discriminate Ha|reflexivity|vm_compute in Ha; discriminate Ha].
Defined.

Definition example_items : list json :=
  [JObj {["type" := JStr "message"; "content" := JArr [JObj {["type" := JStr "output_text"; "text" := JStr "see [here](https://a.io/x)"]}]]}].


Definition receipt (v : json) : serviceBilling := piiBillingFromStructured "router_search" (Some (JObj {["pii_filter_requests" := v]})) false.

Example receipts :
  map receipt [JInt 0; JInt 1; JFloat (f64_of_int 1); JInt 2; JStr "1"]
  = [MkBilling 0 false; MkBilling 1 false; MkBilling 1 false; MkBilling 0 true; MkBilling 0 true].
Proof. vm_compute. reflexivity. Qed.

Example opt_in_header : map parseTinfoilEventFlags ["a, Web_Search "; "web"; ""] = [true; false; false].
Proof. vm_compute. reflexivity. Qed.
