(* ===== verification/Sse.v ===== *)
(** * Event streams on the wire ([toolruntime/sse_reader.go], [sse_heartbeat.go])

    The incremental reader of an upstream event stream, the frames the router
    writes, and the heartbeat that keeps an idle client stream alive.

    An upstream body is the bytes it delivers and the read error it ends with,
    if any; [bufio.Scanner] splits it whatever the chunks it arrives in.
    Encoding a body as JSON is a parameter.  The heartbeat's operations are
    atomic, as its mutex makes them, and its timer is part of the state. *)

From Stdlib Require Import Ascii.
From S2P Require Import Prelude Sha256 CacheSalt Lines Json.
#[local] Open Scope string_scope.
#[local] Open Scope list_scope.
#[local] Open Scope Z_scope.

(** ** The scanner *)

Definition maxSSELineBytes : Z := Z.shiftl 1 22.

Inductive stream_error := TooLong | ReadError (msg : string).

(** A line fills the buffer before its newline is seen. *)
Definition too_long (raw : bytes) : bool := maxSSELineBytes <=? Z.of_nat (length raw).

Fixpoint until_too_long (raws : list bytes) : list bytes * bool :=
  match raws with
  | [] => ([], false)
  | raw :: raws => if too_long raw then ([], true) else let '(ls, stop) := until_too_long raws in (trim_cr raw :: ls, stop)
  end.

(** The lines [bufio.ScanLines] yields: the last one need not be terminated. *)
Definition raw_lines (s : bytes) : list bytes := let '(ls, r) := lines_of s in match r with [] => ls | _ => ls ++ [r] end.

(** ** The reader *)

Record sseFrame := MkFrame { f_event : bytes; f_data : bytes }.

(** What the scanner still has, and how it ends. *)
Record sseReader := MkReader { r_lines : list bytes; r_err : option stream_error }.

Definition newSSEReader (body : bytes) (readErr : option string) : sseReader :=
  let '(ls, stop) := until_too_long (raw_lines body) in
  MkReader ls (if stop then Some TooLong else ReadError <$> readErr).

Definition colon : ascii := byte_of 58.

Fixpoint cut_colon (line : bytes) : option (bytes * bytes) :=
  match line with
  | [] => None
  | c :: line => if Ascii.eqb c colon then Some ([], line) else '(a, b) ← cut_colon line; Some (c :: a, b)
  end.

Definition splitSSEField (line : bytes) : bytes * bytes :=
  match cut_colon line with
  | None => (line, [])
  | Some (name, value) => (name, TrimPrefix value (to_bytes " "))
  end.

(** [io.EOF] is [None]. *)
Definition next_result : Type := (sseFrame + option stream_error) * sseReader.

(** The scan loop of [next]; [haveData] holds exactly when there are data lines. *)
Fixpoint next_loop (err : option stream_error) (event : bytes) (dataLines : list bytes) (lines : list bytes) : next_result :=
  match lines with
  | [] =>
      (match err, dataLines with
       | Some e, _ => inr (Some e)
       | None, _ :: _ => inl (MkFrame event (join_values dataLines))
       | None, [] => inr None
       end, MkReader [] err)
  | [] :: lines =>
      match dataLines with
      | _ :: _ => (inl (MkFrame event (join_values dataLines)), MkReader lines err)
      | [] => next_loop err [] [] lines
      end
  | line :: lines =>
      if match line with c :: _ => Ascii.eqb c colon | [] => false end then next_loop err event dataLines lines
      else
        let '(name, value) := splitSSEField line in
        if bool_decide (name = to_bytes "event") then next_loop err value dataLines lines
        else if bool_decide (name = to_bytes "data") then next_loop err event (dataLines ++ [value]) lines
        else next_loop err event dataLines lines
  end.

Definition next (r : sseReader) : next_result := next_loop (r_err r) [] [] (r_lines r).

(** Every frame the reader gives, and how the stream ended; a frame takes a line
    or more, so the fuel is one more than the lines left. *)
Fixpoint read_loop (fuel : nat) (r : sseReader) : list sseFrame * option stream_error :=
  match fuel with
  | O => ([], None)
  | S fuel =>
      match next r with
      | (inl f, r) => let '(fs, e) := read_loop fuel r in (f :: fs, e)
      | (inr e, _) => ([], e)
      end
  end.

Definition read_all (r : sseReader) : list sseFrame * option stream_error := read_loop (S (length (r_lines r))) r.

(** ** What the router writes *)

Section Writing.
Context (Marshal : json -> option bytes).

(** The write [sseData] makes; [None] when the body cannot be encoded. *)
Definition data_frame (payload : bytes) : bytes := to_bytes "data: " ++ payload ++ [newline; newline].
Definition event_frame (event payload : bytes) : bytes := to_bytes "event: " ++ event ++ [newline] ++ data_frame payload.

Definition sseData (body : object) : option bytes := data_frame <$> Marshal (JObj body).
Definition sseEvent (event : string) (body : object) : option bytes := event_frame (to_bytes event) <$> Marshal (JObj body).
End Writing.

Definition sseHeartbeatFrame : bytes := to_bytes ": ping" ++ [newline; newline].

(** ** The heartbeat

    Durations and times are in nanoseconds. *)

Definition sseHeartbeatInterval : Z := 15 * 10 ^ 9.

(** What the response writer is handed. *)
Inductive wire := Head (status : Z) | Body (p : bytes).

(** [h_timer] is when the goroutine wakes, while it runs; [h_out] is what
    reached the client, with the time. *)
Record heartbeatWriter := MkHeartbeat {
  h_lastWrite : Z;
  h_armed : bool;
  h_failed : option string;
  h_stopped : bool;
  h_timer : option Z;
  h_out : list (Z * wire)
}.

Definition newHeartbeatWriter : heartbeatWriter := MkHeartbeat 0 false None false None [].

Definition hb_sent (now : Z) (x : wire) (h : heartbeatWriter) : heartbeatWriter :=
  MkHeartbeat (h_lastWrite h) (h_armed h) (h_failed h) (h_stopped h) (h_timer h) (h_out h ++ [(now, x)]).

(** [WriteHeader]; the content type is the header's. *)
Definition hb_WriteHeader (now status : Z) (contentType : string) (h : heartbeatWriter) : heartbeatWriter :=
  let h := hb_sent now (Head status) h in
  if h_armed h || (status <? 200) || (status >=? 300) then h
  else if negb (bool_decide (is_Some (trim_prefix (to_bytes "text/event-stream") (to_bytes contentType)))) then h
  else
    (** [go h.run()]: a goroutine started after [Stop] returns at once *)
    MkHeartbeat now true (h_failed h) (h_stopped h) (if h_stopped h then None else Some (now + sseHeartbeatInterval)) (h_out h).

(** [fail], which keeps the first error. *)
Definition hb_fail (err : string) (h : heartbeatWriter) : heartbeatWriter :=
  MkHeartbeat (h_lastWrite h) (h_armed h) (Some (default err (h_failed h))) (h_stopped h) (h_timer h) (h_out h).

Definition hb_set_last (now : Z) (h : heartbeatWriter) : heartbeatWriter :=
  MkHeartbeat now (h_armed h) (h_failed h) (h_stopped h) (h_timer h) (h_out h).

Definition hb_set_timer (due : option Z) (h : heartbeatWriter) : heartbeatWriter :=
  MkHeartbeat (h_lastWrite h) (h_armed h) (h_failed h) (h_stopped h) due (h_out h).

(** [Write], whose underlying write has the outcome [res]: an error or none. *)
Definition hb_Write (now : Z) (p : bytes) (res : option string) (h : heartbeatWriter) : option string * heartbeatWriter :=
  match h_failed h with
  | Some e => (Some e, h)
  | None =>
      match res with
      | Some e => (Some e, hb_fail e (hb_set_last now h))
      | None => (None, hb_set_last now (hb_sent now (Body p) h))
      end
  end.

(** [beat]: how long to wait, or [None] when the client is gone. *)
Definition beat (now : Z) (res : option string) (h : heartbeatWriter) : option Z * heartbeatWriter :=
  match h_failed h with
  | Some _ => (None, h)
  | None =>
      let idle := now - h_lastWrite h in
      if idle <? sseHeartbeatInterval then (Some (sseHeartbeatInterval - idle), h)
      else
        match res with
        | Some e => (None, hb_fail e h)
        | None => (Some sseHeartbeatInterval, hb_set_last now (hb_sent now (Body sseHeartbeatFrame) h))
        end
  end.

(** The timer case of [run]'s loop. *)
Definition wake (now : Z) (res : option string) (h : heartbeatWriter) : heartbeatWriter :=
  let '(wait, h) := beat now res h in hb_set_timer (wait ← wait; Some (now + wait)) h.

(** [Stop] returns when the goroutine has. *)
Definition hb_Stop (h : heartbeatWriter) : heartbeatWriter :=
  MkHeartbeat (h_lastWrite h) (h_armed h) (h_failed h) true None (h_out h).

(** *** Runs

    The handler's calls and the goroutine's wake-ups, with the time of each.
    The timer fires when it is due: nothing happens past the due time before it. *)
Inductive hb_event :=
  | DoWriteHeader (status : Z) (contentType : string)
  | DoWrite (p : bytes) (res : option string)
  | DoWake (res : option string)
  | DoStop.

Definition on_time (now : Z) (h : heartbeatWriter) : Prop := match h_timer h with Some due => now <= due | None => True end.

Definition hb_apply (now : Z) (e : hb_event) (h : heartbeatWriter) : heartbeatWriter :=
  match e with
  | DoWriteHeader status ct => hb_WriteHeader now status ct h
  | DoWrite p res => (hb_Write now p res h).2
  | DoWake res => wake now res h
  | DoStop => hb_Stop h
  end.

Inductive hb_run : Z -> heartbeatWriter -> Prop :=
  | hb_start now : hb_run now newHeartbeatWriter
  | hb_wait now now' h : hb_run now h -> now <= now' -> on_time now' h -> hb_run now' h
  | hb_step now e h : hb_run now h -> (forall res, e = DoWake res -> h_timer h = Some now) -> hb_run now (hb_apply now e h).

(** ** Reading back what was written *)

(** A write of the handler or of the heartbeat. *)
Inductive item := IData (payload : bytes) | IEvent (event payload : bytes) | IPing.

Definition encode_item (i : item) : bytes :=
  match i with IData p => data_frame p | IEvent e p => event_frame e p | IPing => sseHeartbeatFrame end.

Definition item_frame (i : item) : option sseFrame :=
  match i with IData p => Some (MkFrame [] p) | IEvent e p => Some (MkFrame e p) | IPing => None end.

(** One line's worth: JSON and event names have no line ends. *)
Definition one_line (label : string) (v : bytes) : Prop :=
  newline ∉ v /\ last v <> Some (byte_of 13) /\ Z.of_nat (length (to_bytes label ++ v)) < maxSSELineBytes.

Definition writable (i : item) : Prop :=
  match i with
  | IData p => one_line "data: " p
  | IEvent e p => one_line "event: " e /\ one_line "data: " p
  | IPing => True
  end.

Definition item_lines (i : item) : list bytes :=
  match i with
  | IData p => [to_bytes "data: " ++ p; []]
  | IEvent e p => [to_bytes "event: " ++ e; to_bytes "data: " ++ p; []]
  | IPing => [to_bytes ": ping"; []]
  end.

Definition terminated (ls : list bytes) : bytes := concat (map (fun l => l ++ [newline]) ls).

Lemma terminated_app a b : terminated (a ++ b) = terminated a ++ terminated b.
Proof. unfold terminated. by rewrite map_app, concat_app. Qed.

Lemma encode_lines i : encode_item i = terminated (item_lines i).
Proof.
  destruct i; unfold terminated, encode_item, event_frame, data_frame, sseHeartbeatFrame, item_lines; cbn [map concat];
    rewrite ?app_nil_r, <- ?app_assoc; done.
Qed.

Lemma lines_of_line l s : newline ∉ l -> lines_of (l ++ newline :: s) = (l :: (lines_of s).1, (lines_of s).2).
Proof.
  induction l as [|c l IH]; intros Hl; cbn [app lines_of].
  - rewrite Ascii.eqb_refl. by destruct (lines_of s).
  - apply not_elem_of_cons in Hl as [Hc Hl]. rewrite IH by done. by rewrite (proj2 (Ascii.eqb_neq c newline)) by done.
Qed.

Lemma lines_of_terminated ls : Forall (fun l => newline ∉ l) ls -> lines_of (terminated ls) = (ls, []).
Proof.
  induction 1 as [|l ls Hl _ IH]; [done|]. unfold terminated in *. cbn [map concat]. rewrite <- app_assoc. cbn [app].
  by rewrite lines_of_line, IH.
Qed.

(** A line the scanner hands over as it is. *)
Definition plain (l : bytes) : Prop := newline ∉ l /\ trim_cr l = l /\ too_long l = false.

Lemma until_plain ls : Forall plain ls -> until_too_long ls = (ls, false).
Proof. induction 1 as [|l ls (_ & Ht & Hl) _ IH]; [done|]. cbn [until_too_long]. by rewrite Hl, IH, Ht. Qed.

Lemma trim_cr_plain l : last l <> Some (byte_of 13) -> trim_cr l = l.
Proof. intros H. unfold trim_cr. destruct (last l) as [c|]; [|done]. destruct (Ascii.eqb_spec c (byte_of 13)); [by subst|done]. Qed.

Lemma one_line_plain label v : newline ∉ to_bytes label -> last (to_bytes label) <> Some (byte_of 13) -> one_line label v ->
  plain (to_bytes label ++ v).
Proof.
  intros Hn Hl (Hv & Hc & Hs). split; [by apply not_elem_of_app|]. split; [|unfold too_long; by apply Z.leb_gt].
  apply trim_cr_plain. rewrite last_app. by destruct (last v).
Qed.

Lemma item_plain i : writable i -> Forall plain (item_lines i).
Proof.
  assert (plain []) as He by (split; [apply not_elem_of_nil|done]).
  assert (newline ∉ to_bytes "data: " /\ newline ∉ to_bytes "event: " /\ newline ∉ to_bytes ": ping") as (Hd & Hv & Hp)
    by (split_and!; apply (bool_decide_unpack _); vm_compute; exact I).
  destruct i as [p|e p|]; cbn [writable item_lines].
  - intros Hp1. rewrite Forall_cons, Forall_singleton. split; [by apply one_line_plain|done].
  - intros [He1 Hp1]. rewrite !Forall_cons, Forall_nil. split_and!; [by apply one_line_plain|by apply one_line_plain|done..].
  - intros _. by rewrite Forall_cons, Forall_singleton.
Qed.

(** The reader, over the lines of an item. *)
Lemma next_item err i ls :
  next_loop err [] [] (item_lines i ++ ls) =
    match item_frame i with Some f => (inl f, MkReader ls err) | None => next_loop err [] [] ls end.
Proof. by destruct i. Qed.

Lemma read_items items err : forall fuel, (length items < fuel)%nat ->
  read_loop fuel (MkReader (concat (map item_lines items)) err) = (omap item_frame items, err).
Proof.
  induction items as [|i items IH]; intros [|fuel] Hf; try (simpl in Hf; lia); cbn [map concat read_loop]; unfold next; cbn [r_err r_lines].
  { cbn [next_loop]. by destruct err. }
  rewrite next_item. destruct (item_frame i) as [f|] eqn:Ei; cbn [omap list_omap]; rewrite Ei.
  - rewrite IH by (simpl in Hf; lia). done.
  - specialize (IH (S fuel) ltac:(simpl in Hf; lia)). exact IH.
Qed.

Lemma item_lines_nonempty i : (1 <= length (item_lines i))%nat.
Proof. destruct i; simpl; lia. Qed.

Lemma terminated_items items : concat (map encode_item items) = terminated (concat (map item_lines items)).
Proof. induction items as [|i items IH]; [done|]. cbn [map concat]. by rewrite terminated_app, <- encode_lines, IH. Qed.


(** An event the connection broke off before its blank line is still delivered,
    and a comment or a lone event name is not. *)
Example last_event_kept :
  read_all (newSSEReader (to_bytes ": hi" ++ [newline; newline] ++ to_bytes "event: x" ++ [newline; newline] ++ to_bytes "data:1" ++ [newline] ++ to_bytes "data: 2") None)
  = ([MkFrame [] (to_bytes "1" ++ [newline] ++ to_bytes "2")], None).
Proof. vm_compute. reflexivity. Qed.


(** ** The heartbeat keeps the stream alive *)

(** Whether the handler's writes still reach the client. *)
Definition live (h : heartbeatWriter) : Prop := h_failed h = None.

Record heartbeat_ok (now : Z) (h : heartbeatWriter) : Prop := {
  hb_timer : forall due, h_timer h = Some due -> h_armed h = true /\ h_stopped h = false /\ now <= due /\ due <= h_lastWrite h + sseHeartbeatInterval;
  hb_last : h_armed h = true -> live h -> exists t x, last (h_out h) = Some (t, x) /\ h_lastWrite h <= t <= now;
  hb_ran : h_armed h = true -> h_stopped h = false -> live h -> is_Some (h_timer h);
  hb_past : h_armed h = true -> h_lastWrite h <= now
}.

Lemma arm_ok now status ct h : heartbeat_ok now h -> heartbeat_ok now (hb_WriteHeader now status ct h).
Proof.
  intros [Ht Hl Hr Hp]. unfold hb_WriteHeader. set (h1 := hb_sent now (Head status) h).
  assert (last (h_out h1) = Some (now, Head status)) as Hout by (cbn; by rewrite last_snoc).
  assert (heartbeat_ok now h1) as Hok.
  { split; [done| |done|done]. intros Ha _. exists now, (Head status). split; [done|]. specialize (Hp Ha). cbn. lia. }
  destruct (h_armed h1 || _ || _) eqn:Ea; [done|]. destruct (negb _); [done|]. bool_simp.
  split; cbn [h_timer h_armed h_stopped h_lastWrite h_out h_failed].
  - destruct (h_stopped h1); [done|]. intros due [= <-]. split_and!; [done|done|unfold sseHeartbeatInterval; lia|lia].
  - intros _ _. exists now, (Head status). split; [done|lia].
  - intros _ ->. by eexists.
  - lia.
Qed.

Lemma write_ok now p res h : heartbeat_ok now h -> heartbeat_ok now (hb_Write now p res h).2.
Proof.
  intros [Ht Hl Hr Hp]. unfold hb_Write. destruct (h_failed h) as [e|] eqn:Hf; [done|].
  assert (forall due, h_timer h = Some due -> h_armed h = true /\ h_stopped h = false /\ now <= due /\ due <= now + sseHeartbeatInterval) as Ht'.
  { intros due Hd. destruct (Ht due Hd) as (Ha & ? & ? & ?). specialize (Hp Ha). split_and!; [done..|lia]. }
  destruct res as [e|]; cbn [snd]; (split; cbn [hb_fail hb_set_last hb_sent h_timer h_armed h_stopped h_lastWrite h_out h_failed]; [exact Ht'| | |lia]).
  - done.
  - done.
  - intros _ _. exists now, (Body p). split; [by rewrite last_snoc|lia].
  - done.
Qed.

Lemma wake_ok now res h : h_timer h = Some now -> heartbeat_ok now h -> heartbeat_ok now (wake now res h).
Proof.
  intros Hdue [Ht Hl Hr Hp]. destruct (Ht now Hdue) as (Ha & Hs & _ & Hdl). specialize (Hp Ha).
  unfold wake, beat. destruct (h_failed h) as [e|] eqn:Hf.
  { split; cbn; [done| |unfold live; cbn; by rewrite Hf|done]. unfold live. cbn. by rewrite Hf. }
  destruct (now - h_lastWrite h <? sseHeartbeatInterval) eqn:Ei; bool_simp.
  { split; cbn; [intros due [= <-]; split_and!; [done|done|lia|lia]|done|by eexists|done]. }
  destruct res as [e|].
  - split; cbn; done.
  - split; cbn; [intros due [= <-]; unfold sseHeartbeatInterval; split_and!; [done|done|lia|lia]| |by eexists|lia].
    intros _ _. exists now, (Body sseHeartbeatFrame). split; [by rewrite last_snoc|lia].
Qed.

Lemma heartbeat_reach now h : hb_run now h -> heartbeat_ok now h.
Proof.
  induction 1 as [now|now now' h _ IH Hle Hot|now e h _ IH Hw].
  - split; done.
  - destruct IH as [Ht Hl Hr Hp]. split; [| |done|].
    + intros due Hd. destruct (Ht due Hd) as (? & ? & ? & ?). unfold on_time in Hot. rewrite Hd in Hot. done.
    + intros Ha Hf. destruct (Hl Ha Hf) as (t & x & ? & ?). exists t, x. split; [done|lia].
    + intros Ha. specialize (Hp Ha). lia.
  - destruct e as [status ct|p res|res|]; cbn [hb_apply]; [by apply arm_ok|by apply write_ok|by apply wake_ok; [apply (Hw res)|]|].
    destruct IH as [Ht Hl Hr Hp]. split; done.
Qed.

(** C24: from the moment the headers of an event stream are out until the handler
    stops or a write fails, the client never waits longer than the interval for
    bytes, whenever the handler writes; after a failed write nothing more
    reaches the client, and every write reports that failure. *)
Theorem heartbeat_bounds_silence now h : hb_run now h ->
  (h_armed h = true -> h_stopped h = false -> live h ->
     exists t x, last (h_out h) = Some (t, x) /\ now - t <= sseHeartbeatInterval)
  /\ (forall err now' p res, h_failed h = Some err -> hb_Write now' p res h = (Some err, h))
  /\ (forall err now' res, h_failed h = Some err -> wake now' res h = hb_set_timer None h).
Proof.
  intros Hr. pose proof (heartbeat_reach _ _ Hr) as [Ht Hl Hran Hp]. split; [|split].
  - intros Ha Hs Hf. destruct (Hran Ha Hs Hf) as [due Hd]. destruct (Ht due Hd) as (_ & _ & ? & ?). destruct (Hl Ha Hf) as (t & x & ? & ?).
    exists t, x. split; [done|lia].
  - intros err now' p res Hf. unfold hb_Write. by rewrite Hf.
  - intros err now' res Hf. unfold wake, beat. by rewrite Hf.
Qed.

(** A handler that arms the stream, writes once after 5 s and then computes: the
    client gets a heartbeat 15 s after that write, and another 15 s later. *)
Definition second : Z := 10 ^ 9.

Definition quiet_run : heartbeatWriter :=
  wake (35 * second) None (wake (20 * second) None (wake (15 * second) None
    (hb_Write (5 * second) (to_bytes "data: 1") None (hb_WriteHeader 0 200 "text/event-stream" newHeartbeatWriter)).2)).

Lemma quiet_run_reachable : hb_run (35 * second) quiet_run.
Proof.
  assert (hb_run 0 (hb_WriteHeader 0 200 "text/event-stream" newHeartbeatWriter)) as H0.
  { apply (hb_step 0 (DoWriteHeader 200 "text/event-stream")); [apply hb_start|done]. }
  apply (hb_wait _ (5 * second)) in H0; [|vm_compute; discriminate|vm_compute; discriminate].
  apply (hb_step _ (DoWrite (to_bytes "data: 1") None)) in H0; [|done]. cbn [hb_apply] in H0.
  apply (hb_wait _ (15 * second)) in H0; [|vm_compute; discriminate|vm_compute; discriminate].
  apply (hb_step _ (DoWake None)) in H0; [|intros; vm_compute; reflexivity]. cbn [hb_apply] in H0.
  apply (hb_wait _ (20 * second)) in H0; [|vm_compute; discriminate|vm_compute; discriminate].
  apply (hb_step _ (DoWake None)) in H0; [|intros; vm_compute; reflexivity]. cbn [hb_apply] in H0.
  apply (hb_wait _ (35 * second)) in H0; [|vm_compute; discriminate|vm_compute; discriminate].
  apply (hb_step _ (DoWake None)) in H0; [|intros; vm_compute; reflexivity]. exact H0.
Qed.

Lemma heartbeat_bounds_silence_witness :
  map (fun x => x.1 / second) (h_out quiet_run) = [0; 5; 20; 35]
  /\ exists t x, last (h_out quiet_run) = Some (t, x) /\ 35 * second - t <= sseHeartbeatInterval.
Proof.
  split; [vm_compute; reflexivity|].
  apply (proj1 (heartbeat_bounds_silence _ _ quiet_run_reachable)); vm_compute; reflexivity.
Defined.
