(* ===== verification/Proxy.v ===== *)
(** * Proxying and failover ([manager/proxy.go], [retry.go], [Enclave.ServeHTTP] of [manager.go])

    What the router does with the outcome of a request it forwards: the breaker
    it charges, the error it answers, the body it passes on or rewrites, the
    billing event it emits, and the one replay of a bad gateway on another
    replica.

    An attempt is given by its outcome: what the transport returned, how much of
    the body the client took, and when.  The reverse proxy of net/http/httputil
    is modelled as far as the router relies on it: which callback it calls, with
    which headers, and when it closes the body.  An error is a tree, as
    [errors.Is] and [errors.As] walk it. *)

From Stdlib Require Import Ascii.
From S2P Require Import Prelude Float64 Sha256 Strconv Lines CacheSalt Json Errors CircuitBreaker Autoroute TokenCount Headers Billing Sse.
#[local] Open Scope string_scope.
#[local] Open Scope list_scope.
#[local] Open Scope Z_scope.

(** ** Errors of a round trip *)

Inductive mark :=
  | DeadlineExceeded | ContextCanceled | errAttestationExpired | AttestationError | ConfigurationError
  | NetOpError | DNSError | ECONNREFUSED | ECONNRESET | MaxBytesError | errRetryReplica.

#[export] Instance mark_eq_dec : EqDecision mark.
Proof. solve_decision. Defined.

(** The targets an error itself matches, and the errors it wraps. *)
Inductive goerror := MkErr (marks : list mark) (wrapped : list goerror).

(** The first error of the tree that matches, in the order [errors.As] walks it. *)
Fixpoint errors_As (m : mark) (e : goerror) : option goerror :=
  match e with
  | MkErr marks wrapped =>
      if bool_decide (m ∈ marks) then Some e
      else (fix go es := match es with [] => None | e :: es => match errors_As m e with Some x => Some x | None => go es end end) wrapped
  end.
Definition errors_Is (m : mark) (e : goerror) : bool := bool_decide (is_Some (errors_As m e)).

Definition wrapped_of (e : goerror) : list goerror := match e with MkErr _ es => es end.

Definition classifyProxyError (err : goerror) : string :=
  if errors_Is DeadlineExceeded err then "timeout"
  else if errors_Is ContextCanceled err then "canceled"
  else if errors_Is errAttestationExpired err then "attestation_expired"
  else if errors_Is AttestationError err then "tls_mismatch"
  else if errors_Is ConfigurationError err then "tls_error"
  else
    let rest := if errors_Is DNSError err then "dns_error" else "transport_error" in
    match errors_As NetOpError err with
    | Some netErr =>
        if existsb (errors_Is ECONNREFUSED) (wrapped_of netErr) then "connection_refused"
        else if existsb (errors_Is ECONNRESET) (wrapped_of netErr) then "connection_reset"
        else rest
    | None => rest
    end.

Definition httpFailureReason (statusCode : Z) : string := "http_" +:+ FormatInt statusCode.

(** ** State *)

Inductive metric :=
  | ProxyFailureTotal (model host reason : string)
  | ProxySuccessTotal (model host : string)
  | SlowHeadersTotal (model host : string)
  | ClientCancellationsTotal (model host : string)
  | CircuitBreakerState (model host : string) (s : cbState)
  | ObservedTokens (model pool priority stream : string) (prompt completion cached : Z).

Definition responseHeaderTimeout : Z := 60 * Second.
Definition maxUsageMetricsBodyBytes : Z := Z.shiftl 10 20.
Definition websearchModel := "websearch".
Definition privacyFilterModel := "pii-filter".
Definition billableRequestsHeader := "X-Tinfoil-Billable-Requests".

(** A replica's proxy: where it sends, and the breaker it was built with, an
    index into the breakers. *)
Record proxy := MkProxy { px_host : string; px_model : string; px_cb : nat }.

(** What the callbacks read of an outgoing request and its context: [q_owner]
    is the breaker of the replica that served the attempt, [q_claim] the
    recovery probe the request holds. *)
Record request := MkRequest {
  q_method : string;
  q_path : string;
  q_header : Header;
  q_ctx : RequestContext;
  q_labels : option (string * string);
  q_claim : option (nat * Z);
  q_owner : option nat
}.

Record response := MkResp { rs_status : Z; rs_header : Header; rs_body : bytes; rs_err : option goerror }.

Record world := MkWorld {
  w_breakers : gmap nat circuitBreaker;
  w_metrics : list metric;
  w_collector : option Collector;
  w_writer : option usageMetricsWriter
}.

Definition set_breaker (b : nat) (cb : circuitBreaker) (w : world) : world :=
  MkWorld (<[b := cb]> (w_breakers w)) (w_metrics w) (w_collector w) (w_writer w).
Definition observe (ms : list metric) (w : world) : world := MkWorld (w_breakers w) (w_metrics w ++ ms) (w_collector w) (w_writer w).
Definition set_collector (c : Collector) (w : world) : world := MkWorld (w_breakers w) (w_metrics w) (Some c) (w_writer w).
Definition set_writer (uw : usageMetricsWriter) (w : world) : world := MkWorld (w_breakers w) (w_metrics w) (w_collector w) (Some uw).

Definition servingBreaker (q : request) (fallback : nat) : nat := default fallback (q_owner q).

(** ** Outcomes and the breaker *)

Definition publishBreakerState (px : proxy) (b : nat) (w : world) : world :=
  match w_breakers w !! b with
  | Some cb => match publishIfActive cb with Some s => observe [CircuitBreakerState (px_model px) (px_host px) s] w | None => w end
  | None => w
  end.

Definition recordFailure (px : proxy) (b : nat) (reason : string) (now : Z) (w : world) : world :=
  let w := observe [ProxyFailureTotal (px_model px) (px_host px) reason] w in
  let w := match w_breakers w !! b with Some cb => set_breaker b (RecordFailure now cb) w | None => w end in
  publishBreakerState px b w.

Definition recordSuccess (px : proxy) (b : nat) (w : world) : world :=
  let w := match w_breakers w !! b with Some cb => set_breaker b (RecordSuccess cb) w | None => w end in
  publishBreakerState px b (observe [ProxySuccessTotal (px_model px) (px_host px)] w).

(** [ProbeClaimFromContext(ctx).Abort()] *)
Definition abort_claim (px : proxy) (q : request) (now : Z) (w : world) : world :=
  match q_claim q with
  | None => w
  | Some (b, token) =>
      match w_breakers w !! b with
      | None => w
      | Some cb =>
          let '(cb', ok, gauge) := ProbeClaim_Abort now (Some token) cb in
          let w := set_breaker b cb' w in
          match gauge with Some s => observe [CircuitBreakerState (px_model px) (px_host px) s] w | None => w end
      end
  end.

(** [slowHeaderTripper]: [fired] when the timer went off before the headers came.
    Its breaker is that of the replica that served. *)
Definition slow_headers (px : proxy) (q : request) (fired : bool) (err : option goerror) (now : Z) (w : world) : world :=
  if fired then
    let w := observe [SlowHeadersTotal (px_model px) (px_host px)] w in
    match err with
    | Some e => if String.eqb (classifyProxyError e) "canceled" then recordFailure px (servingBreaker q (px_cb px)) "canceled_after_slow" now w else w
    | None => w
    end
  else w.

(** [None] writes nothing. *)
Definition ErrorHandler (px : proxy) (q : request) (err : goerror) (now : Z) (w : world) : world * option APIError :=
  if errors_Is errRetryReplica err then (w, None)
  else if errors_Is MaxBytesError err then (abort_claim px q now w, Some ErrBodyTooLarge)
  else
    let reason := classifyProxyError err in
    if String.eqb reason "canceled" then
      (abort_claim px q now (observe [ClientCancellationsTotal (px_model px) (px_host px)] w), Some ErrUpstream)
    else (recordFailure px (servingBreaker q (px_cb px)) reason now w, Some ErrUpstream).

Section Proxy.
Context (int_out_of_range : float64 -> Z) (encodable_time : Z -> bool).
(** [json.Unmarshal] of an error body, of a body's [usage] field ([None] is an
    error, [Some None] an absent field), of a stream's chunk and of a chunk's
    usage; [json.Marshal] of an error envelope. *)
Context (unmarshal_error : bytes -> option object) (unmarshal_usage : bytes -> option (option Usage))
  (unmarshal_chunk : string -> option object) (decode_usage : json -> option Usage) (marshal_envelope : ErrorBody -> bytes).

(** ** Billing *)

Definition request_api_key (q : request) : string := BearerToken (header_get (q_header q) "Authorization").
Definition is_streaming (r : response) : bool := Contains (header_get (rs_header r) "Content-Type") "text/event-stream".
Definition metrics_requested (q : request) : bool := String.eqb (header_get (q_header q) UsageMetricsRequestHeader) "true".

Definition proxy_event (px : proxy) (q : request) (r : response) (now prompt cached completion total : Z) : Event :=
  let apiKey := request_api_key q in
  MkEvent now (if String.eqb apiKey "" then "" else "authenticated_user") (px_model px) prompt cached completion total
    (header_get (rs_header r) "X-Request-Id") (px_host px) (q_path q) (is_streaming r) apiKey (CustomerRequests (q_ctx q)).

Definition add_event (e : Event) (w : world) : world :=
  match w_collector w with None => w | Some c => set_collector (AddEvent encodable_time c e) w end.

Definition emitZeroTokenEvent (px : proxy) (q : request) (r : response) (now : Z) (w : world) : world :=
  if String.eqb (request_api_key q) "" then w else add_event (proxy_event px q r now 0 0 0 0) w.

Definition observeTokenUsage (px : proxy) (q : request) (streaming : bool) (u : Usage) (w : world) : world :=
  match q_labels q with
  | None => w
  | Some (pool, priority) =>
      observe [ObservedTokens (px_model px) pool priority (if streaming then "streaming" else "non_streaming") (PromptTokens u) (CompletionTokens u)
        (CachedPromptTokens (Some u)).1] w
  end.

(** The handler of a usage that was found. *)
Definition usageHandler (px : proxy) (q : request) (r : response) (u : Usage) (now : Z) (w : world) : world :=
  let streaming := is_streaming r in
  let w := if streaming && metrics_requested q then match w_writer w with Some uw => set_writer (SetUsage uw u) w | None => w end else w in
  let w := if String.eqb (px_model px) websearchModel then w else observeTokenUsage px q streaming u w in
  if String.eqb (px_model px) websearchModel then emitZeroTokenEvent px q r now w
  else
    add_event (proxy_event px q r now (PromptTokens u) (match CachedPromptTokens (Some u) with (c, true) => c | (_, false) => 0 end)
      (CompletionTokens u) (TotalTokens u)) w.

(** ** The response *)

(** What reads the body on its way to the client. *)
Inductive extraction := NoExtraction | JsonTee | EventStream.

(** [fw_metered]: closing the body bills it when no usage was found. *)
Record forwarded := MkForward { fw_resp : response; fw_extract : extraction; fw_metered : bool }.

Definition passed (r : response) : forwarded := MkForward r NoExtraction false.

Definition normalizeUpstreamErrorResponse (r : response) : response :=
  let apiErr :=
    match rs_err r with
    | Some _ =>
        (** the error is met only when the body ends before the limit *)
        WithStatus ErrUpstream (rs_status r)
    | None =>
        if Z.of_nat (length (rs_body r)) >? MaxUpstreamErrorBodyBytes then WithStatus ErrUpstream (rs_status r)
        else (NormalizeUpstreamError unmarshal_error (rs_status r) (rs_body r)).1
    end in
  let encoded := marshal_envelope (Envelope apiErr) in
  let h := header_set (header_set (rs_header r) "Content-Type" "application/json") "Content-Length" (FormatInt (Z.of_nat (length encoded))) in
  MkResp (rs_status r) h encoded None.

Definition set_header (r : response) (name value : string) : response :=
  MkResp (rs_status r) (header_set (rs_header r) name value) (rs_body r) (rs_err r).

Definition client_requested_usage (q : request) : bool := String.eqb (header_get (q_header q) ClientRequestedUsageHeader) "true".

(** [ExtractTokensFromResponseWithHandler]: which reader is put on the body. *)
Definition extraction_of (r : response) : extraction :=
  if is_streaming r then EventStream
  else if negb (rs_status r =? 200) || negb (Contains (header_get (rs_header r) "Content-Type") "application/json") then NoExtraction
  else JsonTee.

(** The buffered reading of a JSON body for the usage header. *)
Definition buffer_usage (px : proxy) (q : request) (r : response) (pricing : option ModelPricing) (now : Z) (w : world)
  : option (world * (goerror + forwarded)) :=
  let n := Z.of_nat (length (rs_body r)) in
  match (if n <=? maxUsageMetricsBodyBytes then rs_err r else None) with
  | Some e => Some (w, inl e)
  | None =>
      if n >? maxUsageMetricsBodyBytes then Some (w, inr (passed r))
      else
        '(w, r') ← (match unmarshal_usage (rs_body r) with
         | Some (Some u) =>
             let u := Normalize u in
             let w := usageHandler px q r u now w in
             s ← FormatUsage int_out_of_range u (px_model px) pricing None;
             Some (w, set_header r UsageMetricsResponseHeader s)
         | _ => Some (match w_collector w with Some _ => emitZeroTokenEvent px q r now w | None => w end, r)
         end);
        let r' := set_header r' "Content-Length" (FormatInt n) in
        Some (w, inr (passed (MkResp (rs_status r') (rs_header r') (rs_body r') None)))
  end.

(** The response after the errors, upgrades and retries are dealt with. *)
Definition meter_response (px : proxy) (q : request) (r : response) (now : Z) (w : world) : option (world * (goerror + forwarded)) :=
  let streaming := is_streaming r in
  let requested := metrics_requested q in
  let pricing := w_writer w ≫= uw_pricing in
  if String.eqb (px_model px) privacyFilterModel then
    if requested && (rs_status r =? 200) then
      let pricing := if String.eqb (header_get (rs_header r) billableRequestsHeader) "1" then pricing else None in
      s ← FormatUsage int_out_of_range zeroUsage (px_model px) pricing None;
      Some (w, inr (passed (set_header r UsageMetricsResponseHeader s)))
    else Some (w, inr (passed r))
  else
    let announce := streaming && requested in
    let r := if announce then MkResp (rs_status r) (addTrailerHeader (rs_header r) UsageMetricsResponseHeader) (rs_body r) (rs_err r) else r in
    let w := if announce then match w_writer w with Some uw => set_writer (EnableTrailer uw) w | None => w end else w in
    r ← (if negb streaming && requested && (rs_status r =? 200) && match pricing with Some p => CostKnownWithoutUsage int_out_of_range p | None => false end
         then s ← FormatUsage int_out_of_range zeroUsage (px_model px) pricing None; Some (set_header r UsageMetricsResponseHeader s)
         else Some r);
    if negb streaming && requested && (rs_status r =? 200) && Contains (header_get (rs_header r) "Content-Type") "application/json" then
      buffer_usage px q r pricing now w
    else
      let metered := negb streaming && bool_decide (is_Some (w_collector w)) && negb (String.eqb (request_api_key q) "") && (rs_status r =? 200) in
      let r' := if streaming then MkResp (rs_status r) (header_del (rs_header r) "Content-Length") (rs_body r) (rs_err r) else r in
      Some (w, inr (MkForward r' (extraction_of r) metered)).

(** [retry] is the answer of the replay callback, when the request has one.
    [None] is a panic. *)
Definition ModifyResponse (px : proxy) (q : request) (r : response) (retry : option bool) (now : Z) (w : world)
  : option (world * (goerror + forwarded)) :=
  let serving := servingBreaker q (px_cb px) in
  let w := if rs_status r >=? 500 then recordFailure px serving (httpFailureReason (rs_status r)) now w else recordSuccess px serving w in
  if (rs_status r =? 502) && default false retry then Some (w, inl (MkErr [errRetryReplica] []))
  else if rs_status r =? 101 then Some (emitZeroTokenEvent px q r now w, inr (passed r))
  else if (rs_status r >=? 400) && negb (is_streaming r) && String.eqb (header_get (rs_header r) "Content-Encoding") "" then
    Some (w, inr (passed (normalizeUpstreamErrorResponse r)))
  else meter_response px q r now w.

(** ** The body *)

Definition stream_lines (b : bytes) : list string * bool :=
  let '(ls, stop) := until_too_long (raw_lines b) in (of_bytes <$> ls, stop).

(** The body reaches the client and is closed: the bytes the client got, of the
    [taken] it would have read, and whether its response was cut off. *)
Definition deliver (px : proxy) (q : request) (fw : forwarded) (taken : nat) (now : Z) (w : world) : world * bytes * bool :=
  let r := fw_resp fw in
  let read := take taken (rs_body r) in
  let cut := (taken <? length (rs_body r))%nat || bool_decide (is_Some (rs_err r)) in
  let zero w := if fw_metered fw then emitZeroTokenEvent px q r now w else w in
  match fw_extract fw with
  | NoExtraction => (zero w, read, cut)
  | JsonTee =>
      match unmarshal_usage read with
      | Some (Some u) => (usageHandler px q r (Normalize u) now w, read, cut)
      | _ => (zero w, read, cut)
      end
  | EventStream =>
      (** what is read of the backend's stream ends where the client left *)
      let '(lines, stop) := stream_lines read in
      let '(out, usage, aborted) := processStream unmarshal_chunk decode_usage (client_requested_usage q) lines (stop || cut) in
      let w := match usage with Some u => usageHandler px q r u now w | None => w end in
      (w, concat ((fun l => to_bytes l ++ [newline]) <$> out), aborted)
  end.

(** ** The reverse proxy *)

Definition hopHeaders : list string :=
  ["Connection"; "Proxy-Connection"; "Keep-Alive"; "Proxy-Authenticate"; "Proxy-Authorization"; "Te"; "Trailer"; "Transfer-Encoding"; "Upgrade"].

(** Headers the [Connection] header names are removed too. *)
Definition removeHopByHopHeaders (h : Header) : Header :=
  let named := Values h "Connection" ≫= (fun v => (fun p => TrimSpace (of_bytes p)) <$> split_comma (to_bytes v)) in
  let h := foldl (fun h name => if String.eqb name "" then h else header_del h name) h named in
  foldl header_del h hopHeaders.

(** What became of the forwarded request: the transport's error or the response,
    the breaker of the replica that served it, when the headers came and whether
    the timer had fired, how much of the body the client took and when that ended,
    and the error of switching protocols. *)
Record attempt := MkAttempt {
  a_result : goerror + response;
  a_owner : nat;
  a_slow : bool;
  a_headers_at : Z;
  a_taken : nat;
  a_done_at : Z;
  a_upgrade_err : option goerror
}.

Inductive seen :=
  | Nothing
  | ErrorSent (e : APIError)
  | Switched (h : Header)
  | Sent (status : Z) (h : Header) (body : bytes) (aborted : bool).

Definition outgoing (q : request) (owner : nat) : request :=
  MkRequest (q_method q) (q_path q) (removeHopByHopHeaders (q_header q)) (q_ctx q) (q_labels q) (q_claim q) (Some owner).

(** The response as the proxy passes it on; a protocol switch keeps its headers. *)
Definition received (r : response) : response :=
  if rs_status r =? 101 then r else MkResp (rs_status r) (removeHopByHopHeaders (rs_header r)) (rs_body r) (rs_err r).

Definition handled (res : world * option APIError) : world * seen := (res.1, match res.2 with None => Nothing | Some e => ErrorSent e end).

Definition proxy_ServeHTTP (px : proxy) (q : request) (retry : option bool) (a : attempt) (w : world) : option (world * seen) :=
  let q := outgoing q (a_owner a) in
  let now := a_headers_at a in
  match a_result a with
  | inl err =>
      let w := slow_headers px q (a_slow a) (Some err) now w in
      Some (handled (ErrorHandler px q err now w))
  | inr r =>
      let w := slow_headers px q (a_slow a) None now w in
      let r := received r in
      '(w, res) ← ModifyResponse px q r retry now w;
      match res with
      | inl err => Some (handled (ErrorHandler px q err now w))
      | inr fw =>
          if rs_status r =? 101 then
            match a_upgrade_err a with
            | Some err => Some (handled (ErrorHandler px q err now w))
            | None => Some (w, Switched (rs_header (fw_resp fw)))
            end
          else
            let '(w, body, aborted) := deliver px q fw (a_taken a) (a_done_at a) w in
            Some (w, Sent (rs_status (fw_resp fw)) (rs_header (fw_resp fw)) body aborted)
      end
  end.

(** ** A replica *)

(** What the client gets: the replica named in the header, the answer and the
    usage trailer. *)
Record answer := MkAnswer { an_enclave : string; an_seen : seen; an_trailer : option string }.

(** [Enclave.ServeHTTP]; [pricing] is what the pricing callback says of the model. *)
Definition ServeHTTP (px : proxy) (pricing : option ModelPricing) (q : request) (retry : option bool) (a : attempt) (w : world) : option (world * answer) :=
  if negb (metrics_requested q) then
    '(w, s) ← proxy_ServeHTTP px q retry a (MkWorld (w_breakers w) (w_metrics w) (w_collector w) None);
    Some (w, MkAnswer (px_host px) s None)
  else
    let usage := match pricing with Some p => if CostKnownWithoutUsage int_out_of_range p then Some zeroUsage else None | None => None end in
    let w := MkWorld (w_breakers w) (w_metrics w) (w_collector w) (Some (MkWriter usage (px_model px) pricing false)) in
    '(w, s) ← proxy_ServeHTTP px q retry a w;
    match w_writer w with
    | None => Some (w, MkAnswer (px_host px) s None)
    | Some uw => h ← WriteTrailer int_out_of_range uw ∅; Some (w, MkAnswer (px_host px) s (h !! UsageMetricsResponseHeader ≫= head))
    end.

(** ** Failover *)

Definition retry_paths : list string := ["/v1/chat/completions"; "/v1/completions"; "/v1/responses"].

(** What the replay of a bad gateway depends on: whether the request's body can
    be read again, whether an interim response was passed on, whether the
    client is gone, and the replica [next] reserves. *)
Record failover := MkFailover { f_body_again : option bool; f_interim : bool; f_client_gone : bool; f_next : option proxy; f_labels : option (string * string) }.

Definition replayable (q : request) (f : failover) : bool :=
  bool_decide (q_path q ∈ retry_paths) && String.eqb (q_method q) "POST" && bool_decide (is_Some (f_body_again f)).

(** [prepareReplay]; [next] is asked only when the body was read again. *)
Definition prepareReplay (f : failover) : bool :=
  negb (f_interim f || f_client_gone f) && default false (f_body_again f) && bool_decide (is_Some (f_next f)).

Definition replay_of (q : request) (f : failover) : request :=
  MkRequest (q_method q) (q_path q) (q_header q) (q_ctx q) (f_labels f) None None.

(** The replicas that were asked, in order, and those whose reservation the
    failover released. *)
Record served := MkServed { sv_world : world; sv_answer : answer; sv_asked : list proxy; sv_released : list proxy }.

(** Did the first attempt end in the replay? *)
Definition replays (f : failover) (a : attempt) : bool :=
  match a_result a with inr r => (rs_status r =? 502) && prepareReplay f | inl _ => false end.

Definition ServeHTTPWithFailover (px : proxy) (pricing : option ModelPricing) (q : request) (f : failover) (a1 a2 : attempt) (w : world) : option served :=
  if negb (replayable q f) then '(w, ans) ← ServeHTTP px pricing q None a1 w; Some (MkServed w ans [px] [])
  else
    '(w, ans) ← ServeHTTP px pricing q (Some (prepareReplay f)) a1 w;
    match f_next f with
    | Some alternate =>
        if replays f a1 then
          '(w, ans) ← ServeHTTP alternate pricing (replay_of q f) None a2 w; Some (MkServed w ans [px; alternate] [alternate])
        else Some (MkServed w ans [px] [])
    | None => Some (MkServed w ans [px] [])
    end.

End Proxy.

(** ** Lemmas: the breakers *)

(** The breaker is settled: it is known, not half-open, and its failures are
    far from the end of an [int64]. *)
Definition settled (b : nat) (w : world) : Prop := exists cb, w_breakers w !! b = Some cb /\ state cb <> cbHalfOpen.

Lemma publish_breakers px b w : w_breakers (publishBreakerState px b w) = w_breakers w.
Proof. unfold publishBreakerState. destruct (w_breakers w !! b); [|done]. by destruct (publishIfActive _). Qed.

Lemma recordFailure_breakers px b reason now w :
  w_breakers (recordFailure px b reason now w) = match w_breakers w !! b with Some cb => <[b := RecordFailure now cb]> (w_breakers w) | None => w_breakers w end.
Proof. unfold recordFailure. rewrite publish_breakers. cbn [w_breakers observe]. by destruct (w_breakers w !! b). Qed.

Lemma recordSuccess_breakers px b w :
  w_breakers (recordSuccess px b w) = match w_breakers w !! b with Some cb => <[b := RecordSuccess cb]> (w_breakers w) | None => w_breakers w end.
Proof. unfold recordSuccess. rewrite publish_breakers. cbn [w_breakers observe]. by destruct (w_breakers w !! b). Qed.

Lemma abort_breakers px q now w :
  w_breakers (abort_claim px q now w) =
  match q_claim q with
  | Some (b, token) => match w_breakers w !! b with Some cb => <[b := (AbortProbe now token cb).1]> (w_breakers w) | None => w_breakers w end
  | None => w_breakers w
  end.
Proof.
  unfold abort_claim, ProbeClaim_Abort. destruct (q_claim q) as [[b token]|]; [|done]. destruct (w_breakers w !! b) as [cb|]; [|done].
  destruct (AbortProbe now token cb) as [cb' []]; cbn [fst]; [|done]. by destruct (publishIfActive cb').
Qed.

(** A breaker after a failure, a success or an abort, when it was half-open with
    its failures at the threshold. *)
Lemma failure_opens now cb :
  cbFailureThreshold <= consecutiveFailures cb < int64_max -> state (RecordFailure now cb) = cbOpen.
Proof.
  intros H. unfold RecordFailure. rewrite wrap64_id by (unfold in_int64, int64_max, int64_min, cbFailureThreshold in *; lia). cbn [state].
  destruct (_ >=? _) eqn:E; [done|]. bool_simp. lia.
Qed.

Lemma failure_not_half_open now cb : state cb <> cbHalfOpen -> state (RecordFailure now cb) <> cbHalfOpen.
Proof. unfold RecordFailure. cbn [state]. by destruct (_ >=? _). Qed.

Lemma abort_not_half_open now token cb : state cb <> cbHalfOpen -> state (AbortProbe now token cb).1 <> cbHalfOpen.
Proof. unfold AbortProbe. by destruct (_ || _). Qed.

Lemma settled_insert b b' cb w :
  settled b w -> (b = b' -> state cb <> cbHalfOpen) -> settled b (MkWorld (<[b' := cb]> (w_breakers w)) (w_metrics w) (w_collector w) (w_writer w)).
Proof.
  intros (cb0 & H & Hs) Hc. unfold settled. cbn [w_breakers].
  destruct (decide (b' = b)) as [->|]; [rewrite lookup_insert_eq; eauto|rewrite lookup_insert_ne by done; eauto].
Qed.

Lemma settled_eq b w w' : w_breakers w' = w_breakers w -> settled b w -> settled b w'.
Proof. unfold settled. by intros ->. Qed.

Lemma settled_update b b' (f : circuitBreaker -> circuitBreaker) w w' :
  (forall cb, state cb <> cbHalfOpen -> state (f cb) <> cbHalfOpen) ->
  w_breakers w' = match w_breakers w !! b' with Some cb => <[b' := f cb]> (w_breakers w) | None => w_breakers w end ->
  settled b w -> settled b w'.
Proof.
  intros Hf Hw Hs. destruct (w_breakers w !! b') as [cb|] eqn:E; [|by eapply settled_eq].
  eapply settled_eq; [|apply (settled_insert b b' (f cb) w Hs)]; [by rewrite Hw|].
  intros ->. destruct Hs as (cb0 & H & Hs). simplify_eq. by apply Hf.
Qed.

Lemma settled_failure b px b' reason now w : settled b w -> settled b (recordFailure px b' reason now w).
Proof. apply (settled_update b b' (RecordFailure now)); [apply failure_not_half_open|apply recordFailure_breakers]. Qed.

Lemma settled_success b px b' w : settled b w -> settled b (recordSuccess px b' w).
Proof. by apply (settled_update b b' RecordSuccess); [|apply recordSuccess_breakers]. Qed.

Lemma settled_abort b px q now w : settled b w -> settled b (abort_claim px q now w).
Proof.
  pose proof (abort_breakers px q now w) as H. destruct (q_claim q) as [[b' token]|]; [|by apply settled_eq].
  by apply (settled_update b b' (fun cb => (AbortProbe now token cb).1)); [intros; apply abort_not_half_open|].
Qed.

Lemma settled_error b px q err now w : settled b w -> settled b (ErrorHandler px q err now w).1.
Proof.
  intros H. unfold ErrorHandler. destruct (errors_Is errRetryReplica err); [done|]. destruct (errors_Is MaxBytesError err); [by apply settled_abort|].
  destruct (String.eqb _ _); cbn [fst]; [|by apply settled_failure]. apply settled_abort. by eapply settled_eq.
Qed.

(** A request that holds the probe of a half-open breaker. *)
Definition holds_probe (b : nat) (q : request) (w : world) : Prop :=
  exists cb, w_breakers w !! b = Some cb /\ state cb = cbHalfOpen /\ q_claim q = Some (b, probeGen cb)
    /\ cbFailureThreshold <= consecutiveFailures cb < int64_max.

Lemma probe_failure b px q reason now w : holds_probe b q w -> settled b (recordFailure px b reason now w).
Proof.
  intros (cb & Hb & Hs & Hc & Hf). exists (RecordFailure now cb). rewrite recordFailure_breakers, Hb, lookup_insert_eq.
  split; [done|]. by rewrite failure_opens.
Qed.

Lemma probe_success b px q w : holds_probe b q w -> settled b (recordSuccess px b w).
Proof. intros (cb & Hb & _). exists (RecordSuccess cb). by rewrite recordSuccess_breakers, Hb, lookup_insert_eq. Qed.

Lemma probe_abort b px q now w : holds_probe b q w -> settled b (abort_claim px q now w).
Proof.
  intros (cb & Hb & Hs & Hc & Hf). exists (AbortProbe now (probeGen cb) cb).1. rewrite abort_breakers, Hc, Hb, lookup_insert_eq.
  split; [done|]. unfold AbortProbe. rewrite Z.eqb_refl, Hs. done.
Qed.

Lemma probe_error b px q err now w :
  holds_probe b q w -> servingBreaker q (px_cb px) = b -> errors_Is errRetryReplica err = false -> settled b (ErrorHandler px q err now w).1.
Proof.
  intros H Ho Hr. unfold ErrorHandler. rewrite Hr, Ho. destruct (errors_Is MaxBytesError err); [by apply probe_abort|].
  destruct (String.eqb _ _); cbn [fst]; [by apply probe_abort|by eapply probe_failure].
Qed.

Section Properties.
Context (int_out_of_range : float64 -> Z) (encodable_time : Z -> bool).
Context (unmarshal_error : bytes -> option object) (unmarshal_usage : bytes -> option (option Usage))
  (unmarshal_chunk : string -> option object) (decode_usage : json -> option Usage) (marshal_envelope : ErrorBody -> bytes).
Abbreviation add_event := (add_event encodable_time).
Abbreviation emitZeroTokenEvent := (emitZeroTokenEvent encodable_time).
Abbreviation usageHandler := (usageHandler encodable_time).
Abbreviation buffer_usage := (buffer_usage int_out_of_range encodable_time unmarshal_usage).
Abbreviation meter_response := (meter_response int_out_of_range encodable_time unmarshal_usage).
Abbreviation ModifyResponse := (ModifyResponse int_out_of_range encodable_time unmarshal_error unmarshal_usage marshal_envelope).
Abbreviation deliver := (deliver encodable_time unmarshal_usage unmarshal_chunk decode_usage).
Abbreviation proxy_ServeHTTP := (proxy_ServeHTTP int_out_of_range encodable_time unmarshal_error unmarshal_usage unmarshal_chunk decode_usage marshal_envelope).
Abbreviation ServeHTTP := (ServeHTTP int_out_of_range encodable_time unmarshal_error unmarshal_usage unmarshal_chunk decode_usage marshal_envelope).
Abbreviation ServeHTTPWithFailover :=
  (ServeHTTPWithFailover int_out_of_range encodable_time unmarshal_error unmarshal_usage unmarshal_chunk decode_usage marshal_envelope).

(** *** What bills does not touch the breakers *)

Lemma add_event_breakers e w : w_breakers (add_event e w) = w_breakers w.
Proof. unfold Proxy.add_event. by destruct (w_collector w). Qed.

Lemma zero_breakers px q r now w : w_breakers (emitZeroTokenEvent px q r now w) = w_breakers w.
Proof. unfold Proxy.emitZeroTokenEvent. destruct (String.eqb _ _); [done|apply add_event_breakers]. Qed.

Definition noted (px : proxy) (q : request) (r : response) (u : Usage) (w : world) : world :=
  let w := if is_streaming r && metrics_requested q then match w_writer w with Some uw => set_writer (SetUsage uw u) w | None => w end else w in
  if String.eqb (px_model px) websearchModel then w else observeTokenUsage px q (is_streaming r) u w.

Lemma noted_same px q r u w : w_breakers (noted px q r u w) = w_breakers w /\ w_collector (noted px q r u w) = w_collector w.
Proof.
  unfold noted, observeTokenUsage.
  destruct (is_streaming r && metrics_requested q), (w_writer w), (String.eqb _ _), (q_labels q) as [[]|]; done.
Qed.

(** The one event a handler adds: a zero event for a web search, else the usage. *)
Definition usage_event (px : proxy) (q : request) (r : response) (u : Usage) (now : Z) : Event :=
  if String.eqb (px_model px) websearchModel then proxy_event px q r now 0 0 0 0
  else proxy_event px q r now (PromptTokens u) (match CachedPromptTokens (Some u) with (c, true) => c | (_, false) => 0 end)
    (CompletionTokens u) (TotalTokens u).

Lemma usageHandler_eq px q r u now w :
  usageHandler px q r u now w =
  if String.eqb (px_model px) websearchModel then emitZeroTokenEvent px q r now (noted px q r u w)
  else add_event (usage_event px q r u now) (noted px q r u w).
Proof. unfold Proxy.usageHandler, usage_event, noted. by destruct (String.eqb (px_model px) websearchModel). Qed.

Lemma usageHandler_breakers px q r u now w : w_breakers (usageHandler px q r u now w) = w_breakers w.
Proof.
  rewrite usageHandler_eq. destruct (String.eqb _ _); [rewrite zero_breakers|rewrite add_event_breakers]; apply noted_same.
Qed.

Lemma buffer_breakers px q r pricing now w w' res : buffer_usage px q r pricing now w = Some (w', res) -> w_breakers w' = w_breakers w.
Proof.
  unfold Proxy.buffer_usage. intros H. destruct (if _ <=? _ then rs_err r else None); [by simplify_eq|]. destruct (_ >? _); [by simplify_eq|].
  destruct (unmarshal_usage (rs_body r)) as [[u|]|]; cbn [mbind option_bind] in H.
  - destruct (FormatUsage _ _ _ _ _); simplify_eq/=. apply usageHandler_breakers.
  - simplify_eq. destruct (w_collector w); [apply zero_breakers|done].
  - simplify_eq. destruct (w_collector w); [apply zero_breakers|done].
Qed.

(** The world once the trailer is announced. *)
Definition announced (q : request) (r : response) (w : world) : world :=
  if is_streaming r && metrics_requested q then match w_writer w with Some uw => set_writer (EnableTrailer uw) w | None => w end else w.

Lemma announced_same q r w : w_breakers (announced q r w) = w_breakers w /\ w_collector (announced q r w) = w_collector w.
Proof. unfold announced. destruct (is_streaming r && metrics_requested q), (w_writer w); done. Qed.

Lemma meter_breakers px q r now w w' res : meter_response px q r now w = Some (w', res) -> w_breakers w' = w_breakers w.
Proof.
  unfold Proxy.meter_response. intros H. destruct (String.eqb (px_model px) privacyFilterModel).
  { destruct (metrics_requested q && _); [|by simplify_eq]. destruct (FormatUsage _ _ _ _ _); by simplify_eq/=. }
  fold (announced q r w) in H. rewrite <- (proj1 (announced_same q r w)).
  match type of H with (mbind _ ?x = _) => destruct x as [r1|]; [|done] end. cbn [mbind option_bind] in H.
  match type of H with ((if ?b then _ else _) = _) => destruct b; [by eapply buffer_breakers|by simplify_eq] end.
Qed.

Lemma deliver_breakers px q fw taken now w : w_breakers (deliver px q fw taken now w).1.1 = w_breakers w.
Proof.
  unfold Proxy.deliver. destruct (fw_extract fw).
  - cbn [fst]. destruct (fw_metered fw); [apply zero_breakers|done].
  - destruct (unmarshal_usage _) as [[u|]|]; cbn [fst]; [apply usageHandler_breakers|destruct (fw_metered fw); [apply zero_breakers|done]..].
  - destruct (stream_lines _) as [ls stop]. destruct (processStream _ _ _ _ _) as [[out [u|]] ab]; cbn [fst]; [apply usageHandler_breakers|done].
Qed.

(** *** A held probe is always resolved *)

Lemma settled_modify b px q r retry now w w' res :
  (settled b w \/ (holds_probe b q w /\ servingBreaker q (px_cb px) = b)) -> ModifyResponse px q r retry now w = Some (w', res) -> settled b w'.
Proof.
  intros Hb. unfold Proxy.ModifyResponse. set (w1 := if rs_status r >=? 500 then _ else _).
  assert (settled b w1) as H1.
  { subst w1. destruct Hb as [Hb|[Hb Ho]]; destruct (rs_status r >=? 500).
    - by apply settled_failure.
    - by apply settled_success.
    - rewrite Ho. by eapply probe_failure.
    - rewrite Ho. by eapply probe_success. }
  clearbody w1. intros H. destruct (_ && default _ _); [by simplify_eq|].
  destruct (rs_status r =? 101); [simplify_eq; eapply settled_eq; [apply zero_breakers|done]|].
  destruct (_ && _ && _); [by simplify_eq|]. eapply settled_eq; [by eapply meter_breakers|done].
Qed.

Lemma settled_slow b px q fired err now w : settled b w -> settled b (slow_headers px q fired err now w).
Proof.
  intros H. unfold slow_headers. destruct fired; [|done]. assert (settled b (observe [SlowHeadersTotal (px_model px) (px_host px)] w)) by done.
  destruct err; [|done]. destruct (String.eqb _ _); [by apply settled_failure|done].
Qed.

(** C13: a recovery probe never leaves its backend half-open. Whatever comes of a
    request that holds the probe of a half-open breaker and is served by that
    breaker's replica (a response of any status, a transport error, a
    cancellation before or after the slow-header mark, an oversized upload, a
    replay, a failed read or upgrade), the breaker is open or closed again when
    the attempt is over. *)
Theorem probe_always_resolved px q retry a w w' s b :
  holds_probe b q w -> a_owner a = b ->
  (forall e, a_result a = inl e -> errors_Is errRetryReplica e = false) ->
  proxy_ServeHTTP px q retry a w = Some (w', s) ->
  exists cb, w_breakers w' !! b = Some cb /\ state cb <> cbHalfOpen.
Proof.
  intros Hp Ho He. unfold Proxy.proxy_ServeHTTP. set (q' := outgoing q (a_owner a)).
  assert (holds_probe b q' w) as Hp' by done. assert (servingBreaker q' (px_cb px) = b) as Ho' by done. clearbody q'.
  destruct (a_result a) as [err|r] eqn:Er.
  - unfold handled. cbn zeta. intros [= <- _]. unfold slow_headers. destruct (a_slow a); [|by eapply probe_error; eauto].
    destruct (String.eqb _ _); [apply settled_error; rewrite Ho'; by eapply probe_failure|]. eapply probe_error; eauto.
  - set (r' := received r). clearbody r'.
    assert (forall w1, slow_headers px q' (a_slow a) None (a_headers_at a) w = w1 -> holds_probe b q' w1) as Hslow.
    { intros w1 <-. unfold slow_headers. by destruct (a_slow a). }
    destruct (ModifyResponse px q' r' retry (a_headers_at a) _) as [[w1 res]|] eqn:Em; [|done]. cbn [mbind option_bind].
    assert (settled b w1) as H1 by (eapply settled_modify; [right; split; [by apply Hslow|done]|exact Em]).
    destruct res as [err|fw]; unfold handled; [intros [= <- _]; by apply settled_error|].
    destruct (rs_status r' =? 101).
    + destruct (a_upgrade_err a); intros [= <- _]; [by apply settled_error|done].
    + destruct (deliver px q' fw (a_taken a) (a_done_at a) w1) as [[w2 body] ab] eqn:Ed. intros [= <- _].
      eapply settled_eq; [|exact H1]. by rewrite <- (deliver_breakers px q' fw (a_taken a) (a_done_at a) w1), Ed.
Qed.

(** *** Clients cannot open a breaker *)

Lemma slow_quick_breakers px q err now w : w_breakers (slow_headers px q false err now w) = w_breakers w.
Proof. done. Qed.

(** A client cannot take a backend out of rotation. A request that ends in an
    oversized upload, or in a cancellation before the headers were overdue,
    records no failure: every breaker keeps its count of failures and its state,
    except the one whose recovery probe the request held, which returns from
    half-open to open; and the client gets 413 for the upload, 502 for the
    cancellation. *)
Theorem client_faults_spare_breaker px q retry a w err :
  a_result a = inl err -> errors_Is errRetryReplica err = false -> a_slow a = false ->
  errors_Is MaxBytesError err = true \/ classifyProxyError err = "canceled" ->
  exists w', proxy_ServeHTTP px q retry a w = Some (w', ErrorSent (if errors_Is MaxBytesError err then ErrBodyTooLarge else ErrUpstream))
    /\ forall b cb, w_breakers w !! b = Some cb ->
         exists cb', w_breakers w' !! b = Some cb' /\ consecutiveFailures cb' = consecutiveFailures cb
           /\ (state cb' = state cb \/ (state cb = cbHalfOpen /\ state cb' = cbOpen /\ q_claim q = Some (b, probeGen cb))).
Proof.
  intros Ea Hr Hs Hc. unfold Proxy.proxy_ServeHTTP. rewrite Ea, Hs. cbn zeta. unfold slow_headers, handled, ErrorHandler. rewrite Hr.
  assert (forall w0, w_breakers w0 = w_breakers w -> forall b cb, w_breakers w !! b = Some cb ->
    exists cb', w_breakers (abort_claim px (outgoing q (a_owner a)) (a_headers_at a) w0) !! b = Some cb' /\ consecutiveFailures cb' = consecutiveFailures cb
      /\ (state cb' = state cb \/ (state cb = cbHalfOpen /\ state cb' = cbOpen /\ q_claim q = Some (b, probeGen cb)))) as Hab.
  { intros w0 Hw b cb Hb. rewrite abort_breakers, Hw. cbn [q_claim outgoing]. destruct (q_claim q) as [[b' token]|]; [|by eauto].
    destruct (decide (b' = b)) as [->|Hne].
    - rewrite Hb, lookup_insert_eq. eexists. split; [done|]. unfold AbortProbe.
      destruct (Z.eqb_spec (probeGen cb) token) as [<-|]; cbn [negb orb fst]; [|auto].
      case_bool_decide as E; cbn [negb fst consecutiveFailures state]; auto.
    - destruct (w_breakers w !! b') eqn:Eb; [rewrite lookup_insert_ne by done|]; eauto. }
  destruct (errors_Is MaxBytesError err) eqn:Em.
  - eexists. split; [reflexivity|]. cbn [fst]. by apply Hab.
  - destruct Hc as [?|Hcl]; [done|rewrite Hcl]. cbn [fst snd String.eqb]. eexists. split; [reflexivity|]. by apply Hab.
Qed.

(** *** Events *)

Definition reports (w : world) : list Report := default [] (w_collector w ≫= reporter).
(** Events go somewhere: there is a collector, and it has a reporter. *)
Definition ready (w : world) : Prop := is_Some (w_collector w ≫= reporter).

(** [w'] has one more report for each of [l], and every one of them is of [q]. *)
Definition grows (q : request) (w w' : world) (l : list Report) : Prop :=
  reports w' = reports w ++ l /\ (ready w -> ready w') /\ Forall (fun r => rep_APIKey r = request_api_key q) l.

Lemma grows_same q w w' : w_collector w' = w_collector w -> grows q w w' [].
Proof. intros H. unfold grows, reports, ready. rewrite H, app_nil_r. by repeat constructor. Qed.

Lemma grows_trans q w1 w2 w3 l1 l2 : grows q w1 w2 l1 -> grows q w2 w3 l2 -> grows q w1 w3 (l1 ++ l2).
Proof. intros (H1 & R1 & F1) (H2 & R2 & F2). split_and!; [by rewrite H2, H1, app_assoc|auto|by apply Forall_app]. Qed.

(** At most one report, and exactly one when [due]. *)
Definition one_report (q : request) (w w' : world) (due : Prop) : Prop := exists l, grows q w w' l /\ (length l <= 1)%nat /\ (due -> length l = 1%nat).

Lemma one_report_weaken q w w' (due due' : Prop) : (due' -> due) -> one_report q w w' due -> one_report q w w' due'.
Proof. intros Hd (l & H1 & H2 & H3). exists l. auto. Qed.

Lemma add_event_grows q e w :
  ev_APIKey e = request_api_key q -> one_report q w (add_event e w) (ready w /\ encodable_time (ev_Timestamp e) = true).
Proof.
  intros Hk. unfold one_report, Proxy.add_event, AddEvent. destruct (w_collector w) as [c|] eqn:Ec.
  - cbn [ev_Timestamp with_api_key]. destruct (encodable_time _).
    + cbn [negb]. destruct (reporter c) as [rs|] eqn:Er.
      * exists [event_report e]. split_and!; [|simpl; lia|done]. unfold grows, reports, ready, set_collector. cbn. rewrite Ec. cbn. rewrite ?Er. cbn.
        split_and!; [done|by eexists|by repeat constructor].
      * exists []. unfold grows, reports, ready, set_collector. cbn. rewrite Ec. cbn. rewrite ?Er. cbn.
        split_and!; [done|done|by constructor|lia|]. by intros [[? [=]] _].
    + exists []. unfold grows, reports, ready, set_collector. cbn. rewrite Ec. split_and!; [by rewrite app_nil_r|done|by constructor|lia|].
      by intros [_ ?].
  - exists []. split_and!; [by apply grows_same|simpl; lia|]. unfold ready. rewrite Ec. by intros [[? [=]] _].
Qed.

Lemma one_report_from q w w0 w' d : w_collector w0 = w_collector w -> one_report q w0 w' d -> one_report q w w' d.
Proof.
  intros Hc (l & (H1 & H2 & H3) & H4 & H5). exists l. unfold grows, reports, ready in *. rewrite Hc in H1, H2. by split_and!.
Qed.

Definition due (q : request) (now : Z) (w : world) : Prop := ready w /\ request_api_key q <> "" /\ encodable_time now = true.

Lemma zero_grows px q r now w : one_report q w (emitZeroTokenEvent px q r now w) (due q now w).
Proof.
  unfold Proxy.emitZeroTokenEvent. destruct (String.eqb_spec (request_api_key q) "") as [E|E].
  - exists []. split_and!; [by apply grows_same|simpl; lia|]. by intros (_ & ? & _).
  - eapply one_report_weaken; [|by apply add_event_grows]. by intros (? & _ & ?).
Qed.

Lemma usage_grows px q r u now w : one_report q w (usageHandler px q r u now w) (due q now w).
Proof.
  rewrite usageHandler_eq. destruct (noted_same px q r u w) as [_ Hc]. set (w0 := noted px q r u w) in *.
  apply (one_report_from q w w0); [done|]. destruct (String.eqb (px_model px) websearchModel) eqn:E.
  - eapply one_report_weaken; [|apply zero_grows]. unfold due, ready. by rewrite Hc.
  - eapply one_report_weaken; [|apply add_event_grows; unfold usage_event; by rewrite E].
    unfold due, ready, usage_event. rewrite Hc, E. by intros (? & _ & ?).
Qed.

Lemma failure_collector px b reason now w : w_collector (recordFailure px b reason now w) = w_collector w.
Proof.
  unfold recordFailure, publishBreakerState. destruct (w_breakers (observe _ w) !! b); repeat case_match; done.
Qed.

Lemma success_collector px b w : w_collector (recordSuccess px b w) = w_collector w.
Proof. unfold recordSuccess, publishBreakerState. destruct (w_breakers w !! b); repeat case_match; done. Qed.

Lemma abort_collector px q now w : w_collector (abort_claim px q now w) = w_collector w.
Proof. unfold abort_claim. repeat case_match; done. Qed.

Lemma slow_collector px q fired err now w : w_collector (slow_headers px q fired err now w) = w_collector w.
Proof. unfold slow_headers. repeat case_match; rewrite ?failure_collector; done. Qed.

Lemma error_collector px q err now w : w_collector (ErrorHandler px q err now w).1 = w_collector w.
Proof. unfold ErrorHandler. repeat case_match; cbn [fst]; rewrite ?abort_collector, ?failure_collector; done. Qed.

(** A forwarded body whose reading bills nothing. *)
Definition quiet (fw : forwarded) : Prop := fw_extract fw = NoExtraction /\ fw_metered fw = false.

(** A body is buffered for the usage header when it is complete and not too large. *)
Definition bufferable (r : response) : Prop := Z.of_nat (length (rs_body r)) <= maxUsageMetricsBodyBytes /\ rs_err r = None.
Definition wants_buffer (q : request) (r : response) : bool :=
  metrics_requested q && Contains (header_get (rs_header r) "Content-Type") "application/json".

Lemma one_report_none q w w' (d : Prop) : w_collector w' = w_collector w -> ~ d -> one_report q w w' d.
Proof. intros Hw Hd. exists []. split_and!; [by apply grows_same|simpl; lia|done]. Qed.

Lemma buffer_events px q r pricing now w w' res :
  buffer_usage px q r pricing now w = Some (w', res) ->
  one_report q w w' (due q now w /\ bufferable r) /\ match res with inr fw => quiet fw | inl _ => True end.
Proof.
  unfold Proxy.buffer_usage, bufferable. intros H.
  destruct (Z.of_nat (length (rs_body r)) <=? maxUsageMetricsBodyBytes) eqn:En.
  - destruct (rs_err r) as [e|] eqn:Ee; [simplify_eq; split; [apply one_report_none; naive_solver|done]|].
    destruct (_ >? _) eqn:Eg; [bool_simp; lia|]. destruct (unmarshal_usage (rs_body r)) as [[u|]|]; cbn [mbind option_bind] in H.
    + destruct (FormatUsage _ _ _ _ _); simplify_eq/=. split; [|done]. eapply one_report_weaken; [|apply usage_grows]. by intros [? _].
    + simplify_eq/=. split; [|done]. destruct (w_collector w) eqn:Ec; [eapply one_report_weaken; [|apply zero_grows]; by intros [? _]|].
      apply one_report_none; [done|]. unfold due, ready. rewrite Ec. by intros [[[? ?] _] _].
    + simplify_eq/=. split; [|done]. destruct (w_collector w) eqn:Ec; [eapply one_report_weaken; [|apply zero_grows]; by intros [? _]|].
      apply one_report_none; [done|]. unfold due, ready. rewrite Ec. by intros [[[? ?] _] _].
  - bool_simp. destruct (_ >? _) eqn:Eg; bool_simp; [|lia]. simplify_eq. split; [|done]. apply one_report_none; [done|]. intros (_ & ? & _). lia.
Qed.

(** The three ways a response is metered. *)
Lemma meter_events px q r now w w' res :
  meter_response px q r now w = Some (w', res) ->
  (px_model px = privacyFilterModel /\ w_collector w' = w_collector w /\ exists fw, res = inr fw /\ quiet fw)
  \/ (one_report q w w' (due q now w /\ bufferable r) /\ wants_buffer q r = true /\ match res with inr fw => quiet fw | inl _ => True end)
  \/ (w_collector w' = w_collector w /\ exists fw, res = inr fw /\ (is_streaming r = false -> rs_status r = 200 -> wants_buffer q r = false)
        /\ fw_metered fw = negb (is_streaming r) && bool_decide (is_Some (w_collector w)) && negb (String.eqb (request_api_key q) "") && (rs_status r =? 200)
        /\ (fw_extract fw = EventStream <-> is_streaming r = true)).
Proof.
  unfold Proxy.meter_response. intros H. destruct (String.eqb_spec (px_model px) privacyFilterModel) as [Ep|Ep].
  { left. split; [done|]. destruct (metrics_requested q && _); [|by simplify_eq; split; [|eexists]].
    destruct (FormatUsage _ _ _ _ _); simplify_eq/=. by split; [|eexists]. }
  right. fold (announced q r w) in H. destruct (announced_same q r w) as [_ Hc]. set (w0 := announced q r w) in *.
  set (r0 := if is_streaming r && metrics_requested q then _ else r) in H.
  assert (is_streaming r = false -> r0 = r) as Hr0 by (subst r0; by intros ->).
  assert (rs_status r0 = rs_status r) as Hst by (subst r0; by destruct (is_streaming r && metrics_requested q)).
  match type of H with (mbind _ ?x = _) => destruct x as [r1|] eqn:E1; [|done] end. cbn [mbind option_bind] in H.
  assert (rs_status r1 = rs_status r /\ rs_body r1 = rs_body r0 /\ rs_err r1 = rs_err r0
    /\ header_get (rs_header r1) "Content-Type" = header_get (rs_header r0) "Content-Type") as (H1 & H2 & H3 & H4).
  { destruct (_ && _ && _ && _) in E1; [|by simplify_eq]. destruct (FormatUsage _ _ _ _ _); simplify_eq/=.
    unfold header_set. change (CanonicalHeaderKey UsageMetricsResponseHeader) with UsageMetricsResponseHeader.
    split_and!; [done..|]. by rewrite header_get_insert_ne. }
  assert (header_get (rs_header r0) "Content-Type" = header_get (rs_header r) "Content-Type") as H5.
  { subst r0. destruct (is_streaming r && metrics_requested q); [|done]. cbn [rs_header]. by apply addTrailerHeader_get. }
  clearbody r0 w0. rewrite H4, H5, H1 in H.
  destruct (negb (is_streaming r) && metrics_requested q && (rs_status r =? 200) && Contains _ _) eqn:Eb.
  - left. bool_simp. rewrite Hr0 in * by done. apply buffer_events in H as [Ho Hq]. unfold wants_buffer. split_and!; [|by apply andb_true_iff|done].
    eapply one_report_weaken; [|by eapply one_report_from]. unfold due, ready, bufferable. by rewrite Hc, H2, H3.
  - right. simplify_eq. split; [done|]. eexists. split; [done|]. cbn [fw_metered fw_extract]. rewrite Hc. split_and!; [|done|].
    + intros Hs Hst2. rewrite Hs, Hst2 in Eb. cbn [negb andb] in Eb. unfold wants_buffer.
      destruct (metrics_requested q); [done|done].
    + unfold extraction_of, is_streaming. rewrite H4, H5. fold (is_streaming r). destruct (is_streaming r); [done|]. destruct (_ || _); done.
Qed.

Lemma quiet_deliver px q fw taken now w : quiet fw -> (deliver px q fw taken now w).1.1 = w.
Proof. intros [H1 H2]. unfold Proxy.deliver. by rewrite H1, H2. Qed.

Lemma deliver_events px q fw taken now w :
  one_report q w (deliver px q fw taken now w).1.1 (due q now w /\ fw_metered fw = true /\ fw_extract fw <> EventStream).
Proof.
  unfold Proxy.deliver.
  assert (forall d : Prop, (d -> due q now w /\ fw_metered fw = true) ->
    one_report q w (if fw_metered fw then emitZeroTokenEvent px q (fw_resp fw) now w else w) d) as Hz.
  { intros d Hd. destruct (fw_metered fw); [eapply one_report_weaken; [|apply zero_grows]; intros; by apply Hd|].
    apply one_report_none; [done|]. by intros [_ ?]%Hd. }
  destruct (fw_extract fw); [by apply Hz; naive_solver| |].
  - destruct (unmarshal_usage _) as [[u|]|]; cbn [fst]; [|by apply Hz; naive_solver..].
    eapply one_report_weaken; [|apply usage_grows]. naive_solver.
  - destruct (stream_lines _) as [ls stop]. destruct (processStream _ _ _ _ _) as [[out [u|]] ab]; cbn [fst].
    + eapply one_report_weaken; [|apply usage_grows]. naive_solver.
    + apply one_report_none; naive_solver.
Qed.

(** Does the exchange of [q] and [r] on [px] have to be billed once? *)
Definition must_bill (px : proxy) (q : request) (r : response) (retry : option bool) : Prop :=
  px_model px <> privacyFilterModel /\ rs_status r = 200 /\ is_streaming r = false /\ (wants_buffer q r = true -> bufferable r).

Lemma modify_events px q r retry now w w' res :
  ModifyResponse px q r retry now w = Some (w', res) ->
  exists l, grows q w w' l /\ (length l <= 1)%nat
    /\ match res with inr fw => (l = [] \/ quiet fw) /\ (fw_extract fw <> EventStream \/ is_streaming r = true) | inl _ => True end
    /\ (must_bill px q r retry -> due q now w ->
        length l = 1%nat \/ (l = [] /\ exists fw, res = inr fw /\ fw_metered fw = true)).
Proof.
  unfold Proxy.ModifyResponse. set (w1 := if rs_status r >=? 500 then _ else _). intros H.
  assert (w_collector w1 = w_collector w) as Hc by (subst w1; destruct (_ >=? _); [apply failure_collector|apply success_collector]).
  assert (forall w2 d, one_report q w1 w2 d -> one_report q w w2 d) as Hback by (intros; by eapply one_report_from).
  assert (forall (l : list Report), due q now w1 = due q now w) as Hdue by (intros _; unfold due, ready; by rewrite Hc).
  clearbody w1. destruct ((rs_status r =? 502) && default false retry) eqn:E502.
  { simplify_eq. bool_simp. exists []. split_and!; [by apply grows_same|simpl; lia|done|]. unfold must_bill. intros (_ & ? & _). lia. }
  destruct (rs_status r =? 101) eqn:E101.
  { simplify_eq. bool_simp. destruct (Hback _ _ (zero_grows px q r now w1)) as (l & G & L & _). exists l. split_and!; [done..|by right|by left|].
    unfold must_bill. intros (_ & ? & _). lia. }
  destruct (_ && _ && _) eqn:E400.
  { simplify_eq. bool_simp. exists []. split_and!; [by apply grows_same|simpl; lia|by left|by left|].
    unfold must_bill. intros (_ & ? & _). lia. }
  apply meter_events in H as [(Ep & Hw & fw & -> & Hq)|[(Ho & Hb & Hq)|(Hw & fw & -> & Hnb & Hm & Hx)]].
  - exists []. split_and!; [apply grows_same; congruence|simpl; lia|by left|left; by destruct Hq as [-> _]|by intros (? & _)].
  - destruct (Hback _ _ Ho) as (l & G & L1 & L2). exists l. split_and!; [done|done| |].
    + destruct res; [done|]. split; [by right|left; by destruct Hq as [-> _]].
    + intros (_ & _ & _ & Hbuf) Hd. left. apply L2. rewrite (Hdue []). auto.
  - exists []. split_and!; [apply grows_same; congruence|simpl; lia|by left|destruct (is_streaming r); [by right|left; naive_solver]|].
    intros (_ & H200 & Hs & _) (Hr & Hk & _). right. split; [done|]. eexists. split; [done|]. rewrite Hm, Hs, H200, Hc.
    destruct (String.eqb_spec (request_api_key q) ""); [done|]. unfold ready in Hr. destruct (w_collector w); [|by destruct Hr].
    by rewrite bool_decide_true by eauto.
Qed.

(** An attempt on which a report is due. *)
Definition billing_due (px : proxy) (q : request) (retry : option bool) (a : attempt) (w : world) : Prop :=
  exists r, a_result a = inr r /\ must_bill px q (received r) retry /\ due q (a_headers_at a) w /\ due q (a_done_at a) w.

Lemma attempt_reports px q retry a w w' s :
  proxy_ServeHTTP px q retry a w = Some (w', s) ->
  one_report (outgoing q (a_owner a)) w w' (billing_due px (outgoing q (a_owner a)) retry a w).
Proof.
  unfold Proxy.proxy_ServeHTTP, billing_due. set (q' := outgoing q (a_owner a)). destruct (a_result a) as [err|r] eqn:Er.
  { unfold handled. cbn zeta. intros [= <- _]. apply one_report_none; [by rewrite error_collector, slow_collector|by intros (r & [=] & _)]. }
  cbn zeta. set (r' := received r). set (w0 := slow_headers _ _ _ None _ w). assert (w_collector w0 = w_collector w) as Hc0 by apply slow_collector.
  assert (forall n, due q' n w0 = due q' n w) as Hdue by (intros; unfold due, ready; by rewrite Hc0).
  destruct (ModifyResponse px q' r' retry (a_headers_at a) w0) as [[w1 res]|] eqn:Em; [|done]. cbn [mbind option_bind].
  apply modify_events in Em as (l & G & L1 & Hres & Hl). intros H. apply (one_report_from q' w w0); [done|].
  assert (forall w2 d, w_collector w2 = w_collector w1 -> (d -> length l = 1%nat) -> one_report q' w0 w2 d) as Hdone.
  { intros w2 d Hw Hd. exists l. split_and!; [|done|done]. rewrite <- (app_nil_r l). eapply grows_trans; [exact G|by apply grows_same]. }
  destruct res as [err|fw].
  { apply (inj Some) in H. apply Hdone; [injection H as <- _; apply error_collector|].
    intros (r0 & [= <-] & Hm & Hd & _). destruct (Hl Hm) as [|(_ & ? & ? & _)]; [by rewrite Hdue|done|done]. }
  destruct (rs_status r' =? 101) eqn:E101.
  { apply Hdone; [destruct (a_upgrade_err a); apply (inj Some) in H; injection H as <- _; [apply error_collector|done]|].
    intros (r0 & [= <-] & (_ & H200 & _) & _). exfalso. subst r'. rewrite H200 in E101. done. }
  destruct (deliver px q' fw (a_taken a) (a_done_at a) w1) as [[w2 body] ab] eqn:Ed. injection H as <- _.
  assert (w2 = (deliver px q' fw (a_taken a) (a_done_at a) w1).1.1) as -> by (by rewrite Ed).
  destruct Hres as [[->|Hq] Hx].
  - destruct (deliver_events px q' fw (a_taken a) (a_done_at a) w1) as (l2 & K & M1 & M2). exists l2.
    split_and!; [by apply (grows_trans _ _ _ _ [] l2 G K)|done|]. intros (r0 & [= <-] & Hm & Hd1 & R & Hk & T).
    destruct (Hl Hm) as [Hbad|(_ & fw' & [= <-] & Hme)]; [by rewrite Hdue|done|]. apply M2. split_and!; [|done|].
    + split_and!; [|done|done]. apply G. unfold ready in *. by rewrite Hc0.
    + destruct Hx as [|Hx]; [done|]. destruct Hm as (_ & _ & Hst & _). destruct (eq_true_false_abs _ Hx Hst).
  - rewrite quiet_deliver by done. apply Hdone; [done|]. intros (r0 & [= <-] & Hm & Hd1 & _).
    destruct (Hl Hm) as [|(_ & fw' & [= <-] & Hme)]; [by rewrite Hdue|done|]. destruct Hq. congruence.
Qed.


(** *** Failover *)

(** The sentinel of the replay is never an error of the network. *)
Definition genuine (a : attempt) : Prop :=
  match a_result a with inl e => errors_Is errRetryReplica e = false | inr r => forall e, rs_err r = Some e -> errors_Is errRetryReplica e = false end
  /\ forall e, a_upgrade_err a = Some e -> errors_Is errRetryReplica e = false.

Lemma received_status r : rs_status (received r) = rs_status r.
Proof. unfold received. by destruct (_ =? _). Qed.
Lemma received_err r : rs_err (received r) = rs_err r.
Proof. unfold received. by destruct (_ =? _). Qed.

Lemma ServeHTTP_proxy px pricing q retry a w w' ans :
  ServeHTTP px pricing q retry a w = Some (w', ans) ->
  exists w0, w_collector w0 = w_collector w /\ w_breakers w0 = w_breakers w /\ an_enclave ans = px_host px
    /\ proxy_ServeHTTP px q retry a w0 = Some (w', an_seen ans).
Proof.
  unfold Proxy.ServeHTTP. destruct (metrics_requested q); cbn [negb]; intros H.
  - match type of H with (mbind _ (proxy_ServeHTTP _ _ _ _ ?w0) = _) => exists w0; destruct (proxy_ServeHTTP px q retry a w0) as [[w1 s]|] eqn:Ep end; [|done].
    cbn [mbind option_bind] in H. destruct (w_writer w1) as [uw|]; [|by simplify_eq].
    destruct (WriteTrailer _ uw ∅); by simplify_eq/=.
  - match type of H with (mbind _ (proxy_ServeHTTP _ _ _ _ ?w0) = _) => exists w0; destruct (proxy_ServeHTTP px q retry a w0) as [[w1 s]|] eqn:Ep end; by simplify_eq/=.
Qed.

(** A bad gateway that will be replayed charges the replica once, bills nothing
    and says nothing. *)
Lemma replayed_attempt px q a w r :
  a_result a = inr r -> rs_status r = 502 ->
  exists w', proxy_ServeHTTP px q (Some true) a w = Some (w', Nothing) /\ w_collector w' = w_collector w
    /\ forall cb, w_breakers w !! a_owner a = Some cb -> w_breakers w' !! a_owner a = Some (RecordFailure (a_headers_at a) cb).
Proof.
  intros Hr H502. unfold Proxy.proxy_ServeHTTP. rewrite Hr. cbn zeta. unfold Proxy.ModifyResponse. rewrite received_status, H502.
  cbn [Z.geb Z.compare Pos.compare Pos.compare_cont Z.eqb Pos.eqb andb default from_option id mbind option_bind].
  eexists. split; [reflexivity|]. unfold handled, ErrorHandler, servingBreaker. cbn [q_owner outgoing default from_option id fst].
  change (errors_Is errRetryReplica (MkErr [errRetryReplica] [])) with true. cbn [fst]. rewrite failure_collector, slow_collector. split; [done|].
  intros cb Hcb. rewrite recordFailure_breakers. unfold slow_headers. destruct (a_slow a); cbn [observe w_breakers]; by rewrite Hcb, lookup_insert_eq.
Qed.

Lemma error_says px q err now w : errors_Is errRetryReplica err = false -> (handled (ErrorHandler px q err now w)).2 <> Nothing.
Proof. intros H. unfold handled, ErrorHandler. rewrite H. repeat case_match; done. Qed.

Lemma buffer_error px q r pricing now w w' err : buffer_usage px q r pricing now w = Some (w', inl err) -> rs_err r = Some err.
Proof.
  unfold Proxy.buffer_usage. destruct (_ <=? _); [destruct (rs_err r); [by intros [= _ <-]|]|];
  (destruct (_ >? _); [done|]; destruct (unmarshal_usage _) as [[u|]|]; cbn [mbind option_bind]; [|done..];
   destruct (FormatUsage _ _ _ _ _); done).
Qed.

Lemma modify_error px q r retry now w w' err :
  ModifyResponse px q r retry now w = Some (w', inl err) -> rs_err r = Some err \/ (rs_status r = 502 /\ retry = Some true).
Proof.
  unfold Proxy.ModifyResponse. destruct ((rs_status r =? 502) && default false retry) eqn:E.
  { intros _. bool_simp. right. split; [done|]. by destruct retry as [[]|]. }
  destruct (_ =? 101); [done|]. destruct (_ && _ && _); [done|]. set (w1 := if _ >=? 500 then _ else _). clearbody w1. intros H. left.
  unfold Proxy.meter_response in H. destruct (String.eqb _ privacyFilterModel).
  { destruct (metrics_requested q && _); [|done]. destruct (FormatUsage _ _ _ _ _); done. }
  fold (announced q r w1) in H. set (r0 := if is_streaming r && metrics_requested q then _ else r) in H.
  assert (rs_err r0 = rs_err r) as <- by (subst r0; by destruct (is_streaming r && metrics_requested q)). clearbody r0.
  match type of H with (mbind _ ?x = _) => destruct x as [r1|] eqn:E1; [|done] end. cbn [mbind option_bind] in H.
  assert (rs_err r1 = rs_err r0) as <-.
  { destruct (_ && _ && _ && _) in E1; [|by simplify_eq]. destruct (FormatUsage _ _ _ _ _); by simplify_eq/=. }
  destruct (_ && _ && _ && _) in H; [by eapply buffer_error|done].
Qed.

(** An attempt that is not replayed always says something. *)
Lemma attempt_says px q retry a w w' s :
  genuine a -> (forall r, a_result a = inr r -> rs_status r = 502 -> retry <> Some true) ->
  proxy_ServeHTTP px q retry a w = Some (w', s) -> s <> Nothing.
Proof.
  intros [Ha Hu] Hn. unfold Proxy.proxy_ServeHTTP. cbn zeta. destruct (a_result a) as [err|r] eqn:Er.
  { intros H. apply (inj Some) in H. pose proof (error_says px (outgoing q (a_owner a)) err (a_headers_at a)
      (slow_headers px (outgoing q (a_owner a)) (a_slow a) (Some err) (a_headers_at a) w) Ha) as Hs. by rewrite H in Hs. }
  destruct (ModifyResponse px _ (received r) retry _ _) as [[w1 [err|fw]]|] eqn:Em; cbn [mbind option_bind]; [|intros H|done].
  { intros H. apply (inj Some) in H. apply modify_error in Em as [He|[H502 ->]].
    - rewrite received_err in He. pose proof (error_says px (outgoing q (a_owner a)) err (a_headers_at a) w1 (Ha _ He)) as Hs. by rewrite H in Hs.
    - rewrite received_status in H502. by destruct (Hn r eq_refl H502). }
  destruct (rs_status (received r) =? 101).
  - destruct (a_upgrade_err a) as [e|]; apply (inj Some) in H; [|by injection H as _ <-].
    pose proof (error_says px (outgoing q (a_owner a)) e (a_headers_at a) w1 (Hu _ eq_refl)) as Hs. by rewrite H in Hs.
  - destruct (deliver _ _ _ _ _ _) as [[w2 body] ab]. by injection H as _ <-.
Qed.


(** *** A body too large to buffer *)

(** A response with a body over the limit is passed on as it is when the usage
    header is asked for, and nothing is ever billed for it. *)
Lemma oversized_body_unbilled px q r pricing now w :
  maxUsageMetricsBodyBytes < Z.of_nat (length (rs_body r)) ->
  buffer_usage px q r pricing now w = Some (w, inr (passed r)) /\ forall taken t, (deliver px q (passed r) taken t w).1.1 = w.
Proof.
  intros Hl. split; [|by intros; apply quiet_deliver]. unfold Proxy.buffer_usage.
  rewrite (proj2 (Z.leb_gt _ _)), (proj2 (Z.gtb_lt _ _)) by lia. done.
Qed.

End Properties.

(** ** Examples *)

Module ProxyExample.

Definition usage_of (b : bytes) : option (option Usage) := if bool_decide (b = to_bytes "u") then Some (Some (MkUsage 3 2 5 0 0 None None)) else Some None.

Definition serve := proxy_ServeHTTP (fun _ => 0) (fun _ => true) (fun _ => None) usage_of (fun _ => None) (fun _ => None) (fun _ => []).
Definition serve_failover := ServeHTTPWithFailover (fun _ => 0) (fun _ => true) (fun _ => None) usage_of (fun _ => None) (fun _ => None) (fun _ => []).

Definition px : proxy := MkProxy "h1" "m" 0.
Definition px2 : proxy := MkProxy "h2" "m" 1.
Definition half_open : circuitBreaker := CB cbHalfOpen 3 0 7 false.
Definition w : world := MkWorld {[0%nat := half_open; 1%nat := newCircuitBreaker]} [] (Some NewCollector) None.

Definition headers : Header := {["Authorization" := ["Bearer sk-key"]]}.
Definition q (h : Header) : request := MkRequest "POST" "/v1/completions" h (MkContext None None) None (Some (0%nat, 7)) None.

Definition answered (status : Z) (body : string) (owner : nat) : attempt :=
  MkAttempt (inr (MkResp status {["Content-Type" := ["application/json"]]} (to_bytes body) None)) owner false 10 100 20 None.
Definition canceled : attempt := MkAttempt (inl (MkErr [] [MkErr [ContextCanceled] []])) 0 false 10 0 20 None.

Lemma answered_genuine status body owner : genuine (answered status body owner).
Proof. by split. Qed.

Definition go_on : failover := MkFailover (Some true) false false (Some px2) None.

(** A [Connection] header that names [Authorization] hides the key from the
    billing, not from the checks made before: the answer is sent, unbilled. *)
Example connection_header_hides_key :
  let h : Header := <["Connection" := ["authorization"]]> headers in
  request_api_key (q h) = "sk-key" /\ request_api_key (outgoing (q h) 0) = ""
  /\ (forall w' s, serve px (q h) None (answered 200 "no usage" 0) w = Some (w', s) -> reports w' = [])
  /\ (forall w' s, serve px (q headers) None (answered 200 "no usage" 0) w = Some (w', s) -> length (reports w') = 1%nat).
Proof.
  split_and!; [vm_compute; reflexivity|vm_compute; reflexivity| |]; intros w' s H; vm_compute in H; injection H as <- _; reflexivity.
Qed.

End ProxyExample.

Lemma probe_always_resolved_witness :
  exists w' s, ProxyExample.serve ProxyExample.px (ProxyExample.q ProxyExample.headers) None ProxyExample.canceled ProxyExample.w = Some (w', s)
    /\ exists cb, w_breakers w' !! 0%nat = Some cb /\ state cb <> cbHalfOpen.
Proof.
  destruct (ProxyExample.serve ProxyExample.px (ProxyExample.q ProxyExample.headers) None ProxyExample.canceled ProxyExample.w) as [[w' s]|] eqn:Es;
    [|vm_compute in Es; discriminate].
  exists w', s. split; [reflexivity|].
  unfold ProxyExample.serve in Es. eapply probe_always_resolved in Es; [exact Es| |reflexivity|intros e [= <-]; reflexivity].
  exists ProxyExample.half_open. vm_compute. repeat split; discriminate.
Defined.

Lemma client_faults_spare_breaker_witness :
  exists w', ProxyExample.serve ProxyExample.px (ProxyExample.q ProxyExample.headers) None ProxyExample.canceled ProxyExample.w
      = Some (w', ErrorSent ErrUpstream)
    /\ forall cb, w_breakers ProxyExample.w !! 1%nat = Some cb -> exists cb', w_breakers w' !! 1%nat = Some cb' /\ consecutiveFailures cb' = consecutiveFailures cb.
Proof.
  destruct (client_faults_spare_breaker (fun _ => 0) (fun _ => true) (fun _ => None) ProxyExample.usage_of (fun _ => None) (fun _ => None) (fun _ => [])
    ProxyExample.px (ProxyExample.q ProxyExample.headers) None ProxyExample.canceled ProxyExample.w (MkErr [] [MkErr [ContextCanceled] []]))
    as (w' & H & Hb); [reflexivity..|right; reflexivity|].
  exists w'. split; [exact H|]. intros cb Hcb. destruct (Hb 1%nat cb Hcb) as (cb' & H1 & H2 & _). exists cb'. split; assumption.
Defined.


