(* ===== verification/Base64.v ===== *)
(** * Base64 with the standard alphabet ([decodeBase64Payload] of [responses_file_inputs.go])

    [base64.StdEncoding] and [RawStdEncoding] as Go decodes them, and the proof
    that a payload is decoded whatever its padding and its line breaks. *)

From Stdlib Require Import Ascii.
From S2P Require Import Prelude Sha256 Strconv Lines CacheSalt.
#[local] Open Scope string_scope.
#[local] Open Scope list_scope.
#[local] Open Scope Z_scope.

(** ** Decoding

    The standard alphabet differs from the URL one in its last two characters.
    Line breaks are skipped wherever they stand. *)

Definition std_value (c : ascii) : option Z :=
  if Ascii.eqb c "+"%char then Some 62
  else if Ascii.eqb c "/"%char then Some 63
  else if Ascii.eqb c "-"%char || Ascii.eqb c "_"%char then None
  else b64_value c.

Definition is_line_break (c : ascii) : bool := Ascii.eqb c (byte_of 13) || Ascii.eqb c newline.
Definition strip_line_breaks (s : bytes) : bytes := filter (fun c => is_line_break c = false) s.

(** [base64.RawStdEncoding.DecodeString] *)
Definition raw_std_decode (s : bytes) : option bytes := mapM std_value (strip_line_breaks s) ≫= b64_group.

(** A last group is padded to four characters with at most two [=]. *)
Definition drop_padding (s : bytes) : bytes :=
  match rev s with
  | a :: r =>
      if Ascii.eqb a "="%char then match r with b :: r' => if Ascii.eqb b "="%char then rev r' else rev r | [] => [] end else s
  | [] => s
  end.

(** [base64.StdEncoding.DecodeString] *)
Definition std_decode (s : bytes) : option bytes :=
  let s := strip_line_breaks s in
  if (length s mod 4 =? 0)%nat then mapM std_value (drop_padding s) ≫= b64_group else None.

(** [None] is an error. *)
Definition decodeBase64Payload (raw : string) : option bytes :=
  let trimmed := to_bytes (TrimSpace raw) in
  match trimmed with
  | [] => None
  | _ => match std_decode trimmed with Some d => Some d | None => raw_std_decode trimmed end
  end.

(** ** Lemmas *)

Definition std_char (d : Z) : ascii := if d =? 62 then "+"%char else if d =? 63 then "/"%char else b64_char d.
Definition raw_std_encode (d : bytes) : bytes := map std_char (b64_digits d).
Definition padding (d : bytes) : bytes := replicate (Z.to_nat ((- Z.of_nat (length d)) mod 3)) "="%char.
Definition std_encode (d : bytes) : bytes := raw_std_encode d ++ padding d.

Lemma std_chars : forallb (fun i => bool_decide (std_value (std_char (Z.of_nat i)) = Some (Z.of_nat i)) && negb (is_line_break (std_char (Z.of_nat i)))
  && negb (Ascii.eqb (std_char (Z.of_nat i)) "="%char) && (byte_val (std_char (Z.of_nat i)) <? 128) && negb (is_ascii_space (byte_val (std_char (Z.of_nat i))))) (seq 0 64) = true.
Proof. vm_compute. reflexivity. Qed.

Lemma std_char_facts d : 0 <= d < 64 ->
  std_value (std_char d) = Some d /\ is_line_break (std_char d) = false /\ std_char d <> "="%char
  /\ byte_val (std_char d) < 128 /\ is_ascii_space (byte_val (std_char d)) = false.
Proof.
  intros Hd. pose proof std_chars as H. rewrite forallb_forall in H. specialize (H (Z.to_nat d)). rewrite Z2Nat.id in H by lia.
  specialize (H ltac:(apply in_seq; lia)). bool_simp. split_and!; try done. intros He. by rewrite He in *.
Qed.

Lemma group_digits d : b64_group (b64_digits d) = Some d.
Proof.
  remember (length d) as n eqn:Hn. revert d Hn. induction n as [n IH] using (well_founded_induction lt_wf). intros d ->.
  assert (forall x z, z mod 256 = byte_val x -> byte_of z = x) as Hb.
  { intros x z Hz. apply byte_val_inj. by rewrite byte_val_byte_of. }
  destruct d as [|x [|y [|z rest]]]; [done|..]; cbn [b64_digits b64_group].
  - pose proof (byte_val_range x). do 2 f_equal. apply Hb; clear Hb. Z.to_euclidean_division_equations; lia.
  - pose proof (byte_val_range x). pose proof (byte_val_range y).
    repeat f_equal; apply Hb; clear Hb; Z.to_euclidean_division_equations; lia.
  - pose proof (byte_val_range x). pose proof (byte_val_range y). pose proof (byte_val_range z).
    rewrite (IH (length rest)) by (simpl; done || lia). cbn [mbind option_bind].
    repeat f_equal; apply Hb; clear Hb; Z.to_euclidean_division_equations; lia.
Qed.

Lemma values_digits ds : Forall (fun d => 0 <= d < 64) ds -> mapM std_value (map std_char ds) = Some ds.
Proof. induction 1 as [|d ds Hd _ IH]; [done|]. cbn. rewrite (proj1 (std_char_facts d Hd)). cbn. by rewrite IH. Qed.

(** Where the digits of a message end. *)

Lemma digits_length d : ((length (b64_digits d) + length (padding d)) mod 4 = 0)%nat.
Proof.
  unfold padding. rewrite length_replicate. remember (length d) as n eqn:Hn. revert d Hn.
  induction n as [n IH] using (well_founded_induction lt_wf). intros d ->.
  destruct d as [|x [|y [|z rest]]]; [done..|]. cbn [b64_digits length]. specialize (IH (length rest) ltac:(simpl; lia) rest eq_refl).
  replace (- Z.of_nat (S (S (S (length rest))))) with (- Z.of_nat (length rest) + (-1) * 3) by lia. rewrite Z_mod_plus_full.
  replace (S (S (S (S (length (b64_digits rest))))) + Z.to_nat (- Z.of_nat (length rest) mod 3))%nat
    with (length (b64_digits rest) + Z.to_nat (- Z.of_nat (length rest) mod 3) + 1 * 4)%nat by lia. by rewrite Nat.Div0.mod_add.
Qed.

Lemma drop_padding_spec l k : Forall (fun c => c <> "="%char) l -> (k <= 2)%nat -> drop_padding (l ++ replicate k "="%char) = l.
Proof.
  intros Hl Hk. apply Forall_rev in Hl. unfold drop_padding. rewrite rev_app_distr.
  assert (forall r, rev l = r -> rev r = l) as Hr by (intros r <-; apply rev_involutive).
  destruct k as [|[|[|?]]]; [..|lia]; cbn [replicate rev app]; rewrite ?Ascii.eqb_refl; cbn iota.
  - rewrite app_nil_r. destruct (rev l) as [|c r]; [done|]. inversion_clear Hl. by destruct (Ascii.eqb_spec c "=").
  - destruct (rev l) as [|c r] eqn:E; [by rewrite <- (Hr [])|]. inversion_clear Hl. destruct (Ascii.eqb_spec c "="); [done|]. by apply Hr.
  - by rewrite rev_involutive.
Qed.

Lemma raw_encode_chars d : Forall (fun c => is_line_break c = false /\ c <> "="%char /\ byte_val c < 128 /\ is_ascii_space (byte_val c) = false) (raw_std_encode d).
Proof. unfold raw_std_encode. pose proof (b64_digits_range d) as H. induction H as [|x l Hx _ IH]; [constructor|]. constructor; [|done]. by apply std_char_facts. Qed.

Lemma decode_stripped s d : s = raw_std_encode d \/ s = std_encode d ->
  (if (length s mod 4 =? 0)%nat then mapM std_value (drop_padding s) ≫= b64_group else mapM std_value s ≫= b64_group) = Some d.
Proof.
  assert (mapM std_value (raw_std_encode d) ≫= b64_group = Some d) as Hd.
  { unfold raw_std_encode. rewrite values_digits by apply b64_digits_range. apply group_digits. }
  assert (Forall (fun c => c <> "="%char) (raw_std_encode d)) as Hc by (eapply Forall_impl; [apply raw_encode_chars|naive_solver]).
  intros [->| ->].
  - destruct (_ =? _)%nat; [|done]. rewrite <- (app_nil_r (raw_std_encode d)). rewrite (drop_padding_spec _ 0) by (done || lia). done.
  - unfold std_encode. rewrite length_app. unfold raw_std_encode at 1. rewrite length_map, digits_length. cbn [Nat.eqb].
    unfold padding. rewrite drop_padding_spec; [done|done|]. pose proof (Z.mod_pos_bound (- Z.of_nat (length d)) 3). lia.
Qed.

(** Trimming removes nothing but line breaks where spaces are line breaks. *)
Definition harmless (s : bytes) : Prop := Forall (fun c => byte_val c < 128 /\ (is_ascii_space (byte_val c) = true -> is_line_break c = true)) s.

Lemma trim_left_harmless n : forall s, harmless s -> strip_line_breaks (trim_left n s) = strip_line_breaks s /\ harmless (trim_left n s).
Proof.
  induction n as [|n IH]; intros s Hs; [done|]. destruct s as [|a s]; [done|]. cbn [trim_left]. pose proof Hs as Hs'. apply Forall_cons in Hs as [[Ha Hb] Hs].
  destruct (is_ascii_space (byte_val a)).
  { destruct (IH s Hs) as [H1 H2]. split; [|done]. rewrite H1. unfold strip_line_breaks. rewrite filter_cons, decide_False; [done|]. by rewrite Hb. }
  destruct s as [|b s]; [done|]. assert (is_space2 (byte_val a) (byte_val b) = false) as -> by (unfold is_space2; lia).
  destruct s as [|c s]; [done|]. by assert (is_space3 (byte_val a) (byte_val b) (byte_val c) = false) as -> by (unfold is_space3; lia).
Qed.

Lemma trim_right_harmless n : forall s, harmless s -> strip_line_breaks (trim_right_rev n s) = strip_line_breaks s /\ harmless (trim_right_rev n s).
Proof.
  induction n as [|n IH]; intros s Hs; [done|]. destruct s as [|a s]; [done|]. cbn [trim_right_rev]. pose proof Hs as Hs'. apply Forall_cons in Hs as [[Ha Hb] Hs].
  destruct (is_ascii_space (byte_val a)).
  { destruct (IH s Hs) as [H1 H2]. split; [|done]. rewrite H1. unfold strip_line_breaks. rewrite filter_cons, decide_False; [done|]. by rewrite Hb. }
  destruct s as [|b s]; [done|]. apply Forall_cons in Hs as [[Hb' _] Hs].
  assert (is_space2 (byte_val b) (byte_val a) = false) as -> by (unfold is_space2; lia).
  destruct s as [|c s]; [done|]. apply Forall_cons in Hs as [[Hc _] _].
  by assert (is_space3 (byte_val c) (byte_val b) (byte_val a) = false) as -> by (unfold is_space3; lia).
Qed.

Lemma strip_rev s : strip_line_breaks (rev s) = rev (strip_line_breaks s).
Proof.
  unfold strip_line_breaks. induction s as [|c s IH]; [done|]. cbn [rev]. rewrite filter_app, IH, !filter_cons.
  destruct (decide _); [done|]. by rewrite filter_nil, app_nil_r.
Qed.

Lemma trim_harmless s : harmless s -> strip_line_breaks (TrimSpaceBytes s) = strip_line_breaks s.
Proof.
  intros Hs. unfold TrimSpaceBytes. destruct (trim_left_harmless (length s) s Hs) as [H1 H2]. rewrite strip_rev.
  destruct (trim_right_harmless (length (trim_left (length s) s)) (rev (trim_left (length s) s))) as [H3 _]; [by apply Forall_rev|].
  by rewrite H3, strip_rev, rev_involutive.
Qed.

Lemma equals_harmless : byte_val "="%char < 128 /\ is_ascii_space (byte_val "="%char) = false /\ is_line_break "="%char = false.
Proof. vm_compute. by split_and!. Qed.

Lemma encodings_harmless s d : strip_line_breaks s = raw_std_encode d \/ strip_line_breaks s = std_encode d -> harmless s.
Proof.
  intros H. apply Forall_forall. intros c Hc. destruct (is_line_break c) eqn:E.
  { split; [|done]. unfold is_line_break in E. apply orb_true_iff in E as [->%Ascii.eqb_eq| ->%Ascii.eqb_eq]; vm_compute; done. }
  assert (c ∈ strip_line_breaks s) as Hin by (unfold strip_line_breaks; apply list_elem_of_filter; done).
  pose proof (raw_encode_chars d) as Hr. rewrite Forall_forall in Hr.
  assert (c ∈ raw_std_encode d \/ c = "="%char) as [Hx| ->].
  { destruct H as [H|H]; rewrite H in Hin; [by left|]. unfold std_encode in Hin. apply elem_of_app in Hin as [?|Hp]; [by left|right].
    unfold padding in Hp. by apply elem_of_replicate in Hp as [-> _]. }
  - specialize (Hr c Hx) as (_ & _ & ? & ->). done.
  - pose proof equals_harmless as (? & -> & _). done.
Qed.

Lemma raw_encode_nonempty d : d <> [] -> raw_std_encode d <> [].
Proof. unfold raw_std_encode. destruct d as [|x [|y [|z r]]]; done. Qed.

(** A payload is decoded with or without padding, however it is broken into lines. *)
Lemma payload_decoded s d : d <> [] -> strip_line_breaks s = raw_std_encode d \/ strip_line_breaks s = std_encode d ->
  decodeBase64Payload (of_bytes s) = Some d.
Proof.
  intros Hd Hs. pose proof (trim_harmless s (encodings_harmless s d Hs)) as Ht. rewrite <- Ht in Hs.
  unfold decodeBase64Payload, TrimSpace. rewrite !to_of_bytes. pose proof (decode_stripped _ _ Hs) as H.
  destruct (TrimSpaceBytes s) as [|c l] eqn:E.
  { exfalso. pose proof (raw_encode_nonempty d Hd) as Hn. cbn in Hs. destruct Hs as [Hs|Hs]; [by rewrite <- Hs in Hn|].
    unfold std_encode in Hs. symmetry in Hs. apply app_eq_nil in Hs as [Hs _]. by rewrite Hs in Hn. }
  unfold std_decode, raw_std_decode. destruct (_ =? _)%nat; [by rewrite H|done].
Qed.
