(* ===== verification/FileInputs.v ===== *)
(** * Attached files ([responses_file_inputs.go], [manager/file_inputs.go])

    A request may carry files in its messages.  The router decodes each one,
    has the document service convert it unless it is plain text, and puts text
    and image parts in its place before the request goes on.

    The first half models the rewriting of a body, over a processor that threads
    a state of its own (the source's [fileInputProcessor]); the second is that
    processor, [ConvertFile]: the multipart request it sends, the replica it
    picks, and what it makes of the answer.

    Parameters: [%q] ([Quote]), [mime.ParseMediaType] and [FormatMediaType], the
    decoding of JSON answers, and the exchange with the replica. *)

From Stdlib Require Import Ascii.
From S2P Require Import Prelude Float64 Sha256 Strconv Utf8 Lines Json CacheSalt Base64 Errors TokenCount Config Metrics CircuitBreaker Pool Selection Headers.
#[local] Open Scope string_scope.
#[local] Open Scope list_scope.
#[local] Open Scope Z_scope.

(** ** Strings *)

Definition has_prefix (p s : bytes) : bool := bool_decide (is_Some (trim_prefix p s)).
Definition has_suffix (p s : bytes) : bool := has_prefix (rev p) (rev s).
(** [strings.TrimSuffix] of a suffix that is there. *)
Definition drop_suffix (p s : bytes) : bytes := take (length s - length p) s.

(** [strings.Cut] at a character. *)
Fixpoint cut_char (c : ascii) (s : bytes) : option (bytes * bytes) :=
  match s with
  | [] => None
  | x :: s => if Ascii.eqb x c then Some ([], s) else '(a, b) ← cut_char c s; Some (x :: a, b)
  end.

(** [filepath.Ext]: from the last dot of the last path element. *)
Fixpoint ext_rev (r acc : bytes) : bytes :=
  match r with
  | [] => []
  | c :: r => if Ascii.eqb c "/"%char then [] else if Ascii.eqb c "."%char then c :: acc else ext_rev r (c :: acc)
  end.
Definition Ext (path : bytes) : bytes := ext_rev (rev path) [].

Definition quotation : string := String (byte_of 34) "".

(** [utf8.Valid]; a rune takes a byte or more. *)
Fixpoint utf8_valid_loop (fuel : nat) (s : bytes) : bool :=
  match fuel, s with
  | S fuel, c :: s' =>
      let '(r, w) := decode_rune c s' in
      negb ((r =? RuneError) && (w =? 1)%nat) && utf8_valid_loop fuel (drop w s)
  | _, _ => true
  end.
Definition utf8_valid (s : bytes) : bool := utf8_valid_loop (length s) s.

(** [strings.ToValidUTF8(s, "")] *)
Fixpoint to_valid_loop (fuel : nat) (s : bytes) : bytes :=
  match fuel, s with
  | S fuel, c :: s' =>
      let '(r, w) := decode_rune c s' in
      (if (r =? RuneError) && (w =? 1)%nat then [] else take w s) ++ to_valid_loop fuel (drop w s)
  | _, _ => []
  end.
Definition ToValidUTF8 (s : bytes) : bytes := to_valid_loop (length s) s.

(** ** Errors and modes *)

Definition tinfoilModeFieldName := "tinfoil_mode".
Definition paramResponsesFileData := "input_file.file_data".
Definition paramResponsesFileID := "input_file.file_id".
Definition paramChatFile := "file".
Definition paramChatFileData := "file.file_data".
Definition paramChatFileID := "file.file_id".
Definition paramResponsesTinfoilMode := "input_file." +:+ tinfoilModeFieldName.
Definition paramChatTinfoilMode := "file." +:+ tinfoilModeFieldName.

Definition errMsgFileIDUnsupported (p : string) := "Only " +:+ p +:+ " is supported on this endpoint.".
Definition errMsgTinfoilModeNotStr := tinfoilModeFieldName +:+ " must be a string.".
Definition errMsgInvalidDataURL (p : string) := "Invalid data URL in " +:+ p +:+ ".".
Definition errMsgNotBase64 (p : string) := p +:+ " must be base64-encoded.".
Definition errMsgInvalidBase64 (p : string) := "Invalid base64 payload in " +:+ p +:+ ".".
Definition errMsgMissingChatFile := "Missing required parameter: 'file' on file content part.".

Definition fileInputError (param message : string) : APIError := WithMessage (WithParam ErrInvalidRequest param) message.

Definition FileConversionModeText := "text".
Definition FileConversionModeVision := "vision".
Definition FileConversionModeImages := "images".
Definition FileConversionModeRaw := "raw".
Definition FileConversionModeVLM := "vlm".
Definition IsValid (m : string) : bool :=
  bool_decide (m ∈ [""; FileConversionModeText; FileConversionModeVision; FileConversionModeImages; FileConversionModeRaw; FileConversionModeVLM]).

Record ConvertedPage := MkPage { Page : Z; Text : string; Image : string; IsScanned : bool }.
Record ConvertedFile := MkConverted { MDContent : string; Pages : list ConvertedPage }.
Record decodedFileInput := MkDecoded { filename : string; contentType : string; data : bytes }.

(** ** Decoding a part *)

Definition decodeFileInput (name fileData paramName : string) : APIError + decodedFileInput :=
  let s := to_bytes fileData in
  let split : APIError + (string * string) :=
    if has_prefix (to_bytes "data:") s then
      match cut_char ","%char s with
      | None => inl (fileInputError paramName (errMsgInvalidDataURL paramName))
      | Some (mediaType, payload) =>
          if has_suffix (to_bytes ";base64") mediaType then
            inr (of_bytes (TrimPrefix (drop_suffix (to_bytes ";base64") mediaType) (to_bytes "data:")), of_bytes payload)
          else inl (fileInputError paramName (errMsgNotBase64 paramName))
      end
    else inr ("", fileData) in
  match split with
  | inl e => inl e
  | inr (ct, rawBase64) =>
      match decodeBase64Payload rawBase64 with
      | None => inl (fileInputError paramName (errMsgInvalidBase64 paramName))
      | Some d => inr (MkDecoded (if String.eqb name "" then "uploaded-file" else name) ct d)
      end
  end.

Section Files.
Context (Quote : string -> string) (ParseMediaType : string -> option (string * gmap string string)).

Definition errMsgTinfoilModeInvalid (v : string) :=
  "Invalid " +:+ tinfoilModeFieldName +:+ " value: " +:+ Quote v +:+ ". Valid values are auto, text, vision, images, raw, vlm.".
Definition errMsgImagesModeTextOnly (model : string) :=
  tinfoilModeFieldName +:+ "=images requires a vision-capable model; " +:+ Quote model +:+ " is text-only.".

(** The holder without the field, and the mode. *)
Definition readTinfoilModeOverride (holder : object) (param : string) : object * (APIError + string) :=
  match holder !! tinfoilModeFieldName with
  | None => (holder, inr "")
  | Some raw =>
      (delete tinfoilModeFieldName holder,
       match raw with
       | JNull => inr ""
       | JStr v =>
           let mode := TrimSpace (of_bytes (to_lower (to_bytes v))) in
           if String.eqb mode "auto" then inr ""
           else if IsValid mode then inr mode
           else inl (fileInputError param (errMsgTinfoilModeInvalid v))
       | _ => inl (fileInputError param errMsgTinfoilModeNotStr)
       end)
  end.

(** The fields of a file, wherever the surface puts them. *)
Definition decode_holder (holder : object) (paramID paramData paramMode : string) : APIError + (decodedFileInput * string) :=
  match holder !! "file_id" with
  | Some _ => inl (fileInputError paramID (errMsgFileIDUnsupported paramData))
  | None =>
      let fileData := get_string "file_data" holder in
      if String.eqb fileData "" then inl (fileInputError paramData (ErrMsgMissingParam paramData))
      else
        match (readTinfoilModeOverride holder paramMode).2 with
        | inl e => inl e
        | inr mode =>
            match decodeFileInput (get_string "filename" holder) fileData paramData with
            | inl e => inl e
            | inr d => inr (d, mode)
            end
        end
  end.

Definition decodeResponsesInputFilePart (part : object) : APIError + (decodedFileInput * string) :=
  decode_holder part paramResponsesFileID paramResponsesFileData paramResponsesTinfoilMode.

Definition decodeChatCompletionsFilePart (part : object) : APIError + (decodedFileInput * string) :=
  match as_object (get "file" part) with
  | None => inl (fileInputError paramChatFile errMsgMissingChatFile)
  | Some fileObj => decode_holder fileObj paramChatFileID paramChatFileData paramChatTinfoilMode
  end.

(** ** Rendering a file *)

Definition inline_media_types : list string := ["application/json"; "application/xml"; "application/yaml"; "application/x-yaml"].
Definition inline_extensions : list string := [".txt"; ".md"; ".json"; ".xml"; ".yaml"; ".yml"; ".csv"; ".html"; ".htm"].

Definition isInlineTextFile (d : decodedFileInput) : bool :=
  if negb (utf8_valid (data d)) then false
  else
    let mediaType := match ParseMediaType (contentType d) with Some (m, _) => m | None => contentType d end in
    (negb (String.eqb (contentType d) "")
      && (has_prefix (to_bytes "text/") (to_bytes mediaType) || bool_decide (mediaType ∈ inline_media_types)))
    || bool_decide (of_bytes (to_lower (Ext (to_bytes (filename d)))) ∈ inline_extensions).

Record rewriteContext := MkRewrite { isMultimodal : string -> bool; rc_model : string }.

Definition visionCapable (rc : rewriteContext) : bool := negb (String.eqb (rc_model rc) "") && isMultimodal rc (rc_model rc).

(** The mode, and whether the file is inline text. *)
Definition resolveFileMode (d : decodedFileInput) (override : string) (rc : rewriteContext) : APIError + (string * bool) :=
  if isInlineTextFile d then inr ("", true)
  else if negb (String.eqb override "") then
    if String.eqb override FileConversionModeImages && negb (visionCapable rc) then
      inl (fileInputError tinfoilModeFieldName (errMsgImagesModeTextOnly (rc_model rc)))
    else inr (override, false)
  else if visionCapable rc then inr (FileConversionModeImages, false)
  else inr (FileConversionModeText, false).

Record partShape := MkShape { textType : string; imagePart : string -> object }.

Definition responsesPartShape : partShape :=
  MkShape "input_text" (fun url => {["type" := JStr "input_image"; "image_url" := JStr url; "detail" := JStr "auto"]}).
Definition chatPartShape : partShape :=
  MkShape "text" (fun url => {["type" := JStr "image_url"; "image_url" := JObj {["url" := JStr url; "detail" := JStr "auto"]}]}).

(** A surface: the list of its messages, the type of its file parts, how they
    are decoded and what they become. *)
Record surface := MkSurface {
  sf_field : string;
  sf_part : string;
  sf_decode : object -> APIError + (decodedFileInput * string);
  sf_shape : partShape
}.

Definition responses_surface : surface := MkSurface "input" "input_file" decodeResponsesInputFilePart responsesPartShape.
Definition chat_surface : surface := MkSurface "messages" "file" decodeChatCompletionsFilePart chatPartShape.

Definition textPart (shape : partShape) (t : string) : json := JObj {["type" := JStr (textType shape); "text" := JStr t]}.

Definition attached (name : string) : string := "[Attached file: " +:+ name +:+ "]".
Definition blank_line : string := String newline (String newline "").
Definition renderFileInputText (name markdown : string) : string :=
  if String.eqb markdown "" then attached name else attached name +:+ blank_line +:+ markdown.

Definition renderPageHeader (p : ConvertedPage) : string :=
  let label := "Page " +:+ FormatInt (Page p) in
  let label := if IsScanned p then label +:+ " (scanned)" else label in
  if String.eqb (TrimSpace (Text p)) "" then label +:+ ":" else label +:+ ":" +:+ String newline (Text p).

Definition page_parts (shape : partShape) (p : ConvertedPage) : list json :=
  textPart shape (renderPageHeader p)
  :: (if String.eqb (Image p) "" then [] else [JObj (imagePart shape ("data:image/png;base64," +:+ Image p))]).

Section Process.
Context {S : Type} (process : decodedFileInput -> string -> S -> S * (APIError + ConvertedFile)) (rc : rewriteContext).

Definition renderDecodedFile (d : decodedFileInput) (override : string) (shape : partShape) (s : S) : S * (APIError + list json) :=
  match resolveFileMode d override rc with
  | inl e => (s, inl e)
  | inr (_, true) => (s, inr [textPart shape (renderFileInputText (filename d) (of_bytes (data d)))])
  | inr (mode, false) =>
      match process d mode s with
      | (s, inl e) => (s, inl e)
      | (s, inr result) =>
          (s, inr (if negb (String.eqb mode FileConversionModeImages) then [textPart shape (renderFileInputText (filename d) (MDContent result))]
                   else textPart shape (attached (filename d)) :: flat_map (page_parts shape) (Pages result)))
      end
  end.

(** *** Rewriting a body *)

Section Surface.
Context (sf : surface).

Definition is_file_part (rawPart : json) : option object :=
  part ← as_object rawPart; if String.eqb (get_string "type" part) (sf_part sf) then Some part else None.

(** What takes the place of a part. *)
Definition rewrite_part (rawPart : json) (s : S) : S * (APIError + list json) :=
  match is_file_part rawPart with
  | None => (s, inr [rawPart])
  | Some part =>
      match sf_decode sf part with
      | inl e => (s, inl e)
      | inr (d, mode) => renderDecodedFile d mode (sf_shape sf) s
      end
  end.

(** The flag tells whether a file was rewritten. *)
Fixpoint rewrite_content (parts : list json) (s : S) : S * (APIError + (list json * bool)) :=
  match parts with
  | [] => (s, inr ([], false))
  | p :: parts =>
      match rewrite_part p s with
      | (s, inl e) => (s, inl e)
      | (s, inr new) =>
          match rewrite_content parts s with
          | (s, inl e) => (s, inl e)
          | (s, inr (rest, rewritten)) => (s, inr (new ++ rest, bool_decide (is_Some (is_file_part p)) || rewritten))
          end
      end
  end.

Definition rewrite_msg (item : json) (s : S) : S * (APIError + (json * bool)) :=
  match item with
  | JObj msg =>
      match as_array (get "content" msg) with
      | None => (s, inr (item, false))
      | Some parts =>
          match rewrite_content parts s with
          | (s, inl e) => (s, inl e)
          | (s, inr (content, rewritten)) => (s, inr (JObj (<["content" := JArr content]> msg), rewritten))
          end
      end
  | _ => (s, inr (item, false))
  end.

Fixpoint rewrite_items (items : list json) (s : S) : S * (APIError + (list json * bool)) :=
  match items with
  | [] => (s, inr ([], false))
  | item :: items =>
      match rewrite_msg item s with
      | (s, inl e) => (s, inl e)
      | (s, inr (new, r1)) =>
          match rewrite_items items s with
          | (s, inl e) => (s, inl e)
          | (s, inr (rest, r2)) => (s, inr (new :: rest, r1 || r2))
          end
      end
  end.

Definition rewrite_body (body : object) (s : S) : S * (APIError + (object * bool)) :=
  match as_array (get (sf_field sf) body) with
  | None => (s, inr (body, false))
  | Some items =>
      match rewrite_items items s with
      | (s, inl e) => (s, inl e)
      | (s, inr (items, rewritten)) => (s, inr (<[sf_field sf := JArr items]> body, rewritten))
      end
  end.
End Surface.

Definition rewriteResponsesBase64FilesWithProcessor : object -> S -> S * (APIError + (object * bool)) :=
  rewrite_body responses_surface.
Definition rewriteChatCompletionsBase64FilesWithProcessor : object -> S -> S * (APIError + (object * bool)) :=
  rewrite_body chat_surface.
End Process.
End Files.

(** ** The document service *)

Definition maxDocumentErrorDetailBytes : Z := 512.
Definition maxHTTPErrorStatus : Z := 599.
Definition ErrCodeDocumentProcessing := "document_processing_failed".
Definition errMsgDocumentInvalidResponse := "Document processing returned an invalid response.".
Definition errMsgDocumentNoPages := "Document processing returned no pages.".
Definition errMsgDocumentEmpty := "Document processing returned no text content.".
Definition errMsgDocumentNotConfigured := "Document processing is not available on this deployment.".
Definition errMsgDocumentUnavailable := "Document processing is temporarily unavailable. Please try again later.".
Definition errMsgDocumentRequestFailed := "Document processing request failed.".
Definition errMsgDocumentReadResponse := "Could not read the document processing response.".
Definition errMsgDocumentFailed := "Document processing failed.".
Definition errMsgDocumentRateLimited := "Rate limit reached for document processing. Please retry later.".
Definition errMsgDocumentFailedDetail (detail : string) := "Document processing failed: " +:+ detail.

Definition fileConversionError (status : Z) (message : string) : APIError :=
  MkAPIError status (errTypeForStatus status) ErrCodeDocumentProcessing "" message "".

(** [strings.NewReplacer] over single bytes. *)
Definition escape_byte (c : ascii) : bytes :=
  if Ascii.eqb c "\"%char then ["\"%char; "\"%char]
  else if Ascii.eqb c (byte_of 34) then ["\"%char; byte_of 34]
  else if is_line_break c then ["_"%char]
  else [c].
Definition escapeMultipartFilename (f : bytes) : bytes := flat_map escape_byte f.

Definition content_disposition (name : string) : string :=
  "form-data; name=" +:+ quotation +:+ "files" +:+ quotation +:+ "; filename=" +:+ quotation
  +:+ of_bytes (escapeMultipartFilename (to_bytes name)) +:+ quotation.

(** The request of a conversion: where it goes, the caller's authorization, the
    header of the one file part and its content. *)
Record conversion_request := MkConversion {
  cr_url : string;
  cr_authorization : option string;
  cr_disposition : string;
  cr_part_type : option string;
  cr_data : bytes
}.

(** What the exchange gave: an error, or a status, headers and, unless reading
    failed or an error body ran over its limit, the body. *)
Inductive conversion_answer := ConversionFailed | Converted (status : Z) (header : Header) (body : option bytes).

Section Service.
Context (ParseMediaType : string -> option (string * gmap string string)) (FormatMediaType : string * gmap string string -> string).
Context (unmarshal_error : bytes -> option object) (ParseTime : string -> bool) (unmarshal_document : bytes -> option ConvertedFile).
Context (now : Z) (rnd : nat -> nat) (iter : PoolModel -> nat -> list Enclave) (exchange : conversion_request -> conversion_answer).

Definition sanitizeMultipartContentType (ct : string) : string :=
  if String.eqb ct "" || existsb is_line_break (to_bytes ct) then ""
  else match ParseMediaType ct with Some m => FormatMediaType m | None => "" end.

Definition parseDocUploadResponse (respBody : bytes) (mode : string) : APIError + ConvertedFile :=
  match unmarshal_document respBody with
  | None => inl (fileConversionError 502 errMsgDocumentInvalidResponse)
  | Some out =>
      if String.eqb mode FileConversionModeImages then
        match Pages out with [] => inl (fileConversionError 502 errMsgDocumentNoPages) | _ => inr out end
      else if String.eqb (TrimSpace (MDContent out)) "" then inl (fileConversionError 502 errMsgDocumentEmpty)
      else inr out
  end.

Definition error_detail (respBody : bytes) : bytes :=
  let detail := TrimSpaceBytes respBody in
  if Z.of_nat (length detail) >? maxDocumentErrorDetailBytes then
    ToValidUTF8 (take (Z.to_nat maxDocumentErrorDetailBytes) detail) ++ to_bytes "..."
  else detail.

Definition upstreamDocumentError (status : Z) (header : Header) (respBody : bytes) : APIError :=
  let hinted e := WithRetryAfter ParseTime e header in
  if (status <? 400) || (status >? maxHTTPErrorStatus) then fileConversionError 502 errMsgDocumentFailed
  else
    match NormalizeUpstreamError unmarshal_error status respBody with
    | (normalized, true) => hinted (if status >=? 500 then WithMessage normalized errMsgDocumentFailed else normalized)
    | (_, false) =>
        if status >=? 500 then hinted (fileConversionError status errMsgDocumentFailed)
        else if status =? 429 then hinted (WithMessage ErrRateLimited errMsgDocumentRateLimited)
        else
          match error_detail respBody with
          | [] => hinted (fileConversionError status errMsgDocumentFailed)
          | detail => hinted (fileConversionError status (errMsgDocumentFailedDetail (of_bytes detail)))
          end
    end.

Definition docUploadModel := "doc-upload".

Definition conversion_of (e : Enclave) (authHeader : string) (d : decodedFileInput) (mode : string) : conversion_request :=
  MkConversion
    ("https://" +:+ host e +:+ "/v1/convert/file" +:+ (if String.eqb mode "" then "" else "?mode=" +:+ mode))
    (if String.eqb authHeader "" then None else Some authHeader)
    (content_disposition (filename d))
    (let ct := sanitizeMultipartContentType (contentType d) in if String.eqb ct "" then None else Some ct)
    (data d).

(** The models the router serves. *)
Abbreviation fleet := (gmap string PoolModel).

(** The reservation of the replica is held until the answer is read. *)
Definition ConvertFile (orgID authHeader : string) (d : decodedFileInput) (mode : string) (f : fleet) : fleet * (APIError + ConvertedFile) :=
  match f !! docUploadModel with
  | None => (f, inl (fileConversionError 502 errMsgDocumentNotConfigured))
  | Some m =>
      let '(primary, spill, policy) := ReservationPools orgID m in
      let '(m, s) := SelectServing now rnd (iter m) m [] false primary spill policy in
      match sel_enclave s with
      | None => (<[docUploadModel := m]> f, inl (WithMessage ErrModelUnavailable errMsgDocumentUnavailable))
      | Some e =>
          (<[docUploadModel := ReleaseDispatch (host e) m]> f,
           match exchange (conversion_of e authHeader d mode) with
           | ConversionFailed => inl (fileConversionError 502 errMsgDocumentRequestFailed)
           | Converted status header body =>
               if negb (status =? 200) then
                 let body := default [] body in
                 inl (upstreamDocumentError status header (if Z.of_nat (length body) >? MaxUpstreamErrorBodyBytes then [] else body))
               else
                 match body with
                 | None => inl (fileConversionError 502 errMsgDocumentReadResponse)
                 | Some body => parseDocUploadResponse body mode
                 end
           end)
      end
  end.
End Service.

(** The rewriting a request goes through, with the document service behind it. *)
Section Requests.
Context (Quote : string -> string) (ParseMediaType : string -> option (string * gmap string string)) (FormatMediaType : string * gmap string string -> string).
Context (unmarshal_error : bytes -> option object) (ParseTime : string -> bool) (unmarshal_document : bytes -> option ConvertedFile).
Context (now : Z) (rnd : nat -> nat) (iter : PoolModel -> nat -> list Enclave) (exchange : conversion_request -> conversion_answer).
Context (IsMultimodal : string -> bool) (orgID : string).

Definition newRewriteContext (modelName : string) : rewriteContext := MkRewrite IsMultimodal modelName.
Definition convert_file (authHeader : string) (d : decodedFileInput) (mode : string) (f : gmap string PoolModel) :=
  ConvertFile ParseMediaType FormatMediaType unmarshal_error ParseTime unmarshal_document now rnd iter exchange orgID authHeader d mode f.

Definition rewriteResponsesBase64Files (body : object) (authHeader modelName : string) (f : gmap string PoolModel)
    : gmap string PoolModel * (APIError + (object * bool)) :=
  rewriteResponsesBase64FilesWithProcessor Quote ParseMediaType (convert_file authHeader) (newRewriteContext modelName) body f.

Definition rewriteChatCompletionsBase64Files (body : object) (authHeader modelName : string) (f : gmap string PoolModel)
    : gmap string PoolModel * (APIError + (object * bool)) :=
  rewriteChatCompletionsBase64FilesWithProcessor Quote ParseMediaType (convert_file authHeader) (newRewriteContext modelName) body f.
End Requests.

(** ** Lemmas *)

Lemma trim_prefix_app p s : trim_prefix p (p ++ s) = Some s.
Proof. induction p as [|a p IH]; [done|]. cbn. by rewrite Ascii.eqb_refl. Qed.

Lemma has_prefix_app p s : has_prefix p (p ++ s) = true.
Proof. unfold has_prefix. rewrite trim_prefix_app. by apply bool_decide_eq_true_2. Qed.

Lemma has_suffix_app p s : has_suffix p (s ++ p) = true.
Proof. unfold has_suffix. rewrite rev_app_distr. apply has_prefix_app. Qed.

Lemma drop_suffix_app p s : drop_suffix p (s ++ p) = s.
Proof. unfold drop_suffix. rewrite length_app, Nat.add_sub. by rewrite take_app_length. Qed.

Lemma cut_char_app c p s : c ∉ p -> cut_char c (p ++ c :: s) = Some (p, s).
Proof.
  induction p as [|x p IH]; intros Hc; cbn; [by rewrite Ascii.eqb_refl|]. apply not_elem_of_cons in Hc as [Hx Hc].
  destruct (Ascii.eqb_spec x c); [congruence|]. by rewrite IH.
Qed.

Definition data_url (ct : string) (payload : bytes) : string :=
  of_bytes (to_bytes "data:" ++ to_bytes ct ++ to_bytes ";base64" ++ ","%char :: payload).

(** ** Properties *)

(** A file survives its encoding. A file sent as base64, in a data URL or
    bare, padded or not and broken into lines anywhere, is decoded to the same
    bytes, name and media type. *)
Theorem attached_file_round_trip name ct d s param : d <> [] -> ","%char ∉ to_bytes ct ->
  strip_line_breaks s = raw_std_encode d \/ strip_line_breaks s = std_encode d ->
  let name' := if String.eqb name "" then "uploaded-file" else name in
  decodeFileInput name (data_url ct s) param = inr (MkDecoded name' ct d)
  /\ decodeFileInput name (of_bytes s) param = inr (MkDecoded name' "" d).
Proof.
  intros Hd Hct Hs. cbn zeta. unfold decodeFileInput. split.
  - unfold data_url. rewrite to_of_bytes, has_prefix_app.
    replace (to_bytes "data:" ++ to_bytes ct ++ to_bytes ";base64" ++ ","%char :: s)
      with ((to_bytes "data:" ++ to_bytes ct ++ to_bytes ";base64") ++ ","%char :: s) by (by rewrite <- !app_assoc).
    rewrite cut_char_app.
    2:{ rewrite !elem_of_app. intros [H|[H|H]]; [|done|]; apply (bool_decide_pack _) in H; vm_compute in H; done. }
    rewrite app_assoc, has_suffix_app, drop_suffix_app. unfold TrimPrefix. rewrite trim_prefix_app. cbn [default from_option id].
    rewrite (payload_decoded s d Hd Hs). unfold of_bytes at 1, to_bytes at 1. by rewrite String.string_of_list_ascii_of_string.
  - rewrite to_of_bytes. assert (has_prefix (to_bytes "data:") s = false) as ->; [|by rewrite (payload_decoded s d Hd Hs)].
    unfold has_prefix. apply bool_decide_eq_false_2. intros [r Hr].
    assert (":"%char ∈ s) as Hin.
    { destruct s as [|a [|b [|c [|e [|f s]]]]]; cbn in Hr; repeat (case_match; try done).
      all: try discriminate Hr. do 4 right. left. }
    assert (":"%char ∈ strip_line_breaks s) as Hin' by (unfold strip_line_breaks; apply list_elem_of_filter; done).
    pose proof (raw_encode_chars d) as Hc. rewrite Forall_forall in Hc.
    assert (forall c, c ∈ raw_std_encode d -> c <> ":"%char) as Hno.
    { intros c Hc' ->. unfold raw_std_encode in Hc'. apply list_elem_of_fmap in Hc' as (i & Hi & Hin2).
      pose proof (b64_digits_range d) as Hr'. rewrite Forall_forall in Hr'. specialize (Hr' i Hin2).
      pose proof (std_char_facts i Hr') as (Hv & _). rewrite <- Hi in Hv. vm_compute in Hv. done. }
    destruct Hs as [Hs|Hs]; rewrite Hs in Hin'; [by eapply Hno|]. unfold std_encode in Hin'. apply elem_of_app in Hin' as [?|Hp]; [by eapply Hno|].
    unfold padding in Hp. by apply elem_of_replicate in Hp as [? _].
Qed.

(** "hello" on two lines. *)
Lemma attached_file_round_trip_witness :
  decodeFileInput "" (data_url "text/plain" (to_bytes "aGVs" ++ newline :: to_bytes "bG8")) "p" = inr (MkDecoded "uploaded-file" "text/plain" (to_bytes "hello")).
Proof.
  apply (attached_file_round_trip "" "text/plain" (to_bytes "hello") (to_bytes "aGVs" ++ newline :: to_bytes "bG8") "p").
  - done.
  - apply (bool_decide_unpack _). vm_compute. exact I.
  - left. vm_compute. reflexivity.
Defined.

(** A quoted string: up to the first quotation mark that no backslash precedes. *)
Fixpoint read_quoted (s : bytes) : option (bytes * bytes) :=
  match s with
  | [] => None
  | c :: s =>
      if Ascii.eqb c (byte_of 34) then Some ([], s)
      else if Ascii.eqb c "\"%char then
        match s with [] => None | e :: s => '(v, r) ← read_quoted s; Some (e :: v, r) end
      else '(v, r) ← read_quoted s; Some (c :: v, r)
  end.

Definition on_one_line (f : bytes) : bytes := map (fun c => if is_line_break c then "_"%char else c) f.

Lemma read_escaped f rest : read_quoted (escapeMultipartFilename f ++ byte_of 34 :: rest) = Some (on_one_line f, rest).
Proof.
  induction f as [|c f IH]; [done|]. cbn [escapeMultipartFilename flat_map on_one_line map]. fold (escapeMultipartFilename f) (on_one_line f).
  unfold escape_byte. destruct (Ascii.eqb_spec c "\"%char) as [->|H1]; [cbn; by rewrite IH|].
  destruct (Ascii.eqb_spec c (byte_of 34)) as [->|H2]; [cbn; by rewrite IH|].
  destruct (is_line_break c) eqn:E; [cbn; by rewrite IH|].
  cbn [app read_quoted]. rewrite (proj2 (Ascii.eqb_neq _ _) H2), (proj2 (Ascii.eqb_neq _ _) H1), IH. done.
Qed.

Lemma escaped_one_line f : Forall (fun c => is_line_break c = false) (escapeMultipartFilename f).
Proof.
  induction f as [|c f IH]; [constructor|]. cbn [escapeMultipartFilename flat_map]. apply Forall_app. split; [|exact IH].
  unfold escape_byte. destruct (Ascii.eqb c "\"%char); [by repeat constructor|]. destruct (Ascii.eqb c (byte_of 34)); [by repeat constructor|].
  destruct (is_line_break c) eqn:E; by repeat constructor.
Qed.

(** A client's file name cannot forge a part of the request sent to the
    document service. Whatever bytes it has, the header it is put in stays one
    line, and a reader of the quoted name gets the client's name, with line
    breaks as underscores, and stops at the router's own closing quote. *)
Theorem filename_cannot_forge_headers name rest :
  Forall (fun c => is_line_break c = false) (to_bytes (content_disposition name))
  /\ (exists prefix, to_bytes (content_disposition name) = prefix ++ escapeMultipartFilename (to_bytes name) ++ [byte_of 34])
  /\ read_quoted (escapeMultipartFilename (to_bytes name) ++ byte_of 34 :: rest) = Some (on_one_line (to_bytes name), rest).
Proof.
  split_and!; [| |apply read_escaped]; unfold content_disposition; rewrite !to_bytes_app, to_of_bytes.
  - repeat apply Forall_app_2; try apply escaped_one_line; apply (bool_decide_unpack _); vm_compute; exact I.
  - exists (to_bytes "form-data; name=" ++ to_bytes quotation ++ to_bytes "files" ++ to_bytes quotation ++ to_bytes "; filename=" ++ to_bytes quotation).
    by rewrite <- !app_assoc.
Qed.

(** *** Rewriting *)

Section Rewriting.
Context (Quote : string -> string) (ParseMediaType : string -> option (string * gmap string string)).
Context {S : Type} (process : decodedFileInput -> string -> S -> S * (APIError + ConvertedFile)) (rc : rewriteContext) (sf : surface).
Abbreviation render := (renderDecodedFile Quote ParseMediaType process rc).
Abbreviation rewrite_content := (rewrite_content Quote ParseMediaType process rc sf).
Abbreviation rewrite_msg := (rewrite_msg Quote ParseMediaType process rc sf).
Abbreviation rewrite_items := (rewrite_items Quote ParseMediaType process rc sf).
Abbreviation rewrite_body := (rewrite_body Quote ParseMediaType process rc sf).

(** What stands for a part: itself, or the rendering of its file. *)
Definition expands (p : json) (ps : list json) : Prop :=
  match is_file_part sf p with
  | None => ps = [p]
  | Some part => exists d mode s s', sf_decode sf part = inr (d, mode) /\ render d mode (sf_shape sf) s = (s', inr ps)
  end.

Definition content_parts (item : json) : option (object * list json) :=
  msg ← as_object item; parts ← as_array (get "content" msg); Some (msg, parts).

Definition item_rewritten (i i' : json) : Prop :=
  match content_parts i with
  | None => i' = i
  | Some (msg, parts) => exists pss, Forall2 expands parts pss /\ i' = JObj (<["content" := JArr (concat pss)]> msg)
  end.

Definition has_file (item : json) : bool :=
  match content_parts item with Some (_, parts) => existsb (fun p => bool_decide (is_Some (is_file_part sf p))) parts | None => false end.

Lemma content_spec parts : forall s s' ps b, rewrite_content parts s = (s', inr (ps, b)) ->
  (exists pss, Forall2 expands parts pss /\ ps = concat pss) /\ b = existsb (fun p => bool_decide (is_Some (is_file_part sf p))) parts.
Proof.
  induction parts as [|p parts IH]; intros s s' ps b H; cbn [FileInputs.rewrite_content] in H; [simplify_eq; split; [by exists []|done]|].
  destruct (rewrite_part _ _ _ _ _ p s) as [s1 [e|new]] eqn:Ep; [done|]. destruct (rewrite_content parts s1) as [s2 [e|[rest r]]] eqn:Er; [done|].
  simplify_eq. destruct (IH _ _ _ _ Er) as [(pss & Hp & ->) ->]. split; [|done]. exists (new :: pss). split; [|done]. constructor; [|done].
  unfold rewrite_part in Ep. unfold expands. destruct (is_file_part sf p) as [part|]; [|by simplify_eq].
  destruct (sf_decode sf part) as [e|[d mode]]; [done|]. by exists d, mode, s, s1.
Qed.

Lemma item_spec item s s' i b : rewrite_msg item s = (s', inr (i, b)) -> item_rewritten item i /\ b = has_file item.
Proof.
  unfold FileInputs.rewrite_msg, item_rewritten, has_file, content_parts. intros H.
  destruct item as [| | | | | | |msg]; cbn [as_object mbind option_bind]; try by simplify_eq.
  destruct (as_array (get "content" msg)) as [parts|]; cbn [mbind option_bind]; [|by simplify_eq].
  destruct (rewrite_content parts s) as [s1 [e|[content r]]] eqn:E; [done|]. simplify_eq.
  destruct (content_spec _ _ _ _ _ E) as [(pss & Hp & ->) ->]. split; [|done]. by exists pss.
Qed.

Lemma messages_spec items : forall s s' js b, rewrite_items items s = (s', inr (js, b)) -> Forall2 item_rewritten items js /\ b = existsb has_file items.
Proof.
  induction items as [|i items IH]; intros s s' js b H; cbn [FileInputs.rewrite_items] in H; [by simplify_eq|].
  destruct (rewrite_msg i s) as [s1 [e|[new r1]]] eqn:Ei; [done|]. destruct (rewrite_items items s1) as [s2 [e|[rest r2]]] eqn:Er; [done|].
  simplify_eq. destruct (item_spec _ _ _ _ _ Ei) as [Hi ->]. destruct (IH _ _ _ _ Er) as [Hr ->]. split; [by constructor|done].
Qed.

(** A state the processor leaves alone is left alone. *)
Lemma render_keeps (R : S -> S -> Prop) d mode shape s : (forall s, R s s) -> (forall d m s, R s (process d m s).1) -> R s (render d mode shape s).1.
Proof.
  intros Hr Hp. unfold renderDecodedFile. destruct (resolveFileMode _ _ _ _ _) as [e|[m []]]; [apply Hr..|].
  specialize (Hp d m s). by destruct (process d m s) as [s1 [e|x]].
Qed.

Lemma content_keeps (R : S -> S -> Prop) : PreOrder R -> (forall d m s, R s (process d m s).1) -> forall parts s, R s (rewrite_content parts s).1.
Proof.
  intros [Hr Ht] Hp. induction parts as [|p parts IH]; intros s; cbn [FileInputs.rewrite_content]; [apply Hr|].
  assert (R s (rewrite_part Quote ParseMediaType process rc sf p s).1) as H1.
  { unfold rewrite_part. destruct (is_file_part sf p) as [part|]; [|apply Hr]. destruct (sf_decode sf part) as [e|[d mode]]; [apply Hr|]. by apply render_keeps. }
  destruct (rewrite_part _ _ _ _ _ p s) as [s1 [e|new]]; [done|]. specialize (IH s1). cbn [fst] in H1.
  destruct (rewrite_content parts s1) as [s2 [e|[rest r]]]; cbn [fst] in *; by eapply Ht.
Qed.

Lemma items_keeps (R : S -> S -> Prop) : PreOrder R -> (forall d m s, R s (process d m s).1) -> forall items s, R s (rewrite_items items s).1.
Proof.
  intros HR Hp. pose proof HR as [Hr Ht]. induction items as [|i items IH]; intros s; cbn [FileInputs.rewrite_items]; [apply Hr|].
  assert (R s (rewrite_msg i s).1) as H1.
  { unfold FileInputs.rewrite_msg. destruct i as [| | | | | | |msg]; try apply Hr. destruct (as_array _) as [parts|]; [|apply Hr].
    pose proof (content_keeps R HR Hp parts s) as H. by destruct (rewrite_content parts s) as [s1 [e|[c r]]]. }
  destruct (rewrite_msg i s) as [s1 [e|[new r]]]; [done|]. specialize (IH s1). cbn [fst] in H1.
  destruct (rewrite_items items s1) as [s2 [e|[rest r2]]]; cbn [fst] in *; by eapply Ht.
Qed.

Lemma body_keeps (R : S -> S -> Prop) body s : PreOrder R -> (forall d m s, R s (process d m s).1) -> R s (rewrite_body body s).1.
Proof.
  intros HR Hp. unfold FileInputs.rewrite_body. destruct (as_array _) as [items|]; [|apply HR].
  pose proof (items_keeps R HR Hp items s) as H. by destruct (rewrite_items items s) as [s1 [e|[js r]]].
Qed.

(** The types of the parts a file becomes. *)
Definition part_type (p : json) : string := match p with JObj o => get_string "type" o | _ => "" end.

Lemma render_types d mode shape s s' ps image : (forall url, get_string "type" (imagePart shape url) = image) ->
  render d mode shape s = (s', inr ps) ->
  Forall (fun p => part_type p = textType shape \/ part_type p = image /\ visionCapable rc = true) ps.
Proof.
  intros Hi H. assert (forall t, part_type (textPart shape t) = textType shape) as Ht by done.
  unfold renderDecodedFile in H. destruct (resolveFileMode _ _ d mode rc) as [e|[m []]] eqn:Em; [done|simplify_eq; constructor; [by left|done]|].
  destruct (process d m s) as [s1 [e|result]]; [done|]. destruct (String.eqb_spec m FileConversionModeImages) as [->|]; simplify_eq/=.
  2:{ constructor; [by left|done]. }
  assert (visionCapable rc = true) as Hv.
  { unfold resolveFileMode in Em. destruct (isInlineTextFile _ d); [done|]. destruct (negb (String.eqb mode "")) eqn:E1.
    - destruct (String.eqb mode FileConversionModeImages && negb (visionCapable rc)) eqn:E2; [done|]. simplify_eq.
      destruct (visionCapable rc); done.
    - destruct (visionCapable rc); [done|]. by simplify_eq. }
  constructor; [by left|]. apply Forall_flat_map, Forall_forall. intros p _. unfold page_parts. constructor; [by left|].
  destruct (String.eqb (Image p) ""); [constructor|]. constructor; [right; split; [apply Hi|done]|constructor].
Qed.
End Rewriting.

Section Surfaces.
Context (Quote : string -> string) (ParseMediaType : string -> option (string * gmap string string)).
Context {S : Type} (process : decodedFileInput -> string -> S -> S * (APIError + ConvertedFile)) (rc : rewriteContext).
Abbreviation surfaces sf := (sf = responses_surface Quote \/ sf = chat_surface Quote).

Lemma rendered_parts sf p ps : surfaces sf -> is_Some (is_file_part sf p) -> expands Quote ParseMediaType process rc sf p ps ->
  Forall (fun q => is_file_part sf q = None /\ (part_type q = textType (sf_shape sf) \/ visionCapable rc = true)) ps.
Proof.
  intros Hsf [part Hp] He. unfold expands in He. rewrite Hp in He. destruct He as (d & mode & s & s' & _ & Hr).
  assert (exists image, (forall url, get_string "type" (imagePart (sf_shape sf) url) = image) /\ image <> sf_part sf /\ textType (sf_shape sf) <> sf_part sf)
    as (image & Hi & Hn1 & Hn2).
  { destruct Hsf as [->| ->]; [exists "input_image"|exists "image_url"]; done. }
  eapply Forall_impl; [by eapply render_types|]. intros q Hq. split; [|destruct Hq as [?|[_ ?]]; [by left|by right]].
  unfold is_file_part. destruct q as [| | | | | | |o]; try done. cbn [as_object mbind option_bind]. cbn [part_type] in Hq.
  destruct (String.eqb_spec (get_string "type" o) (sf_part sf)); [destruct Hq as [?|[? _]]; congruence|done].
Qed.

Lemma item_has_no_file sf i i' : surfaces sf -> item_rewritten Quote ParseMediaType process rc sf i i' -> has_file sf i' = false.
Proof.
  intros Hsf. unfold item_rewritten, has_file. destruct (content_parts i) as [[msg parts]|] eqn:Ec; [|by intros ->; rewrite Ec].
  intros (pss & Hp & ->). unfold content_parts. cbn [as_object mbind option_bind]. rewrite get_insert. cbn [as_array mbind option_bind].
  apply not_true_is_false. rewrite existsb_exists. intros (q & Hq%list_elem_of_In & Hf). apply bool_decide_eq_true in Hf.
  clear Ec. induction Hp as [|p ps parts pss Hp _ IH]; [by apply elem_of_nil in Hq|]. cbn [concat] in Hq.
  apply elem_of_app in Hq as [Hq|Hq]; [|by apply IH].
  destruct (decide (is_Some (is_file_part sf p))) as [Hs|Hn].
  - pose proof (rendered_parts sf p ps Hsf Hs Hp) as H. rewrite Forall_forall in H. destruct (H q Hq) as [Hx _]. rewrite Hx in Hf. by destruct Hf.
  - apply eq_None_not_Some in Hn. unfold expands in Hp. rewrite Hn in Hp. subst ps. apply list_elem_of_singleton in Hq as ->. rewrite Hn in Hf. by destruct Hf.
Qed.

End Surfaces.

Definition sample_file_body : object :=
  {["messages" := JArr [JObj {["role" := JStr "user"; "content" := JArr
    [JObj {["type" := JStr "text"; "text" := JStr "see"]};
     JObj {["type" := JStr "file"; "file" := JObj {["filename" := JStr "a.pdf"; "file_data" := JStr "aGVsbG8="]}]}]]}]]}.

Definition sample_process (d : decodedFileInput) (mode : string) (n : nat) : nat * (APIError + ConvertedFile) :=
  (S n, inr (MkConverted "# hello" [])).

Definition sample_rewritten : nat * (APIError + (object * bool)) :=
  rewrite_body (fun s => s) (fun _ => None) sample_process (MkRewrite (fun _ => false) "m") (chat_surface (fun s => s)) sample_file_body 0%nat.

Example pdf_becomes_text :
  sample_rewritten = (1%nat, inr ({["messages" := JArr [JObj {["role" := JStr "user"; "content" := JArr
    [JObj {["type" := JStr "text"; "text" := JStr "see"]};
     JObj {["type" := JStr "text"; "text" := JStr (renderFileInputText "a.pdf" "# hello")]}]]}]]}, true)).
Proof. vm_compute. reflexivity. Qed.


(** ** The document service *)

Lemma to_valid_length n : forall s, (length (to_valid_loop n s) <= length s)%nat.
Proof.
  induction n as [|n IH]; intros s; [simpl; lia|]. destruct s as [|c s]; [simpl; lia|]. cbn [to_valid_loop].
  pose proof (decode_width c s) as Hw. destruct (decode_rune c s) as [r w]. cbn [snd] in Hw. rewrite length_app.
  specialize (IH (drop w (c :: s))). rewrite length_drop in IH. destruct (_ && _); [simpl in *; lia|]. rewrite length_take. simpl in *. lia.
Qed.

Lemma detail_bounded b : Z.of_nat (length (error_detail b)) <= maxDocumentErrorDetailBytes + 3.
Proof.
  unfold error_detail. destruct (_ >? _) eqn:E; [|rewrite Z.gtb_ltb in E; lia]. rewrite length_app.
  assert (forall l, (length (ToValidUTF8 l) <= length l)%nat) as Hv by (intros; apply to_valid_length).
  specialize (Hv (take (Z.to_nat maxDocumentErrorDetailBytes) (TrimSpaceBytes b))). rewrite length_take in Hv.
  change (length (to_bytes "...")) with 3%nat. unfold maxDocumentErrorDetailBytes in *. lia.
Qed.

Section Answers.
Context (unmarshal_error : bytes -> option object) (ParseTime : string -> bool).
Abbreviation upstreamDocumentError := (upstreamDocumentError unmarshal_error ParseTime).

(** What a failed conversion tells the client. The error keeps an error
    status of the service and has one of the documented types; a failure of the
    service shows nothing of its message; and a rejection that is not an error
    object shows at most 515 bytes of the service's answer. *)
Theorem document_errors_bounded status header body :
  let e := upstreamDocumentError status header body in
  Status e = (if (400 <=? status) && (status <=? 599) then status else 502)
  /\ err_Type e ∈ openAIErrorTypes
  /\ (500 <= Status e -> Message e = errMsgDocumentFailed)
  /\ ((NormalizeUpstreamError unmarshal_error status body).2 = false ->
        strlen (Message e) <= strlen (errMsgDocumentFailedDetail "") + maxDocumentErrorDetailBytes + 3).
Proof.
  cbn zeta. unfold FileInputs.upstreamDocumentError, maxHTTPErrorStatus.
  assert (forall s m, strlen m <= 543 -> Status (fileConversionError s m) = s /\ err_Type (fileConversionError s m) ∈ openAIErrorTypes
    /\ strlen (Message (fileConversionError s m)) <= strlen (errMsgDocumentFailedDetail "") + maxDocumentErrorDetailBytes + 3) as Hf.
  { intros s m Hm. split; [done|]. split; [apply errTypeForStatus_known|]. unfold maxDocumentErrorDetailBytes. 
    assert (strlen (errMsgDocumentFailedDetail "") = 28) as -> by reflexivity. cbn [Message fileConversionError]. lia. }
  assert (strlen errMsgDocumentFailed <= 543) as Hm by (vm_compute; done).
  destruct ((status <? 400) || (status >? 599)) eqn:Er.
  { assert ((400 <=? status) && (status <=? 599) = false) as -> by lia. destruct (Hf 502 _ Hm) as (H1 & H2 & H3). by split_and!. }
  assert ((400 <=? status) && (status <=? 599) = true) as -> by lia.
  destruct (NormalizeUpstreamError _ status body) as [n recognized] eqn:En.
  assert (Status n = status /\ err_Type n ∈ openAIErrorTypes) as [Hs Ht].
  { unfold NormalizeUpstreamError in En. destruct (unmarshal_error body) as [parsed|]; [|simplify_eq; split; [done|apply (bool_decide_unpack _); vm_compute; exact I]].
    destruct (match get "error" parsed with JObj inner => Some inner | _ => _ end) as [fields|];
      [|simplify_eq; split; [done|apply (bool_decide_unpack _); vm_compute; exact I]].
    destruct (String.eqb (get_string "message" fields) ""); simplify_eq; (split; [done|]); [apply (bool_decide_unpack _); vm_compute; exact I|].
    cbn [err_Type]. destruct (upstreamErrorTypes !! _) eqn:Eu; [by eapply upstreamErrorTypes_known|]. case_bool_decide; [done|apply errTypeForStatus_known]. }
  destruct recognized; cbn [snd].
  { destruct (status >=? 500) eqn:E5; cbn [Status err_Type Message WithRetryAfter WithMessage]; split_and!; try done. intros H. rewrite Hs in H. lia. }
  destruct (status >=? 500) eqn:E5; [destruct (Hf status _ Hm) as (H1 & H2 & H3); by split_and!|].
  destruct (status =? 429) eqn:E4.
  { assert (status = 429) as -> by lia. split_and!; [done|apply (bool_decide_unpack _); vm_compute; exact I|done|intros _; vm_compute; done]. }
  pose proof (detail_bounded body) as Hd. destruct (error_detail body) as [|c l] eqn:Ed.
  - destruct (Hf status _ Hm) as (H1 & H2 & H3). split_and!; [done|done| |done]. intros H. cbn in H. lia.
  - assert (strlen (errMsgDocumentFailedDetail (of_bytes (c :: l))) <= 543) as Hm'.
    { unfold strlen, errMsgDocumentFailedDetail. rewrite to_bytes_app, to_of_bytes, length_app. unfold maxDocumentErrorDetailBytes in Hd.
      change (length (to_bytes "Document processing failed: ")) with 28%nat. lia. }
    destruct (Hf status _ Hm') as (H1 & H2 & H3). split_and!; [done|done| |done]. intros H. cbn in H. lia.
Qed.
End Answers.

(** A selection that claims no probe and is released leaves the pool as it was. *)
Lemma borrowed_and_returned now rnd iter m order primary spill policy m' s :
  wf_pool m -> enumerates m iter -> (forall e0, member m e0 -> 0 <= inflight e0 < int64_max) ->
  SelectServing now rnd iter m order false primary spill policy = (m', s) ->
  match sel_enclave s with Some e => ReleaseDispatch (host e) m' = m /\ usable now primary spill m e | None => m' = m end.
Proof.
  intros Hwf Hen Hr Hsel. unfold SelectServing in Hsel. injection Hsel as Hm Hs. rewrite Hs in Hm.
  destruct (sel_enclave s) as [e1|] eqn:He; [|done].
  destruct (select_sound now rnd iter m order false primary spill policy e1 Hen) as (e0 & Hu & Heq); [by rewrite Hs|].
  destruct Heq as [<-|(_ & [t Ht] & _)]; [|by rewrite select_no_claim in Ht]. split; [|exact Hu].
  pose proof Hu as ((h & Hh) & _). pose proof (Hwf _ _ Hh) as Hhost. simpl in Hhost. pose proof (Hr e1 (ex_intro _ h Hh)) as Hb.
  subst m'. unfold ReleaseDispatch, reserve, put_enclave. cbn [Enclaves host set_inflight]. rewrite lookup_insert_eq. cbn [inflight set_inflight].
  rewrite !(wrap64_id _) by (unfold in_int64, int64_min, int64_max in *; rewrite ?wrap64_id; unfold in_int64, int64_min, int64_max in *; lia).
  destruct m; cbn in *. f_equal. rewrite insert_insert_eq. rewrite Hhost. apply insert_id. rewrite Hh. f_equal.
  destruct e1. unfold set_inflight. cbn. by rewrite Z.add_simpl_r.
Qed.

Section Fleet.
Context (Quote : string -> string) (ParseMediaType : string -> option (string * gmap string string)) (FormatMediaType : string * gmap string string -> string).
Context (unmarshal_error : bytes -> option object) (ParseTime : string -> bool) (unmarshal_document : bytes -> option ConvertedFile).
Context (now : Z) (rnd : nat -> nat) (iter : PoolModel -> nat -> list Enclave).
Abbreviation ConvertFile := (ConvertFile ParseMediaType FormatMediaType unmarshal_error ParseTime unmarshal_document now rnd iter).
Abbreviation rewriteResponses := (rewriteResponsesBase64Files Quote ParseMediaType FormatMediaType unmarshal_error ParseTime unmarshal_document now rnd iter).
Abbreviation rewriteChat := (rewriteChatCompletionsBase64Files Quote ParseMediaType FormatMediaType unmarshal_error ParseTime unmarshal_document now rnd iter).

(** The document service's pool is well formed and listed as it is, and no count
    of it is at its end. *)
Definition fleet_ok (f : gmap string PoolModel) : Prop :=
  forall m, f !! docUploadModel = Some m -> wf_pool m /\ enumerates m (iter m) /\ (forall e, member m e -> 0 <= inflight e < int64_max).

Lemma convert_keeps exchange orgID authHeader d mode f : fleet_ok f -> (ConvertFile exchange orgID authHeader d mode f).1 = f.
Proof.
  intros Hf. unfold FileInputs.ConvertFile. destruct (f !! docUploadModel) as [m|] eqn:Em; [|done].
  destruct (Hf m Em) as (Hwf & Hen & Hr). destruct (ReservationPools orgID m) as [[primary spill] policy].
  destruct (SelectServing _ _ _ m [] false primary spill policy) as [m' s] eqn:Es.
  pose proof (borrowed_and_returned _ _ _ _ _ _ _ _ _ _ Hwf Hen Hr Es) as H.
  destruct (sel_enclave s) as [e|]; [destruct H as [-> _]|subst m']; by apply insert_id.
Qed.

Lemma convert_where ex ex' orgID authHeader d mode f : fleet_ok f ->
  (forall m e, f !! docUploadModel = Some m -> usable now (ReservationPools orgID m).1.1 (ReservationPools orgID m).1.2 m e ->
     ex' (conversion_of ParseMediaType FormatMediaType e authHeader d mode) = ex (conversion_of ParseMediaType FormatMediaType e authHeader d mode)) ->
  ConvertFile ex' orgID authHeader d mode f = ConvertFile ex orgID authHeader d mode f.
Proof.
  intros Hf Hex. unfold FileInputs.ConvertFile. destruct (f !! docUploadModel) as [m|] eqn:Em; [|done].
  destruct (Hf m Em) as (Hwf & Hen & Hr). specialize (Hex m). destruct (ReservationPools orgID m) as [[primary spill] policy].
  destruct (SelectServing _ _ _ m [] false primary spill policy) as [m' s] eqn:Es.
  pose proof (borrowed_and_returned _ _ _ _ _ _ _ _ _ _ Hwf Hen Hr Es) as H.
  destruct (sel_enclave s) as [e|]; [|done]. by rewrite (Hex e eq_refl (proj2 H)).
Qed.

Lemma rewriting_keeps exchange IsMultimodal orgID body authHeader modelName f s : fleet_ok f ->
  (rewrite_body Quote ParseMediaType (convert_file ParseMediaType FormatMediaType unmarshal_error ParseTime unmarshal_document now rnd iter exchange orgID authHeader)
    (newRewriteContext IsMultimodal modelName) s body f).1 = f.
Proof.
  intros Hf. assert (PreOrder (fun f1 f2 : gmap string PoolModel => fleet_ok f1 -> f2 = f1)) as HR.
  { split; [done|]. intros a b c Hab Hbc Ha. rewrite (Hbc ltac:(by rewrite (Hab Ha))). by apply Hab. }
  apply (body_keeps Quote ParseMediaType _ _ s (fun f1 f2 => fleet_ok f1 -> f2 = f1) body f HR); [|done].
  intros d m g Hg. by apply convert_keeps.
Qed.

(** Converting files is invisible to the rest of the router and stays inside
    the caller's pools. Whatever the service answers and however many files a
    request carries, every reservation is given back and no breaker's probe is
    claimed, on success and on error; and a file is sent to no replica but a
    verified one of the pools the caller may use. *)
Theorem conversions_leave_fleet exchange IsMultimodal orgID body authHeader modelName f : fleet_ok f ->
  (rewriteResponses exchange IsMultimodal orgID body authHeader modelName f).1 = f
  /\ (rewriteChat exchange IsMultimodal orgID body authHeader modelName f).1 = f
  /\ forall ex' d mode,
       (forall m e, f !! docUploadModel = Some m -> usable now (ReservationPools orgID m).1.1 (ReservationPools orgID m).1.2 m e ->
          ex' (conversion_of ParseMediaType FormatMediaType e authHeader d mode) = exchange (conversion_of ParseMediaType FormatMediaType e authHeader d mode)) ->
       ConvertFile ex' orgID authHeader d mode f = ConvertFile exchange orgID authHeader d mode f.
Proof.
  intros Hf. split_and!; [by apply rewriting_keeps..|]. intros ex' d mode Hex. by apply convert_where.
Qed.
End Fleet.

(** Two files, one of which the service rejects. *)
Definition sample_doc_pool : PoolModel := PM {["h1" := Example.sampled "h1" 0 0]} None None [] 1 ∅ ∅ None ∅ ∅.
Definition sample_fleet : gmap string PoolModel := {[docUploadModel := sample_doc_pool]}.

Lemma conversions_leave_fleet_witness :
  (rewriteChatCompletionsBase64Files (fun s => s) (fun _ => None) (fun _ => "") (fun _ => None) (fun _ => true) (fun _ => None) 200 (fun n => n)
     (fun m _ => (map_to_list (Enclaves m)).*2) (fun _ => Converted 422 ∅ (Some (to_bytes "encrypted"))) (fun _ => false) "" sample_file_body "Bearer k" "m" sample_fleet).1
  = sample_fleet.
Proof.
  apply (conversions_leave_fleet (fun s => s) (fun _ => None) (fun _ => "") (fun _ => None) (fun _ => true) (fun _ => None) 200 (fun n => n)
     (fun m _ => (map_to_list (Enclaves m)).*2) (fun _ => Converted 422 ∅ (Some (to_bytes "encrypted"))) (fun _ => false) "" sample_file_body "Bearer k" "m" sample_fleet).
  intros m Hm. unfold sample_fleet in Hm. rewrite lookup_singleton_eq in Hm. apply (inj Some) in Hm as <-. split_and!.
  - intros h e He. unfold sample_doc_pool in He. cbn in He. apply lookup_singleton_Some in He as [<- <-]. done.
  - intros p. apply Permutation_refl.
  - intros e [h He]. cbn in He. apply lookup_singleton_Some in He as [<- <-]. done.
Defined.

Example rejected_file_explained :
  match (rewriteChatCompletionsBase64Files (fun s => s) (fun _ => None) (fun _ => "") (fun _ => None) (fun _ => true) (fun _ => None) 200 (fun n => n)
     (fun m _ => (map_to_list (Enclaves m)).*2) (fun _ => Converted 422 ∅ (Some (to_bytes "encrypted"))) (fun _ => false) "" sample_file_body "Bearer k" "m" sample_fleet).2 with
  | inl e => (Status e, Message e) | inr _ => (0, "") end = (422, "Document processing failed: encrypted").
Proof. vm_compute. reflexivity. Qed.
