(* ===== verification/Dispatch.v ===== *)
(** * Internal dispatches ([manager/http_client.go])

    The tool loop, the token counter and the tool sessions send requests of the
    router's own to a model: a replica is selected in the caller's pools, the
    request is sent over its attested transport, and the outcome is charged to
    its breaker.  The replica's in-flight reservation is held until the send
    fails or the response's body is closed.

    What the transport gave is an argument ([exchange]); a selection and the
    recording of an outcome are separate functions of the manager's state, so
    that what other requests do in between can be any other state.  The random
    choice, the order of map ranges, xxHash and JSON encoding are parameters. *)

From Stdlib Require Import Ascii.
From S2P Require Import Prelude Float64 Sha256 Strconv Utf8 Json CacheSalt Config Errors Hrw CacheKey Shadow CircuitBreaker Metrics Pool Selection Lifecycle Headers Billing Proxy.
#[local] Open Scope string_scope.
#[local] Open Scope list_scope.
#[local] Open Scope Z_scope.

(** ** State *)

Record manager := MkManager {
  mg_models : gmap string PoolModel;
  mg_shadow : option Shadow.Shadow;
  mg_metrics : list Proxy.metric;
  mg_routing : list Shadow.metric;
  mg_debug : bool
}.

Definition set_models (f : gmap string PoolModel -> gmap string PoolModel) (mg : manager) : manager :=
  MkManager (f (mg_models mg)) (mg_shadow mg) (mg_metrics mg) (mg_routing mg) (mg_debug mg).
Definition note (ms : list Proxy.metric) (mg : manager) : manager :=
  MkManager (mg_models mg) (mg_shadow mg) (mg_metrics mg ++ ms) (mg_routing mg) (mg_debug mg).
Definition routed (r : Shadow.Shadow * list Shadow.metric) (mg : manager) : manager :=
  MkManager (mg_models mg) (Some r.1) (mg_metrics mg) (mg_routing mg ++ r.2) (mg_debug mg).

(** A replica in use: its model and its host. *)
Record replica := MkReplica { rp_model : string; rp_host : string }.

Definition enclave_of (r : replica) (mg : manager) : option Enclave := m ← mg_models mg !! rp_model r; Enclaves m !! rp_host r.
Definition breaker_of (r : replica) (mg : manager) : option circuitBreaker := enclave_of r mg ≫= cb.

Definition on_enclave (r : replica) (f : Enclave -> Enclave) (mg : manager) : manager :=
  match mg_models mg !! rp_model r with
  | None => mg
  | Some m =>
      match Enclaves m !! rp_host r with
      | None => mg
      | Some e => set_models <[rp_model r := put_enclave (f e) m]> mg
      end
  end.

Definition release (r : replica) (mg : manager) : manager :=
  set_models (alter (ReleaseDispatch (rp_host r)) (rp_model r)) mg.

(** The breaker, when the replica has one, takes a step. *)
Definition step_breaker (r : replica) (f : circuitBreaker -> circuitBreaker) (mg : manager) : manager :=
  match breaker_of r mg with Some b => on_enclave r (set_cb (f b)) mg | None => mg end.

Definition publish (r : replica) (mg : manager) : manager :=
  match breaker_of r mg ≫= publishIfActive with
  | Some s => note [CircuitBreakerState (rp_model r) (rp_host r) s] mg
  | None => mg
  end.

Definition record_failure (r : replica) (now : Z) (mg : manager) : manager := publish r (step_breaker r (RecordFailure now) mg).
Definition record_success (r : replica) (mg : manager) : manager := publish r (step_breaker r RecordSuccess mg).

(** [claim.Abort()]; the gauge is set only when the claim was still the
    breaker's. *)
Definition abort (r : replica) (claim : option Z) (now : Z) (mg : manager) : manager :=
  match claim, breaker_of r mg with
  | Some token, Some b =>
      let mg' := step_breaker r (fun b => (AbortProbe now token b).1) mg in
      if (AbortProbe now token b).2 then publish r mg' else mg'
  | _, _ => mg
  end.

(** ** A send *)

(** What the transport gave: an error or a status, when, and whether the slow
    timer had fired by then. *)
Record exchange := MkExchange { x_result : goerror + Z; x_slow : bool; x_at : Z }.

(** The callbacks of the client's transport. *)
Definition slow_callbacks (r : replica) (claimProbes : bool) (x : exchange) (mg : manager) : manager :=
  if negb (x_slow x) then mg
  else
    let mg := note [SlowHeadersTotal (rp_model r) (rp_host r)] mg in
    match x_result x with
    | inl err =>
        if claimProbes && String.eqb (classifyProxyError err) "canceled" then
          record_failure r (x_at x) (note [ProxyFailureTotal (rp_model r) (rp_host r) "canceled_after_slow"] mg)
        else mg
    | inr _ => mg
    end.

(** [buildable] is false when the request cannot be built; the error of a send is
    [None] for that one. *)
Definition postToEnclave (r : replica) (claimProbes : bool) (claim : option Z) (buildable : bool) (x : exchange) (mg : manager)
    : manager * (option goerror + Z) :=
  if negb buildable then (release r (abort r claim (x_at x) mg), inl None)
  else
    let mg := slow_callbacks r claimProbes x mg in
    match x_result x with
    | inl err =>
        let reason := classifyProxyError err in
        let mg :=
          if String.eqb reason "canceled" then abort r claim (x_at x) (note [ClientCancellationsTotal (rp_model r) (rp_host r)] mg)
          else record_failure r (x_at x) (note [ProxyFailureTotal (rp_model r) (rp_host r) reason] mg) in
        (release r mg, inl (Some err))
    | inr status =>
        (if status >=? 500 then record_failure r (x_at x) (note [ProxyFailureTotal (rp_model r) (rp_host r) (httpFailureReason status)] mg)
         else record_success r (note [ProxySuccessTotal (rp_model r) (rp_host r)] mg), inr status)
    end.

(** [inflightBody.Close]: the flag is whether it was closed before. *)
Definition inflightBody_Close (r : replica) (closed : bool) (mg : manager) : bool * manager :=
  if closed then (true, mg) else (true, release r mg).

(** ** Selection and dispatch *)

Section Dispatch.
Context (rnd : nat -> nat) (iter : PoolModel -> nat -> list Enclave) (order_of : list Z).
Context (xxhash64 : bytes -> Z) (int_out_of_range : float64 -> Z) (FormatFloat : float64 -> string) (secret : string) (marshals : object -> bool).

Inductive bound_error := ModelNotFound (model : string) | NoEnclave (model : string).

Definition boundHTTPClientPreferring (now : Z) (orgID modelName : string) (order : list string) (claimProbes : bool) (mg : manager)
    : manager * (bound_error + (replica * option Z)) :=
  match mg_models mg !! modelName with
  | None => (mg, inl (ModelNotFound modelName))
  | Some m =>
      let '(primary, spill, policy) := ReservationPools orgID m in
      let '(m, s) := SelectServing now rnd (iter m) m order claimProbes primary spill policy in
      (set_models <[modelName := m]> mg,
       match sel_enclave s with
       | None => inl (NoEnclave modelName)
       | Some e => inr (MkReplica modelName (host e), sel_claim s)
       end)
  end.

Definition boundHTTPClientForModel (now : Z) (orgID modelName : string) (mg : manager) : manager * (bound_error + replica) :=
  match boundHTTPClientPreferring now orgID modelName [] false mg with
  | (mg, inl e) => (mg, inl e)
  | (mg, inr (r, _)) => (release r mg, inr r)
  end.

Inductive dispatch_error := Unmarshalable | Unbound (e : bound_error) | SendFailed (e : option goerror).

Definition DoModelRequest (now : Z) (orgID modelName : string) (buildable : bool) (x : replica -> exchange) (mg : manager)
    : manager * (dispatch_error + (replica * Z)) :=
  match boundHTTPClientPreferring now orgID modelName [] true mg with
  | (mg, inl e) => (mg, inl (Unbound e))
  | (mg, inr (r, claim)) =>
      match postToEnclave r true claim buildable (x r) mg with
      | (mg, inl e) => (mg, inl (SendFailed e))
      | (mg, inr status) => (mg, inr (r, status))
      end
  end.

(** [None] when the pipeline is off. *)
Definition cacheRouteRequest (now : Z) (orgID modelName path : string) (body : object) (mg : manager) : option (Request * Settings * Hrw.Pool) :=
  _ ← mg_shadow mg;
  m ← mg_models mg !! modelName;
  let settings := CacheRouteSettings secret m in
  if bool_decide (s_Mode settings = ModeOff) then None
  else
    let '(primary, _, _) := ReservationPools orgID m in
    Some (ExtractRequest FormatFloat body path (get_string "cache_salt" body) settings, settings, CacheRoutePoolIn now (iter m) primary m).

Definition decision_of (now : Z) (modelName : string) (route : option (Request * Settings * Hrw.Pool)) (mg : manager) : option Decision :=
  '(req, settings, pool) ← route;
  s ← mg_shadow mg;
  if bool_decide (s_Mode settings = ModeEnforced) then Decide xxhash64 int_out_of_range s now modelName (Some req) pool settings else None.

Definition observe_dispatch (now : Z) (modelName h : string) (route : option (Request * Settings * Hrw.Pool)) (d : option Decision) (mg : manager) : manager :=
  match route, mg_shadow mg with
  | Some (req, settings, pool), Some s =>
      match d with
      | Some d => routed (ObserveLanding xxhash64 int_out_of_range order_of s now modelName (Some req) d h settings) mg
      | None => routed (Observe xxhash64 int_out_of_range order_of s now modelName (Some req) pool h settings) mg
      end
  | _, _ => mg
  end.

Definition DoModelRequestJSON (now : Z) (orgID modelName path : string) (body : object) (buildable : bool) (x : replica -> exchange) (mg : manager)
    : manager * (dispatch_error + (replica * Z)) :=
  if negb (marshals body) then (mg, inl Unmarshalable)
  else
    let route := cacheRouteRequest now orgID modelName path body mg in
    let d := decision_of now modelName route mg in
    match boundHTTPClientPreferring now orgID modelName (match d with Some d => Order d | None => [] end) true mg with
    | (mg, inl e) => (mg, inl (Unbound e))
    | (mg, inr (r, claim)) =>
        match postToEnclave r true claim buildable (x r) mg with
        | (mg, inl e) => (mg, inl (SendFailed e))
        | (mg, inr status) =>
            (if (200 <=? status) && (status <? 400) then observe_dispatch (x_at (x r)) modelName (rp_host r) route d mg else mg, inr (r, status))
        end
    end.

(** ** Tool servers *)

Definition env_byte (c : Z) : ascii :=
  if (97 <=? c) && (c <=? 122) then byte_of (c - 32)
  else if ((65 <=? c) && (c <=? 90)) || ((48 <=? c) && (c <=? 57)) then byte_of c
  else "_"%char.
Definition localMCPEndpointEnvVar (modelName : string) : string := "LOCAL_MCP_ENDPOINT_" +:+ of_bytes (map env_byte (text_of modelName)).

(** The endpoint, and the replica its client is bound to; [None] is a client of
    no replica, which only a debug build's override gives. *)
Definition MCPServerEndpoint (getenv : string -> string) (now : Z) (orgID modelName : string) (mg : manager)
    : manager * (bound_error + (string * option replica)) :=
  let override := if mg_debug mg then getenv (localMCPEndpointEnvVar modelName) else "" in
  if negb (String.eqb override "") then (mg, inr (override, None))
  else
    match boundHTTPClientForModel now orgID modelName mg with
    | (mg, inl e) => (mg, inl e)
    | (mg, inr r) => (mg, inr ("https://" +:+ rp_host r +:+ "/mcp", Some r))
    end.
End Dispatch.

(** ** Lemmas: what is in flight *)

(** The in-flight counts by model and host. *)
Definition host_inflights (m : PoolModel) : gmap string Z := Pool.inflight <$> Enclaves m.
Definition inflights (mg : manager) : gmap string (gmap string Z) := host_inflights <$> mg_models mg.

Lemma inflights_on_enclave r f mg : (forall e, Pool.inflight (f e) = Pool.inflight e) -> (forall e, host (f e) = host e) ->
  (forall m, mg_models mg !! rp_model r = Some m -> wf_pool m) -> inflights (on_enclave r f mg) = inflights mg.
Proof.
  intros Hf Hh Hwf. unfold on_enclave. destruct (mg_models mg !! rp_model r) as [m|] eqn:Em; [|done].
  destruct (Enclaves m !! rp_host r) as [e|] eqn:Ee; [|done]. unfold inflights, set_models. cbn [mg_models].
  rewrite fmap_insert. apply insert_id. rewrite lookup_fmap, Em. cbn. f_equal. unfold host_inflights, put_enclave. cbn [Enclaves].
  rewrite fmap_insert, Hf, Hh, (Hwf m eq_refl _ _ Ee). symmetry. apply insert_id. by rewrite lookup_fmap, Ee.
Qed.

Definition pools_wf (mg : manager) : Prop := map_Forall (fun _ => wf_pool) (mg_models mg).

Lemma on_enclave_wf r f mg : (forall e, host (f e) = host e) -> pools_wf mg -> pools_wf (on_enclave r f mg).
Proof.
  intros Hh Hwf. unfold on_enclave. destruct (mg_models mg !! rp_model r) as [m|] eqn:Em; [|done].
  destruct (Enclaves m !! rp_host r) as [e|] eqn:Ee; [|done]. unfold pools_wf, set_models. cbn [mg_models].
  apply map_Forall_insert_2; [|done]. intros h e' He. unfold put_enclave in He. cbn [Enclaves] in He.
  apply lookup_insert_Some in He as [[<- <-]|[_ He]]; [done|]. exact (Hwf _ _ Em _ _ He).
Qed.

(** A step that leaves the in-flight counts and the pools' shape alone. *)
Definition quiet (g : manager -> manager) : Prop := forall mg, pools_wf mg -> pools_wf (g mg) /\ inflights (g mg) = inflights mg.

Lemma quiet_compose g h : quiet g -> quiet h -> quiet (fun mg => h (g mg)).
Proof. intros Hg Hh mg Hwf. destruct (Hg mg Hwf) as [H1 H2]. destruct (Hh (g mg) H1) as [H3 H4]. split; [done|congruence]. Qed.

Lemma quiet_note ms : quiet (note ms). Proof. by intros mg. Qed.

Lemma quiet_step r f : quiet (step_breaker r f).
Proof.
  intros mg Hwf. unfold step_breaker. destruct (breaker_of r mg) as [b|]; [|done].
  split; [by apply on_enclave_wf|apply inflights_on_enclave; [done|done|]]. intros m Hm. exact (Hwf _ _ Hm).
Qed.

Lemma quiet_publish r : quiet (publish r).
Proof. intros mg Hwf. unfold publish. by destruct (breaker_of r mg ≫= publishIfActive). Qed.

Lemma quiet_failure r now : quiet (record_failure r now).
Proof. apply (quiet_compose (step_breaker r (RecordFailure now)) (publish r)); [apply quiet_step|apply quiet_publish]. Qed.

Lemma quiet_success r : quiet (record_success r).
Proof. apply (quiet_compose (step_breaker r RecordSuccess) (publish r)); [apply quiet_step|apply quiet_publish]. Qed.

Lemma quiet_abort r claim now : quiet (abort r claim now).
Proof.
  intros mg Hwf. unfold abort. destruct claim as [t|]; [|done]. destruct (breaker_of r mg) as [b|]; [|done].
  destruct (quiet_step r (fun b => (AbortProbe now t b).1) mg Hwf) as [H1 H2].
  destruct (AbortProbe now t b).2; [|done]. destruct (quiet_publish r _ H1) as [H3 H4]. split; [done|congruence].
Qed.

Lemma quiet_slow r cp x : quiet (slow_callbacks r cp x).
Proof.
  intros mg Hwf. unfold slow_callbacks. destruct (negb (x_slow x)); [done|]. destruct (x_result x) as [err|status]; [|done].
  destruct (cp && _); [|done]. exact (quiet_failure r (x_at x) (note _ (note _ mg)) Hwf).
Qed.

(** ** Lemmas: selection and release *)

Lemma alter_as_insert {A} (f : A -> A) i (m : gmap string A) x : m !! i = Some x -> alter f i m = <[i := f x]> m.
Proof.
  intros Hx. apply map_eq. intros j. destruct (decide (i = j)) as [<-|Hne].
  - by rewrite lookup_insert_eq, lookup_alter_eq, Hx.
  - by rewrite lookup_insert_ne, lookup_alter_ne.
Qed.

Section Dispatches.
Context (rnd : nat -> nat) (iter : PoolModel -> nat -> list Enclave) (order_of : list Z).
Context (xxhash64 : bytes -> Z) (int_out_of_range : float64 -> Z) (FormatFloat : float64 -> string) (secret : string) (marshals : object -> bool).
Abbreviation bind := (boundHTTPClientPreferring rnd iter).
Abbreviation DoModelRequest := (DoModelRequest rnd iter).
Abbreviation DoModelRequestJSON := (DoModelRequestJSON rnd iter order_of xxhash64 int_out_of_range FormatFloat secret marshals).
Abbreviation MCPServerEndpoint := (MCPServerEndpoint rnd iter).

(** The pools are well formed, listed as they are, and no count is at its end. *)
Definition manager_ok (mg : manager) : Prop :=
  forall n m, mg_models mg !! n = Some m -> wf_pool m /\ enumerates m (iter m) /\ (forall e, member m e -> 0 <= Pool.inflight e < int64_max).

Lemma ok_wf mg : manager_ok mg -> pools_wf mg.
Proof. intros H n m Hm. by apply (H n m). Qed.

(** The replica is a verified one of the caller's pools for the model. *)
Definition entitled (now : Z) (orgID : string) (mg : manager) (r : replica) : Prop :=
  exists m e, mg_models mg !! rp_model r = Some m /\ host e = rp_host r
    /\ usable now (ReservationPools orgID m).1.1 (ReservationPools orgID m).1.2 m e.

(** One more request in flight on a replica. *)
Definition one_more (r : replica) (mg : manager) : gmap string (gmap string Z) := alter (alter (Z.add 1) (rp_host r)) (rp_model r) (inflights mg).

Lemma bind_spec now orgID model order cp mg mg' res : manager_ok mg -> bind now orgID model order cp mg = (mg', res) ->
  pools_wf mg' /\ mg_shadow mg' = mg_shadow mg /\
  match res with
  | inl _ => inflights mg' = inflights mg
  | inr (r, claim) =>
      rp_model r = model /\ entitled now orgID mg r /\ inflights mg' = one_more r mg /\ inflights (release r mg') = inflights mg
      /\ (cp = false -> claim = None)
  end.
Proof.
  intros Hok H. pose proof (ok_wf mg Hok) as Hwf. unfold boundHTTPClientPreferring in H.
  destruct (mg_models mg !! model) as [m|] eqn:Em; [|by simplify_eq]. destruct (Hok model m Em) as (Hm & Hen & Hr).
  destruct (ReservationPools orgID m) as [[primary spill] policy] eqn:Ep. destruct (SelectServing _ _ _ m order cp primary spill policy) as [m' s] eqn:Es.
  assert (forall m1, wf_pool m1 -> pools_wf (set_models <[model := m1]> mg)) as Hset by (intros m1 H1; by apply map_Forall_insert_2).
  assert (forall m1, inflights (set_models <[model := m1]> mg) = <[model := host_inflights m1]> (inflights mg)) as Hins
    by (intros m1; apply (fmap_insert host_inflights)).
  assert (inflights mg !! model = Some (host_inflights m)) as Hl by (unfold inflights; by rewrite lookup_fmap, Em).
  destruct (sel_enclave s) as [e|] eqn:He; simplify_eq.
  2:{ assert (m' = m) as -> by (unfold SelectServing in Es; simplify_eq; by rewrite He). split; [by apply Hset|]. split; [done|]. rewrite Hins. by apply insert_id. }
  destruct (select_release_balanced _ _ _ _ _ _ _ _ _ _ _ _ Hm Hen Hr Es He) as (H1 & H2 & H3).
  unfold SelectServing in Es. injection Es as Hm' Hs. rewrite Hs, He in Hm'.
  destruct (select_sound now rnd (iter m) m order cp primary spill policy e Hen) as (e0 & Hu & Heq); [by rewrite Hs|].
  assert (host e0 = host e) as Hhost by (destruct Heq as [->|(_ & _ & b & ->)]; done).
  split_and!; try done.
  - apply Hset. subst m'. unfold reserve, put_enclave. intros h' e' Hl'. cbn [Enclaves] in Hl'.
    apply lookup_insert_Some in Hl' as [[<- <-]|[_ Hl']]; [done|]. by apply Hm in Hl'.
  - exists m, e0. rewrite Ep. done.
  - rewrite Hins. unfold one_more. cbn [rp_model rp_host]. rewrite (alter_as_insert _ _ _ _ Hl). f_equal. apply map_eq. intros h. unfold host_inflights.
    destruct (decide (host e = h)) as [<-|Hne].
    + rewrite lookup_alter_eq, !lookup_fmap. destruct Hu as ((h0 & Hh0) & _). pose proof (Hm _ _ Hh0) as Hx. cbn in Hx.
      rewrite <- Hhost, Hx, Hh0. cbn. subst m'. unfold reserve, put_enclave. cbn [Enclaves]. rewrite <- Hx, Hhost, lookup_insert_eq. cbn. f_equal.
      assert (Pool.inflight e = Pool.inflight e0) as -> by (destruct Heq as [->|(_ & _ & b & ->)]; done).
      rewrite wrap64_id; [lia|]. pose proof (Hr e0 (ex_intro _ h0 Hh0)). unfold in_int64, int64_min, int64_max in *. lia.
    + rewrite lookup_alter_ne by done. rewrite !lookup_fmap. by rewrite H2.
  - unfold release. cbn [rp_model rp_host]. unfold inflights, set_models. cbn [mg_models]. rewrite (alter_as_insert _ _ _ m') by apply lookup_insert_eq.
    rewrite insert_insert_eq, fmap_insert. unfold host_inflights at 1. rewrite H3. by apply insert_id.
  - intros ->. rewrite <- Hs. apply select_no_claim.
Qed.

(** A send gives the reservation back exactly when it fails. *)
Lemma post_spec r cp claim buildable x mg mg' res : pools_wf mg -> postToEnclave r cp claim buildable x mg = (mg', res) ->
  exists mg1, pools_wf mg1 /\ inflights mg1 = inflights mg /\ mg_shadow mg1 = mg_shadow mg
    /\ match res with inl _ => mg' = release r mg1 | inr status => mg' = mg1 /\ x_result x = inr status /\ buildable = true end.
Proof.
  intros Hwf H. assert (forall g, (forall mg, mg_shadow (g mg) = mg_shadow mg) -> quiet g -> forall mg, pools_wf mg ->
    pools_wf (g mg) /\ inflights (g mg) = inflights mg /\ mg_shadow (g mg) = mg_shadow mg) as Hq.
  { intros g Hs Hg mg0 H0. destruct (Hg mg0 H0). by rewrite Hs. }
  assert (forall r f mg, mg_shadow (on_enclave r f mg) = mg_shadow mg) as Son.
  { intros r0 f mg0. unfold on_enclave. destruct (mg_models mg0 !! _) as [m|]; [|done]. by destruct (Enclaves m !! _). }
  assert (forall r f mg, mg_shadow (step_breaker r f mg) = mg_shadow mg) as Sst by (intros; unfold step_breaker; destruct (breaker_of _ _); done).
  assert (forall r mg, mg_shadow (publish r mg) = mg_shadow mg) as Spu by (intros; unfold publish; destruct (breaker_of _ _ ≫= _); done).
  assert (forall r now mg, mg_shadow (record_failure r now mg) = mg_shadow mg) as Sfa by (intros; unfold record_failure; by rewrite Spu, Sst).
  assert (forall r mg, mg_shadow (record_success r mg) = mg_shadow mg) as Ssu by (intros; unfold record_success; by rewrite Spu, Sst).
  assert (forall r c now mg, mg_shadow (abort r c now mg) = mg_shadow mg) as Sab.
  { intros r0 c0 now0 mg0. unfold abort. destruct c0; [|done]. destruct (breaker_of r0 mg0) as [b|]; [|done]. destruct (AbortProbe _ _ b).2; [by rewrite Spu, Sst|by rewrite Sst]. }
  assert (forall r cp x mg, mg_shadow (slow_callbacks r cp x mg) = mg_shadow mg) as Ssl.
  { intros r0 cp0 x0 mg0. unfold slow_callbacks. destruct (negb _); [done|]. destruct (x_result x0); [|done]. destruct (_ && _); [by rewrite Sfa|done]. }
  unfold postToEnclave in H. destruct (negb buildable) eqn:Eb; simplify_eq.
  { exists (abort r claim (x_at x) mg). destruct (Hq (abort r claim (x_at x)) (Sab r claim (x_at x)) (quiet_abort r claim (x_at x)) mg Hwf) as (H1 & H2 & H3). by split_and!. }
  destruct (Hq (slow_callbacks r cp x) (Ssl r cp x) (quiet_slow r cp x) mg Hwf) as (H1 & H2 & H3).
  set (mg1 := slow_callbacks r cp x mg) in *. destruct (x_result x) as [err|status]; simplify_eq.
  - eexists. split; [|split; [|split; [|reflexivity]]].
    all: destruct (String.eqb (classifyProxyError err) "canceled").
    + apply quiet_abort. exact H1.
    + apply quiet_failure. exact H1.
    + rewrite (proj2 (quiet_abort _ _ _ (note _ mg1) H1)). exact H2.
    + rewrite (proj2 (quiet_failure _ _ (note _ mg1) H1)). exact H2.
    + by rewrite Sab.
    + by rewrite Sfa.
  - eexists. split; [|split; [|split; [|split; [reflexivity|]]]].
    4: by destruct buildable.
    all: destruct (status >=? 500).
    + apply quiet_failure. exact H1.
    + apply quiet_success. exact H1.
    + rewrite (proj2 (quiet_failure _ _ (note _ mg1) H1)). exact H2.
    + rewrite (proj2 (quiet_success _ (note _ mg1) H1)). exact H2.
    + by rewrite Sfa.
    + by rewrite Ssu.
Qed.

Lemma inflights_release r mg : pools_wf mg ->
  inflights (release r mg) = alter (alter (fun n => wrap64 (n - 1)) (rp_host r)) (rp_model r) (inflights mg).
Proof.
  intros Hwf. unfold release, inflights, set_models. cbn [mg_models]. apply map_eq. intros n. rewrite lookup_fmap.
  destruct (decide (rp_model r = n)) as [<-|Hne]; [|by rewrite !lookup_alter_ne, lookup_fmap].
  rewrite !lookup_alter_eq, lookup_fmap. destruct (mg_models mg !! rp_model r) as [m|] eqn:Em; [|done]. cbn. f_equal.
  unfold host_inflights, ReleaseDispatch. destruct (Enclaves m !! rp_host r) as [e|] eqn:Ee.
  - unfold put_enclave. cbn [Enclaves]. pose proof (Hwf _ _ Em _ _ Ee) as Hh. cbn in Hh. cbn [host set_inflight]. rewrite fmap_insert, Hh.
    cbn [Pool.inflight set_inflight]. by rewrite (alter_as_insert _ _ _ (Pool.inflight e)) by (by rewrite lookup_fmap, Ee).
  - apply map_eq. intros h. destruct (decide (rp_host r = h)) as [<-|Hne]; [by rewrite lookup_alter_eq, lookup_fmap, Ee|by rewrite lookup_alter_ne].
Qed.

Lemma release_same r a b : pools_wf a -> pools_wf b -> inflights a = inflights b -> inflights (release r a) = inflights (release r b).
Proof. intros Ha Hb H. by rewrite !inflights_release, H. Qed.

(** ** Properties *)

(** The in-flight count of a replica is exactly the requests on it. An
    internal dispatch that fails, at whatever point, leaves every count as it
    was; one that gets a response counts as one more request on the replica it
    used and on no other, until the body is closed, which gives it back once,
    however often the body is closed. *)
Theorem dispatch_counted_until_closed now orgID model path body buildable x mg mg' res :
  manager_ok mg -> DoModelRequestJSON now orgID model path body buildable x mg = (mg', res) ->
  match res with
  | inl _ => inflights mg' = inflights mg
  | inr (r, _) =>
      inflights mg' = one_more r mg
      /\ let '(closed, mg1) := inflightBody_Close r false mg' in inflights mg1 = inflights mg /\ inflightBody_Close r closed mg1 = (true, mg1)
  end.
Proof.
  intros Hok H. unfold Dispatch.DoModelRequestJSON in H. destruct (negb (marshals body)); [by simplify_eq|].
  set (route := cacheRouteRequest _ _ _ _ _ _ _ _ mg) in H. set (d := decision_of _ _ _ _ route mg) in H. clearbody route d.
  destruct (bind _ _ _ _ true mg) as [mg1 [e|[r claim]]] eqn:Eb; destruct (bind_spec _ _ _ _ _ _ _ _ Hok Eb) as (Hwf & _ & Hb); [by simplify_eq|].
  destruct Hb as (_ & _ & H1 & H2 & _). destruct (postToEnclave _ _ _ _ _ mg1) as [mg2 o] eqn:Ep.
  destruct (post_spec _ _ _ _ _ _ _ _ Hwf Ep) as (mg3 & Hwf3 & H3 & _ & Ho). destruct o as [e|status]; simplify_eq.
  - rewrite <- H2. by apply release_same.
  - destruct Ho as (-> & _).
    assert (forall b : bool, inflights (if b then observe_dispatch order_of xxhash64 int_out_of_range (x_at (x r)) model (rp_host r) route d mg3 else mg3) = inflights mg3
      /\ pools_wf (if b then observe_dispatch order_of xxhash64 int_out_of_range (x_at (x r)) model (rp_host r) route d mg3 else mg3)) as Hobs.
    { intros []; [|done]. unfold observe_dispatch. destruct route as [[[req settings] pool]|]; [|done]. destruct (mg_shadow mg3); [|done]. by destruct d. }
    destruct (Hobs ((200 <=? status) && (status <? 400))) as [H4 H5]. split; [by rewrite H4, H3|].
    cbn. split; [|done]. rewrite <- H2. apply release_same; [done|done|by rewrite H4].
Qed.

(** An internal dispatch reaches only replicas the caller may use, and
    cache-aware routing learns only of answers. The response comes from a
    verified replica of the caller's pools for the model that was asked for; the
    routing table changes only when the status is a success or a redirection. *)
Theorem dispatch_in_callers_pools now orgID model path body buildable x mg mg' res :
  manager_ok mg -> DoModelRequestJSON now orgID model path body buildable x mg = (mg', res) ->
  match res with
  | inl _ => mg_shadow mg' = mg_shadow mg
  | inr (r, status) =>
      rp_model r = model /\ entitled now orgID mg r /\ x_result (x r) = inr status
      /\ (~ 200 <= status < 400 -> mg_shadow mg' = mg_shadow mg)
  end.
Proof.
  intros Hok H. unfold Dispatch.DoModelRequestJSON in H. destruct (negb (marshals body)); [by simplify_eq|].
  set (route := cacheRouteRequest _ _ _ _ _ _ _ _ mg) in H. set (d := decision_of _ _ _ _ route mg) in H. clearbody route d.
  destruct (bind _ _ _ _ true mg) as [mg1 [e|[r claim]]] eqn:Eb; destruct (bind_spec _ _ _ _ _ _ _ _ Hok Eb) as (Hwf & Hs & Hb); [by simplify_eq|].
  destruct Hb as (H1 & H2 & _). destruct (postToEnclave _ _ _ _ _ mg1) as [mg2 o] eqn:Ep.
  destruct (post_spec _ _ _ _ _ _ _ _ Hwf Ep) as (mg3 & _ & _ & H3 & Ho). destruct o as [e|status]; simplify_eq.
  - cbn [release set_models mg_shadow]. congruence.
  - destruct Ho as (-> & H4 & _). split_and!; try done. intros Hst. assert ((200 <=? status) && (status <? 400) = false) as -> by lia. congruence.
Qed.

(** Tool sessions of a deployed router go to verified replicas only.
    Outside a debug build the endpoint is that of a verified replica of the
    caller's pools, whatever the environment says, and resolving it leaves every
    in-flight count as it was. *)
Theorem tool_endpoint_attested getenv now orgID model mg mg' res :
  manager_ok mg -> mg_debug mg = false -> MCPServerEndpoint getenv now orgID model mg = (mg', res) ->
  inflights mg' = inflights mg
  /\ match res with
     | inl _ => True
     | inr (url, bound) => exists r, bound = Some r /\ rp_model r = model /\ entitled now orgID mg r /\ url = "https://" +:+ rp_host r +:+ "/mcp"
     end.
Proof.
  intros Hok Hd H. unfold Dispatch.MCPServerEndpoint in H. rewrite Hd in H. cbn in H. unfold boundHTTPClientForModel in H.
  destruct (bind _ _ _ _ false mg) as [mg1 [e|[r claim]]] eqn:Eb; destruct (bind_spec _ _ _ _ _ _ _ _ Hok Eb) as (_ & _ & Hb); simplify_eq; [done|].
  destruct Hb as (H1 & H2 & _ & H3 & _). split; [done|]. by exists r.
Qed.
End Dispatches.

(** *** Probes *)

(** The claim is not outstanding any more. *)
Definition resolved (t : Z) (b : circuitBreaker) : Prop := ~ (state b = cbHalfOpen /\ probeGen b = t).

Lemma breaker_on_enclave r f mg : (forall e, host (f e) = host e) -> pools_wf mg -> breaker_of r (on_enclave r f mg) = enclave_of r mg ≫= (fun e => cb (f e)).
Proof.
  intros Hh Hwf. unfold breaker_of, enclave_of, on_enclave. destruct (mg_models mg !! rp_model r) as [m|] eqn:Em; [|by cbn; rewrite Em].
  cbn. destruct (Enclaves m !! rp_host r) as [e|] eqn:Ee; [|by rewrite Em; cbn; rewrite Ee].
  unfold set_models. cbn [mg_models]. rewrite lookup_insert_eq. cbn. rewrite Hh. pose proof (Hwf _ _ Em _ _ Ee) as Hx. cbn in Hx.
  by rewrite Hx, lookup_insert_eq.
Qed.

Lemma breaker_step r f mg : pools_wf mg -> breaker_of r (step_breaker r f mg) = f <$> breaker_of r mg.
Proof.
  intros Hwf. unfold step_breaker. destruct (breaker_of r mg) as [b|] eqn:Eb; [|done]. rewrite breaker_on_enclave by done.
  unfold breaker_of in Eb. destruct (enclave_of r mg); [done|]. done.
Qed.

Lemma breaker_publish r mg : breaker_of r (publish r mg) = breaker_of r mg.
Proof. unfold publish. by destruct (breaker_of r mg ≫= publishIfActive). Qed.

Lemma breaker_failure r now mg : pools_wf mg -> breaker_of r (record_failure r now mg) = RecordFailure now <$> breaker_of r mg.
Proof. intros Hwf. unfold record_failure. by rewrite breaker_publish, breaker_step. Qed.

Lemma breaker_success r mg : pools_wf mg -> breaker_of r (record_success r mg) = RecordSuccess <$> breaker_of r mg.
Proof. intros Hwf. unfold record_success. by rewrite breaker_publish, breaker_step. Qed.

Lemma breaker_abort r t now mg : pools_wf mg -> breaker_of r (abort r (Some t) now mg) = (fun b => (AbortProbe now t b).1) <$> breaker_of r mg.
Proof.
  intros Hwf. unfold abort. destruct (breaker_of r mg) as [b|] eqn:Eb; [|by rewrite Eb].
  destruct (AbortProbe now t b).2; rewrite ?breaker_publish, breaker_step, Eb by done; done.
Qed.

Lemma breaker_release r mg : pools_wf mg -> breaker_of r (release r mg) = breaker_of r mg.
Proof.
  intros Hwf. unfold breaker_of, enclave_of, release, set_models. cbn [mg_models]. rewrite lookup_alter_eq.
  destruct (mg_models mg !! rp_model r) as [m|] eqn:Em; [|done]. cbn. unfold ReleaseDispatch.
  destruct (Enclaves m !! rp_host r) as [e|] eqn:Ee; cbn; [|by rewrite Ee]. pose proof (Hwf _ _ Em _ _ Ee) as Hx. cbn in Hx. by rewrite Hx, lookup_insert_eq.
Qed.

Lemma resolved_failure t now b : (state b = cbHalfOpen -> cbFailureThreshold <= consecutiveFailures b < int64_max) -> resolved t (RecordFailure now b).
Proof.
  intros Hb [H1 _]. unfold RecordFailure in H1. cbn [state] in H1. destruct (_ >=? cbFailureThreshold) eqn:E; [done|].
  specialize (Hb H1). rewrite wrap64_id in E by (unfold in_int64, int64_max, int64_min, cbFailureThreshold in *; lia). lia.
Qed.

Lemma resolved_abort t now b : resolved t (AbortProbe now t b).1.
Proof.
  unfold resolved, AbortProbe. destruct (Z.eqb_spec (probeGen b) t) as [->|Hne]; cbn [negb orb]; [|cbn; naive_solver].
  destruct (bool_decide_reflect (state b = cbHalfOpen)); cbn; naive_solver.
Qed.

Lemma abort_keeps_resolved t now t' b : resolved t b -> resolved t (AbortProbe now t' b).1.
Proof. unfold resolved, AbortProbe. destruct (_ || _); cbn; naive_solver. Qed.

Lemma failure_keeps_resolved t now b : resolved t b -> resolved t (RecordFailure now b).
Proof. unfold resolved, RecordFailure. cbn [state probeGen]. destruct (_ >=? _); naive_solver. Qed.

Lemma resolved_success t b : resolved t (RecordSuccess b).
Proof. by intros [? _]. Qed.

(** A recovery probe sent with an internal dispatch is always settled. In
    whatever state other requests have left the breaker, once the send is over,
    failed, canceled, hung, never built or answered, the probe is no longer
    outstanding: the breaker is not half-open under the claim. *)
Theorem dispatched_probe_settled r t buildable x mg mg' res b :
  pools_wf mg -> breaker_of r mg = Some b -> (state b = cbHalfOpen -> cbFailureThreshold <= consecutiveFailures b < int64_max) ->
  postToEnclave r true (Some t) buildable x mg = (mg', res) ->
  exists b', breaker_of r mg' = Some b' /\ resolved t b'.
Proof.
  intros Hwf Hb Hinv H. unfold postToEnclave in H. destruct (negb buildable); simplify_eq.
  { rewrite breaker_release, breaker_abort, Hb by (done || by apply quiet_abort). eexists. split; [reflexivity|apply resolved_abort]. }
  pose proof (quiet_slow r true x mg Hwf) as [Hwf1 _].
  assert (exists b1, breaker_of r (slow_callbacks r true x mg) = Some b1 /\ (b1 = b \/ exists now, b1 = RecordFailure now b)) as (b1 & Hb1 & Hor).
  { unfold slow_callbacks. destruct (negb (x_slow x)); [by exists b; split; [|left]|]. destruct (x_result x) as [err|status]; [|by exists b; split; [|left]].
    destruct (true && _); [|by exists b; split; [|left]]. rewrite breaker_failure by done. change (breaker_of r (note _ (note _ mg))) with (breaker_of r mg).
    rewrite Hb. eexists. split; [reflexivity|]. right. by eexists. }
  set (mg1 := slow_callbacks r true x mg) in *.
  assert (forall now, resolved t (RecordFailure now b1)) as Hf.
  { intros now. destruct Hor as [->|[now' ->]]; [by apply resolved_failure|].
    by apply failure_keeps_resolved, resolved_failure. }
  destruct (x_result x) as [err|status]; simplify_eq.
  - destruct (String.eqb _ _).
    + rewrite breaker_release by (apply quiet_abort; exact Hwf1). rewrite breaker_abort by done. change (breaker_of r (note _ mg1)) with (breaker_of r mg1).
      rewrite Hb1. eexists. split; [reflexivity|apply resolved_abort].
    + rewrite breaker_release by (apply quiet_failure; exact Hwf1). rewrite breaker_failure by done. change (breaker_of r (note _ mg1)) with (breaker_of r mg1).
      rewrite Hb1. eexists. split; [reflexivity|apply Hf].
  - destruct (status >=? 500).
    + rewrite breaker_failure by done. change (breaker_of r (note _ mg1)) with (breaker_of r mg1). rewrite Hb1. eexists. split; [reflexivity|apply Hf].
    + rewrite breaker_success by done. change (breaker_of r (note _ mg1)) with (breaker_of r mg1). rewrite Hb1. eexists. split; [reflexivity|apply resolved_success].
Qed.

(** ** A small dispatch *)

Definition probing : circuitBreaker := CB cbHalfOpen 3 100 7 false.
Definition small_pool (b : circuitBreaker) : PoolModel := PM {["h1" := set_cb b (Example.sampled "h1" 0 0)]} None None [] 1 ∅ ∅ None ∅ ∅.
Definition small_manager (b : circuitBreaker) : manager := MkManager {["m" := small_pool b]} None [] [] false.
Definition by_map (m : PoolModel) (_ : nat) : list Enclave := (map_to_list (Enclaves m)).*2.

Lemma small_manager_ok b : manager_ok by_map (small_manager b).
Proof.
  intros n m Hm. cbn in Hm. apply lookup_singleton_Some in Hm as [<- <-]. split_and!.
  - intros h e He. cbn in He. apply lookup_singleton_Some in He as [<- <-]. done.
  - intros p. apply Permutation_refl.
  - intros e [h He]. cbn in He. apply lookup_singleton_Some in He as [<- <-]. done.
Qed.

(** The replica hangs and the client leaves. *)
Lemma dispatched_probe_settled_witness :
  let x := MkExchange (inl (MkErr [ContextCanceled] [])) true 200 in
  exists b', breaker_of (MkReplica "m" "h1") (postToEnclave (MkReplica "m" "h1") true (Some 7) true x (small_manager probing)).1 = Some b' /\ resolved 7 b'.
Proof.
  cbn zeta. eapply (dispatched_probe_settled (MkReplica "m" "h1") 7 true (MkExchange (inl (MkErr [ContextCanceled] [])) true 200) (small_manager probing) _ _ probing).
  - intros n m Hm. exact (proj1 (small_manager_ok probing n m Hm)).
  - vm_compute. reflexivity.
  - intros _. vm_compute. done.
  - apply surjective_pairing.
Defined.

Definition small_dispatch (status : Z) :=
  DoModelRequestJSON (fun n => n) by_map [] (fun _ => 0) (fun _ => 0) (fun _ => "") "" (fun _ => true) 200 "" "m" "/v1/chat/completions" ∅ true
    (fun _ => MkExchange (inr status) false 300) (small_manager newCircuitBreaker).

Lemma dispatch_counted_until_closed_witness :
  inflights (small_dispatch 200).1 = one_more (MkReplica "m" "h1") (small_manager newCircuitBreaker).
Proof.
  refine (proj1 (dispatch_counted_until_closed (fun n => n) by_map [] (fun _ => 0) (fun _ => 0) (fun _ => "") "" (fun _ => true) 200 "" "m" "/v1/chat/completions" ∅ true
    (fun _ => MkExchange (inr 200) false 300) (small_manager newCircuitBreaker) (small_dispatch 200).1 (inr (MkReplica "m" "h1", 200)) (small_manager_ok _) _)).
  vm_compute. reflexivity.
Defined.

Lemma dispatch_in_callers_pools_witness :
  entitled 200 "" (small_manager newCircuitBreaker) (MkReplica "m" "h1").
Proof.
  refine (proj1 (proj2 (dispatch_in_callers_pools (fun n => n) by_map [] (fun _ => 0) (fun _ => 0) (fun _ => "") "" (fun _ => true) 200 "" "m" "/v1/chat/completions" ∅ true
    (fun _ => MkExchange (inr 404) false 300) (small_manager newCircuitBreaker) (small_dispatch 404).1 (inr (MkReplica "m" "h1", 404)) (small_manager_ok _) _))).
  vm_compute. reflexivity.
Defined.

Lemma tool_endpoint_attested_witness :
  inflights (MCPServerEndpoint (fun n => n) by_map (fun _ => "http://127.0.0.1") 200 "" "m" (small_manager newCircuitBreaker)).1
  = inflights (small_manager newCircuitBreaker).
Proof.
  refine (proj1 (tool_endpoint_attested (fun n => n) by_map (fun _ => "http://127.0.0.1") 200 "" "m" (small_manager newCircuitBreaker) _ _ (small_manager_ok _) eq_refl _)).
  apply surjective_pairing.
Defined.

Example env_var_of_model : localMCPEndpointEnvVar "code-runner" = "LOCAL_MCP_ENDPOINT_CODE_RUNNER".
Proof. vm_compute. reflexivity. Qed.
