(* ===== verification/Router.v ===== *)
(** * The router's HTTP handler ([newRouterHandler] and its helpers of [main.go])

    What the router does with a request before a byte of it is forwarded: the
    usage context, the model it names, "auto", admission, the fields of the body
    the router owns, attached files, the cache salt, the tool runtime, and the
    choice of a replica with the overload, reservation and cache-routing
    decisions.  The result is what is answered, or the plan of what is run.

    The handler is a computation over the state it shares with other requests
    (the admission client, the models' pools, the routing table, the reports of
    unknown models) that ends in an outcome or goes on; [None] is a panic.  The
    lookups of a request are atomic steps of the parts they call.

    What the request's surroundings give it is the class [RouterEnv].  The pages
    the router serves about itself are only named.  Metrics and logs are left
    out.  [Metadata]'s answer is a parameter here ([MetadataGroup] is its model);
    what it and the reading of the cached organization do to the recency of
    cache entries is left out. *)

From Stdlib Require Import Ascii.
From S2P Require Import Prelude Float64 Sha256 Strconv Json CacheSalt Config Errors RouteContext Hrw CacheKey Shadow CircuitBreaker Metrics Pool Selection Lifecycle Autoroute Latency Headers Billing InputTokens WebSearch Events Base64 FileInputs.
#[local] Open Scope string_scope.
#[local] Open Scope list_scope.
#[local] Open Scope Z_scope.

(** ** Requests and state *)

(** How reading or decoding a body fails: over the limit, with a description of
    what the client sent, or otherwise. *)
Inductive body_error := TooLarge | Described (msg : string) | Opaque.

(** [hq_length] is the declared length, [hq_body] the bytes that come ([None] is
    no body), [hq_failure] what reading ends in. *)
Record http_request := MkHttp {
  hq_method : string;
  hq_path : string;
  hq_query : string -> string;
  hq_header : Header;
  hq_length : Z;
  hq_body : option bytes;
  hq_failure : option body_error
}.

Record router := MkRouter {
  rt_client : client;
  rt_models : gmap string PoolModel;
  rt_shadow : Shadow.Shadow;
  rt_metadata : metadata;
  rt_reporter : option UnknownModelReporter
}.

Definition set_client (c : client) (r : router) : router := MkRouter c (rt_models r) (rt_shadow r) (rt_metadata r) (rt_reporter r).
Definition set_models (m : gmap string PoolModel) (r : router) : router := MkRouter (rt_client r) m (rt_shadow r) (rt_metadata r) (rt_reporter r).
Definition set_shadow (s : Shadow.Shadow) (r : router) : router := MkRouter (rt_client r) (rt_models r) s (rt_metadata r) (rt_reporter r).
Definition set_reporter (u : option UnknownModelReporter) (r : router) : router := MkRouter (rt_client r) (rt_models r) (rt_shadow r) (rt_metadata r) u.

(** ** Constants *)

Definition maxRequestBodySize : Z := 64 * 1024 * 1024.
Definition modelUnavailableRetryAfterSeconds : Z := 30.
Definition defaultOverloadRetryAfterSeconds : Z := 60.
Definition ModelRequestHeader := "X-Tinfoil-Model".
Definition subprotoPrefix := "openai-insecure-api-key.".
Definition ErrMsgInvalidJSON (msg : string) := "Invalid request body: " +:+ msg +:+ ".".
Definition ErrMsgInvalidUsageContext (msg : string) := "Invalid usage context: " +:+ msg +:+ ".".
Definition ErrMsgMissingRealtimeModel := "Missing required parameter: 'model' (use ?model=<name> query parameter for WebSocket requests).".

(** ** Helpers *)

(** Errors whose Retry-After header is set beside them. *)
Definition with_hint (retryAfter : string) (e : APIError) : APIError :=
  if String.eqb (err_RetryAfter e) "" then MkAPIError (Status e) (err_Type e) (Code e) (Param e) (Message e) retryAfter else e.
Definition context_error (e : routeContextError) : APIError := with_hint (retryAfter e) (apiError e).

Definition limitRequestBody (q : http_request) : option APIError :=
  match hq_body q with
  | None => None
  | Some _ => if hq_length q >? maxRequestBodySize then Some ErrBodyTooLarge else None
  end.

(** [io.ReadAll] of the limited body. *)
Definition read_body (q : http_request) : body_error + bytes :=
  match hq_body q with
  | None => inr []
  | Some b =>
      if Z.of_nat (length b) >? maxRequestBodySize then inl TooLarge
      else match hq_failure q with Some e => inl e | None => inr b end
  end.

Definition writeRequestBodyError (e : body_error) : APIError := match e with TooLarge => ErrBodyTooLarge | _ => ErrBodyReadFailed end.

Definition invalidJSONError (e : body_error) : APIError :=
  match e with
  | TooLarge => ErrBodyTooLarge
  | Described msg => WithMessage ErrInvalidJSON (ErrMsgInvalidJSON msg)
  | Opaque => ErrInvalidJSON
  end.

Definition isWebSocketUpgrade (h : Header) : bool :=
  Events.EqualFold (to_bytes (header_get h "Upgrade")) (to_bytes "websocket")
  && existsb (fun v => Events.EqualFold (TrimSpaceBytes v) (to_bytes "upgrade")) (Headers.split_comma (to_bytes (header_get h "Connection"))).

Definition modelHeaderMatches (h : Header) (bodyModel : string) : bool :=
  let expected := TrimSpace (header_get h ModelRequestHeader) in
  String.eqb expected "" || String.eqb expected bodyModel.

Definition ensureStreamingUsageOptions (body : object) (h : Header) : object * Header :=
  let options := default ∅ (as_object (get "stream_options" body)) in
  let asked k := match get k options with JBool b => b | _ => false end in
  let clientRequestedUsage := asked "include_usage" || asked "continuous_usage_stats" in
  (<["stream_options" := JObj (<["continuous_usage_stats" := JBool true]> (<["include_usage" := JBool true]> options))]> body,
   if clientRequestedUsage then header_set h ClientRequestedUsageHeader "true" else h).

(** The entries of a models list whose model is served; the list's [object] and
    its entries as decoded. *)
Definition filterModelsToServed (payload : string * list object) (served : gmap string PoolModel) : object :=
  let kept := List.filter (fun entry => match get "id" entry with JStr id => bool_decide (is_Some (served !! id)) | _ => false end) payload.2 in
  {["object" := JStr (if String.eqb payload.1 "" then "list" else payload.1); "data" := JArr (JObj <$> kept)]}.

(** The model of a multipart form: its parts by name, up to the first that
    cannot be read. *)
Fixpoint form_model (parts : list (string * bytes)) : string :=
  match parts with
  | [] => ""
  | (name, value) :: parts => if String.eqb name "model" then TrimSpace (of_bytes value) else form_model parts
  end.

Definition requested_model (body : object) : APIError + string :=
  match body !! "model" with
  | None => inl (WithMessage (WithParam ErrInvalidRequest "model") (ErrMsgMissingParam "model"))
  | Some (JStr m) =>
      if String.eqb (TrimSpace m) "" then inl (WithMessage (WithParam ErrInvalidRequest "model") (ErrMsgInvalidParam "model" "must be a string")) else inr m
  | Some _ => inl (WithMessage (WithParam ErrInvalidRequest "model") (ErrMsgInvalidParam "model" "must be a string"))
  end.

Definition realtime_model (query : string -> string) : APIError + string :=
  let m := query "model" in
  let m := if String.eqb m "" && String.eqb (query "intent") "transcription" then "voxtral-mini-4b-realtime" else m in
  if String.eqb m "" then inl (WithMessage (WithParam ErrInvalidRequest "model") ErrMsgMissingRealtimeModel) else inr m.

(** The key a browser passes as a subprotocol, and the others. *)
Fixpoint subprotocols (protos : list bytes) (apiKey : string) (cleaned : list bytes) : string * list bytes :=
  match protos with
  | [] => (apiKey, cleaned)
  | p :: protos =>
      let p := TrimSpaceBytes p in
      match trim_prefix (to_bytes subprotoPrefix) p with
      | Some key => subprotocols protos (of_bytes key) cleaned
      | None => subprotocols protos apiKey (match p with [] => cleaned | _ => cleaned ++ [p] end)
      end
  end.

Fixpoint join_comma (ps : list bytes) : bytes :=
  match ps with [] => [] | [p] => p | p :: ps => p ++ to_bytes ", " ++ join_comma ps end.

Definition realtime_key (apiKey : string) (h : Header) : string * Header :=
  if negb (String.eqb apiKey "") then (apiKey, h)
  else
    let '(apiKey, cleaned) := subprotocols (Headers.split_comma (to_bytes (header_get h "Sec-WebSocket-Protocol"))) "" [] in
    if String.eqb apiKey "" then (apiKey, h)
    else
      let h := header_set h "Authorization" ("Bearer " +:+ apiKey) in
      (apiKey, match cleaned with [] => header_del h "Sec-WebSocket-Protocol" | _ => header_set h "Sec-WebSocket-Protocol" (of_bytes (join_comma cleaned)) end).

(** ** Surroundings *)

Class RouterEnv := {
  re_admitted_at : Z;
  re_selected_at : Z;
  re_rnd : nat -> nat;
  re_iter : PoolModel -> nat -> list Enclave;
  re_scores : gmap string Z -> list (string * Z);
  re_table_order : list Z;
  re_decode : bytes -> body_error + object;
  re_marshal : object -> option bytes;
  re_unmarshal_field : string -> bytes -> option string;
  re_FromHeaders : Header -> string -> Z -> Z -> UsageContext * bool * option string;
  re_VerifyAPIKeyHash : string -> string -> bool;
  re_count_message : count_error -> string;
  re_usage_secret : string;
  re_ParseFloat : string -> option float64;
  re_FormatFloat : float64 -> string;
  re_int_out_of_range : float64 -> Z;
  re_xxhash64 : bytes -> Z;
  re_route_secret : string;
  re_salt_enabled : bool;
  (** what [Metadata] answers for the caller *)
  re_org : routeContextError + routeContext;
  (** the parts of a multipart form, when its media type and boundary parse *)
  re_form : string -> bytes -> list (string * bytes);
  (** the control plane's models list *)
  re_models_reply : option (Z * option bytes);
  re_unmarshal_models : bytes -> option (string * list object);
  re_Quote : string -> string;
  re_ParseMediaType : string -> option (string * gmap string string);
  re_FormatMediaType : string * gmap string string -> string;
  re_unmarshal_error : bytes -> option object;
  re_ParseTime : string -> bool;
  re_unmarshal_document : bytes -> option ConvertedFile;
  re_convert : conversion_request -> conversion_answer
}.

(** ** Outcomes *)

Inductive page := Redirected | Health | ProxyStatus | PrometheusTargets | MetricsPage | ModelsList (payload : object).

(** A request handed to the tool runtime. *)
Record tool_run := MkToolRun {
  tr_model : string;
  tr_body : object;
  tr_header : Header;
  tr_profiles : list Profile;
  tr_opts : RouterOptions;
  tr_org : string;
  tr_class : string;
  tr_streaming : bool
}.

(** A request handed to a replica; [pl_body] is the body the router wrote, when
    it did, [pl_latency] whether its first token is observed. *)
Record plan := MkPlan {
  pl_model : string;
  pl_host : string;
  pl_claim : option Z;
  pl_body : option object;
  pl_header : Header;
  pl_org : string;
  pl_pool : string;
  pl_class : string;
  pl_order : list string;
  pl_pools : option (gset string) * option (gset string) * option OverloadConfig;
  pl_route : option (Request * Settings);
  pl_decision : option Decision;
  pl_latency : bool;
  pl_websocket : bool
}.

Inductive outcome :=
  | Refused (e : APIError)
  | Shown (p : page)
  | CountsTokens
  | RunsTools (t : tool_run)
  | Forwards (pl : plan).

(** ** The handler's computations

    A computation ends the request with an outcome or goes on with a value. *)

Definition M (A : Type) : Type := router -> option (router * (outcome + A)).
#[export] Instance M_ret : MRet M := fun A a r => Some (r, inr a).
#[export] Instance M_bind : MBind M := fun A B k m r =>
  match m r with
  | None => None
  | Some (r, inl o) => Some (r, inl o)
  | Some (r, inr a) => k a r
  end.

Definition finish_with {A} (o : outcome) : M A := fun r => Some (r, inl o).
Definition refuse {A} (e : APIError) : M A := finish_with (Refused e).
Definition gets {A} (f : router -> A) : M A := fun r => Some (r, inr (f r)).
Definition modify (f : router -> router) : M unit := fun r => Some (f r, inr tt).
Definition crash {A} : M A := fun _ => None.
(** A value or its refusal. *)
Definition try {E A} (f : E -> APIError) (v : E + A) : M A := match v with inl e => refuse (f e) | inr a => mret a end.
Definition total {A} (v : option A) : M A := match v with None => crash | Some a => mret a end.
Definition refuse_some (e : option APIError) : M unit := match e with Some e => refuse e | None => mret tt end.

Section Handler.
Context {RE : RouterEnv}.

(** ** Organizations and "auto" *)

Definition cached_org (c : client) (apiKey model : string) : string :=
  match RouteContext.entries (RouteContext.cache c) !! routeContextKey apiKey model with Some e => OrgID (resolved e) | None => "" end.

(** [resolveOrg] *)
Definition org_of (apiKey model : string) (r : router) : APIError + string :=
  match re_org with
  | inl e => inl (context_error e)
  | inr ctx => inr (if unavailable ctx then cached_org (rt_client r) apiKey model else OrgID ctx)
  end.

Definition reserved_model (r : router) (model : string) : bool := match rt_models r !! model with Some m => HasReservations m | None => false end.

Definition org_for_model (apiKey : string) (r : router) (model : string) : APIError + string :=
  if reserved_model r model then org_of apiKey model r else inr "".

Definition auto_status (r : router) : string -> string -> bool * bool := AutoRouteStatus re_admitted_at (rt_models r).

(** Was the organization asked for on the way to the candidate? *)
Fixpoint consults (apiKey : string) (r : router) (ranked : list AutoCandidate) : bool :=
  match ranked with
  | [] => false
  | c :: ranked =>
      let name := Autoroute.Name (c_Model c) in
      reserved_model r name
      || (let '(allowed, available) := auto_status r name (match org_for_model apiKey r name with inr o => o | inl _ => "" end) in
          if allowed && available then false else consults apiKey r ranked)
  end.

Definition auto_ranking (r : router) (h : Header) (body : object) : list AutoCandidate :=
  match ParseIntelligence re_ParseFloat re_int_out_of_range h body with
  | (body, inr target) => Rank re_int_out_of_range re_scores (AutoRouteCatalog (rt_metadata r)) target (HasVisualInput body)
  | (_, inl _) => []
  end.

(** The body, the model's name and whether the organization is known by now. *)
Definition resolve_auto (apiKey : string) (h : Header) (path : string) (body : object) : M (object * string * bool) :=
  r ← gets (fun r => r);
  '(body', chosen) ← try (fun e => e)
    (resolveAutoModel re_ParseFloat re_int_out_of_range re_scores (org_for_model apiKey r) (auto_status r) (AutoRouteCatalog (rt_metadata r)) h path body);
  mret (body', Autoroute.Name (c_Model chosen), consults apiKey r (auto_ranking r h body)).

(** ** Admission *)

Definition set_org (c : routeContext) (org : string) : routeContext :=
  RouteContext.MkContext (Priority c) org (RateLimit c) (unavailable c) (refreshedAt c).

(** The one lookup of a request; [known] tells whether the organization was asked
    for before. *)
Definition admit_caller (apiKey model : string) (known : bool) : M routeContext :=
  r ← gets (fun r => r);
  '(c, (ctx, verdict)) ← total (Lookup re_unmarshal_field re_admitted_at (rt_client r) apiKey model);
  _ ← modify (set_client c);
  _ ← refuse_some (context_error <$> verdict);
  r ← gets (fun r => r);
  let asks := String.eqb (OrgID ctx) "" && bool_decide (RateLimit ctx = None) && reserved_model r model in
  ctx ← (if asks then org ← try (fun e => e) (org_of apiKey model r); mret (set_org ctx org) else mret ctx);
  mret (match re_org with
        | inr o => if (known || asks) && negb (unavailable o) then set_org ctx (OrgID o) else ctx
        | inl _ => ctx
        end).

Definition served_model (apiKey model : string) : M PoolModel :=
  r ← gets (fun r => r);
  match rt_models r !! model with
  | Some m => mret m
  | None =>
      _ ← modify (fun r => set_reporter (Report_unknown (rt_reporter r) apiKey model) r);
      refuse (WithMessage ErrModelNotFound (ErrMsgModelNotFound model))
  end.

(** ** A request of the OpenAI API *)

Record prepared := MkPrepared {
  pd_model : string;
  pd_body : object;
  pd_header : Header;
  pd_admission : routeContext;
  pd_streaming : bool;
  pd_profiles : list Profile;
  pd_opts : RouterOptions
}.

(** What the body asks for: the options lifted off it, the model it names or
    "auto" resolves to, with the limits of the headers applied. *)
Definition read_request (q : http_request) (apiKey : string) : M (object * RouterOptions * string * bool) :=
  raw ← try writeRequestBodyError (read_body q);
  body ← try invalidJSONError (re_decode raw);
  '(opts, body) ← try (fun e => e) (ExtractRouterOptions body);
  model ← try (fun e => e) (requested_model body);
  if negb (modelHeaderMatches (hq_header q) model) then refuse ErrModelMismatch
  else
    let '(body, e) := applyMaxOutputTokensHeader (hq_header q) (hq_path q) body in
    _ ← refuse_some e;
    let '(body, e) := applyCompletionCountHeader (hq_header q) (hq_path q) body in
    _ ← refuse_some e;
    if String.eqb model "auto" then
      '(body, model, known) ← resolve_auto apiKey (hq_header q) (hq_path q) body;
      mret (body, opts, model, known)
    else mret (body, opts, model, false).

(** Attached files are converted under the caller's organization. *)
Definition convert_files (q : http_request) (org model : string) (body : object) : M object :=
  fun r =>
    let go rewrite :=
      match rewrite body (header_get (hq_header q) "Authorization") model (rt_models r) with
      | (f, inl e) => Some (set_models f r, inl (Refused e))
      | (f, inr (body, _)) => Some (set_models f r, inr body)
      end in
    if String.eqb (hq_path q) "/v1/responses" then
      go (rewriteResponsesBase64Files re_Quote re_ParseMediaType re_FormatMediaType re_unmarshal_error re_ParseTime re_unmarshal_document re_admitted_at re_rnd re_iter
            re_convert (IsMultimodal (rt_metadata r)) org)
    else if String.eqb (hq_path q) "/v1/chat/completions" then
      go (rewriteChatCompletionsBase64Files re_Quote re_ParseMediaType re_FormatMediaType re_unmarshal_error re_ParseTime re_unmarshal_document re_admitted_at re_rnd re_iter
            re_convert (IsMultimodal (rt_metadata r)) org)
    else Some (r, inr body).

(** [r.ContentLength] and the header of a body that was written again. *)
Definition content_length (h : Header) (data : bytes) : Header := header_set h "Content-Length" (FormatInt (Z.of_nat (length data))).

Definition streams (body : object) : bool := match get "stream" body with JBool b => b | _ => false end.

Definition prepare_request (q : http_request) (apiKey : string) : M prepared :=
  '(body, opts, model, known) ← read_request q apiKey;
  let profiles := DetectProfiles (hq_path q) opts body in
  let body := delete "priority" body in
  _ ← served_model apiKey model;
  admission ← admit_caller apiKey model known;
  let body := default ∅ (applyPriority admission (Some body) (hq_path q)) in
  body ← convert_files q (OrgID admission) model body;
  '(salted, _) ← total (applyCacheSalt re_unmarshal_field (Some body) (hq_path q) apiKey re_salt_enabled);
  let body := default ∅ salted in
  let streaming := streams body in
  let '(body, h) := if streaming then ensureStreamingUsageOptions body (hq_header q) else (body, hq_header q) in
  data ← try (fun _ => ErrServer) (match re_marshal body with Some d => inr d | None => inl tt end);
  mret (MkPrepared model body (content_length h data) admission streaming profiles opts).

(** ** Choosing a replica *)

Definition route_request (path : string) (body : object) (m : PoolModel) : option (Request * Settings) :=
  let settings := CacheRouteSettings re_route_secret m in
  if bool_decide (path ∈ cacheSaltPaths) && negb (bool_decide (s_Mode settings = ModeOff)) then
    Some (ExtractRequest re_FormatFloat body path (get_string "cache_salt" body) settings, settings)
  else None.

Definition route_decision (r : router) (model : string) (route : option (Request * Settings)) (pool : Hrw.Pool) : option Decision :=
  '(req, settings) ← route;
  if bool_decide (s_Mode settings = ModeEnforced) then Decide re_xxhash64 re_int_out_of_range (rt_shadow r) re_selected_at model (Some req) pool settings else None.

Definition pool_label (primary spill : option (gset string)) (h : string) : string :=
  match primary, spill with
  | None, _ => "none"
  | Some _, None => "shared"
  | Some p, Some _ => if bool_decide (h ∈ p) then "reserved" else "spilled"
  end.

(** The landing as the routing table sees it. *)
Definition observe_landing (model h : string) (route : option (Request * Settings)) (d : option Decision) (pool : Hrw.Pool) (r : router) : router :=
  match route with
  | None => r
  | Some (req, settings) =>
      set_shadow
        (match d with
         | Some d => ObserveLanding re_xxhash64 re_int_out_of_range re_table_order (rt_shadow r) re_selected_at model (Some req) d h settings
         | None => Observe re_xxhash64 re_int_out_of_range re_table_order (rt_shadow r) re_selected_at model (Some req) pool h settings
         end).1 r
  end.

Definition release_host (model h : string) (r : router) : router := set_models (alter (ReleaseDispatch h) model (rt_models r)) r.

Definition overload_error (model : string) (retryAfter : Z) : APIError :=
  let secs := Z.quot retryAfter Second in
  let secs := if secs <=? 0 then defaultOverloadRetryAfterSeconds else secs in
  with_hint (FormatInt secs) (WithMessage ErrServerOverloaded (ErrMsgOverloaded model secs)).

Definition unavailable_error (model : string) : APIError :=
  with_hint (FormatInt modelUnavailableRetryAfterSeconds) (WithMessage ErrModelUnavailable (ErrMsgModelUnavailable model)).

Definition select_replica (q : http_request) (model : string) (m : PoolModel) (admission : routeContext) (body : option object) (h : Header) (streaming : bool)
    (route : option (Request * Settings)) : M unit :=
  r ← gets (fun r => r);
  let '(primary, spill, policy) := ReservationPools (OrgID admission) m in
  let d := route_decision r model route (CacheRoutePoolIn re_selected_at (re_iter m) primary m) in
  let order := match d with Some d => Order d | None => [] end in
  let '(m', s) := SelectServing re_selected_at re_rnd (re_iter m) m order true primary spill policy in
  _ ← modify (fun r => set_models (<[model := m']> (rt_models r)) r);
  match sel_enclave s with
  | None => refuse (unavailable_error model)
  | Some e =>
      let priority := skipsQueue admission in
      if sel_overloaded s && negb priority then
        _ ← modify (release_host model (host e));
        refuse (overload_error model (sel_retryAfter s))
      else
        _ ← modify (observe_landing model (host e) route d (CacheRoutePoolIn re_selected_at (re_iter m') primary m'));
        finish_with (Forwards (MkPlan model (host e) (sel_claim s) body h (OrgID admission) (pool_label primary spill (host e)) (priorityClass priority)
          order (primary, spill, policy) route d (streaming && bool_decide (hq_path q ∈ latencyMetricPaths)) (isWebSocketUpgrade h)))
  end.

Definition handle_api (q : http_request) (apiKey : string) : M unit :=
  p ← prepare_request q apiKey;
  match pd_profiles p with
  | _ :: _ =>
      finish_with (RunsTools (MkToolRun (pd_model p) (pd_body p) (pd_header p) (pd_profiles p) (pd_opts p) (OrgID (pd_admission p))
        (priorityClass (skipsQueue (pd_admission p))) (pd_streaming p)))
  | [] =>
      m ← served_model apiKey (pd_model p);
      select_replica q (pd_model p) m (pd_admission p) (Some (pd_body p)) (pd_header p) (pd_streaming p) (route_request (hq_path q) (pd_body p) m)
  end.

(** Audio, file conversion and realtime are admitted once their model is found;
    [speech] is the body of a speech request. *)
Definition handle_late (q : http_request) (apiKey model : string) (h : Header) (speech : option object) : M unit :=
  m ← served_model apiKey model;
  admission ← admit_caller apiKey model false;
  '(body, h) ← (match speech with
    | None => mret (None, h)
    | Some body =>
        '(salted, _) ← total (applyCacheSalt re_unmarshal_field (Some body) (hq_path q) apiKey false);
        let body := default ∅ (applyPriority admission salted (hq_path q)) in
        data ← try (fun _ => ErrServer) (match re_marshal body with Some d => inr d | None => inl tt end);
        mret (Some body, content_length h data)
    end);
  select_replica q model m admission body h false None.

(** ** The handler *)

Definition models_page : M unit :=
  match re_models_reply with
  | None | Some (_, None) => refuse ErrUpstream
  | Some (status, Some data) =>
      if negb (status =? 200) then refuse (NormalizeUpstreamError re_unmarshal_error status data).1
      else
        match re_unmarshal_models data with
        | None => refuse ErrUpstream
        | Some payload => r ← gets (fun r => r); finish_with (Shown (ModelsList (filterModelsToServed payload (rt_models r))))
        end
  end.

Definition pages : list (string * page) :=
  [("/", Redirected); ("/health", Health); ("/.well-known/tinfoil-proxy", ProxyStatus); ("/.well-known/prometheus-targets", PrometheusTargets); ("/metrics", MetricsPage)].

Fixpoint page_at (path : string) (ps : list (string * page)) : option page :=
  match ps with [] => None | (p, shown) :: ps => if String.eqb path p then Some shown else page_at path ps end.

(** Reading a multipart body is a decoding error of the form. *)
Definition form_error (e : body_error) : APIError :=
  invalidJSONError (match e with Described msg => Described ("failed to read request body: " +:+ msg) | e => e end).

Definition default_model (m fallback : string) : string := if String.eqb m "" then fallback else m.

Definition handle_request (q : http_request) : M unit :=
  _ ← refuse_some (limitRequestBody q);
  let h := hq_header q in
  let path := hq_path q in
  let apiKey := BearerToken (header_get h "Authorization") in
  _ ← try (fun e => WithMessage ErrInvalidRequest (ErrMsgInvalidUsageContext (re_count_message e)))
        (CustomerRequestCount re_FromHeaders re_VerifyAPIKeyHash h apiKey re_usage_secret re_admitted_at);
  if isInputTokensPath path then finish_with CountsTokens
  else if isWebSocketUpgrade h && String.eqb path "/v1/realtime" then
    model ← try (fun e => e) (realtime_model (hq_query q));
    let '(apiKey, h) := realtime_key apiKey h in
    handle_late q apiKey model h None
  else
    match page_at path pages with
    | Some p => finish_with (Shown p)
    | None =>
        if String.eqb path "/v1/models" then models_page
        else if String.eqb path "/v1/audio/speech" then
          raw ← try writeRequestBodyError (read_body q);
          body ← try invalidJSONError (re_decode raw);
          handle_late q apiKey (default_model (get_string "model" body) "qwen3-tts") h (Some body)
        else if bool_decide (is_Some (trim_prefix (to_bytes "/v1/audio/") (to_bytes path))) then
          raw ← try form_error (read_body q);
          handle_late q apiKey (default_model (form_model (re_form (header_get h "Content-Type") raw)) "voxtral-small-24b") h None
        else if String.eqb path "/v1/convert/file" then handle_late q apiKey "doc-upload" h None
        else handle_api q apiKey
    end.

(** What became of a request; every computation above ends in an outcome. *)
Definition handle (q : http_request) (r : router) : option (router * outcome) :=
  match handle_request q r with
  | Some (r, inl o) => Some (r, o)
  | Some (_, inr _) | None => None
  end.

(** ** After the dispatch *)

(** The reservation is given back when the handler returns. *)
Definition return_dispatch (pl : plan) : router -> router := release_host (pl_model pl) (pl_host pl).

(** The replica a bad gateway is replayed on: the first reservation is given
    back, and the landing is observed again. *)
Definition next_replica (pl : plan) (r : router) : router * option plan :=
  match rt_models r !! pl_model pl with
  | None => (r, None)
  | Some m =>
      let '(primary, spill, policy) := pl_pools pl in
      let '(m', next) := SelectRetry re_selected_at re_rnd (re_iter m) m (pl_host pl) (pl_order pl) primary spill policy in
      match next with
      | None => (r, None)
      | Some e =>
          let r := release_host (pl_model pl) (pl_host pl) (set_models (<[pl_model pl := m']> (rt_models r)) r) in
          let label := match spill with Some _ => pool_label primary spill (host e) | None => pl_pool pl end in
          (observe_landing (pl_model pl) (host e) (pl_route pl) (pl_decision pl) (CacheRoutePoolIn re_selected_at (re_iter m') primary m') r,
           Some (MkPlan (pl_model pl) (host e) None (pl_body pl) (pl_header pl) (pl_org pl) label (pl_class pl) (pl_order pl) (pl_pools pl) (pl_route pl)
             (pl_decision pl) (pl_latency pl) (pl_websocket pl)))
      end
  end.
End Handler.
