(* ===== verification/RouterSpec.v ===== *)
(** * What the router's handler guarantees

    A small logic of the handler's computations ([wp]): an outcome satisfies
    one predicate, a computation that goes on another, and the only panic is that
    of a salt derived from a field over 4 GiB.  Each stage of [Router] has its
    specification, and the properties of the handler are read off their
    composition: admission, the body, the replicas' counts, the replica. *)

From Stdlib Require Import Ascii.
From S2P Require Import Prelude Float64 Sha256 Strconv Json CacheSalt Config Errors RouteContext Hrw CacheKey Shadow CircuitBreaker Metrics Pool Selection Lifecycle Autoroute Latency Headers Billing InputTokens WebSearch Events Base64 FileInputs Dispatch Router.
#[local] Open Scope string_scope.
#[local] Open Scope list_scope.
#[local] Open Scope Z_scope.

Section Spec.
Context {RE : RouterEnv}.

(** ** Computations *)

(** Deriving a salt panics over a field longer than 4 GiB. *)
Definition salt_panic : Prop := re_salt_enabled = true /\ exists key secret, Derive (cacheSaltIdentity re_unmarshal_field key) secret = None.

Definition wp {A} (m : M A) (r : router) (O : router -> outcome -> Prop) (K : router -> A -> Prop) : Prop :=
  match m r with
  | None => salt_panic
  | Some (r', inl o) => O r' o
  | Some (r', inr a) => K r' a
  end.

Lemma post_bind {A B} (m : M A) (k : A -> M B) r O K : wp m r O (fun r' a => wp (k a) r' O K) -> wp (m ≫= k) r O K.
Proof. unfold wp, mbind, M_bind. by destruct (m r) as [[r' [o|a]]|]. Qed.

Lemma post_mono {A} (m : M A) r (O O' : router -> outcome -> Prop) (K K' : router -> A -> Prop) :
  wp m r O K -> (forall r' o, O r' o -> O' r' o) -> (forall r' a, K r' a -> K' r' a) -> wp m r O' K'.
Proof. unfold wp. destruct (m r) as [[r' [o|a]]|]; auto. Qed.

Lemma post_ret {A} (a : A) r O (K : router -> A -> Prop) : K r a -> wp (mret a) r O K.
Proof. done. Qed.

Lemma post_finish {A} o r (O : router -> outcome -> Prop) (K : router -> A -> Prop) : O r o -> wp (finish_with o) r O K.
Proof. done. Qed.

Lemma post_try {E A} (f : E -> APIError) (v : E + A) r (O : router -> outcome -> Prop) (K : router -> A -> Prop) :
  (forall e, v = inl e -> O r (Refused (f e))) -> (forall a, v = inr a -> K r a) -> wp (try f v) r O K.
Proof. intros HO HK. destruct v; [by apply HO|by apply HK]. Qed.

Lemma post_total {A} (v : option A) r O (K : router -> A -> Prop) : (v = None -> salt_panic) -> (forall a, v = Some a -> K r a) -> wp (total v) r O K.
Proof. intros Hn HK. destruct v; [by apply HK|by apply Hn]. Qed.

Lemma post_refuse_some e r (O : router -> outcome -> Prop) (K : router -> unit -> Prop) :
  (forall e', e = Some e' -> O r (Refused e')) -> (e = None -> K r tt) -> wp (refuse_some e) r O K.
Proof. intros HO HK. destruct e; [by apply HO|by apply HK]. Qed.

(** ** Salts *)

Lemma salt_total body path apiKey : applyCacheSalt re_unmarshal_field body path apiKey re_salt_enabled = None -> salt_panic.
Proof.
  unfold applyCacheSalt. destruct body as [b|]; [|done]. destruct (negb re_salt_enabled || _) eqn:E; [done|].
  destruct (Derive _ _) as [[salt mode]|] eqn:Ed; [cbn; by destruct (String.eqb salt "")|]. intros _. split; [by destruct re_salt_enabled|by eexists _, _].
Qed.

(** A salt of the router's. *)
Definition derived (v : option json) : Prop :=
  v = None \/ exists salt key secret mode, v = Some (JStr salt) /\ re_salt_enabled = true /\ Derive (cacheSaltIdentity re_unmarshal_field key) secret = Some (salt, mode).

Lemma salt_fields b path apiKey enabled salted mode : enabled = re_salt_enabled \/ enabled = false ->
  applyCacheSalt re_unmarshal_field (Some b) path apiKey enabled = Some (salted, mode) ->
  exists b', salted = Some b' /\ b' !! "user_cache_secret" = None /\ derived (b' !! "cache_salt")
    /\ forall k, k <> "user_cache_secret" -> k <> "cache_salt" -> b' !! k = b !! k.
Proof.
  intros Hen. unfold applyCacheSalt. set (b0 := delete "cache_salt" (delete "user_cache_secret" b)).
  assert (b0 !! "user_cache_secret" = None /\ b0 !! "cache_salt" = None /\ forall k, k <> "user_cache_secret" -> k <> "cache_salt" -> b0 !! k = b !! k) as (H1 & H2 & H3).
  { unfold b0. split_and!; [by rewrite lookup_delete_ne, lookup_delete_eq by done|apply lookup_delete_eq|]. intros k Hk Hk'. by rewrite !lookup_delete_ne by done. }
  destruct (negb enabled || _) eqn:E; [intros [= <- <-]; exists b0; split_and!; try done; by left|].
  destruct (Derive _ _) as [[salt mode']|] eqn:Ed; cbn [mbind option_bind]; [|done].
  destruct (String.eqb salt ""); intros [= <- <-]; [exists b0; split_and!; try done; by left|].
  exists (<["cache_salt" := JStr salt]> b0). split_and!; [done|by rewrite lookup_insert_ne| |intros k Hk Hk'; rewrite lookup_insert_ne by done; by apply H3].
  right. exists salt, apiKey, (get_string "user_cache_secret" b), mode'. rewrite lookup_insert_eq. split_and!; [done| |done].
  destruct Hen as [<-| ->]; [|done]. by destruct enabled.
Qed.

(** ** The stages *)

(** A lookup of a served model. *)
Definition admitted (r : router) (apiKey model : string) (c : client) (ctx : routeContext) (verdict : option routeContextError) : Prop :=
  is_Some (rt_models r !! model) /\ Lookup re_unmarshal_field re_admitted_at (rt_client r) apiKey model = Some (c, (ctx, verdict)).

(** [ctx] with another organization. *)
Definition same_limits (a b : routeContext) : Prop := Priority a = Priority b /\ RateLimit a = RateLimit b.

(** Only the report of an unknown model may differ. *)
Definition unnoticed (r r' : router) : Prop := rt_client r' = rt_client r /\ rt_models r' = rt_models r /\ rt_shadow r' = rt_shadow r /\ rt_metadata r' = rt_metadata r.

Lemma served_model_post apiKey model r (O : router -> outcome -> Prop) (K : router -> PoolModel -> Prop) :
  (rt_models r !! model = None -> forall r', unnoticed r r' -> O r' (Refused (WithMessage ErrModelNotFound (ErrMsgModelNotFound model)))) ->
  (forall m, rt_models r !! model = Some m -> K r m) -> wp (served_model apiKey model) r O K.
Proof.
  intros HO HK. unfold wp, served_model, gets, modify, refuse, finish_with, mbind, M_bind. cbn.
  destruct (rt_models r !! model) as [m|] eqn:Em; [by apply HK|]. by apply HO.
Qed.

Lemma admit_post apiKey model known r (O : router -> outcome -> Prop) (K : router -> routeContext -> Prop) :
  client_ok (rt_client r) ->
  (forall c ctx v e, Lookup re_unmarshal_field re_admitted_at (rt_client r) apiKey model = Some (c, (ctx, v)) -> O (set_client c r) (Refused e)) ->
  (forall c ctx ctx', Lookup re_unmarshal_field re_admitted_at (rt_client r) apiKey model = Some (c, (ctx, None)) -> same_limits ctx ctx' -> K (set_client c r) ctx') ->
  wp (admit_caller apiKey model known) r O K.
Proof.
  intros Hok HO HK. destruct (Lookup_ok re_unmarshal_field re_admitted_at (rt_client r) apiKey model Hok) as (c & [ctx v] & Hl & _).
  unfold admit_caller. apply post_bind. cbn [gets wp]. apply post_bind, post_total; [by rewrite Hl|]. intros ? Ha. rewrite Hl in Ha. apply (inj Some) in Ha as <-.
  cbn beta iota. apply post_bind. unfold modify, wp at 1. apply post_bind, post_refuse_some.
  { intros e He. by eapply HO. }
  destruct v as [v|]; [done|intros _]. apply post_bind. unfold gets, wp at 1.
  assert (forall b ctx1, same_limits ctx ctx1 ->
    same_limits ctx (match re_org with inr o => if b && negb (unavailable o) then set_org ctx1 (OrgID o) else ctx1 | inl _ => ctx1 end)) as Hs.
  { intros b ctx1 H1. destruct re_org as [|o]; [done|]. by destruct (b && _). }
  destruct (_ && reserved_model _ model).
  - apply post_bind, post_bind, post_try; [intros e _; by eapply HO|]. intros org _. apply post_ret, post_ret. eapply HK; [exact Hl|]. apply Hs. done.
  - apply post_bind, post_ret, post_ret. eapply HK; [exact Hl|]. apply Hs. done.
Qed.

(** ** The body *)

(** The priority of a forwarded body is the admission's. *)
Definition priority_of (path : string) (ctx : routeContext) : option json :=
  if negb (bool_decide (path ∈ priorityPaths)) then None
  else
    match Priority ctx with
    | Some p => Some (JInt p)
    | None => d ← RateLimit ctx; if String.eqb (RouteContext.Decision d) decisionDemote then Some (JInt demotedPriority) else None
    end.

Lemma priority_fields ctx b path : exists b', applyPriority ctx (Some b) path = Some b' /\ b' !! "priority" = priority_of path ctx
  /\ forall k, k <> "priority" -> b' !! k = b !! k.
Proof.
  unfold applyPriority, priority_of. cbn [mbind option_bind].
  assert (forall v, <["priority" := v]> (delete "priority" b) !! "priority" = Some v
    /\ forall k, k <> "priority" -> <["priority" := v]> (delete "priority" b) !! k = b !! k) as Hi.
  { intros v. split; [apply lookup_insert_eq|]. intros k Hk. by rewrite lookup_insert_ne, lookup_delete_ne. }
  assert (delete "priority" b !! "priority" = None /\ forall k, k <> "priority" -> delete "priority" b !! k = b !! k) as Hd.
  { split; [apply lookup_delete_eq|]. intros k Hk. by rewrite lookup_delete_ne. }
  destruct (negb _); [by eexists|]. destruct (Priority ctx) as [p|]; [eexists; split; [done|apply Hi]|].
  destruct (RateLimit ctx) as [d|]; cbn [mbind option_bind]; [|by eexists].
  destruct (String.eqb _ _); [eexists; split; [done|apply Hi]|by eexists].
Qed.

(** A streaming request asks for usage. *)
Definition usage_forced (b : object) : Prop :=
  exists options, b !! "stream_options" = Some (JObj options) /\ options !! "include_usage" = Some (JBool true) /\ options !! "continuous_usage_stats" = Some (JBool true).

Record owned (path : string) (ctx : routeContext) (b : object) : Prop := {
  ow_secret : b !! "user_cache_secret" = None;
  ow_salt : derived (b !! "cache_salt");
  ow_priority : b !! "priority" = priority_of path ctx
}.

Lemma priority_same path a b : same_limits a b -> priority_of path a = priority_of path b.
Proof. intros [H1 H2]. unfold priority_of. by rewrite H1, H2. Qed.

Lemma usage_options body h b h' : ensureStreamingUsageOptions body h = (b, h') -> usage_forced b /\ forall k, k <> "stream_options" -> b !! k = body !! k.
Proof.
  unfold ensureStreamingUsageOptions. intros [= <- _]. split; [|intros k Hk; by rewrite lookup_insert_ne].
  eexists. rewrite lookup_insert_eq. split; [done|]. split; [by rewrite lookup_insert_ne, lookup_insert_eq|apply lookup_insert_eq].
Qed.

Lemma convert_files_post q org model body r (O : router -> outcome -> Prop) (K : router -> object -> Prop) :
  fleet_ok re_iter (rt_models r) ->
  (forall e, O r (Refused e)) ->
  (forall b, (forall k, k <> "input" -> k <> "messages" -> b !! k = body !! k) -> K r b) ->
  wp (convert_files q org model body) r O K.
Proof.
  intros Hf HO HK. unfold wp, convert_files.
  assert (forall f, f = rt_models r -> set_models f r = r) as Hr by (intros f ->; by destruct r).
  assert (forall sf P, sf = responses_surface re_Quote \/ sf = chat_surface re_Quote -> match (let '(f, x) := rewrite_body re_Quote re_ParseMediaType P (newRewriteContext (IsMultimodal (rt_metadata r)) model) sf body (rt_models r) in (f, x)) with
    | (_, inr (b, _)) => forall k, k <> "input" -> k <> "messages" -> b !! k = body !! k | _ => True end) as Hb.
  { intros sf P Hs. unfold rewrite_body. destruct (as_array _) as [items|]; [|done]. destruct (rewrite_items _ _ _ _ _ _ _) as [f [e|[items' b]]]; [done|].
    intros k H1 H2. rewrite lookup_insert_ne; [done|]. destruct Hs as [->| ->]; done. }
  cbv zeta. destruct (String.eqb (hq_path q) "/v1/responses"); [|destruct (String.eqb (hq_path q) "/v1/chat/completions"); [|by apply HK]].
  all: unfold rewriteResponsesBase64Files, rewriteChatCompletionsBase64Files, rewriteResponsesBase64FilesWithProcessor, rewriteChatCompletionsBase64FilesWithProcessor.
  all: match goal with |- context [rewrite_body ?a ?b ?P ?d ?sf ?e ?f] =>
    pose proof (Hb sf P ltac:(auto)) as H1;
    pose proof (rewriting_keeps re_Quote re_ParseMediaType re_FormatMediaType re_unmarshal_error re_ParseTime re_unmarshal_document re_admitted_at re_rnd re_iter
      re_convert (IsMultimodal (rt_metadata r)) org body (header_get (hq_header q) "Authorization") model (rt_models r) sf Hf) as H2;
    destruct (rewrite_body a b P d sf e f) as [g [x|[x y]]] end.
  all: cbn in H1, H2; rewrite (Hr g H2); first [apply HO|by apply HK].
Qed.

(** ** Reading and preparing *)

(** The computation leaves the state alone, whatever it refuses. *)
Definition reads {A} (m : M A) : Prop := forall r, wp m r (fun r' o => r' = r /\ exists e, o = Refused e) (fun r' _ => r' = r).

Lemma reads_bind {A B} (m : M A) (k : A -> M B) : reads m -> (forall a, reads (k a)) -> reads (m ≫= k).
Proof. intros Hm Hk r. apply post_bind. eapply post_mono; [apply Hm|done|]. intros r' a ->. apply Hk. Qed.
Lemma reads_ret {A} (a : A) : reads (mret a). Proof. done. Qed.
Lemma reads_try {E A} (f : E -> APIError) (v : E + A) : reads (try f v).
Proof. intros r. apply post_try; [|done]. intros e _. split; [done|by eexists]. Qed.
Lemma reads_refuse {A} e : reads (refuse e : M A). Proof. intros r. split; [done|by eexists]. Qed.
Lemma reads_some e : reads (refuse_some e). Proof. intros r. destruct e; [split; [done|by eexists]|done]. Qed.
Lemma reads_gets {A} (f : router -> A) : reads (gets f). Proof. done. Qed.
Create HintDb router discriminated.
#[local] Hint Resolve reads_bind reads_ret reads_try reads_refuse reads_some reads_gets : router.

Lemma reads_request q apiKey : reads (read_request q apiKey).
Proof.
  unfold read_request, resolve_auto. repeat first [apply reads_bind; [eauto with router|intros]|case_match|solve [eauto with router]].
Qed.

(** A refusal before anything was reserved: nothing but the report of the
    model has changed, or a served model's lookup was made. *)
Definition turned_away (apiKey : string) (r r' : router) (o : outcome) : Prop :=
  exists e, o = Refused e /\ (unnoticed r r' \/ exists model c ctx v, admitted r apiKey model c ctx v /\ r' = set_client c r).

(** The request may proceed under [adm]. *)
Definition let_in (apiKey model : string) (adm : routeContext) (r r' : router) : Prop :=
  exists c ctx, admitted r apiKey model c ctx None /\ r' = set_client c r /\ same_limits ctx adm.

Record ready (q : http_request) (p : prepared) : Prop := {
  rd_owned : owned (hq_path q) (pd_admission p) (pd_body p);
  rd_usage : streams (pd_body p) = true -> usage_forced (pd_body p);
  rd_length : exists data h, re_marshal (pd_body p) = Some data /\ pd_header p = content_length h data
}.

Lemma admit_served apiKey model known r (O : router -> outcome -> Prop) (K : router -> routeContext -> Prop) : client_ok (rt_client r) -> is_Some (rt_models r !! model) ->
  (forall r' o, turned_away apiKey r r' o -> O r' o) -> (forall r' ctx, let_in apiKey model ctx r r' -> K r' ctx) -> wp (admit_caller apiKey model known) r O K.
Proof.
  intros Hc Hm HO HK. apply admit_post; [done| |].
  - intros c ctx v e Hl. apply HO. eexists. split; [done|]. right. by exists model, c, ctx, v.
  - intros c ctx ctx' Hl Hs. apply HK. by exists c, ctx.
Qed.

Lemma prepare_post q apiKey r : client_ok (rt_client r) -> fleet_ok re_iter (rt_models r) ->
  wp (prepare_request q apiKey) r (turned_away apiKey r) (fun r' p => let_in apiKey (pd_model p) (pd_admission p) r r' /\ ready q p).
Proof.
  intros Hc Hf. unfold prepare_request. apply post_bind. eapply post_mono; [apply reads_request| |].
  { intros r' o [-> [e ->]]. exists e. split; [done|]. by left. }
  intros r' [[[body opts] model] known] ->. cbv beta iota zeta. apply post_bind, served_model_post.
  { intros _ r' Hr. eexists. split; [done|]. by left. }
  intros m Hm. apply post_bind, admit_served; [done|by eexists|done|]. intros r' adm Hin. pose proof Hin as (c & ctx & Ha & -> & Hs).
  destruct (priority_fields adm (delete "priority" body) (hq_path q)) as (b1 & -> & Hp & _). cbn [default from_option id].
  assert (forall e, turned_away apiKey r (set_client c r) (Refused e)) as Haway.
  { intros e. eexists. split; [done|]. right. by exists model, c, ctx, None. }
  apply post_bind, convert_files_post; [exact Hf|done|]. intros b2 Hb2. apply post_bind, post_total; [apply salt_total|].
  intros [salted mode] Hsalt. destruct (salt_fields _ _ _ _ _ _ (or_introl eq_refl) Hsalt) as (b3 & -> & H1 & H2 & H3). cbn [default from_option id].
  assert (owned (hq_path q) adm b3) as Hown by (split; [done|done|by rewrite H3, Hb2 by done]).
  assert (exists b h, (if streams b3 then ensureStreamingUsageOptions b3 (hq_header q) else (b3, hq_header q)) = (b, h)
    /\ owned (hq_path q) adm b /\ (streams b = true -> usage_forced b)) as (b & h & -> & Hob & Hu).
  { destruct (streams b3) eqn:Es; [|exists b3, (hq_header q); split_and!; [done|done|by rewrite Es]].
    destruct (ensureStreamingUsageOptions b3 (hq_header q)) as [b h] eqn:Ee. destruct (usage_options _ _ _ _ Ee) as [Hu Hk].
    exists b, h. split_and!; [done| |done]. destruct Hown. by split; rewrite Hk by done. }
  apply post_bind, post_try; [done|]. intros data Hd. apply post_ret. cbn. split; [done|]. split; [done|done|].
  destruct (re_marshal b) as [d|] eqn:Em; [|done]. apply (inj inr) in Hd as ->. by exists data, h.
Qed.

(** ** Choosing a replica *)

Definition mg_of (r : router) : Dispatch.manager := MkManager (rt_models r) None [] [] false.

(** The requests in flight, by model and replica. *)
Definition in_flight (r : router) : gmap string (gmap string Z) := inflights (mg_of r).

Definition router_ok (r : router) : Prop := client_ok (rt_client r) /\ manager_ok re_iter (mg_of r).

Lemma router_fleet r : router_ok r -> fleet_ok re_iter (rt_models r).
Proof. intros [_ H] m. apply H. Qed.

(** The plan's replica is one the caller may use, and not an overloaded one,
    unless the caller skips the queue. *)
Definition well_chosen (r : router) (adm : routeContext) (pl : plan) : Prop :=
  exists m e, rt_models r !! pl_model pl = Some m /\ host e = pl_host pl
    /\ usable re_selected_at (ReservationPools (OrgID adm) m).1.1 (ReservationPools (OrgID adm) m).1.2 m e
    /\ (skipsQueue adm = false -> pl_claim pl = None -> breakerClosed e = true ->
          (enclave_tier re_selected_at (ReservationPools (OrgID adm) m).2 e).1 <> tierOverloaded).

Record planned (r : router) (model : string) (adm : routeContext) (body : option object) (h : Header) (r' : router) (pl : plan) : Prop := {
  pn_model : pl_model pl = model;
  pn_body : pl_body pl = body;
  pn_header : pl_header pl = h;
  pn_class : pl_class pl = priorityClass (skipsQueue adm);
  pn_org : pl_org pl = OrgID adm;
  pn_chosen : well_chosen r adm pl;
  pn_counted : in_flight r' = one_more (MkReplica model (pl_host pl)) (mg_of r);
  pn_returned : in_flight (return_dispatch pl r') = in_flight r
}.

Definition selected (r : router) (model : string) (adm : routeContext) (body : option object) (h : Header) (r' : router) (o : outcome) : Prop :=
  rt_client r' = rt_client r
  /\ ((exists e, o = Refused e) /\ in_flight r' = in_flight r \/ exists pl, o = Forwards pl /\ planned r model adm body h r' pl).

(** A pool has one replica of a host. *)
Lemma member_unique m e e' : wf_pool m -> member m e -> member m e' -> host e = host e' -> e = e'.
Proof. intros Hwf [h Hh] [h' Hh'] Heq. pose proof (Hwf _ _ Hh) as H. pose proof (Hwf _ _ Hh') as H'. cbn in H, H'. congruence. Qed.

Lemma observed_models model h route d pool r : rt_models (observe_landing model h route d pool r) = rt_models r /\ rt_client (observe_landing model h route d pool r) = rt_client r.
Proof. unfold observe_landing. by destruct route as [[req settings]|]. Qed.

Lemma select_post q model m adm body h streaming route r (K : router -> unit -> Prop) : manager_ok re_iter (mg_of r) -> rt_models r !! model = Some m ->
  wp (select_replica q model m adm body h streaming route) r (selected r model adm body h) K.
Proof.
  intros Hok Hm. unfold select_replica. apply post_bind. unfold gets, wp at 1. cbv beta iota.
  destruct (ReservationPools (OrgID adm) m) as [[primary spill] policy] eqn:Ep. cbv zeta.
  set (d := route_decision _ _ _ _). set (order := match d with Some d => Order d | None => [] end). clearbody order.
  destruct (SelectServing re_selected_at re_rnd (re_iter m) m order true primary spill policy) as [m' s] eqn:Es.
  destruct (boundHTTPClientPreferring re_rnd re_iter re_selected_at (OrgID adm) model order true (mg_of r)) as [mg' res] eqn:Eb.
  destruct (bind_spec _ _ _ _ _ _ _ _ _ _ Hok Eb) as (_ & _ & Hb). unfold boundHTTPClientPreferring in Eb. cbn [mg_models mg_of] in Eb. rewrite Hm, Ep, Es in Eb.
  apply (inj2 pair) in Eb as [<- <-]. apply post_bind. unfold modify, wp at 1. cbv beta iota.
  set (r1 := set_models _ r). change (inflights (Dispatch.set_models _ (mg_of r))) with (in_flight r1) in Hb.
  destruct (sel_enclave s) as [e|] eqn:He; [|split; [done|left; split; [by eexists|exact Hb]]].
  destruct Hb as (_ & (m0 & e1 & Hm0 & Hh & Hu) & Hcount & Hback & _). cbn [rp_model rp_host mg_models mg_of] in Hm0, Hh. rewrite Hm in Hm0. apply (inj Some) in Hm0 as <-.
  change (in_flight (release_host model (host e) r1) = in_flight r) in Hback.
  destruct (sel_overloaded s && negb (skipsQueue adm)) eqn:Eo.
  { apply post_bind. unfold modify, wp at 1. split; [done|]. left. split; [by eexists|exact Hback]. }
  apply post_bind. unfold modify, wp at 1. cbv beta iota. apply post_finish.
  set (r2 := observe_landing _ _ _ _ _ _). pose proof (observed_models model (host e) route d (CacheRoutePoolIn re_selected_at (re_iter m') primary m') r1) as [H1 H2]. fold r2 in H1, H2.
  split; [exact H2|]. right. eexists. split; [done|].
  assert (forall f : router -> router, (forall a b, rt_models a = rt_models b -> rt_models (f a) = rt_models (f b)) -> in_flight (f r2) = in_flight (f r1)) as Hsame.
  { intros f Hf. unfold in_flight, mg_of, inflights. cbn. by rewrite (Hf r2 r1 H1). }
  split; try done.
  - exists m, e1. cbn [pl_model pl_host pl_claim]. rewrite Ep in Hu |- *. split_and!; [done|done|done|]. cbn [fst snd]. intros Hq Hcl Hc.
    rewrite Hq in Eo. destruct (Hok model m Hm) as (Hwf & Hen & _). unfold SelectServing in Es. apply (inj2 pair) in Es as [_ Hs].
    rewrite <- Hs in He, Eo, Hcl.
    destruct (select_sound re_selected_at re_rnd (re_iter m) m order true primary spill policy e Hen He) as (e0 & Hu0 & [-> |(_ & [t Ht] & _)]); [|congruence].
    assert (e1 = e0) as -> by (apply (member_unique m); [done|apply Hu|apply Hu0|done]).
    destruct (select_best_tier _ _ _ _ _ _ _ _ _ _ Hen He Hcl Hc) as [Ht _]. intros Htier. apply Ht in Htier. by rewrite Htier in Eo.
  - cbn [pl_host]. rewrite <- Hcount. by apply (Hsame (fun r => r)).
  - unfold return_dispatch. cbn [pl_model pl_host]. rewrite <- Hback. apply Hsame. intros a b Hab. unfold release_host. cbn. by rewrite Hab.
Qed.

(** ** The handler *)

(** The limits and the organization the request runs under are those its one
    lookup gave. *)
Definition passed (apiKey model : string) (adm : routeContext) (r r' : router) : Prop :=
  exists ctx, admitted r apiKey model (rt_client r') ctx None /\ same_limits ctx adm.

Definition body_ok (q : http_request) (adm : routeContext) (b : object) (h : Header) : Prop :=
  owned (hq_path q) adm b /\ (hq_path q <> "/v1/audio/speech" -> streams b = true -> usage_forced b)
  /\ exists data h', re_marshal b = Some data /\ h = content_length h' data.

Definition handled (q : http_request) (r r' : router) (o : outcome) : Prop :=
  match o with
  | Shown _ | CountsTokens => r' = r
  | Refused _ => in_flight r' = in_flight r /\ (rt_client r' = rt_client r \/ exists apiKey model ctx v, admitted r apiKey model (rt_client r') ctx v)
  | RunsTools t =>
      rt_models r' = rt_models r /\ exists apiKey adm, passed apiKey (tr_model t) adm r r' /\ tr_class t = priorityClass (skipsQueue adm) /\ tr_org t = OrgID adm
        /\ body_ok q adm (tr_body t) (tr_header t)
  | Forwards pl =>
      exists apiKey adm, passed apiKey (pl_model pl) adm r r' /\ planned r (pl_model pl) adm (pl_body pl) (pl_header pl) r' pl
        /\ match pl_body pl with Some b => body_ok q adm b (pl_header pl) | None => True end
  end.

Lemma unnoticed_flight r r' : unnoticed r r' -> in_flight r' = in_flight r /\ rt_client r' = rt_client r.
Proof. intros (H1 & H2 & _). split; [|done]. unfold in_flight, mg_of. by rewrite H2. Qed.

Lemma turned_away_handled q apiKey r r' o : turned_away apiKey r r' o -> handled q r r' o.
Proof.
  intros (e & -> & [H| (model & c & ctx & v & Ha & ->)]); [destruct (unnoticed_flight _ _ H); split; [done|by left]|].
  split; [done|]. right. by exists apiKey, model, ctx, v.
Qed.

Lemma planned_client c r model adm body h r' pl : planned (set_client c r) model adm body h r' pl -> planned r model adm body h r' pl.
Proof. intros []. by split. Qed.

Lemma selected_handled q apiKey c ctx r model adm body h r' o : admitted r apiKey model c ctx None -> same_limits ctx adm ->
  match body with Some b => body_ok q adm b h | None => True end ->
  selected (set_client c r) model adm body h r' o -> handled q r r' o.
Proof.
  intros Ha Hs Hb (Hc & [[[e ->] Hf]|(pl & -> & Hp)]).
  - split; [exact Hf|]. right. exists apiKey, model, ctx, None. by rewrite Hc.
  - pose proof Hp as [Hm Hbd Hh _ _ _ _ _]. exists apiKey, adm. rewrite Hm, Hbd, Hh. split_and!; [|by eapply planned_client|done]. exists ctx. by rewrite Hc.
Qed.

Lemma api_post q apiKey r (K : router -> unit -> Prop) : router_ok r -> hq_path q <> "/v1/audio/speech" -> wp (handle_api q apiKey) r (handled q r) K.
Proof.
  intros Hok Hpath. unfold handle_api. apply post_bind. eapply post_mono; [apply prepare_post; [apply Hok|by apply router_fleet]|intros r' o; apply turned_away_handled|].
  intros r' p [(c & ctx & Ha & -> & Hs) [Hown Hu Hl]]. assert (body_ok q (pd_admission p) (pd_body p) (pd_header p)) as Hb by done.
  destruct (pd_profiles p).
  - apply post_bind, served_model_post.
    + intros Hn. destruct Ha as [[m Hm] _]. cbn in Hn. congruence.
    + intros m Hm. eapply post_mono; [apply select_post; [apply Hok|exact Hm]| |done]. intros r' o. by eapply selected_handled.
  - apply post_finish. cbn. split; [done|]. exists apiKey, (pd_admission p). split_and!; try done. by exists ctx.
Qed.

Lemma late_post q apiKey model h speech r (K : router -> unit -> Prop) : router_ok r -> hq_path q = "/v1/audio/speech" \/ speech = None ->
  wp (handle_late q apiKey model h speech) r (handled q r) K.
Proof.
  intros Hok Hpath. unfold handle_late. apply post_bind, served_model_post.
  { intros _ r' Hr. eapply (turned_away_handled q apiKey). eexists. split; [done|]. by left. }
  intros m Hm. apply post_bind, admit_served; [apply Hok|by eexists|intros r' o; apply turned_away_handled|].
  intros r' adm (c & ctx & Ha & -> & Hs). apply post_bind. destruct speech as [body|].
  - apply post_bind, post_total. { unfold applyCacheSalt. done. }
    intros [salted mode] Hsalt. destruct (salt_fields _ _ _ _ _ _ (or_intror eq_refl) Hsalt) as (b1 & -> & H1 & H2 & H3). cbn [default from_option id].
    destruct (priority_fields adm b1 (hq_path q)) as (b2 & -> & Hp & Hk). cbn [default from_option id].
    apply post_bind, post_try.
    + intros e _. eapply (turned_away_handled q apiKey). eexists. split; [done|]. right. by exists model, c, ctx, None.
    + intros data Hd. apply post_ret. eapply post_mono; [apply select_post; [apply Hok|exact Hm]| |done]. intros r' o. eapply selected_handled; [done|done|].
      split; [split; [by rewrite Hk|by rewrite Hk|done]|]. split; [by destruct Hpath|].
      destruct (re_marshal b2) as [d|] eqn:Em; [|done]. apply (inj inr) in Hd as ->. by exists data, h.
  - apply post_ret. eapply post_mono; [apply select_post; [apply Hok|exact Hm]| |done]. intros r' o. by eapply selected_handled.
Qed.

Lemma refused_ok q r e : handled q r r (Refused e).
Proof. split; [done|by left]. Qed.

Lemma models_page_post q r K : wp models_page r (handled q r) K.
Proof.
  unfold models_page. destruct re_models_reply as [[status [data|]]|]; [|apply refused_ok..].
  destruct (negb _); [apply refused_ok|]. destruct (re_unmarshal_models data); [done|apply refused_ok].
Qed.

Lemma handle_request_post q r (K : router -> unit -> Prop) : router_ok r -> wp (handle_request q) r (handled q r) K.
Proof.
  intros Hok. unfold handle_request.
  assert (forall {A} (m : M A) (k : A -> M unit), reads m -> (forall a, wp (k a) r (handled q r) K) -> wp (m ≫= k) r (handled q r) K) as Hb.
  { intros A m k Hm Hk. apply post_bind. eapply post_mono; [apply Hm| |]; cbn. { intros r' o [-> [e ->]]. apply refused_ok. } by intros r' a ->. }
  apply Hb; [apply reads_some|intros _]. apply Hb; [apply reads_try|intros _]. destruct (isInputTokensPath _); [done|].
  destruct (isWebSocketUpgrade _ && _).
  { apply Hb; [apply reads_try|intros model]. destruct (realtime_key _ _) as [key h]. apply late_post; [done|by right]. }
  destruct (page_at _ _); [done|]. destruct (String.eqb _ "/v1/models"); [apply models_page_post|].
  destruct (String.eqb_spec (hq_path q) "/v1/audio/speech") as [He|Hne].
  { apply Hb; [apply reads_try|intros raw]. apply Hb; [apply reads_try|intros body]. apply late_post; [done|by left]. }
  case_bool_decide. { apply Hb; [apply reads_try|intros raw]. apply late_post; [done|by right]. }
  destruct (String.eqb _ "/v1/convert/file"); [apply late_post; [done|by right]|by apply api_post].
Qed.

(** The handler ends in an outcome, or panics over a field longer than 4 GiB. *)
Lemma handle_post q r : router_ok r -> match handle q r with None => salt_panic | Some (r', o) => handled q r r' o end.
Proof.
  intros Hok. pose proof (handle_request_post q r (fun _ _ => False) Hok) as H. unfold wp in H. unfold handle.
  by destruct (handle_request q r) as [[r' [o|a]]|].
Qed.

Lemma handle_Some q r r' o : router_ok r -> handle q r = Some (r', o) -> handled q r r' o.
Proof. intros Hok H. pose proof (handle_post q r Hok) as Hp. by rewrite H in Hp. Qed.

(** ** Replays *)

Lemma reserve_counts m e : wf_pool m -> member m e -> 0 <= Pool.inflight e < int64_max ->
  wf_pool (reserve e m) /\ host_inflights (reserve e m) = alter (Z.add 1) (host e) (host_inflights m).
Proof.
  intros Hwf [h Hh] Hr. pose proof (Hwf _ _ Hh) as Hx. cbn in Hx. subst h. split.
  - intros h' e' Hl. unfold reserve, put_enclave in Hl. cbn in Hl. apply lookup_insert_Some in Hl as [[<- <-]|[_ Hl]]; [done|by apply Hwf in Hl].
  - unfold host_inflights, reserve, put_enclave. cbn [Enclaves]. rewrite fmap_insert. cbn [host Pool.inflight set_inflight].
    rewrite (alter_as_insert _ _ _ (Pool.inflight e)) by (by rewrite lookup_fmap, Hh). f_equal.
    rewrite wrap64_id; [lia|]. unfold in_int64, int64_min, int64_max in *. lia.
Qed.

Lemma release_in_flight model h r : pools_wf (mg_of r) ->
  in_flight (release_host model h r) = alter (alter (fun n => wrap64 (n - 1)) h) model (in_flight r).
Proof. intros Hwf. exact (inflights_release (MkReplica model h) (mg_of r) Hwf). Qed.

(** Giving back what was just taken. *)
Lemma give_back h n (c : gmap string (gmap string Z)) : (forall m x, c !! n = Some m -> m !! h = Some x -> 0 <= x < int64_max) ->
  alter (alter (fun x => wrap64 (x - 1)) h) n (alter (alter (Z.add 1) h) n c) = c.
Proof.
  intros Hc. rewrite alter_alter_eq. apply map_eq. intros k. destruct (decide (n = k)) as [<-|Hne]; [|by rewrite lookup_alter_ne].
  rewrite lookup_alter_eq. destruct (c !! n) as [m|] eqn:Em; [|done]. cbn. f_equal. unfold compose. rewrite alter_alter_eq.
  apply map_eq. intros j. destruct (decide (h = j)) as [<-|Hne]; [|by rewrite lookup_alter_ne].
  rewrite lookup_alter_eq. destruct (m !! h) as [x|] eqn:Ex; [|done]. cbn. f_equal. pose proof (Hc m x eq_refl Ex).
  unfold compose. rewrite wrap64_id; [lia|]. unfold in_int64, int64_min, int64_max in *. lia.
Qed.

Lemma alters_commute {A} (f g : A -> A) h h' n (c : gmap string (gmap string A)) : h <> h' ->
  alter (alter f h) n (alter (alter g h') n c) = alter (alter g h') n (alter (alter f h) n c).
Proof.
  intros Hh. rewrite !alter_alter_eq. apply alter_ext. intros m _. unfold compose. by apply alter_alter_ne.
Qed.

Lemma flight_bounded r : manager_ok re_iter (mg_of r) -> forall n h m x, in_flight r !! n = Some m -> m !! h = Some x -> 0 <= x < int64_max.
Proof.
  intros Hok n h m x Hm Hx. unfold in_flight, inflights in Hm. rewrite lookup_fmap in Hm. destruct (mg_models (mg_of r) !! n) as [pm|] eqn:Ep; [|done].
  apply (inj Some) in Hm as <-. unfold host_inflights in Hx. rewrite lookup_fmap in Hx. destruct (Enclaves pm !! h) as [e|] eqn:Ee; [|done].
  apply (inj Some) in Hx as <-. apply (Hok n pm Ep). by exists h.
Qed.

(** ** Properties *)


Definition sent_body (o : outcome) : option (object * Header) :=
  match o with RunsTools t => Some (tr_body t, tr_header t) | Forwards pl => b ← pl_body pl; Some (b, pl_header pl) | _ => None end.

(** C3: the body the router writes is the router's. Whatever the client put there,
    what is forwarded or run has no user_cache_secret; its cache_salt is absent
    or one the router derived; its priority is the one of the admission lookup
    on the endpoints that take one and absent elsewhere; a streaming request asks
    for usage, so that it can be billed (speech, which is not metered by tokens,
    apart); and Content-Length is the length of what the body encodes to. *)
Theorem router_owns_body q r r' o b h : router_ok r -> handle q r = Some (r', o) -> sent_body o = Some (b, h) ->
  b !! "user_cache_secret" = None /\ derived (b !! "cache_salt")
  /\ (exists apiKey model ctx, admitted r apiKey model (rt_client r') ctx None /\ b !! "priority" = priority_of (hq_path q) ctx)
  /\ (hq_path q <> "/v1/audio/speech" -> streams b = true -> usage_forced b)
  /\ exists data, re_marshal b = Some data /\ header_get h "Content-Length" = FormatInt (Z.of_nat (length data)).
Proof.
  intros Hok H Hb. apply handle_Some in H; [|done].
  assert (exists apiKey model adm, passed apiKey model adm r r' /\ body_ok q adm b h) as (key & model & adm & (ctx & Ha & Hs) & [[H1 H2 H3] [H4 (data & h' & Hd & ->)]]).
  { destruct o as [e|p| |t|pl]; try done; cbn in Hb, H.
    - apply (inj Some), (inj2 pair) in Hb as [<- <-]. destruct H as (_ & key & adm & Hp & _ & _ & Hb). by exists key, (tr_model t), adm.
    - destruct (pl_body pl) as [b'|] eqn:Eb; [|done]. apply (inj Some), (inj2 pair) in Hb as [<- <-].
      destruct H as (key & adm & Hp & _ & Hb'). by exists key, (pl_model pl), adm. }
  split_and!; try done.
  - exists key, model, ctx. split; [done|]. by rewrite (priority_same _ _ _ Hs).
  - exists data. split; [done|]. unfold content_length. apply header_get_insert.
Qed.

(** C4: the in-flight counts are exactly the requests on the replicas. A request
    that is refused (overloaded included), answered by the router itself or
    handed to the tool runtime leaves every count as it was; a forwarded one
    counts as one more on its replica and on no other, and the release when the
    handler returns brings every count back. *)
Theorem reservation_released q r r' o : router_ok r -> handle q r = Some (r', o) ->
  match o with
  | Forwards pl => in_flight r' = one_more (MkReplica (pl_model pl) (pl_host pl)) (mg_of r) /\ in_flight (return_dispatch pl r') = in_flight r
  | _ => in_flight r' = in_flight r
  end.
Proof.
  intros Hok H. apply handle_Some in H; [|done]. destruct o as [e|p| |t|pl]; cbn in H; [apply H|by subst..| |].
  - destruct H as [Hm _]. unfold in_flight, mg_of. by rewrite Hm.
  - destruct H as (key & adm & _ & Hp & _). split; apply Hp.
Qed.


(** C15: a replay moves the reservation. Whatever other requests did meanwhile, the
    replica a bad gateway is replayed on is another one that the caller may use,
    closed and of a known load; it takes the reservation over from the failed
    one, and the release at the end of the request leaves the counts that the
    release without a replay would have left. Without such a replica nothing
    changes. *)
Theorem replay_moves_reservation pl r r' next : manager_ok re_iter (mg_of r) -> pl_host pl <> "" -> next_replica pl r = (r', next) ->
  match next with
  | None => r' = r
  | Some pl' =>
      pl_model pl' = pl_model pl /\ pl_host pl' <> pl_host pl
      /\ (exists m e, rt_models r !! pl_model pl = Some m /\ host e = pl_host pl'
           /\ let '(primary, spill, policy) := pl_pools pl in retryable re_selected_at m (pl_host pl) primary spill policy e)
      /\ in_flight r' = alter (alter (fun n => wrap64 (n - 1)) (pl_host pl)) (pl_model pl) (one_more (MkReplica (pl_model pl) (pl_host pl')) (mg_of r))
      /\ in_flight (return_dispatch pl' r') = in_flight (return_dispatch pl r)
  end.
Proof.
  intros Hok Hne H. unfold next_replica in H. destruct (rt_models r !! pl_model pl) as [m|] eqn:Em; [|by apply (inj2 pair) in H as [<- <-]].
  destruct (pl_pools pl) as [[primary spill] policy] eqn:Ep. destruct (Hok _ _ Em) as (Hwf & Hen & Hr).
  pose proof (retry_sound_complete re_selected_at re_rnd (re_iter m) m (pl_host pl) (pl_order pl) primary spill policy Hen Hne) as Hret.
  destruct (SelectRetry _ _ _ m _ _ primary spill policy) as [m' [e|]] eqn:Es; [|by apply (inj2 pair) in H as [<- <-]].
  cbn [snd] in Hret. assert (m' = reserve e m) as ->.
  { unfold SelectRetry in Es. destruct (sel_enclave _); [|done]. destruct (sel_overloaded _); [done|]. by apply (inj2 pair) in Es as [<- [= ->]]. }
  cbv zeta in H. apply (inj2 pair) in H as [<- <-]. destruct (reserve_counts m e Hwf ltac:(apply Hret) ltac:(apply Hr, Hret)) as [Hwf' Hcount].
  set (r1 := set_models (<[pl_model pl := reserve e m]> (rt_models r)) r). set (r2 := observe_landing _ _ _ _ _ _).
  assert (pools_wf (mg_of r1)) as Hw1 by (apply map_Forall_insert_2; [done|]; intros n pm Hn; by apply (Hok n pm)).
  assert (in_flight r1 = one_more (MkReplica (pl_model pl) (host e)) (mg_of r)) as H1.
  { unfold in_flight, inflights, one_more. cbn. rewrite fmap_insert, Hcount. symmetry. apply alter_as_insert. by rewrite lookup_fmap, Em. }
  assert (rt_models r2 = rt_models (release_host (pl_model pl) (pl_host pl) r1)) as H2 by apply observed_models.
  assert (in_flight r2 = in_flight (release_host (pl_model pl) (pl_host pl) r1)) as H3 by (unfold in_flight, mg_of; by rewrite H2).
  rewrite release_in_flight, H1 in H3 by done. cbn [pl_model pl_host]. split_and!; [done|apply Hret|by exists m, e|exact H3|].
  unfold return_dispatch. cbn [pl_model pl_host]. rewrite !release_in_flight.
  - rewrite H3. unfold one_more. cbn [rp_model rp_host]. rewrite alters_commute by (apply Hret). change (inflights (mg_of r)) with (in_flight r).
    rewrite give_back; [done|]. intros pm x Hx. by eapply flight_bounded.
  - intros n pm Hn. by apply (Hok n pm).
  - unfold pools_wf, mg_of. rewrite H2. cbn. intros n pm Hn. apply lookup_alter_Some in Hn as [(<- & pm' & Hn & ->)|[_ Hn]]; [|by apply (Hw1 n)].
    pose proof (Hw1 _ _ Hn) as Hx. intros h' e' Hl. unfold ReleaseDispatch in Hl. destruct (Enclaves pm' !! pl_host pl) as [e0|] eqn:E0; [|by apply Hx].
    unfold put_enclave in Hl. cbn in Hl. apply lookup_insert_Some in Hl as [[<- <-]|[_ Hl]]; [done|by apply Hx].
Qed.
End Spec.

(** ** A small router *)

(** One replica, salting on, and a body whose fields the router owns. *)
Definition greedy_body : object :=
  <["model" := JStr "m"]> (<["messages" := JArr []]> (<["priority" := JInt 9]> (<["user_cache_secret" := JStr "s3"]> (<["cache_salt" := JStr "mine"]> {["stream" := JBool true]} : object)))).

Definition small_env : RouterEnv := {|
  re_admitted_at := 100; re_selected_at := 200; re_rnd := fun n => n; re_iter := by_map; re_scores := fun m => map_to_list m; re_table_order := [];
  re_decode := fun _ => inr greedy_body; re_marshal := fun _ => Some (to_bytes "{}"); re_unmarshal_field := fun _ _ => None;
  re_FromHeaders := fun _ _ _ _ => (MkUsageContext "" 0 "" false, false, None); re_VerifyAPIKeyHash := fun _ _ => false; re_count_message := fun _ => ""; re_usage_secret := "";
  re_ParseFloat := fun _ => None; re_FormatFloat := fun _ => ""; re_int_out_of_range := fun _ => 0; re_xxhash64 := fun _ => 0; re_route_secret := "";
  re_salt_enabled := true; re_org := inr emptyContext; re_form := fun _ _ => []; re_models_reply := None; re_unmarshal_models := fun _ => None;
  re_Quote := fun s => s; re_ParseMediaType := fun _ => None; re_FormatMediaType := fun _ => ""; re_unmarshal_error := fun _ => None; re_ParseTime := fun _ => true;
  re_unmarshal_document := fun _ => None; re_convert := fun _ => Converted 500 ∅ None
|}.

#[local] Existing Instance small_env.

Definition small_router : router := MkRouter newClient {["m" := small_pool newCircuitBreaker]} (NewShadow 10) (MkMetadata ∅ ∅ ∅) None.
Definition small_request : http_request :=
  MkHttp "POST" "/v1/chat/completions" (fun _ => "") {["Authorization" := ["Bearer sk"]]} 100 (Some (to_bytes "{}")) None.

Lemma small_router_ok : router_ok small_router.
Proof. split; [apply newClient_ok|]. exact (small_manager_ok newCircuitBreaker). Qed.

Lemma small_forwards : exists r' pl b, handle small_request small_router = Some (r', Forwards pl)
  /\ pl_model pl = "m" /\ pl_host pl = "h1" /\ pl_pools pl = (None, None, None) /\ pl_body pl = Some b /\ streams b = true.
Proof.
  assert (match handle small_request small_router with
          | Some (_, Forwards pl) => String.eqb (pl_model pl) "m" && String.eqb (pl_host pl) "h1" && match pl_pools pl with (None, None, None) => true | _ => false end
              && match pl_body pl with Some b => streams b | None => false end
          | _ => false end = true) as H by (vm_compute; reflexivity).
  destruct (handle small_request small_router) as [[r' [| | | |pl]]|]; try done. bool_simp. destruct (pl_body pl) as [b|] eqn:Eb; [|done].
  destruct (pl_pools pl) as [[[] []] []] eqn:Ep; try done. exists r', pl, b. split_and!; first [done|by apply String.eqb_eq].
Qed.


(** The client's secret, salt and priority are gone, and usage is asked for. *)
Lemma router_owns_body_witness : exists r' pl b, handle small_request small_router = Some (r', Forwards pl) /\ pl_body pl = Some b
  /\ b !! "user_cache_secret" = None /\ derived (b !! "cache_salt") /\ usage_forced b.
Proof.
  destruct small_forwards as (r' & pl & b & E & _ & _ & _ & Eb & Hs). exists r', pl, b. split; [exact E|]. split; [exact Eb|].
  destruct (router_owns_body small_request small_router r' (Forwards pl) b (pl_header pl) small_router_ok E) as (H1 & H2 & _ & H4 & _); [by cbn; rewrite Eb|].
  split; [exact H1|]. split; [exact H2|]. apply H4; [done|exact Hs].
Defined.

Lemma reservation_released_witness : exists r' pl, handle small_request small_router = Some (r', Forwards pl)
  /\ in_flight r' = {["m" := {["h1" := 1]}]} /\ in_flight (return_dispatch pl r') = in_flight small_router.
Proof.
  destruct small_forwards as (r' & pl & b & E & Em & Eh & _). exists r', pl. split; [exact E|].
  destruct (reservation_released small_request small_router r' (Forwards pl) small_router_ok E) as [H1 H2]. split; [|exact H2].
  rewrite H1, Em, Eh. reflexivity.
Defined.


(** Two replicas; the first one answers with a bad gateway. *)
Definition pair_pool : PoolModel :=
  PM {["h1" := set_inflight 1 (Example.sampled "h1" 0 0); "h2" := Example.sampled "h2" 0 0]} None None [] 2 ∅ ∅ None ∅ ∅.
Definition pair_router : router := MkRouter newClient {["m" := pair_pool]} (NewShadow 10) (MkMetadata ∅ ∅ ∅) None.
Definition failed_plan : plan := MkPlan "m" "h1" None None ∅ "" "none" "standard" [] (None, None, None) None None false false.

Lemma replay_moves_reservation_witness : exists r' pl', next_replica failed_plan pair_router = (r', Some pl') /\ pl_host pl' = "h2"
  /\ in_flight r' = {["m" := {["h1" := 0; "h2" := 1]}]} /\ in_flight (return_dispatch pl' r') = in_flight (return_dispatch failed_plan pair_router).
Proof.
  destruct (next_replica failed_plan pair_router) as [r' next] eqn:E.
  assert (match next with Some pl' => String.eqb (pl_host pl') "h2" | None => false end = true) as H.
  { change next with ((r', next).2). rewrite <- E. vm_compute. reflexivity. }
  assert (manager_ok re_iter (mg_of pair_router)) as Hok.
  { intros n m Hm. cbn in Hm. apply lookup_singleton_Some in Hm as [<- <-]. split_and!.
    - intros h e He. cbn in He. apply lookup_insert_Some in He as [[<- <-]|[_ He]]; [done|]. apply lookup_singleton_Some in He as [<- <-]. done.
    - intros p. apply Permutation_refl.
    - intros e [h He]. cbn in He. apply lookup_insert_Some in He as [[<- <-]|[_ He]]; [done|]. apply lookup_singleton_Some in He as [<- <-]. done. }
  pose proof (replay_moves_reservation failed_plan pair_router r' next Hok ltac:(done) E) as Hp. destruct next as [pl'|]; [|done].
  apply String.eqb_eq in H. destruct Hp as (_ & _ & _ & H1 & H2). exists r', pl'. split; [done|]. split; [done|]. split; [|exact H2].
  rewrite H1, H. vm_compute. reflexivity.
Defined.
