(* ===== verification/ToolLoop.v ===== *)
(** * The tool loop ([toolruntime/tool_loop.go], [runtime.go])

    The driver both surfaces share: it posts the conversation to the model,
    executes the router-owned calls of the answer, folds their outputs back in,
    and finalizes when there is no router work left, when a turn mixes router
    and client calls, or when the budget of turns is spent.

    The surface is an instance of the class [toolLoopAdapter], as it is an
    implementation of the interface in the code.  The world (the upstream model
    and the tool servers) and the libraries are an [Env]: the n-th upstream
    request and the n-th tool call of a run have the outcome the environment
    gives them.  Logging is left out; a production build compiles it away. *)

From Stdlib Require Import Ascii.
From S2P Require Import Prelude Float64 Sha256 CacheSalt Json TokenCount Coerce Quirks Utf8 Citations Annotations WebSearch Session Events Prompt Autoroute.
#[local] Open Scope string_scope.
#[local] Open Scope list_scope.
#[local] Open Scope Z_scope.

(** ** Usage *)

Record usageAccumulator := MkAccumulator { promptTokens : Z; cachedPromptTokens : Z; completionTokens : Z; totalTokens : Z }.

Definition zeroAccumulator : usageAccumulator := MkAccumulator 0 0 0 0.

Definition with_total (u : Usage) (total : Z) : Usage :=
  MkUsage (PromptTokens u) (CompletionTokens u) total (InputTokens u) (OutputTokens u) (PromptTokensDetails u) (InputTokensDetails u).

Definition Accumulated (a : usageAccumulator) : option Usage :=
  if (promptTokens a =? 0) && (completionTokens a =? 0) && (totalTokens a =? 0) then None
  else
    let total := if totalTokens a =? 0 then wrap64 (promptTokens a + completionTokens a) else totalTokens a in
    let details := if cachedPromptTokens a >? 0 then Some (cachedPromptTokens a) else None in
    Some (MkUsage (promptTokens a) (completionTokens a) total (promptTokens a) (completionTokens a) details details).

Definition usageMap (u : Usage) (inputTokensKey outputTokensKey detailsKey : string) : object :=
  let m : object := <["total_tokens" := JInt (TotalTokens u)]> (<[outputTokensKey := JInt (CompletionTokens u)]> {[inputTokensKey := JInt (PromptTokens u)]}) in
  match CachedPromptTokens (Some u) with
  | (cached, true) => <[detailsKey := JObj {["cached_tokens" := JInt cached]}]> m
  | (_, false) => m
  end.

Definition chatUsageMap (u : Usage) : object := usageMap u "prompt_tokens" "completion_tokens" "prompt_tokens_details".
Definition responsesUsageMap (u : Usage) : object := usageMap u "input_tokens" "output_tokens" "input_tokens_details".

(** ** The environment *)

Abbreviation header := (gmap string (list string)).

Record HTTPResponse := MkHTTP { http_status : Z; http_header : header; http_body : option bytes }.

Record CallToolResult := MkToolResult { IsError : bool; StructuredContent : option json; Content : list (option string) }.

Class Env := {
  e_ToLower : string -> string;
  e_ToUpper : string -> string;
  e_parse_day : string -> option Z;
  e_parse_rfc3339 : string -> option Z;
  e_format_rfc3339 : Z -> string;
  e_parseInputSchema : json -> option (option Schema);
  e_ParseFloat : string -> option float64;
  e_FormatFloat : float64 -> string;
  e_int_out_of_range : float64 -> Z;
  e_unmarshal_array : string -> option (option (list json));
  e_unmarshal_object : string -> option (option object);
  e_unmarshal_body : bytes -> option (option object);
  e_jsonBytesValid : bytes -> bool;
  e_Quote : string -> string;
  e_Marshal : json -> option text;
  e_float_literal : float64 -> option string;
  e_decode_usage : json -> option Usage;
  e_uuid : nat -> string;
  e_now : string;
  e_Parse : text -> option ParsedURL;
  e_Query : ParsedURL -> gmap text (list text);
  e_Encode : gmap text (list text) -> text;
  e_Print : ParsedURL -> text;
  e_ToLowerText : text -> text;
  (** [em.DoModelRequestJSON] and [session.CallTool]: an error text or a result *)
  e_DoModelRequestJSON : nat -> string -> object -> string + HTTPResponse;
  e_CallTool : nat -> Z -> string -> option object -> string + CallToolResult
}.

Section Runtime.
Context {E : Env}.

Definition usageFromRaw (raw : json) : option Usage :=
  if is_nil raw then None
  else
    u ← e_decode_usage raw;
    let u := Normalize u in
    let u := if TotalTokens u =? 0 then with_total u (wrap64 (PromptTokens u + CompletionTokens u)) else u in
    if (PromptTokens u =? 0) && (CompletionTokens u =? 0) && (TotalTokens u =? 0) then None else Some u.

(** [Add], of a response's body; a nil map reads as empty. *)
Definition Add (a : usageAccumulator) (body : option object) : usageAccumulator :=
  match usageFromRaw (get "usage" (default ∅ body)) with
  | None => a
  | Some u =>
      MkAccumulator (wrap64 (promptTokens a + PromptTokens u))
        (match CachedPromptTokens (Some u) with (cached, true) => wrap64 (cachedPromptTokens a + cached) | (_, false) => cachedPromptTokens a end)
        (wrap64 (completionTokens a + CompletionTokens u))
        (wrap64 (totalTokens a + (if TotalTokens u >? 0 then TotalTokens u else wrap64 (PromptTokens u + CompletionTokens u))))
  end.

(** ** Upstream requests *)

Inductive failure :=
  | UpstreamError (status : Z) (h : header) (body : bytes)
  | OtherError (msg : string).

Record upstreamJSONResponse := MkResponse { u_body : option object; u_header : option header; u_status : Z }.

(** The n-th request of a run. *)
Definition postJSON (n : nat) (path : string) (body : object) : failure + upstreamJSONResponse :=
  match e_DoModelRequestJSON n path body with
  | inl msg => inl (OtherError msg)
  | inr resp =>
      match http_body resp with
      | None => inl (OtherError "read")
      | Some respBody =>
          if (http_status resp <? 200) || (http_status resp >=? 300) then inl (UpstreamError (http_status resp) (http_header resp) respBody)
          else
            match e_unmarshal_body respBody with
            | None => inl (OtherError "unmarshal")
            | Some parsed => inr (MkResponse parsed (Some (http_header resp)) (http_status resp))
            end
      end
  end.

(** ** Tool calls *)

Definition join_with (sep : string) (parts : list string) : string := String.concat sep parts.

Definition newline_string : string := String (ascii_of_nat 10) "".

Definition toolResultErrorMessage (result : CallToolResult) : string :=
  join_with newline_string
    (omap (fun c => t ← c; let trimmed := Strconv.TrimSpace t in if String.eqb trimmed "" then None else Some trimmed) (Content result)).

(** The text, the structured content and the error. *)
Definition callTool (n : nat) (session : Z) (name : string) (args : option object) : string * option json * option string :=
  match e_CallTool n session name args with
  | inl err => ("", None, Some err)
  | inr result =>
      if IsError result then
        let message := toolResultErrorMessage result in
        ("", StructuredContent result, Some (if String.eqb message "" then "tool call failed" else message))
      else
        match StructuredContent result with
        | Some structured => ("", Some structured, None)
        | None => (join_with newline_string (omap (fun c => c) (Content result)), None, None)
        end
  end.

Definition formatStructuredToolOutput (name : string) (raw : json) (state : State) : State * text :=
  let keep (r : option State * text) := (default state r.1, r.2) in
  match raw with
  | JObj content =>
      if bool_decide (content = ∅) then (state, [])
      else if isRouterSearchToolName name then keep (FormatSearchOutput (get "results" content) (Some state))
      else if isRouterFetchToolName name then
        let '(state, formatted) := keep (FormatFetchOutput (get "pages" content) (Some state)) in
        match formatted with [] => (state, FormatFetchFailures (get "results" content)) | _ => (state, formatted) end
      else (state, [])
  | _ => (state, [])
  end.

Definition applyStructuredFormat (name txt : string) (structured : option json) (state : State) : State * string :=
  match structured with
  | None => (state, txt)
  | Some raw =>
      let '(state, formatted) := formatStructuredToolOutput name raw state in
      (state,
       match formatted with
       | [] => match e_Marshal raw with Some body => string_of body | None => txt end
       | _ => string_of formatted
       end)
  end.

Definition humanize (name : string) (err : string) (args : object) : string :=
  humanizeToolArgError e_Quote (fun m => string_of <$> e_Marshal (JObj m)) name (Some err) args.

Definition prepare (o : webSearchOptions) (schemas : gmap string Schema) (name : string) (args : option object) : option object :=
  prepare_arguments e_ToLower e_ParseFloat e_FormatFloat e_int_out_of_range e_unmarshal_array e_unmarshal_object name args o schemas.

Inductive action :=
  | Posted (path : string) (body : object) (result : failure + upstreamJSONResponse)
  | CalledTool (session : Z) (tool : string) (args : option object).

(** The n-th tool call of a run: the output, the citation state, the record and
    the request sent, if any. *)
Definition executeRouterToolCall (n : nat) (registry : sessionRegistry) (call : toolCall) (opts : webSearchOptions)
    (toolSchemas : gmap string Schema) (state : State) : string * State * toolCallRecord * list action :=
  let args := prepare opts toolSchemas (name call) (arguments call) in
  let shown := default ∅ args in
  match sessionFor registry (name call) with
  | None =>
      (humanize (name call) ("no MCP session registered for tool " +:+ e_Quote (name call)) shown, state,
       MkRecord (name call) shown [] [] "tool_error" None (MkBilling 0 false), [])
  | Some session =>
      let '(output, structured, err) := callTool n session (dispatchName registry (name call)) args in
      let '(state, output) := applyStructuredFormat (name call) output structured state in
      let failed := match err with Some _ => true | None => false end in
      let sources := if failed then [] else toolCallSourcesForResult (name call) structured output in
      (match err with Some e => humanize (name call) e shown | None => output end, state,
       MkRecord (name call) shown (toolCallSourceURLs sources) sources (publicToolErrorReason failed)
         (if failed then None else piiCheckResultFromStructured e_ParseFloat e_int_out_of_range (name call) structured)
         (piiBillingFromStructured (name call) structured failed),
       [CalledTool session (dispatchName registry (name call)) args])
  end.
End Runtime.

(** ** The surfaces *)

Definition maxToolIterations : nat := 10.

Record toolOutput := MkOutput { o_callID : string; o_name : string; o_output : string }.

(** The interface of a surface.  The arguments of a call the model gave as an
    object are the ones of the answer: executing the call rewrites them in
    place, which [rewriteArguments] does to the turn's state. *)
Class toolLoopAdapter (A : Type) := {
  turn : Type;
  upstreamPath : string;
  buildInitialRequest : A -> option (A * object);
  preIteration : object -> object;
  onUpstreamResponse : A -> object -> list toolCall * bool * turn;
  rewriteArguments : A -> (string -> object -> object) -> turn -> turn;
  applyToolOutputs : A -> object -> turn -> list toolOutput -> option (A * object);
  stripRouterToolCallsFromResponse : A -> object -> object;
  forcedFinalRequest : object -> option object;
  usage_map : Usage -> object;
  attachCitations : A -> object -> State -> toolCallLog -> bool -> object;
  options : A -> webSearchOptions;
  tool_schemas : A -> gmap string Schema
}.

Definition applyUsage {A} `{toolLoopAdapter A} (body : option object) (usage : option Usage) : option object :=
  match body, usage with
  | Some body, Some u => Some (<["usage" := JObj (usage_map u)]> body)
  | _, _ => body
  end.

Section Surfaces.
Context {E : Env}.

Definition applyParallelToolCallsPolicy (reqBody : object) : object :=
  match reqBody !! "parallel_tool_calls" with Some _ => reqBody | None => <["parallel_tool_calls" := JBool true]> reqBody end.

(** *** Chat Completions *)

Record chatLoopAdapter := MkChat {
  c_body : object;
  c_prompt : list PromptMessage;
  c_tools : list Tool;
  c_ownedTools : gset string;
  c_opts : webSearchOptions;
  c_schemas : gmap string Schema
}.

Definition buildChatUpstreamRequest (body : object) (ts : list Tool) (prompt : list PromptMessage) : option object :=
  reqBody ← cloneJSONMap e_float_literal body;
  let reqBody := foldl (fun b k => delete k b) reqBody
    ["web_search_options"; "filters"; "stream_options"; "pii_check_options"; "prompt_injection_check_options"] in
  let reqBody := applyParallelToolCallsPolicy (stripRouterOwnedIncludes reqBody) in
  let reqBody := <["tools" := JArr (existingTools (get "tools" reqBody) ++ chatTools ts)]> reqBody in
  Some (<["messages" := JArr (prependChatPrompt e_now prompt (get "messages" reqBody))]> reqBody).

Definition chat_preIteration (reqBody : object) : object :=
  match get "messages" reqBody with
  | JArr msgs => <["messages" := JArr (fst (sanitizeAssistantToolCallsInMessages e_jsonBytesValid msgs))]> reqBody
  | _ => reqBody
  end.

(** The name of a raw Chat call. *)
Definition chat_call_name (call : object) : string := get_string "name" (tool_object (get "function" call)).

Definition rewrite_chat_call (owned : gset string) (f : string -> object -> object) (raw : json) : json :=
  match raw with
  | JObj call =>
      match get "function" call with
      | JObj fn =>
          match get "arguments" fn with
          | JObj args =>
              if bool_decide (chat_call_name call ∈ owned)
              then JObj (<["function" := JObj (<["arguments" := JObj (f (chat_call_name call) args)]> fn)]> call) else raw
          | _ => raw
          end
      | _ => raw
      end
  | _ => raw
  end.

Definition rewrite_message (owned : gset string) (f : string -> object -> object) (message : object) : object :=
  match get "tool_calls" message with
  | JArr raw => <["tool_calls" := JArr (map (rewrite_chat_call owned f) raw)]> message
  | _ => message
  end.

Definition tool_message (o : toolOutput) : json :=
  JObj {["role" := JStr "tool"; "tool_call_id" := JStr (o_callID o); "content" := JStr (o_output o)]}.

Definition chat_applyToolOutputs (reqBody : object) (message : option object) (outputs : list toolOutput) : object :=
  let messages := default [] (as_array (get "messages" reqBody)) in
  let messages := match message with Some assistant => messages ++ [JObj assistant] | None => messages end in
  <["messages" := JArr (messages ++ map tool_message outputs)]> reqBody.

(** A raw call kept for the client: not an object, or not the router's. *)
Definition client_call (owned : gset string) (raw : json) : bool :=
  match raw with JObj call => negb (bool_decide (chat_call_name call ∈ owned)) | _ => true end.

Definition chat_strip (owned : gset string) (body : object) : object :=
  match get "choices" body with
  | JArr (JObj choice :: choices) =>
      match get "message" choice with
      | JObj message =>
          match get "tool_calls" message with
          | JArr ((_ :: _) as rawCalls) =>
              let filtered := List.filter (client_call owned) rawCalls in
              let message := match filtered with [] => delete "tool_calls" message | _ => <["tool_calls" := JArr filtered]> message end in
              let choice := <["finish_reason" := JStr "tool_calls"]> (<["message" := JObj message]> choice) in
              <["choices" := JArr (JObj choice :: choices)]> body
          | _ => body
          end
      | _ => body
      end
  | _ => body
  end.

#[global] Instance chat_loop : toolLoopAdapter chatLoopAdapter := {|
  turn := option object;
  upstreamPath := "/v1/chat/completions";
  buildInitialRequest a :=
    reqBody ← buildChatUpstreamRequest (c_body a) (c_tools a) (c_prompt a);
    Some (a, <["stream" := JBool false]> reqBody);
  preIteration := chat_preIteration;
  onUpstreamResponse a body :=
    let '(message, toolCalls) := parseChatToolCalls e_jsonBytesValid e_unmarshal_object body in
    let '(routerToolCalls, clientToolCalls) := splitToolCalls (c_ownedTools a) toolCalls in
    (routerToolCalls, negb (bool_decide (length clientToolCalls = 0%nat)), message);
  rewriteArguments a f message := rewrite_message (c_ownedTools a) f <$> message;
  applyToolOutputs a reqBody message outputs := Some (a, chat_applyToolOutputs reqBody message outputs);
  stripRouterToolCallsFromResponse a := chat_strip (c_ownedTools a);
  forcedFinalRequest := forcedFinalChatRequest e_float_literal;
  usage_map := chatUsageMap;
  attachCitations a body state log webSearch :=
    (attachChatOutput e_Marshal e_uuid e_Parse e_Query e_Encode e_Print e_ToLowerText body state log webSearch 0).1;
  options := c_opts;
  tool_schemas := c_schemas
|}.

(** *** Responses *)

Record responsesLoopAdapter := MkResponses {
  r_body : object;
  r_prompt : list PromptMessage;
  r_tools : list Tool;
  r_ownedTools : gset string;
  base : object;
  accumulatedInput : list json;
  r_opts : webSearchOptions;
  r_schemas : gmap string Schema
}.

Definition with_input (a : responsesLoopAdapter) (b : object) (input : list json) : responsesLoopAdapter :=
  MkResponses (r_body a) (r_prompt a) (r_tools a) (r_ownedTools a) b input (r_opts a) (r_schemas a).

Definition buildResponsesUpstreamRequest (body : object) (ts : list Tool) (prompt : list PromptMessage) : option object :=
  b ← cloneJSONMap e_float_literal body;
  let b := foldl (fun b k => delete k b) b ["pii_check_options"; "prompt_injection_check_options"] in
  let b := applyParallelToolCallsPolicy (stripRouterOwnedIncludes b) in
  let b := <["tools" := JArr (replaceRouterOwnedResponsesTools (get "tools" b) (responseTools ts))]> b in
  Some (<["input" := stripClientSyntheticResponseItems (JArr (prependResponsesPrompt e_now prompt (get "input" b)))]> b).

(** An item that is a call. *)
Definition is_call_item (item : object) : bool := bool_decide (get_string "type" item ∈ ["function_call"; "mcp_call"]).

Definition rewrite_item (owned : gset string) (f : string -> object -> object) (raw : json) : json :=
  match raw with
  | JObj item =>
      match get "arguments" item with
      | JObj args =>
          if is_call_item item && bool_decide (get_string "name" item ∈ owned)
          then JObj (<["arguments" := JObj (f (get_string "name" item) args)]> item) else raw
      | _ => raw
      end
  | _ => raw
  end.

Definition output_item (o : toolOutput) : json :=
  JObj {["type" := JStr "function_call_output"; "call_id" := JStr (o_callID o); "output" := JStr (o_output o)]}.

(** A raw item kept for the client. *)
Definition client_item (owned : gset string) (raw : json) : bool :=
  match raw with
  | JObj item => negb (is_call_item item && bool_decide (get_string "name" item ∈ owned))
  | _ => true
  end.

Definition responses_strip (owned : gset string) (body : object) : object :=
  match get "output" body with
  | JArr ((_ :: _) as outputItems) => <["output" := JArr (List.filter (client_item owned) outputItems)]> body
  | _ => body
  end.

#[global] Instance responses_loop : toolLoopAdapter responsesLoopAdapter := {|
  turn := list json;
  upstreamPath := "/v1/responses";
  buildInitialRequest a :=
    b ← buildResponsesUpstreamRequest (r_body a) (r_tools a) (r_prompt a);
    let b := delete "stream_options" (<["stream" := JBool false]> b) in
    Some (with_input a b (default [] (as_array (get "input" b))), b);
  preIteration reqBody := reqBody;
  onUpstreamResponse a body :=
    let '(routerToolCalls, clientToolCalls) := splitToolCalls (r_ownedTools a) (parseResponsesToolCalls e_jsonBytesValid e_unmarshal_object body) in
    (routerToolCalls, negb (bool_decide (length clientToolCalls = 0%nat)), default [] (as_array (get "output" body)));
  rewriteArguments a f items := map (rewrite_item (r_ownedTools a) f) items;
  applyToolOutputs a _ outputItems outputs :=
    let input := accumulatedInput a ++ normalizeResponsesOutputItems outputItems ++ map output_item outputs in
    reqBody ← cloneJSONMap e_float_literal (base a);
    Some (with_input a (base a) input, <["input" := JArr input]> reqBody);
  stripRouterToolCallsFromResponse a := responses_strip (r_ownedTools a);
  forcedFinalRequest := forcedFinalResponsesRequest e_float_literal;
  usage_map := responsesUsageMap;
  attachCitations a body state log _ :=
    (attachResponsesOutput e_uuid e_Parse e_Query e_Encode e_Print e_ToLowerText body state log (includeActionSources (r_opts a)) 0).1;
  options := r_opts;
  tool_schemas := r_schemas
|}.
End Surfaces.

Section Constructors.
Context {E : Env}.

Definition toolSchemas (ts : list Tool) : gmap string Schema :=
  schemaLookup e_parseInputSchema (map (fun t => Some (t_Name t, t_InputSchema t)) ts).

Definition newChatLoopAdapter (body : object) (prompt : list PromptMessage) (ts : list Tool) (owned : gset string)
    (routerOpts : option RouterOptions) : chatLoopAdapter :=
  MkChat body prompt ts owned
    (parseChatWebSearchOptions e_ToLower e_ToUpper e_ParseFloat e_int_out_of_range e_parse_day e_parse_rfc3339 e_format_rfc3339 routerOpts body)
    (toolSchemas ts).

Definition newResponsesLoopAdapter (body : object) (prompt : list PromptMessage) (ts : list Tool) (owned : gset string)
    (routerOpts : option RouterOptions) : responsesLoopAdapter :=
  MkResponses body prompt ts owned ∅ []
    (parseResponsesWebSearchOptions e_ToLower e_ToUpper e_ParseFloat e_int_out_of_range e_parse_day e_parse_rfc3339 e_format_rfc3339 routerOpts body)
    (toolSchemas ts).
End Constructors.

(** ** The loop *)

Section Loop.
Context {E : Env} {A : Type} `{toolLoopAdapter A}.
Context (registry : sessionRegistry) (webSearch : bool).

Record loop_state := MkLoop {
  l_adapter : A;
  l_reqBody : object;
  l_usage : usageAccumulator;
  l_cite : State;
  l_log : toolCallLog;
  l_headers : option header;
  l_trace : list action
}.

(** How a run ends: with a response for the client, with an error and the usage
    to bill, or in a panic (a write to a nil map). *)
Inductive ending :=
  | Answered (response : upstreamJSONResponse)
  | Failed (partial : option upstreamJSONResponse) (err : failure)
  | Panicked.

Definition is_post (x : action) : bool := match x with Posted _ _ _ => true | _ => false end.
Definition posts (trace : list action) : nat := length (List.filter is_post trace).
Definition tool_calls (trace : list action) : nat := length (List.filter (fun x => negb (is_post x)) trace).

Definition completedUsageResponse (st : loop_state) : option upstreamJSONResponse :=
  match Accumulated (l_usage st) with
  | None => None
  | Some usage => Some (MkResponse (applyUsage (Some ∅) (Some usage)) (l_headers st) 0)
  end.

Definition post (st : loop_state) (body : object) : (failure + upstreamJSONResponse) * loop_state :=
  let result := postJSON (posts (l_trace st)) upstreamPath body in
  (result, MkLoop (l_adapter st) body (l_usage st) (l_cite st) (l_log st) (l_headers st) (l_trace st ++ [Posted upstreamPath body result])).

Definition received (st : loop_state) (response : upstreamJSONResponse) : loop_state :=
  MkLoop (l_adapter st) (l_reqBody st) (Add (l_usage st) (u_body response)) (l_cite st) (l_log st) (u_header response) (l_trace st).

(** The outputs of a turn's router calls, executed one after the other. *)
Fixpoint run_calls (calls : list toolCall) (st : loop_state) : loop_state * list toolOutput :=
  match calls with
  | [] => (st, [])
  | call :: calls =>
      let '(output, cite, record, acts) :=
        executeRouterToolCall (tool_calls (l_trace st)) registry call (options (l_adapter st)) (tool_schemas (l_adapter st)) (l_cite st) in
      let st := MkLoop (l_adapter st) (l_reqBody st) (l_usage st) cite (l_log st ++ [record]) (l_headers st) (l_trace st ++ acts) in
      let '(st, outputs) := run_calls calls st in
      (st, MkOutput (id call) (name call) output :: outputs)
  end.

Definition finalize (response : upstreamJSONResponse) (st : loop_state) : ending :=
  let body := applyUsage (u_body response) (Accumulated (l_usage st)) in
  Answered (MkResponse ((fun b => attachCitations (l_adapter st) b (l_cite st) (l_log st) webSearch) <$> body)
             (u_header response) (u_status response)).

(** One turn: the run ends, or goes on. *)
Definition iteration (st : loop_state) : (ending * loop_state) + loop_state :=
  let reqBody := preIteration (l_reqBody st) in
  let '(result, st) := post st reqBody in
  match result with
  | inl err => inl (Failed (completedUsageResponse st) err, st)
  | inr response =>
      let st := received st response in
      let '(routerToolCalls, hasClientToolCalls, state) := onUpstreamResponse (l_adapter st) (default ∅ (u_body response)) in
      match routerToolCalls with
      | [] => inl (finalize response st, st)
      | _ =>
          let '(st, outputs) := run_calls routerToolCalls st in
          let state := rewriteArguments (l_adapter st)
            (fun n args => default args (prepare (options (l_adapter st)) (tool_schemas (l_adapter st)) n (Some args))) state in
          if hasClientToolCalls : bool then
            let response := MkResponse (stripRouterToolCallsFromResponse (l_adapter st) <$> u_body response) (u_header response) (u_status response) in
            inl (finalize response st, st)
          else
            match applyToolOutputs (l_adapter st) (l_reqBody st) state outputs with
            | None => inl (Panicked, st)
            | Some (a, reqBody) => inr (MkLoop a reqBody (l_usage st) (l_cite st) (l_log st) (l_headers st) (l_trace st))
            end
      end
  end.

Definition forced_final (st : loop_state) : ending * loop_state :=
  match forcedFinalRequest (l_reqBody st) with
  | None => (Panicked, st)
  | Some body =>
      let '(result, st) := post st body in
      match result with
      | inl err => (Failed (completedUsageResponse st) err, st)
      | inr response => let st := received st response in (finalize response st, st)
      end
  end.

(** At most [budget] more turns, then the forced final one. *)
Fixpoint iterate (budget : nat) (st : loop_state) : ending * loop_state :=
  match budget with
  | O => forced_final st
  | S budget => match iteration st with inl r => r | inr st => iterate budget st end
  end.

Definition start (harmony : bool) (adapter : A) (reqBody : object) : loop_state :=
  MkLoop adapter reqBody zeroAccumulator (MkState 1 [] harmony) [] None [].

Definition runToolLoop (harmony : bool) (adapter : A) : ending * loop_state :=
  match buildInitialRequest adapter with
  | None => (Panicked, start harmony adapter ∅)
  | Some (adapter, reqBody) => iterate maxToolIterations (start harmony adapter reqBody)
  end.
End Loop.

(** The fee report of a finished run, from its log and the published prices. *)
Definition webSearchUsage (web_search_pricing pii_filter_pricing : option ModelPricing) (log : toolCallLog) : WebSearchUsage :=
  let piiCalls := piiFilterCalls log in
  MkWebSearch (webSearchCalls log) web_search_pricing
    (if piiCalls >? 0 then [MkService piiCalls pii_filter_pricing] else [])
    (existsb (fun r => unknown (Events.piiBilling r)) log).
