(* ===== verification/ToolLoopSpec.v ===== *)
(** * What the tool loop guarantees

    The laws a surface owes the loop, with the proofs that both surfaces keep
    them; then the loop's theorems, proved against the laws alone: its bound,
    its usage accounting, and what it may ask the tool servers. *)

From Stdlib Require Import Ascii.
From S2P Require Import Prelude Float64 Sha256 CacheSalt Json TokenCount Coerce Quirks Utf8 Citations Annotations WebSearch Session Events Prompt ToolLoop.
#[local] Open Scope string_scope.
#[local] Open Scope list_scope.
#[local] Open Scope Z_scope.

(** ** The laws *)

(** What an observer reads off the bodies of a surface: the tool calls of an
    answer, the transcript of a request, and the entries a turn adds to it. *)
Class SurfaceView {E : Env} (A : Type) := {
  ownedTools : A -> gset string;
  calls_of : object -> list toolCall;
  transcript : object -> list json;
  repair : list json -> list json;
  answer_entries : gset string -> (string -> object -> object) -> object -> list json;
  output_entry : toolOutput -> json;
  (** the adapter and the request agree on the transcript *)
  in_step : A -> object -> Prop
}.

Class LawfulSurface {E : Env} (A : Type) `{toolLoopAdapter A} `{!SurfaceView A} : Prop := {
  (** options, schemas and tools are fixed when the adapter is made *)
  initial_options a a' b : buildInitialRequest a = Some (a', b) ->
    (options a' = options a /\ tool_schemas a' = tool_schemas a /\ ownedTools a' = ownedTools a) /\ in_step a' b;
  outputs_options a b t outs a' b' : applyToolOutputs a b t outs = Some (a', b') ->
    options a' = options a /\ tool_schemas a' = tool_schemas a /\ ownedTools a' = ownedTools a;
  (** an answer's calls are the router's or the client's *)
  upstream_calls a body calls client t : onUpstreamResponse a body = (calls, client, t) ->
    calls = (splitToolCalls (ownedTools a) (calls_of body)).1
    /\ client = negb (bool_decide (length (splitToolCalls (ownedTools a) (calls_of body)).2 = 0%nat));
  (** stripping removes the router's calls and no others *)
  strip_calls a body : "" ∉ ownedTools a ->
    calls_of (stripRouterToolCallsFromResponse a body) = (splitToolCalls (ownedTools a) (calls_of body)).2;
  (** a turn appends the answer and the outputs to the transcript *)
  pre_transcript b : transcript (preIteration b) = repair (transcript b);
  next_transcript a b body calls client t f outs a' b' : in_step a b -> onUpstreamResponse a body = (calls, client, t) -> calls <> [] ->
    applyToolOutputs a (preIteration b) (rewriteArguments a f t) outs = Some (a', b') ->
    in_step a' b' /\ transcript b' = transcript (preIteration b) ++ answer_entries (ownedTools a) f body ++ map output_entry outs;
  (** the final request leaves nothing to call *)
  final_no_tools b b' : forcedFinalRequest b = Some b' -> b' !! "tools" = None /\ b' !! "tool_choice" = None;
  (** the last pass leaves the usage and the calls alone *)
  attach_usage a b cite log ws : get "usage" (attachCitations a b cite log ws) = get "usage" b;
  usage_calls b v : calls_of (<["usage" := v]> b) = calls_of b;
  attach_calls a b cite log ws : calls_of (attachCitations a b cite log ws) = calls_of b;
  (** a request cannot be built only if a copy cannot be made *)
  initial_clones a : buildInitialRequest a = None -> exists m, cloneJSONMap e_float_literal m = None;
  outputs_clone a b t outs : applyToolOutputs a b t outs = None -> exists m, cloneJSONMap e_float_literal m = None;
  final_clones b : forcedFinalRequest b = None -> exists m, cloneJSONMap e_float_literal m = None
}.

Section Instances.
Context {E : Env}.

Lemma attachChatOutput_other Marshal uuid Parse Query Encode Print ToLower body state log ws n k : k <> "choices" ->
  get k (attachChatOutput Marshal uuid Parse Query Encode Print ToLower body state log ws n).1 = get k body.
Proof.
  intros Hk. unfold attachChatOutput. destruct (get "choices" body); try done.
  destruct (attach_choices _ _ _ _ _ _ _ _ _ _ _) as [cs m]. cbn [fst]. by rewrite get_insert_ne.
Qed.

Lemma attachResponsesOutput_other uuid Parse Query Encode Print ToLower body state log inc n k : k <> "output" ->
  get k (attachResponsesOutput uuid Parse Query Encode Print ToLower body state log inc n).1 = get k body.
Proof.
  intros Hk. unfold attachResponsesOutput. destruct (buildWebSearchCallOutputItems _ _ _ _) as [ws m].
  assert (forall b l, get k (match get "output" body with JArr _ => <["output" := JArr l]> b | _ => b end) = get k b) as Hb.
  { intros b l. destruct (get "output" body); try done. by rewrite get_insert_ne. }
  destruct ws; cbn [fst]; rewrite ?get_insert_ne by done; apply Hb.
Qed.

#[global] Instance chat_view : SurfaceView chatLoopAdapter := {|
  ownedTools := c_ownedTools;
  calls_of body := (parseChatToolCalls e_jsonBytesValid e_unmarshal_object body).2;
  transcript b := default [] (as_array (get "messages" b));
  repair messages := (sanitizeAssistantToolCallsInMessages e_jsonBytesValid messages).1;
  answer_entries owned f body :=
    match (parseChatToolCalls e_jsonBytesValid e_unmarshal_object body).1 with
    | Some message => [JObj (rewrite_message owned f message)]
    | None => []
    end;
  output_entry := tool_message;
  in_step _ _ := True
|}.

#[global] Instance responses_view : SurfaceView responsesLoopAdapter := {|
  ownedTools := r_ownedTools;
  calls_of := parseResponsesToolCalls e_jsonBytesValid e_unmarshal_object;
  transcript b := default [] (as_array (get "input" b));
  repair items := items;
  answer_entries owned f body := normalizeResponsesOutputItems (map (rewrite_item owned f) (default [] (as_array (get "output" body))));
  output_entry := output_item;
  in_step a b := accumulatedInput a = default [] (as_array (get "input" b))
|}.

Lemma tool_object_obj m : tool_object (JObj m) = m.
Proof. done. Qed.

Lemma array_of l : default [] (as_array (JArr l)) = l.
Proof. done. Qed.

(** *** Chat *)

Lemma chat_pre_transcript b :
  default [] (as_array (get "messages" (chat_preIteration b))) =
  (sanitizeAssistantToolCallsInMessages e_jsonBytesValid (default [] (as_array (get "messages" b)))).1.
Proof.
  unfold chat_preIteration. destruct (get "messages" b) as [| | | | | |l|] eqn:Eb; rewrite ?Eb; try done. by rewrite get_insert.
Qed.

(** The calls of a message, as they are read. *)
Definition read_chat_call (rawCall : json) : toolCall :=
  let callMap := tool_object rawCall in
  let functionMap := tool_object (get "function" callMap) in
  MkCall (get_string "id" callMap) (get_string "name" functionMap) (parseArguments e_jsonBytesValid e_unmarshal_object (get "arguments" functionMap)).

Definition message_calls (message : object) : list toolCall := map read_chat_call (default [] (as_array (get "tool_calls" message))).

Lemma parse_chat_message body choice choices message : get "choices" body = JArr (choice :: choices) ->
  get "message" (tool_object choice) = JObj message ->
  parseChatToolCalls e_jsonBytesValid e_unmarshal_object body = (Some message, message_calls message).
Proof. intros Hc Hm. unfold parseChatToolCalls. by rewrite Hc, Hm. Qed.

Lemma filter_client_calls owned raws : "" ∉ owned ->
  map read_chat_call (List.filter (client_call owned) raws) =
  List.filter (fun c => negb (bool_decide (name c ∈ owned))) (map read_chat_call raws).
Proof.
  intros He. induction raws as [|raw raws IH]; [done|]. cbn [map List.filter].
  assert (client_call owned raw = negb (bool_decide (name (read_chat_call raw) ∈ owned))) as ->.
  { destruct raw; cbn [client_call read_chat_call name tool_object]; try done; by rewrite bool_decide_false. }
  destruct (negb _); cbn [map]; by rewrite IH.
Qed.

Lemma chat_strip_calls owned body : "" ∉ owned ->
  (parseChatToolCalls e_jsonBytesValid e_unmarshal_object (chat_strip owned body)).2
  = (splitToolCalls owned (parseChatToolCalls e_jsonBytesValid e_unmarshal_object body).2).2.
Proof.
  intros He. unfold chat_strip. destruct (get "choices" body) as [| | | | | |[|choice choices]|] eqn:Ec;
    try (by unfold parseChatToolCalls; rewrite Ec).
  destruct choice as [| | | | | | |choice]; try (by unfold parseChatToolCalls; rewrite Ec).
  destruct (get "message" choice) as [| | | | | | |message] eqn:Em; try (by unfold parseChatToolCalls; rewrite Ec; rewrite tool_object_obj, Em).
  rewrite (parse_chat_message body (JObj choice) choices message Ec Em). unfold message_calls at 1.
  destruct (get "tool_calls" message) as [| | | | | |[|raw raws]|] eqn:Et;
    try (rewrite (parse_chat_message body (JObj choice) choices message Ec Em); unfold message_calls; by rewrite Et).
  erewrite parse_chat_message; [|by rewrite get_insert|rewrite tool_object_obj; rewrite get_insert_ne by done; by rewrite get_insert].
  cbn [snd]. unfold message_calls. destruct (List.filter (client_call owned) (raw :: raws)) as [|kept0 kept] eqn:Ef.
  - unfold get at 1. rewrite lookup_delete_eq. cbn [default as_array map as_array from_option].
    pose proof (filter_client_calls owned (raw :: raws) He) as Hf. rewrite Ef in Hf. exact Hf.
  - rewrite get_insert, <- Ef. by apply (filter_client_calls owned (raw :: raws)).
Qed.

Lemma attach_message_calls Marshal uuid Parse Query Encode Print ToLower state log ws message n :
  message_calls (attach_message Marshal uuid Parse Query Encode Print ToLower state log ws message n).1 = message_calls message.
Proof.
  unfold attach_message, message_calls.
  destruct (if ws then _ else _) as [prefix m]. destruct prefix as [|c prefix]; cbn [fst].
  all: match goal with |- context [match ?x with [] => _ | _ => _ end] => destruct x end; by rewrite ?get_insert_ne by done.
Qed.

Lemma attach_chat_calls Marshal uuid Parse Query Encode Print ToLower body state log ws n :
  (parseChatToolCalls e_jsonBytesValid e_unmarshal_object (attachChatOutput Marshal uuid Parse Query Encode Print ToLower body state log ws n).1).2
  = (parseChatToolCalls e_jsonBytesValid e_unmarshal_object body).2.
Proof.
  unfold attachChatOutput. destruct (get "choices" body) as [| | | | | |[|choice choices]|] eqn:Ec; try done.
  { cbn. unfold parseChatToolCalls. by rewrite get_insert, Ec. }
  cbn [attach_choices]. destruct choice as [| | | | | | |choice].
  8:{ destruct (get "message" choice) as [| | | | | | |message] eqn:Em.
      8:{ pose proof (attach_message_calls Marshal uuid Parse Query Encode Print ToLower state log ws message n) as Hm.
          destruct (attach_message _ _ _ _ _ _ _ _ _ _ _ _) as [message' n']. destruct (attach_choices _ _ _ _ _ _ _ _ _ _ _ _) as [cs n2].
          cbn [fst]. erewrite parse_chat_message; [|by rewrite get_insert|rewrite tool_object_obj; by rewrite get_insert].
          by rewrite (parse_chat_message body (JObj choice) choices message Ec Em). }
      all: destruct (attach_choices _ _ _ _ _ _ _ _ _ _ _ _) as [cs n2]; cbn [fst];
        unfold parseChatToolCalls; rewrite get_insert, Ec; rewrite ?tool_object_obj; by rewrite Em. }
  all: destruct (attach_choices _ _ _ _ _ _ _ _ _ _ _ _) as [cs n2]; cbn [fst];
    unfold parseChatToolCalls; by rewrite get_insert, Ec.
Qed.

#[global] Instance chat_lawful : LawfulSurface chatLoopAdapter.
Proof.
  split.
  - intros a a' b. cbn. destruct (buildChatUpstreamRequest _ _ _); [|done]. cbn. by intros [= <- <-].
  - intros a b t outs a' b'. cbn. by intros [= <- <-].
  - intros a body calls client t. cbn. destruct (parseChatToolCalls _ _ body) as [message calls0]. cbn. by intros [= <- <- <-].
  - intros a body He. cbn. by apply chat_strip_calls.
  - intros b. apply chat_pre_transcript.
  - intros a b body calls client t f outs a' b' _ Hu Hne. cbn in *.
    destruct (parseChatToolCalls _ _ body) as [[message|] calls0] eqn:Ep; injection Hu as <- <- <-; intros [= <- <-].
    + split; [done|]. unfold chat_applyToolOutputs. rewrite get_insert. cbn. by rewrite <- app_assoc.
    + destruct Hne. unfold parseChatToolCalls in Ep. by repeat case_in Ep.
  - intros b b'. cbn. unfold forcedFinalChatRequest. destruct (cloneJSONMap _ _) as [m|]; [|done]. cbn [mbind option_bind]. intros [= <-].
    split; [by rewrite lookup_insert_ne, !lookup_delete_ne, lookup_delete_eq by done|].
    by rewrite lookup_insert_ne, lookup_delete_ne, lookup_delete_eq by done.
  - intros. cbn. by apply attachChatOutput_other.
  - intros b v. cbn. unfold parseChatToolCalls. by rewrite get_insert_ne.
  - intros. apply attach_chat_calls.
  - intros a. cbn. unfold buildChatUpstreamRequest. destruct (cloneJSONMap _ _) eqn:Ec; [done|]. by eexists.
  - done.
  - intros b. cbn. unfold forcedFinalChatRequest. destruct (cloneJSONMap _ _) eqn:Ec; [done|]. by eexists.
Qed.

(** *** Responses *)

(** The call an item stands for. *)
Definition item_call (item : json) : option toolCall :=
  let itemMap := tool_object item in
  if is_call_item itemMap then
    let callID := get_string "call_id" itemMap in
    Some (MkCall (if String.eqb callID "" then get_string "id" itemMap else callID) (get_string "name" itemMap)
      (parseArguments e_jsonBytesValid e_unmarshal_object (get "arguments" itemMap)))
  else None.

Lemma parse_items body : parseResponsesToolCalls e_jsonBytesValid e_unmarshal_object body = omap item_call (default [] (as_array (get "output" body))).
Proof. done. Qed.

Lemma filter_client_items owned items :
  omap item_call (List.filter (client_item owned) items) = List.filter (fun c => negb (bool_decide (name c ∈ owned))) (omap item_call items).
Proof.
  induction items as [|item items IH]; [done|]. cbn [List.filter omap list_omap].
  assert (client_item owned item = match item_call item with Some c => negb (bool_decide (name c ∈ owned)) | None => true end) as ->.
  { destruct item; cbn [client_item]; try done. unfold item_call. rewrite ?tool_object_obj. destruct (is_call_item _); done. }
  unfold omap in *. destruct (item_call item) as [c|] eqn:Ec; cbn [List.filter list_omap]; [|by rewrite Ec, IH].
  destruct (negb _); cbn [list_omap]; by rewrite ?Ec, IH.
Qed.

Lemma attach_item_call Parse Query Encode Print ToLower state item :
  item_call (attach_item Parse Query Encode Print ToLower state item) = item_call item.
Proof.
  destruct item as [| | | | | | |m]; try done. cbn [attach_item]. destruct (String.eqb_spec (get_string "type" m) "message") as [Ht|]; [|done].
  destruct (get "content" m); try done. unfold item_call, is_call_item. rewrite !tool_object_obj. unfold get_string in *.
  by rewrite get_insert_ne, Ht by done.
Qed.

Lemma web_search_item uuid inc record n : omap item_call (record_items uuid inc record n) = [].
Proof.
  unfold record_items. assert (forall i st ec action pii, item_call (JObj (webSearchCallEvent i st ec action pii)) = None) as Hn.
  { intros. unfold item_call, is_call_item, webSearchCallEvent, set_some, get_string. rewrite ?tool_object_obj.
    destruct (JObj <$> _); by rewrite ?get_insert_ne by done. }
  destruct (isRouterSearchToolName _); [cbn; by rewrite Hn|]. destruct (isRouterFetchToolName _); [|done].
  generalize (fetchArgumentURLs (rec_arguments record)) as us. intros us. revert n.
  induction us as [|u us IH]; intros n; [done|]. cbn [imap omap list_omap]. rewrite Hn.
  erewrite imap_ext; [apply (IH (S n))|]. intros i x _. cbn. by rewrite Nat.add_succ_r.
Qed.

Lemma web_search_items uuid inc log : forall n, omap item_call (buildWebSearchCallOutputItems uuid log inc n).1 = [].
Proof.
  induction log as [|record log IH]; intros n; [done|]. cbn [buildWebSearchCallOutputItems].
  specialize (IH (n + length (record_items uuid inc record n))%nat). destruct (buildWebSearchCallOutputItems _ _ _ _) as [rest m].
  cbn [fst] in *. by rewrite omap_app, web_search_item, IH.
Qed.

Lemma attached_items uuid Parse Query Encode Print ToLower body state log inc n :
  omap item_call (default [] (as_array (get "output" (attachResponsesOutput uuid Parse Query Encode Print ToLower body state log inc n).1)))
  = omap item_call (default [] (as_array (get "output" body))).
Proof.
  unfold attachResponsesOutput. pose proof (web_search_items uuid inc log n) as Hw. destruct (buildWebSearchCallOutputItems _ _ _ _) as [ws m].
  cbn [fst] in Hw.
  assert (forall l, omap item_call (map (attach_item Parse Query Encode Print ToLower state) l) = omap item_call l) as Hl.
  { induction l as [|x l IH]; [done|]. unfold omap in *. cbn [map list_omap]. by rewrite attach_item_call, IH. }
  destruct ws as [|w ws]; cbn [fst].
  - destruct (get "output" body) as [| | | | | |l|] eqn:Eo; rewrite ?Eo; try done. rewrite get_insert. apply Hl.
  - by rewrite get_insert, array_of, omap_app, Hw, Hl.
Qed.

#[global] Instance responses_lawful : LawfulSurface responsesLoopAdapter.
Proof.
  split.
  - intros a a' b. cbn. destruct (buildResponsesUpstreamRequest _ _ _) as [m|]; [|done]. cbn. intros [= <- <-]. split; done.
  - intros a b t outs a' b'. cbn. destruct (cloneJSONMap _ _); [|done]. cbn. by intros [= <- <-].
  - intros a body calls client t. cbn. by intros [= <- <- <-].
  - intros a body _. cbn. rewrite !parse_items. unfold responses_strip.
    destruct (get "output" body) as [| | | | | |[|item items]|] eqn:Eo; rewrite ?Eo; try done.
    rewrite get_insert. cbn [as_array default]. apply filter_client_items.
  - done.
  - intros a b body calls client t f outs a' b' Hs Hu Hne. cbn in *. injection Hu as <- <- <-.
    destruct (cloneJSONMap _ _) as [m|]; [|done]. cbn. intros [= <- <-]. cbn. rewrite get_insert. cbn. by rewrite Hs.
  - intros b b'. cbn. unfold forcedFinalResponsesRequest. destruct (cloneJSONMap _ _) as [m|]; [|done]. cbn [mbind option_bind]. intros [= <-].
    split; [by rewrite lookup_insert_ne, lookup_delete_ne, lookup_delete_eq by done|].
    by rewrite lookup_insert_ne, lookup_delete_eq by done.
  - intros. cbn. by apply attachResponsesOutput_other.
  - intros b v. cbn. rewrite !parse_items. by rewrite get_insert_ne.
  - intros. cbn. rewrite !parse_items. apply attached_items.
  - intros a. cbn. unfold buildResponsesUpstreamRequest. destruct (cloneJSONMap _ _) eqn:Ec; [done|]. by eexists.
  - intros a b t outs. cbn. destruct (cloneJSONMap _ _) eqn:Ec; [done|]. by eexists.
  - intros b. cbn. unfold forcedFinalResponsesRequest. destruct (cloneJSONMap _ _) eqn:Ec; [done|]. by eexists.
Qed.
End Instances.

(** ** One turn *)

Section Loop.
Context {E : Env} {A : Type} `{!toolLoopAdapter A} `{!SurfaceView A} `{!LawfulSurface A}.
Context (registry : sessionRegistry) (webSearch : bool).

Notation loop_state := (@loop_state A).

(** The tool request a call becomes, as [dispatch_call] makes it. *)
Definition dispatched (a : A) (x : action) : Prop :=
  exists call s tool args, x = CalledTool s tool args
    /\ dispatch_call e_ToLower e_ParseFloat e_FormatFloat e_int_out_of_range e_unmarshal_array e_unmarshal_object registry call (options a) (tool_schemas a)
       = Some (s, tool, args).

Lemma execute_actions n call a cite :
  let '(_, _, record, acts) := executeRouterToolCall n registry call (options a) (tool_schemas a) cite in
  Forall (dispatched a) acts /\ (length acts <= 1)%nat /\ rec_name record = name call
  /\ errorReason record ∈ [""; publicToolErrorReasonString].
Proof.
  unfold executeRouterToolCall. destruct (sessionFor registry (name call)) as [s|] eqn:Es.
  2:{ split; [constructor|]. split; [simpl; lia|]. split; [done|]. right. left. }
  destruct (callTool _ _ _ _) as [[output structured] err]. destruct (applyStructuredFormat _ _ _ _) as [cite' out].
  split; [|split; [simpl; lia|split; [done|destruct err; cbn; [right; left|left]]]].
  constructor; [|constructor]. eexists call, s, _, _. split; [reflexivity|]. unfold dispatch_call. by rewrite Es.
Qed.

(** What running calls leaves as it was, and what it adds. *)
Record ran (calls : list toolCall) (st st' : loop_state) (outputs : list toolOutput) : Prop := {
  ran_adapter : l_adapter st' = l_adapter st;
  ran_body : l_reqBody st' = l_reqBody st;
  ran_usage : l_usage st' = l_usage st;
  ran_headers : l_headers st' = l_headers st;
  ran_trace : exists acts, l_trace st' = l_trace st ++ acts /\ Forall (dispatched (l_adapter st)) acts /\ (length acts <= length calls)%nat;
  ran_log : exists records, l_log st' = l_log st ++ records /\ map rec_name records = map name calls
    /\ Forall (fun r => errorReason r ∈ [""; publicToolErrorReasonString]) records;
  ran_outputs : map (fun o => (o_callID o, o_name o)) outputs = map (fun c => (Session.id c, name c)) calls
}.

Lemma run_calls_ran calls : forall st st' outputs, run_calls registry calls st = (st', outputs) -> ran calls st st' outputs.
Proof.
  induction calls as [|call calls IH]; intros st st' outputs; cbn [run_calls].
  { intros [= <- <-]. split; try done; [exists []|exists []]; rewrite app_nil_r; by repeat split. }
  pose proof (execute_actions (tool_calls (l_trace st)) call (l_adapter st) (l_cite st)) as Hx.
  destruct (executeRouterToolCall _ _ _ _ _ _) as [[[output cite] record] acts]. destruct Hx as (Hd & Hl & Hn & He).
  destruct (run_calls _ _ _) as [st1 outs] eqn:E1. intros [= <- <-].
  destruct (IH _ _ _ E1) as [Ha Hb Hu Hh (acts2 & Ht & Hd2 & Hl2) (recs & Hr & Hnames & Hes) Ho]. cbn [l_adapter l_reqBody l_usage l_headers l_trace l_log] in *.
  split; [done|done|done|done| | |].
  - exists (acts ++ acts2). rewrite Ht, <- app_assoc. split; [done|]. split; [by apply Forall_app|]. rewrite length_app. simpl. lia.
  - exists (record :: recs). rewrite Hr, <- app_assoc. split; [done|]. split; [simpl; by rewrite Hn, Hnames|by constructor].
  - simpl. by rewrite Ho.
Qed.

(** ** The invariant of the loop *)

(** What the successful answers of a run cost, in order. *)
Definition spent (trace : list action) : usageAccumulator :=
  foldl (fun a x => match x with Posted _ _ (inr r) => Add a (u_body r) | _ => a end) zeroAccumulator trace.

Lemma spent_app t x : spent (t ++ [x]) = match x with Posted _ _ (inr r) => Add (spent t) (u_body r) | _ => spent t end.
Proof. unfold spent. by rewrite foldl_snoc. Qed.

Lemma dispatched_not_post a acts : Forall (dispatched a) acts -> Forall (fun x => is_post x = false) acts.
Proof. intros Ha. eapply Forall_impl; [exact Ha|]. by intros x (call & s & tool & args & -> & _). Qed.

Lemma spent_calls t acts : Forall (fun x => is_post x = false) acts -> spent (t ++ acts) = spent t.
Proof.
  intros Ha. unfold spent. rewrite foldl_app. induction Ha as [|x acts Hx _ IH]; [done|]. simpl. by destruct x.
Qed.

Lemma posts_app t1 t2 : posts (t1 ++ t2) = (posts t1 + posts t2)%nat.
Proof. unfold posts. by rewrite List.filter_app, length_app. Qed.

Lemma posts_calls acts : Forall (fun x => is_post x = false) acts -> posts acts = 0%nat.
Proof. unfold posts. induction 1 as [|x l Hx _ IH]; [done|]. simpl. by rewrite Hx. Qed.

Record loop_ok (a0 : A) (n : nat) (st : loop_state) : Prop := {
  ok_usage : l_usage st = spent (l_trace st);
  ok_posts : posts (l_trace st) = n;
  ok_options : options (l_adapter st) = options a0 /\ tool_schemas (l_adapter st) = tool_schemas a0 /\ ownedTools (l_adapter st) = ownedTools a0;
  ok_tools : Forall (fun x => is_post x = true \/ dispatched a0 x) (l_trace st);
  ok_errors : Forall (fun r => errorReason r ∈ [""; publicToolErrorReasonString]) (l_log st);
  ok_calls : (length (l_log st) >= length (l_trace st) - n)%nat
}.

Lemma dispatched_ext a a' x : options a = options a' -> tool_schemas a = tool_schemas a' -> dispatched a x -> dispatched a' x.
Proof. unfold dispatched. by intros -> ->. Qed.

Lemma post_ok a0 n st body result st1 : loop_ok a0 n st -> post st body = (result, st1) ->
  loop_ok a0 (S n) (match result with inr r => received st1 r | inl _ => st1 end)
  /\ l_trace (match result with inr r => received st1 r | inl _ => st1 end) = l_trace st ++ [Posted upstreamPath body result]
  /\ l_adapter (match result with inr r => received st1 r | inl _ => st1 end) = l_adapter st
  /\ l_reqBody (match result with inr r => received st1 r | inl _ => st1 end) = body.
Proof.
  intros [Hu Hp Ho Ht He Hl] Hpost. unfold post in Hpost. injection Hpost as <- <-.
  destruct (postJSON _ _ body) as [f|r] eqn:Ep; cbn [received l_trace l_adapter l_reqBody]; (split; [|done]).
  all: split; cbn [received l_trace l_usage l_adapter l_log];
    [rewrite spent_app, <- Hu; done|rewrite posts_app, Hp; change (posts [_]) with 1%nat; lia|done| |done|rewrite length_app; simpl; lia].
  all: apply Forall_app; split; [done|constructor; [by left|constructor]].
Qed.

Lemma ran_ok a0 n calls st st' outputs : loop_ok a0 n st -> ran calls st st' outputs -> loop_ok a0 n st'.
Proof.
  intros [Hu Hp Ho Ht He Hl] [Ha Hb Hus Hh (acts & Htr & Hd & Hlen) (recs & Hr & Hnames & Hes) Hout].
  pose proof (dispatched_not_post _ _ Hd) as Hnp. split.
  - by rewrite Hus, Htr, spent_calls.
  - rewrite Htr, posts_app, (posts_calls acts) by done. lia.
  - by rewrite Ha.
  - rewrite Htr. apply Forall_app. split; [done|]. eapply Forall_impl; [exact Hd|]. intros x Hx. right. by eapply dispatched_ext; [| |exact Hx]; apply Ho.
  - rewrite Hr. by apply Forall_app.
  - rewrite Hr, Htr, !length_app. apply (f_equal length) in Hnames. rewrite !length_map in Hnames. lia.
Qed.

(** How a finished run accounts for its usage. *)
Definition bills (e : ending) (trace : list action) : Prop :=
  match e with
  | Answered r => forall u b, Accumulated (spent trace) = Some u -> u_body r = Some b -> get "usage" b = JObj (usage_map u)
  | Failed partial _ =>
      match Accumulated (spent trace) with
      | None => partial = None
      | Some u => exists r, partial = Some r /\ get "usage" (default ∅ (u_body r)) = JObj (usage_map u)
      end
  | Panicked => True
  end.

Lemma finalize_bills response st : l_usage st = spent (l_trace st) -> bills (finalize webSearch response st) (l_trace st).
Proof.
  intros Hu u b Ha. rewrite <- Hu in Ha. cbn. rewrite Ha. destruct (u_body response) as [body|]; [|done]. cbn. intros [= <-].
  by rewrite attach_usage, get_insert.
Qed.

Lemma failed_bills st err : l_usage st = spent (l_trace st) -> bills (Failed (completedUsageResponse st) err) (l_trace st).
Proof.
  intros Hu. cbn. unfold completedUsageResponse. rewrite <- Hu. destruct (Accumulated (l_usage st)) as [u|]; [|done].
  eexists. split; [done|]. cbn. by rewrite get_insert.
Qed.

Lemma iteration_ok a0 n st : loop_ok a0 n st ->
  match iteration registry webSearch st with
  | inl (e, st') => loop_ok a0 (S n) st' /\ bills e (l_trace st')
      /\ (e = Panicked -> exists a b t outs, applyToolOutputs (A := A) a b t outs = None)
  | inr st' => loop_ok a0 (S n) st'
  end.
Proof.
  intros Hok. unfold iteration. destruct (post st (preIteration (l_reqBody st))) as [result st1] eqn:Ep.
  destruct (post_ok a0 n st _ _ _ Hok Ep) as (Hok1 & _). destruct result as [err|response].
  { split; [done|]. split; [by apply failed_bills, (ok_usage _ _ _ Hok1)|done]. }
  set (st2 := received st1 response) in *.
  destruct (onUpstreamResponse _ _) as [[routerCalls hasClient] t]. destruct routerCalls as [|call calls].
  { split; [done|]. split; [by apply finalize_bills, (ok_usage _ _ _ Hok1)|done]. }
  destruct (run_calls registry (call :: calls) st2) as [st3 outputs] eqn:Er.
  pose proof (ran_ok _ _ _ _ _ _ Hok1 (run_calls_ran _ _ _ _ Er)) as Hok3. destruct hasClient.
  { split; [done|]. split; [by apply finalize_bills, (ok_usage _ _ _ Hok3)|done]. }
  destruct (applyToolOutputs _ _ _ _) as [[a b]|] eqn:Ea.
  - destruct Hok3 as [Hu Hp Ho Ht He Hl]. split; try done. cbn [l_adapter]. apply outputs_options in Ea as (-> & -> & ->). done.
  - split; [done|]. split; [done|]. intros _. by eexists _, _, _, _.
Qed.

Lemma forced_final_ok a0 n st : loop_ok a0 n st ->
  let '(e, st') := forced_final webSearch st in
  bills e (l_trace st') /\ (e = Panicked -> exists b, forcedFinalRequest (A := A) b = None)
  /\ (e = Panicked /\ loop_ok a0 n st' \/ loop_ok a0 (S n) st'
      /\ exists p b r, last (l_trace st') = Some (Posted p b r) /\ b !! "tools" = None /\ b !! "tool_choice" = None).
Proof.
  intros Hok. unfold forced_final. destruct (forcedFinalRequest (l_reqBody st)) as [body|] eqn:Ef.
  2:{ split; [done|]. split; [by eexists|]. by left. }
  destruct (post st body) as [result st1] eqn:Ep. destruct (post_ok a0 n st _ _ _ Hok Ep) as (Hok1 & Htr & _).
  assert (forall tr, tr = l_trace st ++ [Posted upstreamPath body result] ->
    exists p b r, last tr = Some (Posted p b r) /\ b !! "tools" = None /\ b !! "tool_choice" = None) as Hlast.
  { intros tr ->. rewrite last_snoc. eexists _, _, _. split; [done|]. by apply final_no_tools in Ef. }
  destruct result as [err|response]; (split; [|split; [done|right; split; [done|by apply Hlast]]]).
  - by apply failed_bills, (ok_usage _ _ _ Hok1).
  - by apply finalize_bills, (ok_usage _ _ _ Hok1).
Qed.

Definition surface_fails : Prop :=
  (exists a, buildInitialRequest (A := A) a = None) \/ (exists a b t outs, applyToolOutputs (A := A) a b t outs = None)
  \/ (exists b, forcedFinalRequest (A := A) b = None).

Lemma surface_fails_clone : surface_fails -> exists m, cloneJSONMap e_float_literal m = None.
Proof.
  intros [[a Ha]|[(a & b & t & outs & Ha)|[b Hb]]]; [by eapply initial_clones|by eapply outputs_clone|by eapply final_clones].
Qed.

(** A run from a state after [n] requests, with [budget] turns left. *)
Record run_ok (a0 : A) (most : nat) (e : ending) (st : loop_state) : Prop := {
  run_bills : bills e (l_trace st);
  run_loop : exists m, loop_ok a0 m st /\ (m <= most)%nat
    /\ (m = most -> exists p b r, last (l_trace st) = Some (Posted p b r) /\ b !! "tools" = None /\ b !! "tool_choice" = None);
  run_panics : e = Panicked -> surface_fails
}.

Lemma iterate_ok a0 budget : forall n st e st', loop_ok a0 n st -> iterate registry webSearch budget st = (e, st') ->
  run_ok a0 (n + budget + 1) e st'.
Proof.
  induction budget as [|budget IH]; intros n st e st' Hok; cbn [iterate].
  - intros Hf. pose proof (forced_final_ok a0 n st Hok) as H. rewrite Hf in H. destruct H as (Hb & Hp & H).
    split; [done| |intros Hpe; right; right; by apply Hp].
    destruct H as [[-> Hok']|[Hok' Hlast]]; [exists n; split; [done|]; split; [lia|lia]|].
    exists (S n). split; [done|]. split; [lia|done].
  - pose proof (iteration_ok a0 n st Hok) as H. destruct (iteration _ _ st) as [[e1 st1]|st1].
    + intros [= <- <-]. destruct H as (Hok' & Hb & Hp). split; [done| |intros Hpe; right; left; by apply Hp].
      exists (S n). split; [done|]. split; [lia|lia].
    + intros Hit. replace (n + S budget + 1)%nat with (S n + budget + 1)%nat by lia. by eapply IH.
Qed.

Lemma start_ok harmony a a' b : options a' = options a /\ tool_schemas a' = tool_schemas a /\ ownedTools a' = ownedTools a -> loop_ok a 0 (start harmony a' b).
Proof. intros Ho. split; try done; try constructor. Qed.

Lemma runToolLoop_ok harmony a e st : runToolLoop registry webSearch harmony a = (e, st) -> run_ok a 11 e st.
Proof.
  unfold runToolLoop. destruct (buildInitialRequest a) as [[a' b]|] eqn:Eb.
  - apply initial_options in Eb as [Ho _]. intros H. apply (iterate_ok a maxToolIterations 0) in H; [done|].
    by apply start_ok.
  - intros [= <- <-]. split; [done| |intros _; left; by eexists].
    exists 0%nat. split; [by apply start_ok|]. split; [lia|lia].
Qed.

End Loop.
