(* ===== verification/ToolLoopRuns.v ===== *)
(** * Theorems about runs of the tool loop

    On top of the invariant of [ToolLoopSpec]: the bound on the turns, the usage
    a run is billed for, what a cache-only run may ask the tool servers, the
    transcript the model is shown, and the calls a client is shown.  Each is
    stated for any lawful surface, and the witnesses run the Chat and the
    Responses surface against small environments. *)

From Stdlib Require Import Ascii.
From S2P Require Import Prelude Float64 Sha256 CacheSalt Json TokenCount Coerce Quirks Utf8 Citations Annotations WebSearch Session Events Prompt ToolLoop ToolLoopSpec.
#[local] Open Scope string_scope.
#[local] Open Scope list_scope.
#[local] Open Scope Z_scope.

(** ** Exact accounting *)

Section Accounting.
Context {E : Env} {A : Type} `{!toolLoopAdapter A} `{!SurfaceView A} `{!LawfulSurface A}.

(** The usages the model reported over the run, turn by turn. *)
Definition turn_usages (trace : list action) : list Usage :=
  omap (fun x => match x with Posted _ _ (inr r) => usageFromRaw (get "usage" (default ∅ (u_body r))) | _ => None end) trace.

Definition cached_of (u : Usage) : Z := (CachedPromptTokens (Some u)).1.

(** The counts are counts, and their totals fit a machine integer. *)
Definition fits (us : list Usage) : Prop :=
  Forall (fun u => 0 <= PromptTokens u /\ 0 <= CompletionTokens u /\ 0 <= TotalTokens u) us
  /\ sum_by PromptTokens us + sum_by CompletionTokens us + sum_by TotalTokens us <= int64_max.

Definition total (us : list Usage) : Usage :=
  let details := if sum_by cached_of us >? 0 then Some (sum_by cached_of us) else None in
  MkUsage (sum_by PromptTokens us) (sum_by CompletionTokens us) (sum_by TotalTokens us) (sum_by PromptTokens us)
    (sum_by CompletionTokens us) details details.

Lemma cached_range u : 0 <= PromptTokens u -> 0 <= cached_of u <= PromptTokens u.
Proof. intros Hp. unfold cached_of, CachedPromptTokens. destruct (PromptTokensDetails u); simpl; lia. Qed.

Lemma sum_by_app {B} (f : B -> Z) l1 l2 : sum_by f (l1 ++ l2) = sum_by f l1 + sum_by f l2.
Proof. induction l1 as [|x l1 IH]; [done|]. unfold sum_by in *. simpl. rewrite IH. lia. Qed.

Lemma sum_by_one {B} (f : B -> Z) x : sum_by f [x] = f x.
Proof. unfold sum_by. simpl. lia. Qed.

Lemma usageFromRaw_total raw u : usageFromRaw raw = Some u -> 0 <= PromptTokens u -> 0 <= CompletionTokens u -> 0 <= TotalTokens u ->
  PromptTokens u + CompletionTokens u <= int64_max -> 0 < TotalTokens u.
Proof.
  unfold usageFromRaw. destruct (is_nil raw); [done|]. destruct (e_decode_usage raw) as [u0|]; [|done]. cbn [mbind option_bind].
  generalize (Normalize u0) as n. intros n. destruct (TotalTokens n =? 0) eqn:Et.
  - cbn [with_total PromptTokens CompletionTokens TotalTokens]. destruct (_ && _ && _) eqn:Ez; [done|]. intros [= <-].
    cbn [with_total PromptTokens CompletionTokens TotalTokens]. intros Hp Hc Ht Hb.
    assert (wrap64 (PromptTokens n + CompletionTokens n) = PromptTokens n + CompletionTokens n) as Hw
      by (apply wrap64_id; unfold in_int64, int64_min; lia).
    rewrite Hw in *.
    apply andb_false_iff in Ez as [[Ez|Ez]%andb_false_iff|Ez]; bool_simp; lia.
  - destruct (_ && _ && _) eqn:Ez; [done|]. intros [= <-] ? ? ? ?. bool_simp. lia.
Qed.

Lemma spent_exact trace : fits (turn_usages trace) ->
  let us := turn_usages trace in
  spent trace = MkAccumulator (sum_by PromptTokens us) (sum_by cached_of us) (sum_by CompletionTokens us) (sum_by TotalTokens us).
Proof.
  cbv zeta. induction trace as [|x trace IH] using rev_ind; [done|]. unfold turn_usages. rewrite omap_app.
  fold (turn_usages trace). rewrite spent_app. intros Hf.
  assert (fits (turn_usages trace)) as Hf0.
  { destruct Hf as [Hn Hs]. apply Forall_app in Hn as [Hn Hn2]. split; [done|]. rewrite !sum_by_app in Hs.
    rewrite Forall_forall in Hn2.
    pose proof (sum_by_nonneg PromptTokens _ (fun u Hu => proj1 (Hn2 u Hu))).
    pose proof (sum_by_nonneg CompletionTokens _ (fun u Hu => proj1 (proj2 (Hn2 u Hu)))).
    pose proof (sum_by_nonneg TotalTokens _ (fun u Hu => proj2 (proj2 (Hn2 u Hu)))). lia. }
  specialize (IH Hf0). rewrite IH. clear IH.
  destruct x as [p b [f|r]|s t args]; try (cbn [omap list_omap]; rewrite app_nil_r; done).
  cbn [omap list_omap] in *. unfold Add. destruct (usageFromRaw (get "usage" (default ∅ (u_body r)))) as [u|] eqn:Eu; [|by rewrite app_nil_r].
  destruct Hf as [Hn Hs], Hf0 as [Hn0 _]. apply Forall_app in Hn as [_ Hn]. inversion_clear Hn as [|? ? (Hp & Hc & Ht) _].
  rewrite !sum_by_app, !sum_by_one in *.
  rewrite Forall_forall in Hn0.
  pose proof (sum_by_nonneg PromptTokens _ (fun u Hu => proj1 (Hn0 u Hu))) as S1.
  pose proof (sum_by_nonneg CompletionTokens _ (fun u Hu => proj1 (proj2 (Hn0 u Hu)))) as S2.
  pose proof (sum_by_nonneg TotalTokens _ (fun u Hu => proj2 (proj2 (Hn0 u Hu)))) as S3.
  assert (0 <= sum_by cached_of (turn_usages trace) <= sum_by PromptTokens (turn_usages trace)) as S4.
  { clear - Hn0. induction (turn_usages trace) as [|v l IHl]; [done|]. unfold sum_by in *. cbn [foldr].
    pose proof (cached_range v (proj1 (Hn0 v ltac:(left)))). specialize (IHl ltac:(intros; apply Hn0; by right)). lia. }
  pose proof (cached_range u Hp) as Hcr.
  pose proof (usageFromRaw_total _ _ Eu Hp Hc Ht ltac:(lia)) as Hpos. rewrite (proj2 (Z.gtb_lt _ _)) by lia.
  cbn [promptTokens cachedPromptTokens completionTokens totalTokens].
  assert (forall v, 0 <= v <= int64_max -> wrap64 v = v) as Hw by (intros; apply wrap64_id; unfold in_int64, int64_min; lia).
  assert ((match CachedPromptTokens (Some u) with (cached, true) => wrap64 (sum_by cached_of (turn_usages trace) + cached) | (_, false) => sum_by cached_of (turn_usages trace) end)
    = sum_by cached_of (turn_usages trace) + cached_of u) as ->.
  { unfold cached_of in *. destruct (CachedPromptTokens (Some u)) as [c [|]] eqn:Ec; cbn [fst] in *; [by rewrite Hw by lia|].
    unfold CachedPromptTokens in Ec. destruct (PromptTokensDetails u); [done|]. injection Ec as <-. lia. }
  rewrite !Hw by lia. f_equal; lia.
Qed.

Lemma Accumulated_exact trace : fits (turn_usages trace) ->
  Accumulated (spent trace) = match turn_usages trace with [] => None | us => Some (total us) end.
Proof.
  intros Hf. rewrite spent_exact by done. destruct (turn_usages trace) as [|u us] eqn:Eu; [done|]. rewrite <- Eu in *.
  unfold Accumulated. cbn [promptTokens cachedPromptTokens completionTokens totalTokens].
  destruct Hf as [Hn Hs]. rewrite Forall_forall in Hn.
  pose proof (sum_by_nonneg PromptTokens _ (fun u Hu => proj1 (Hn u Hu))) as S1.
  pose proof (sum_by_nonneg CompletionTokens _ (fun u Hu => proj1 (proj2 (Hn u Hu)))) as S2.
  assert (0 < sum_by TotalTokens (turn_usages trace)) as Hpos.
  { rewrite Eu. assert (u ∈ turn_usages trace) as Hin by (rewrite Eu; left). destruct (Hn u Hin) as (Hp & Hc & Ht).
    unfold turn_usages in Hin. apply list_elem_of_omap in Hin as (x & _ & Hx). destruct x as [p b [f|r]|]; try done.
    assert (0 < TotalTokens u) as Hu.
    { eapply usageFromRaw_total; [exact Hx|done|done|done|]. rewrite Eu in *. unfold sum_by in Hs, S1, S2. cbn [foldr] in *.
      pose proof (sum_by_nonneg PromptTokens us (fun v Hv => proj1 (Hn v ltac:(by right)))) as T1.
      pose proof (sum_by_nonneg CompletionTokens us (fun v Hv => proj1 (proj2 (Hn v ltac:(by right))))) as T2.
      pose proof (sum_by_nonneg TotalTokens us (fun v Hv => proj2 (proj2 (Hn v ltac:(by right))))) as T3.
      unfold sum_by in T1, T2, T3. lia. }
    pose proof (sum_by_nonneg TotalTokens us (fun v Hv => proj2 (proj2 (Hn v ltac:(rewrite Eu; by right))))) as T3.
    unfold sum_by in *. cbn [foldr]. lia. }
  rewrite (proj2 (Z.eqb_neq (sum_by TotalTokens _) 0)) by lia. rewrite andb_false_r. rewrite Eu. done.
Qed.
End Accounting.

(** ** The transcript *)

Section Transcript.
Context {E : Env} {A : Type} `{!toolLoopAdapter A} `{!SurfaceView A} `{!LawfulSurface A}.
Context (registry : sessionRegistry) (webSearch : bool).

Notation loop_state := (@loop_state A).

(** The requests of a run, with their results. *)
Definition requests (trace : list action) : list (object * (failure + upstreamJSONResponse)) :=
  omap (fun x => match x with Posted _ b r => Some (b, r) | CalledTool _ _ _ => None end) trace.

(** The body [b] answers the calls of the request [x] before it: the answer had
    router calls only, and the transcript goes on with that answer and one
    output per call, in order. *)
Definition turn_follows (a : A) (x : object * (failure + upstreamJSONResponse)) (b : object) : Prop :=
  exists response outs f, x.2 = inr response
    /\ let body := default ∅ (u_body response) in
       calls_of (A := A) body <> [] /\ Forall (fun c => name c ∈ ownedTools a) (calls_of (A := A) body)
       /\ map o_callID outs = map Session.id (calls_of (A := A) body)
       /\ transcript (A := A) b
          = repair (A := A) (transcript (A := A) x.1 ++ answer_entries (A := A) (ownedTools a) f body ++ map (output_entry (A := A)) outs).

Lemma requests_app t1 t2 : requests (t1 ++ t2) = requests t1 ++ requests t2.
Proof. unfold requests. by rewrite omap_app. Qed.

Lemma requests_calls acts : Forall (fun x => is_post x = false) acts -> requests acts = [].
Proof. induction 1 as [|x acts Hx _ IH]; [done|]. destruct x; [done|]. exact IH. Qed.

Lemma requests_posts t : length (requests t) = posts t.
Proof. unfold posts. induction t as [|[p b r|s tool args] t IH]; [done| |done]. cbn. by rewrite <- IH. Qed.

Lemma split_all owned calls : (splitToolCalls owned calls).2 = [] ->
  (splitToolCalls owned calls).1 = calls /\ Forall (fun c => name c ∈ owned) calls.
Proof.
  cbn. induction calls as [|c calls IH]; [by repeat constructor|]. cbn [List.filter]. case_bool_decide as Hc; cbn [negb]; [|done].
  intros H. destruct (IH H) as [-> Hf]. split; [done|by constructor].
Qed.

Lemma ran_requests calls st st' outputs : ran registry calls st st' outputs -> requests (l_trace st') = requests (l_trace st).
Proof.
  intros [_ _ _ _ (acts & -> & Hd & _) _ _]. rewrite requests_app, (requests_calls acts), app_nil_r; [done|].
  by eapply dispatched_not_post.
Qed.

(** One turn adds one request, and a turn that goes on links to the next. *)
Lemma iteration_requests a0 st : in_step (l_adapter st) (l_reqBody st) -> ownedTools (l_adapter st) = ownedTools a0 ->
  match iteration registry webSearch st with
  | inl (_, st') => exists result, requests (l_trace st') = requests (l_trace st) ++ [(preIteration (A := A) (l_reqBody st), result)]
  | inr st' => exists result, requests (l_trace st') = requests (l_trace st) ++ [(preIteration (A := A) (l_reqBody st), result)]
      /\ turn_follows a0 (preIteration (A := A) (l_reqBody st), result) (preIteration (A := A) (l_reqBody st'))
      /\ in_step (l_adapter st') (l_reqBody st') /\ ownedTools (l_adapter st') = ownedTools a0
  end.
Proof.
  intros Hs Ho. unfold iteration, post. cbn [l_adapter l_reqBody l_trace].
  destruct (postJSON _ _ _) as [err|response]; [eexists; cbn [l_trace]; by rewrite requests_app|].
  unfold received at 1. cbn [l_adapter]. set (st2 := received _ response).
  destruct (onUpstreamResponse _ _) as [[calls client] t] eqn:Eu.
  assert (requests (l_trace st2) = requests (l_trace st) ++ [(preIteration (A := A) (l_reqBody st), inr response)]) as Hr2.
  { cbn [l_trace received st2]. by rewrite requests_app. }
  destruct calls as [|call calls]; [by eexists|]. destruct (run_calls registry (call :: calls) st2) as [st3 outputs] eqn:Er.
  apply run_calls_ran in Er. pose proof (ran_requests _ _ _ _ Er) as Hr3. destruct client; [eexists; by rewrite Hr3|].
  pose proof (ran_adapter _ _ _ _ _ Er) as Ha3. pose proof (ran_body _ _ _ _ _ Er) as Hb3. rewrite Ha3, Hb3.
  cbn [l_adapter l_reqBody received st2]. destruct (applyToolOutputs _ _ _ _) as [[a b]|] eqn:Ea; [|eexists; by rewrite Hr3].
  destruct (next_transcript _ _ _ _ _ _ _ _ _ _ Hs Eu ltac:(done) Ea) as [Hs' Htr].
  apply outputs_options in Ea as (_ & _ & Ho'). exists (inr response). cbn [l_trace l_adapter l_reqBody].
  split; [by rewrite Hr3|]. split; [|split; [done|by rewrite Ho']].
  destruct (upstream_calls _ _ _ _ _ Eu) as [Hc1 Hc2]. symmetry in Hc2. apply negb_false_iff, bool_decide_eq_true in Hc2.
  apply length_zero_iff_nil, split_all in Hc2 as [Hall Hown]. rewrite Hall in Hc1. rewrite Ho in Hown, Htr.
  eexists response, outputs, _. split; [done|]. cbn [fst]. rewrite <- Hc1. split; [done|]. split; [by rewrite Hc1|].
  split; [pose proof (f_equal (map fst) (ran_outputs _ _ _ _ _ Er)) as Hm; by rewrite !map_map in Hm|].
  by rewrite pre_transcript, Htr.
Qed.

(** The requests before the last turn's follow one another. *)
Definition chained (a : A) (limit : nat) (l : list (object * (failure + upstreamJSONResponse))) : Prop :=
  forall i x y, l !! i = Some x -> l !! S i = Some y -> (S i < limit)%nat -> turn_follows a x y.1.

Lemma chained_snoc a limit l y : chained a limit l -> (limit <= length l \/ forall x, last l = Some x -> turn_follows a x y.1)%nat ->
  chained a limit (l ++ [y]).
Proof.
  intros Hc Hl i x z Hx Hz Hi. destruct (decide (S i < length l)%nat) as [Hlt|Hge].
  - rewrite lookup_app_l in Hx, Hz by lia. by eapply Hc.
  - assert (S i = length l) as Hs by (apply lookup_lt_Some in Hz; rewrite length_app in Hz; simpl in Hz; lia).
    rewrite lookup_app_l in Hx by lia. rewrite Hs, list_lookup_middle in Hz by done. injection Hz as <-.
    destruct Hl as [Hl|Hl]; [lia|]. apply Hl. rewrite last_lookup, <- Hs. done.
Qed.

Lemma iterate_chained a0 limit budget : forall st e st', in_step (l_adapter st) (l_reqBody st) -> ownedTools (l_adapter st) = ownedTools a0 ->
  chained a0 limit (requests (l_trace st)) -> (limit <= length (requests (l_trace st)) + budget)%nat ->
  (forall x, last (requests (l_trace st)) = Some x -> turn_follows a0 x (preIteration (A := A) (l_reqBody st))) ->
  iterate registry webSearch budget st = (e, st') -> chained a0 limit (requests (l_trace st')).
Proof.
  induction budget as [|budget IH]; intros st e st' Hs Ho Hc Hn Hlast; cbn [iterate].
  - unfold forced_final. destruct (forcedFinalRequest (l_reqBody st)) as [b|]; [|by intros [= <- <-]].
    unfold post. destruct (postJSON _ _ _); intros [= <- <-]; cbn [received l_trace]; rewrite requests_app;
      apply chained_snoc; try done; left; lia.
  - pose proof (iteration_requests a0 st Hs Ho) as Hi. destruct (iteration _ _ st) as [[e1 st1]|st1].
    + destruct Hi as [result Hr]. intros [= <- <-]. rewrite Hr. apply chained_snoc; [done|]. by right.
    + destruct Hi as (result & Hr & Hf & Hs' & Ho'). apply IH; try done; rewrite Hr.
      * apply chained_snoc; [done|]. by right.
      * rewrite length_app. simpl. lia.
      * intros x. rewrite last_snoc. by intros [= <-].
Qed.


(** ** What the client is shown *)

Lemma finalize_calls response st r b : finalize webSearch response st = Answered r -> u_body r = Some b ->
  exists body, u_body response = Some body /\ calls_of (A := A) b = calls_of (A := A) body.
Proof.
  intros [= <-]. cbn [u_body]. destruct (u_body response) as [body|]; [|done]. cbn. intros Hb. exists body. split; [done|].
  destruct (Accumulated (l_usage st)) as [u|]; injection Hb as <-; by rewrite attach_calls, ?usage_calls.
Qed.

Lemma client_half owned calls : Forall (fun c => name c ∉ owned) (splitToolCalls owned calls).2.
Proof.
  cbn. induction calls as [|c calls IH]; [constructor|]. cbn [List.filter]. case_bool_decide; cbn [negb]; [done|by constructor].
Qed.

Lemma no_router_half owned calls : (splitToolCalls owned calls).1 = [] -> Forall (fun c => name c ∉ owned) calls.
Proof.
  cbn. induction calls as [|c calls IH]; [constructor|]. cbn [List.filter]. case_bool_decide; [done|]. intros Hf. constructor; auto.
Qed.

Lemma ended {B C D} (x x' : B) (y y' : C) : @inl _ D (x, y) = inl (x', y') -> x = x' /\ y = y'.
Proof. by intros [= -> ->]. Qed.

Lemma iteration_shown st r b st' : "" ∉ ownedTools (l_adapter st) ->
  iteration registry webSearch st = inl (Answered r, st') -> u_body r = Some b ->
  Forall (fun c => name c ∉ ownedTools (l_adapter st)) (calls_of (A := A) b).
Proof.
  intros He. unfold iteration, post. cbn [l_adapter].
  destruct (postJSON _ _ _) as [err|response]; [done|]. unfold received at 1. cbn [l_adapter]. set (st2 := received _ response).
  destruct (onUpstreamResponse _ _) as [[calls client] t] eqn:Eu. destruct (upstream_calls _ _ _ _ _ Eu) as [Hc1 _].
  destruct calls as [|call calls].
  - intros [Hf <-]%ended Hb. destruct (finalize_calls _ _ _ _ Hf Hb) as (body & Hbody & ->). rewrite Hbody in Hc1. by apply no_router_half.
  - destruct (run_calls registry (call :: calls) st2) as [st3 outputs] eqn:Er.
    apply run_calls_ran, ran_adapter in Er. destruct client; [|by destruct (applyToolOutputs _ _ _ _) as [[]|]].
    intros [Hf <-]%ended Hb. destruct (finalize_calls _ _ _ _ Hf Hb) as (body & Hbody & ->). cbn [u_body] in Hbody.
    destruct (u_body response) as [body0|]; [|done]. injection Hbody as <-. rewrite Er. cbn [l_adapter received st2].
    rewrite strip_calls by done. apply client_half.
Qed.

Lemma iterate_shown a0 budget : forall n st r b st', loop_ok registry a0 n st -> "" ∉ ownedTools a0 ->
  iterate registry webSearch budget st = (Answered r, st') -> u_body r = Some b ->
  (posts (l_trace st') <= n + budget)%nat -> Forall (fun c => name c ∉ ownedTools a0) (calls_of (A := A) b).
Proof.
  induction budget as [|budget IH]; intros n st r b st' Hok He; cbn [iterate].
  - intros Hf Hb Hn. pose proof (forced_final_ok registry webSearch a0 n st Hok) as H. rewrite Hf in H.
    destruct H as (_ & _ & [[? _]|[Hok' _]]); [done|]. rewrite (ok_posts _ _ _ _ Hok') in Hn. lia.
  - pose proof (iteration_ok registry webSearch a0 n st Hok) as H.
    pose proof (ok_options _ _ _ _ Hok) as (_ & _ & Ho). rewrite <- Ho in He.
    destruct (iteration _ _ st) as [[e1 st1]|st1] eqn:Ei.
    + intros [= -> <-] Hb _. rewrite <- Ho. by eapply iteration_shown.
    + intros Hit Hb Hn. eapply (IH (S n)); [exact H|by rewrite <- Ho|exact Hit|exact Hb|lia].
Qed.


(** ** The bound, the bill and the cache-only rule *)

(** The request that ends a spent budget: nothing left to call. *)
Definition final_request (x : action) : Prop := exists path b r, x = Posted path b r /\ b !! "tools" = None /\ b !! "tool_choice" = None.

(** C35: a run makes at most eleven model requests and the eleventh offers no tool;
    it ends in an answer or an error, and in a panic only over a number that
    JSON has no literal for (an infinity or a not-a-number). *)
Theorem tool_loop_bounded harmony a :
  let '(e, st) := runToolLoop registry webSearch harmony a in
  (posts (l_trace st) <= S maxToolIterations)%nat
  /\ (posts (l_trace st) = S maxToolIterations -> exists x, last (l_trace st) = Some x /\ final_request x)
  /\ (e = Panicked -> exists m, cloneJSONMap e_float_literal m = None).
Proof.
  destruct (runToolLoop _ _ _ _) as [e st] eqn:Er. destruct (runToolLoop_ok _ _ _ _ _ _ Er) as [_ (m & Hok & Hm & Hlast) Hp].
  rewrite (ok_posts _ _ _ _ Hok). split; [done|]. split.
  - intros Hmm. destruct (Hlast Hmm) as (p & b & r & Hl & Hb). eexists. split; [exact Hl|]. by exists p, b, r.
  - intros Hpe. by apply surface_fails_clone, Hp.
Qed.

(** C33: every turn is billed and none twice: an answered run reports the sum of the
    usages of all its model answers, the forced final one included, and a failed
    run hands the caller the sum of the turns that completed, or nothing when
    none reported usage. *)
Theorem usage_accounts_every_turn harmony a e st :
  runToolLoop registry webSearch harmony a = (e, st) -> fits (turn_usages (l_trace st)) ->
  let us := turn_usages (l_trace st) in
  (forall r b, e = Answered r -> u_body r = Some b -> us <> [] -> get "usage" b = JObj (usage_map (A := A) (total us)))
  /\ (forall partial err, e = Failed partial err ->
        (us = [] -> partial = None)
        /\ (us <> [] -> exists r, partial = Some r /\ get "usage" (default ∅ (u_body r)) = JObj (usage_map (A := A) (total us)))).
Proof.
  intros Hr Hf us. pose proof (run_bills _ _ _ _ _ (runToolLoop_ok _ _ _ _ _ _ Hr)) as Hb.
  pose proof (Accumulated_exact _ Hf) as Ha. fold us in Ha. split.
  - intros r b -> Hbody Hus. cbn in Hb. destruct us as [|u us']; [done|]. by eapply Hb.
  - intros partial err ->. cbn in Hb. rewrite Ha in Hb. split; [by intros ->|]. intros Hus. destruct us as [|u us']; [done|]. exact Hb.
Qed.

End Transcript.

(** ** Small environments

    The model's n-th answer is [answers n] (an error without one), sent as a
    body of n bytes; the tool servers answer with text; numbers have literals
    unless they are infinite. *)

Definition int_field (k : string) (m : object) : Z := match get k m with JInt n => n | _ => 0 end.

Definition toy_usage (raw : json) : option Usage :=
  match raw with
  | JObj m => Some (MkUsage (int_field "prompt_tokens" m) (int_field "completion_tokens" m) (int_field "total_tokens" m) 0 0
                      (match get "cached" m with JInt n => Some n | _ => None end) None)
  | _ => None
  end.

Definition toy_float_literal (f : float64) : option string := match f with S754_infinity _ | S754_nan => None | _ => Some "1" end.

Definition toy_env (answers : nat -> option object) : Env := {|
  e_ToLower s := s;
  e_ToUpper s := s;
  e_parse_day _ := None;
  e_parse_rfc3339 _ := None;
  e_format_rfc3339 _ := "";
  e_parseInputSchema _ := None;
  e_ParseFloat s := if String.eqb s "inf" then Some (S754_infinity false) else None;
  e_FormatFloat _ := "";
  e_int_out_of_range _ := 0;
  e_unmarshal_array _ := None;
  e_unmarshal_object _ := Some (Some ∅);
  e_unmarshal_body b := Some (answers (length b));
  e_jsonBytesValid b := bool_decide (b = to_bytes "{}");
  e_Quote s := s;
  e_Marshal _ := None;
  e_float_literal := toy_float_literal;
  e_decode_usage := toy_usage;
  e_uuid _ := "id";
  e_now := "now";
  e_Parse _ := None;
  e_Query _ := ∅;
  e_Encode _ := [];
  e_Print _ := [];
  e_ToLowerText t := t;
  e_DoModelRequestJSON n _ _ := match answers n with Some _ => inr (MkHTTP 200 ∅ (Some (replicate n (byte_of 0)))) | None => inl "down" end;
  e_CallTool _ _ _ _ := inr (MkToolResult false None [Some "found"])
|}.

Definition raw_call (i n : string) (args : json) : json :=
  JObj {["id" := JStr i; "function" := JObj {["name" := JStr n; "arguments" := args]}]}.

Definition chat_answer (message usage : object) : object :=
  {["choices" := JArr [JObj {["message" := JObj message]}]; "usage" := JObj usage]}.

Definition some_usage (p c t : Z) : object := {["prompt_tokens" := JInt p; "completion_tokens" := JInt c; "total_tokens" := JInt t]}.

Definition search_message (args : json) : object := {["role" := JStr "assistant"; "tool_calls" := JArr [raw_call "c1" "router_search" args]]}.

Definition owned_tools : gset string := {["router_search"; "summarize"]}.

Definition toy_chat (schemas : gmap string Schema) : chatLoopAdapter :=
  MkChat {["messages" := JArr [JObj {["role" := JStr "user"; "content" := JStr "hi"]}]]} [] [] owned_tools cache_only_options schemas.

(** The model searches, then makes a router and a client call, then is down. *)
Definition two_turns (n : nat) : option object :=
  match n with
  | 0%nat => Some (chat_answer (search_message (JObj {["query" := JStr "q"; "max_age_hours" := JInt 0]})) (some_usage 10 5 15))
  | 1%nat => Some (chat_answer {["content" := JStr "ok"; "tool_calls" := JArr [raw_call "c2" "summarize" JNull; raw_call "c3" "mine" JNull]]}
                     (some_usage 20 7 0))
  | _ => None
  end.

Definition one_turn (n : nat) : option object := match n with 0%nat => two_turns 0 | _ => None end.

Definition run_of (answers : nat -> option object) : ending * loop_state (A := chatLoopAdapter) :=
  let E := toy_env answers in runToolLoop cache_registry true false (toy_chat ∅).

Definition answer_of (e : ending) : object := match e with Answered r => default ∅ (u_body r) | _ => ∅ end.

(** Evaluating a test keeps the run itself out of the goals. *)
Lemma answered e : (match e with Answered r => match u_body r with Some _ => true | None => false end | _ => false end) = true ->
  exists r b, e = Answered r /\ u_body r = Some b /\ b = answer_of e.
Proof. destruct e as [r| |]; [|done..]. simpl. destruct (u_body r) as [b|] eqn:Hb; [|done]. intros _. by exists r, b. Qed.

Lemma present {B} (o : option B) : (match o with Some _ => true | None => false end) = true -> exists x, o = Some x.
Proof. destruct o; [by eexists|done]. Qed.

Lemma run_failed (e : ending) msg : (match e with Failed _ (OtherError m) => String.eqb m msg | _ => false end) = true ->
  exists p, e = Failed p (OtherError msg).
Proof. destruct e as [|p [|m]|]; try done. intros ->%String.eqb_eq. by eexists. Qed.


Lemma usage_accounts_every_turn_witness :
  get "usage" (answer_of (run_of two_turns).1) =
    JObj {["prompt_tokens" := JInt 30; "completion_tokens" := JInt 12; "total_tokens" := JInt 42]}
  /\ exists r, (run_of one_turn).1 = Failed (Some r) (OtherError "down")
       /\ get "usage" (default ∅ (u_body r)) = JObj {["prompt_tokens" := JInt 10; "completion_tokens" := JInt 5; "total_tokens" := JInt 15]}.
Proof.
  split.
  - assert (exists r b, (run_of two_turns).1 = Answered r /\ u_body r = Some b /\ b = answer_of (run_of two_turns).1) as (r & b & Hr & Hb & Heq)
      by (apply answered; vm_compute; reflexivity).
    rewrite <- Heq. pose (E := toy_env two_turns).
    assert (fits (turn_usages (l_trace (run_of two_turns).2))) as Hf.
    { split; [vm_compute; repeat constructor; discriminate|vm_compute; discriminate]. }
    refine (eq_trans (proj1 (usage_accounts_every_turn cache_registry true false (toy_chat ∅) _ _ (surjective_pairing (run_of two_turns)) Hf) r b Hr Hb _) _).
    + vm_compute. discriminate.
    + vm_compute. reflexivity.
  - pose (E := toy_env one_turn).
    assert (fits (turn_usages (l_trace (run_of one_turn).2))) as Hf.
    { split; [vm_compute; repeat constructor; discriminate|vm_compute; discriminate]. }
    assert (exists p, (run_of one_turn).1 = Failed p (OtherError "down")) as [p Hp] by (apply run_failed; vm_compute; reflexivity).
    destruct (proj2 (proj2 (usage_accounts_every_turn cache_registry true false (toy_chat ∅) _ _ (surjective_pairing (run_of one_turn)) Hf) p _ Hp)) as (r & -> & Hr).
    + vm_compute. discriminate.
    + exists r. split; [exact Hp|]. rewrite Hr. vm_compute. reflexivity.
Defined.


(** ** Two defects of the forced final turn *)

(** A model that searches on every turn; the tenth call's arguments are [last]. *)
Definition insistent (last : json) (n : nat) : option object :=
  Some (chat_answer (search_message (if (n =? 9)%nat then last else JObj ∅)) ∅).

Definition insistent_run (last : json) (schemas : gmap string Schema) : ending * loop_state (A := chatLoopAdapter) :=
  let E := toy_env (insistent last) in runToolLoop cache_registry true false (toy_chat schemas).

Definition histories_valid (last : json) : list bool :=
  map (fun x => forallb (message_ok only_empty) (default [] (as_array (get "messages" x.1))))
    (requests (l_trace (insistent_run last ∅).2)).

(** The forced final request skips the repair every other request goes through:
    arguments the tenth answer left malformed are replayed as they are. *)
Example forced_final_replays_malformed_call :
  histories_valid (JStr "oops") = replicate 10 true ++ [false].
Proof. vm_compute. reflexivity. Qed.

Definition number_schema : Schema := typed "object" {["score" := Some (typed "number" ∅ None None None)]} None None None.

(** A string that reads as an infinity, where the tool takes a number, becomes
    an infinity of the history, which the copy for the forced final request
    cannot encode: the copy is a nil map, and writing to it panics. *)
Example infinite_argument_panics :
  (insistent_run (JObj {["score" := JStr "inf"]}) {["router_search" := number_schema]}).1 = Panicked
  /\ posts (l_trace (insistent_run (JObj {["score" := JStr "inf"]}) {["router_search" := number_schema]}).2) = 10%nat.
Proof. vm_compute. split; reflexivity. Qed.


Lemma tool_loop_bounded_witness :
  posts (l_trace (insistent_run (JObj ∅) ∅).2) = 11%nat
  /\ exists x, last (l_trace (insistent_run (JObj ∅) ∅).2) = Some x /\ final_request x.
Proof.
  pose (E := toy_env (insistent (JObj ∅))).
  assert (posts (l_trace (insistent_run (JObj ∅) ∅).2) = 11%nat) as Hp by (vm_compute; reflexivity).
  split; [exact Hp|]. pose proof (tool_loop_bounded cache_registry true false (toy_chat ∅)) as H.
  change (runToolLoop cache_registry true false (toy_chat ∅)) with (insistent_run (JObj ∅) ∅) in H.
  destruct (insistent_run (JObj ∅) ∅) as [e st]. exact (proj1 (proj2 H) Hp).
Defined.
