(* ===== verification/Runtime.v ===== *)
(** * The tool runtime's edges ([toolruntime/runtime.go], [toolcontext/context.go])

    What a finished run of the tool loop becomes for the client and for billing:
    the usage header, the billing event, the JSON response or the normalized
    backend error, and the headers of an outbound tool session.

    A response written to the client is its header, status and body.  Encoding an
    error envelope is a parameter, as the rest of JSON is. *)

From Stdlib Require Import Ascii.
From S2P Require Import Prelude Float64 Sha256 Strconv Utf8 CacheSalt Json Errors TokenCount Headers Billing Coerce Citations Annotations WebSearch Session Events Prompt ToolLoop Autoroute.
#[local] Open Scope string_scope.
#[local] Open Scope list_scope.
#[local] Open Scope Z_scope.

(** The client's request, as far as the runtime reads it. *)
Record incoming := MkIncoming { in_path : string; in_header : Header; in_ctx : RequestContext }.

(** What is handed to the response writer. *)
Record written := MkWritten { wr_header : Header; wr_status : Z; wr_body : bytes }.

Definition isStream (body : object) : bool := get_bool "stream" body.

(** ** Outbound tool sessions *)

Definition HeaderRequestID := "X-Tinfoil-Tool-Request-Id".
Definition HeaderModel := "X-Tinfoil-Tool-Model".
Definition HeaderRoute := "X-Tinfoil-Tool-Route".
Definition HeaderStreaming := "X-Tinfoil-Tool-Streaming".
Definition HeaderPIICheck := "X-Tinfoil-Tool-PII-Check".
Definition HeaderInjectionCheck := "X-Tinfoil-Tool-Injection-Check".

(** The billing identity signed into every request of a session. *)
Record SessionContext := MkSession {
  sx_ContextID : string;
  sx_RootRequestID : string;
  sx_ParentService : string;
  sx_Depth : Z;
  sx_BillCustomerRequest : bool;
  sx_APIKeyHash : string;
  sx_IssuedAt : Z
}.

(** [ServiceRouter] is the reporting library's name of the router. *)
Definition toolSessionHeaders (ServiceRouter : string) (r : incoming) (requestID modelName : string) (body : object) (safety : safetyOptIns)
    : Header * SessionContext :=
  let h := header_set ∅ HeaderRequestID requestID in
  let h := header_set h HeaderModel modelName in
  let h := header_set h HeaderRoute (in_path r) in
  let h := header_set h HeaderStreaming (format_bool (isStream body)) in
  let h := match pii safety with Some b => header_set h HeaderPIICheck (format_bool b) | None => h end in
  let h := match injection safety with Some b => header_set h HeaderInjectionCheck (format_bool b) | None => h end in
  let auth := header_get (in_header r) "Authorization" in
  let h := if String.eqb auth "" then h else header_set h "Authorization" auth in
  (h, MkSession requestID requestID ServiceRouter 1 true "" time_zero).

(** The drawn identifier, whatever the client's headers say. *)
Definition newToolSessionRequestID (uuid : string) (_ : incoming) : string := uuid.

Section Transport.
(** [usagereporting.HashAPIKey] and [usagereporting.SetHeaders]. *)
Context (HashAPIKey : string -> string) (SetHeaders : Header -> SessionContext -> string -> option Header).

Definition add_session_headers (h : Header) (entries : list (string * list string)) : Header :=
  foldl (fun h kv => foldl (fun h v => if String.eqb v "" then h else header_add h kv.1 v) h kv.2) h entries.

(** The header [headerRoundTripper] sends; [None] is the signing error. *)
Definition session_request_header (entries : list (string * list string)) (sx : SessionContext) (secret : string) (now : Z) (h : Header) : option Header :=
  let h := add_session_headers h entries in
  if String.eqb secret "" then Some h
  else
    SetHeaders h (MkSession (sx_ContextID sx) (sx_RootRequestID sx) (sx_ParentService sx) (sx_Depth sx) (sx_BillCustomerRequest sx)
      (HashAPIKey (BearerToken (header_get h "Authorization"))) now) secret.
End Transport.

Section Responses.
Context {E : Env}.
(** [json.Marshal] of an error envelope, the published price of a model, and
    the clock. *)
Context (marshal_envelope : ErrorBody -> bytes) (ModelPricing_of : string -> option ModelPricing) (now : Z).

(** ** Usage and billing *)

(** [None] is a panic of the cost's printing. *)
Definition formatUsageMetrics (usage : option Usage) (modelName : string) (webSearch : option WebSearchUsage) : option string :=
  let pricing := ModelPricing_of modelName in
  match usage with
  | Some u => FormatUsage e_int_out_of_range u modelName pricing webSearch
  | None =>
      match pricing with
      | Some p => if CostKnownWithoutUsage e_int_out_of_range p then FormatUsage e_int_out_of_range zeroUsage modelName pricing webSearch else Some ""
      | None => Some ""
      end
  end.

(** [None] is a panic: of the printing, or a write to a nil header. *)
Definition applyUsageMetrics (response : upstreamJSONResponse) (requested : bool) (modelName : string) (webSearch : WebSearchUsage)
    : option upstreamJSONResponse :=
  let h := (fun h => header_del h UsageMetricsResponseHeader) <$> u_header response in
  if negb requested then Some (MkResponse (u_body response) h (u_status response))
  else
    formatted ← formatUsageMetrics (usageFromRaw (get "usage" (default ∅ (u_body response)))) modelName (Some webSearch);
    if String.eqb formatted "" then Some (MkResponse (u_body response) h (u_status response))
    else h ← h; Some (MkResponse (u_body response) (Some (header_set h UsageMetricsResponseHeader formatted)) (u_status response)).

(** The events emitted: one, or none without a response or a key. *)
Definition emitBillingEvent (r : incoming) (response : option upstreamJSONResponse) (modelName : string) (streaming : bool) : list Billing.Event :=
  match response with
  | None => []
  | Some response =>
      let apiKey := BearerToken (header_get (in_header r) "Authorization") in
      if String.eqb apiKey "" then []
      else
        let usage := usageFromRaw (get "usage" (default ∅ (u_body response))) in
        let count f := match usage with Some u => f u | None => 0 end in
        let h := default ∅ (u_header response) in
        [MkEvent now "authenticated_user" modelName (count PromptTokens) (count (fun u => (CachedPromptTokens (Some u)).1))
           (count CompletionTokens) (count TotalTokens) (responseRequestID [h; in_header r]) (header_get h "Tinfoil-Enclave")
           (in_path r) streaming apiKey (CustomerRequests (in_ctx r))]
  end.

(** ** Writing *)

Definition marshal_bytes (v : json) : option bytes := encode <$> e_Marshal v.

(** [writeJSONBytes] on the writer's header [wh]. *)
Definition writeJSONBytes (wh : Header) (h : option header) (status : Z) (data : bytes) : written :=
  let wh := copyResponseHeaders wh (map_to_list (default ∅ h)) in
  let wh := header_set (header_set wh "Content-Type" "application/json") "Content-Length" (FormatInt (Z.of_nat (length data))) in
  MkWritten wh status data.

(** [None] is an encoding error. *)
Definition writeJSONResponse (wh : Header) (response : upstreamJSONResponse) : option written :=
  data ← marshal_bytes (match u_body response with Some b => JObj b | None => JNull end);
  Some (writeJSONBytes wh (u_header response) (u_status response) data).

Definition unmarshal_error (body : bytes) : option object := default ∅ <$> e_unmarshal_body body.

(** Errors that are not a backend's are returned. *)
Definition writeUpstreamError (wh : Header) (err : failure) : failure + written :=
  match err with
  | UpstreamError status h body =>
      let apiErr := (NormalizeUpstreamError unmarshal_error status body).1 in
      inr (writeJSONBytes wh (Some h) (Status apiErr) (marshal_envelope (Envelope apiErr)))
  | OtherError _ => inl err
  end.

(** ** The end of a run *)

(** What a request gets: the events for billing, and the response or the error
    left to the caller; [None] is a panic. *)
Record outcome := MkOutcome { oc_events : list Billing.Event; oc_result : option (failure + written) }.

(** The part of [Handle] after the loop, for a request that does not stream.  The
    deferred billing runs whatever happens after the loop. *)
Definition answer_run (wh : Header) (r : incoming) (modelName : string) (webSearchPricing piiPricing : option ModelPricing)
    (log : toolCallLog) (e : ending) : outcome :=
  match e with
  | Panicked => MkOutcome [] None
  | Failed partial err => MkOutcome (emitBillingEvent r partial modelName false) (Some (writeUpstreamError wh err))
  | Answered response =>
      let requested := String.eqb (header_get (in_header r) UsageMetricsRequestHeader) "true" in
      MkOutcome (emitBillingEvent r (Some response) modelName false)
        (response ← applyUsageMetrics response requested modelName (webSearchUsage webSearchPricing piiPricing log);
         Some (match writeJSONResponse wh response with Some w => inr w | None => inl (OtherError "marshal") end))
  end.

(** ** Properties *)

Lemma emitBillingEvent_key r response modelName streaming :
  Forall (fun e => ev_APIKey e = BearerToken (header_get (in_header r) "Authorization") /\ ev_APIKey e <> "" /\ ev_Streaming e = streaming
    /\ ev_CustomerRequests e = CustomerRequests (in_ctx r) /\ ev_RequestPath e = in_path r) (emitBillingEvent r response modelName streaming).
Proof.
  unfold emitBillingEvent. destruct response; [|constructor]. destruct (String.eqb_spec (BearerToken (header_get (in_header r) "Authorization")) "");
    repeat constructor; done.
Qed.

(** A response is billed once, for the usage in its body. *)
Lemma emitBillingEvent_usage r response modelName streaming u :
  BearerToken (header_get (in_header r) "Authorization") <> "" -> usageFromRaw (get "usage" (default ∅ (u_body response))) = Some u ->
  exists e, emitBillingEvent r (Some response) modelName streaming = [e]
    /\ ev_PromptTokens e = PromptTokens u /\ ev_CompletionTokens e = CompletionTokens u /\ ev_TotalTokens e = TotalTokens u.
Proof.
  intros Hk Hu. unfold emitBillingEvent. destruct (String.eqb_spec (BearerToken (header_get (in_header r) "Authorization")) ""); [done|].
  rewrite Hu. by eexists.
Qed.

End Responses.
