(* ===== verification/StreamBase.v ===== *)
(** * Streaming answers: the shared part ([toolruntime/stream_base.go], [tool_progress.go])

    The state both streamers embed, the one place frames are written to the
    client, the opening of an upstream stream, and the execution of a router
    tool call with its progress announced in the way of the surface, which is an
    instance of the class [toolProgressEmitter].

    The world is a [StreamEnv]: the n-th upstream request gets the response (its
    body the bytes that arrive and the read error that ends them) and the n-th
    write to the client the error the environment gives them.  Frames are kept
    as the values that are encoded. *)

From Stdlib Require Import Ascii.
From S2P Require Import Prelude Float64 Sha256 Strconv Utf8 CacheSalt Json Errors Autoroute TokenCount Headers Billing Coerce Citations Annotations Sse WebSearch Session Events Prompt ToolLoop Runtime.
#[local] Open Scope string_scope.
#[local] Open Scope list_scope.
#[local] Open Scope Z_scope.

Record StreamResponse := MkStreamResponse { sr_status : Z; sr_header : header; sr_body : bytes; sr_err : option string }.

Class StreamEnv := {
  se_env :: Env;
  (** [em.DoModelRequestJSON] of the n-th request *)
  se_open : nat -> string -> object -> string + StreamResponse;
  (** [json.Unmarshal] of a frame into a map; [Some None] is null *)
  se_unmarshal : bytes -> option (option object);
  (** the error of the n-th write *)
  se_write : nat -> option string;
  se_unix : Z;
  se_now : Z;
  se_ModelPricing : string -> option ModelPricing
}.

(** [numberValue]: a decoded number, or zero. *)
Definition numberValue (v : json) : float64 := match v with JFloat f => f | _ => f64_zero end.

(** ** State *)

(** A [data:] frame, an [event:] frame, and the [DONE] marker. *)
Inductive frame := DataFrame (body : object) | EventFrame (event : string) (body : option object) | DoneFrame.

Inductive stream_action :=
  | Requested (path : string) (body : object)
  | CalledServer (session : Z) (tool : string) (args : option object).

(** [b_header] is the writer's header, [b_sent] the one that went out with the
    status; [b_uuids] counts the identifiers drawn, [b_writes] the writes. *)
Record streamBase := MkBase {
  b_out : list frame;
  b_writes : nat;
  b_writeErr : option string;
  b_usageMetricsRequested : bool;
  b_citations : State;
  b_toolCalls : toolCallLog;
  b_usageTotals : usageAccumulator;
  b_headersWritten : bool;
  b_upstreamHeaders : option header;
  b_model : string;
  b_header : Header;
  b_sent : option Header;
  b_uuids : nat;
  b_trace : list stream_action;
  b_events : list Billing.Event
}.

Definition newBase (metrics harmony : bool) (wh : Header) : streamBase :=
  MkBase [] 0 None metrics (MkState 1 [] harmony) [] zeroAccumulator false None "" wh None 0 [] [].

Definition set_out (out : list frame) (n : nat) (err : option string) (b : streamBase) : streamBase :=
  MkBase out n err (b_usageMetricsRequested b) (b_citations b) (b_toolCalls b) (b_usageTotals b) (b_headersWritten b) (b_upstreamHeaders b)
    (b_model b) (b_header b) (b_sent b) (b_uuids b) (b_trace b) (b_events b).
Definition set_writeErr (err : string) (b : streamBase) : streamBase := set_out (b_out b) (b_writes b) (Some err) b.
Definition set_citations (c : State) (b : streamBase) : streamBase :=
  MkBase (b_out b) (b_writes b) (b_writeErr b) (b_usageMetricsRequested b) c (b_toolCalls b) (b_usageTotals b) (b_headersWritten b) (b_upstreamHeaders b)
    (b_model b) (b_header b) (b_sent b) (b_uuids b) (b_trace b) (b_events b).
Definition record_call (r : toolCallRecord) (b : streamBase) : streamBase :=
  MkBase (b_out b) (b_writes b) (b_writeErr b) (b_usageMetricsRequested b) (b_citations b) (b_toolCalls b ++ [r]) (b_usageTotals b) (b_headersWritten b)
    (b_upstreamHeaders b) (b_model b) (b_header b) (b_sent b) (b_uuids b) (b_trace b) (b_events b).
Definition set_usage (u : usageAccumulator) (b : streamBase) : streamBase :=
  MkBase (b_out b) (b_writes b) (b_writeErr b) (b_usageMetricsRequested b) (b_citations b) (b_toolCalls b) u (b_headersWritten b) (b_upstreamHeaders b)
    (b_model b) (b_header b) (b_sent b) (b_uuids b) (b_trace b) (b_events b).
Definition set_model (m : string) (b : streamBase) : streamBase :=
  MkBase (b_out b) (b_writes b) (b_writeErr b) (b_usageMetricsRequested b) (b_citations b) (b_toolCalls b) (b_usageTotals b) (b_headersWritten b)
    (b_upstreamHeaders b) m (b_header b) (b_sent b) (b_uuids b) (b_trace b) (b_events b).
Definition set_upstream (h : header) (b : streamBase) : streamBase :=
  MkBase (b_out b) (b_writes b) (b_writeErr b) (b_usageMetricsRequested b) (b_citations b) (b_toolCalls b) (b_usageTotals b) (b_headersWritten b)
    (Some h) (b_model b) (b_header b) (b_sent b) (b_uuids b) (b_trace b) (b_events b).
Definition set_header (h : Header) (b : streamBase) : streamBase :=
  MkBase (b_out b) (b_writes b) (b_writeErr b) (b_usageMetricsRequested b) (b_citations b) (b_toolCalls b) (b_usageTotals b) (b_headersWritten b)
    (b_upstreamHeaders b) (b_model b) h (b_sent b) (b_uuids b) (b_trace b) (b_events b).
Definition send_header (h : Header) (b : streamBase) : streamBase :=
  MkBase (b_out b) (b_writes b) (b_writeErr b) (b_usageMetricsRequested b) (b_citations b) (b_toolCalls b) (b_usageTotals b) true
    (b_upstreamHeaders b) (b_model b) h (Some h) (b_uuids b) (b_trace b) (b_events b).
Definition act (x : stream_action) (b : streamBase) : streamBase :=
  MkBase (b_out b) (b_writes b) (b_writeErr b) (b_usageMetricsRequested b) (b_citations b) (b_toolCalls b) (b_usageTotals b) (b_headersWritten b)
    (b_upstreamHeaders b) (b_model b) (b_header b) (b_sent b) (b_uuids b) (b_trace b ++ [x]) (b_events b).
Definition bill (es : list Billing.Event) (b : streamBase) : streamBase :=
  MkBase (b_out b) (b_writes b) (b_writeErr b) (b_usageMetricsRequested b) (b_citations b) (b_toolCalls b) (b_usageTotals b) (b_headersWritten b)
    (b_upstreamHeaders b) (b_model b) (b_header b) (b_sent b) (b_uuids b) (b_trace b) (b_events b ++ es).
Definition draw (b : streamBase) : streamBase :=
  MkBase (b_out b) (b_writes b) (b_writeErr b) (b_usageMetricsRequested b) (b_citations b) (b_toolCalls b) (b_usageTotals b) (b_headersWritten b)
    (b_upstreamHeaders b) (b_model b) (b_header b) (b_sent b) (S (b_uuids b)) (b_trace b) (b_events b).

Definition set_uuids (n : nat) (b : streamBase) : streamBase :=
  MkBase (b_out b) (b_writes b) (b_writeErr b) (b_usageMetricsRequested b) (b_citations b) (b_toolCalls b) (b_usageTotals b) (b_headersWritten b)
    (b_upstreamHeaders b) (b_model b) (b_header b) (b_sent b) n (b_trace b) (b_events b).

Definition is_request (x : stream_action) : bool := match x with Requested _ _ => true | _ => false end.
Definition requests (b : streamBase) : nat := length (List.filter is_request (b_trace b)).
Definition server_calls (b : streamBase) : nat := length (List.filter (fun x => negb (is_request x)) (b_trace b)).

(** How a streamer reports an error to [Handle]'s caller: an error for a client
    that has seen nothing yet, or one that says the stream is already open. *)
Inductive returned := ReturnedError (e : failure) | StreamAborted (e : failure).

Section Base.
Context {SE : StreamEnv}.

(** ** Writing *)

(** The write of a frame that has been encoded. *)
Definition write_frame (f : frame) (b : streamBase) : streamBase :=
  match b_writeErr b with
  | Some _ => b
  | None =>
      match se_write (b_writes b) with
      | Some err => set_out (b_out b) (S (b_writes b)) (Some err) b
      | None => set_out (b_out b ++ [f]) (S (b_writes b)) None b
      end
  end.

(** [emitData] and [emitEvent]: nothing after an error. *)
Definition emit_encoded (f : frame) (body : object) (b : streamBase) : streamBase :=
  match b_writeErr b with
  | Some _ => b
  | None => if encodable e_float_literal (JObj body) then write_frame f b else set_writeErr "json" b
  end.
Definition emitData (body : object) : streamBase -> streamBase := emit_encoded (DataFrame body) body.

(** ** Headers *)

Definition writeSSEHeaders (upstreamHeaders : header) (b : streamBase) : streamBase :=
  let h := copyResponseHeaders (b_header b) (map_to_list upstreamHeaders) in
  let h := header_del (header_del h "Content-Length") UsageMetricsResponseHeader in
  let h := header_set (header_set (header_set h "Content-Type" "text/event-stream") "Cache-Control" "no-cache") "Connection" "keep-alive" in
  send_header (if b_usageMetricsRequested b then runtime_addTrailerHeader h UsageMetricsResponseHeader else h) b.

Definition streamAborted (err : option failure) (b : streamBase) : option returned :=
  match err with
  | None => None
  | Some e => Some (if b_headersWritten b then StreamAborted e else ReturnedError e)
  end.

Definition validateStreamModel (fieldPath : string) (b : streamBase) : string * streamBase :=
  (b_model b,
   match b_writeErr b with
   | None => if String.eqb (b_model b) "" then set_writeErr ("upstream stream missing " +:+ fieldPath +:+ " field") b else b
   | Some _ => b
   end).

(** ** Errors *)

Definition mustMarshal (v : json) : bytes := default [] (marshal_bytes v).

Definition newUpstreamJSONError (errObj : object) : failure :=
  UpstreamError 502 {["Content-Type" := ["application/json"]]} (mustMarshal (JObj {["error" := JObj errObj]})).

(** The detail goes to the log only. *)
Definition newUpstreamStreamError (detail : string) : failure := newUpstreamJSONError (ErrorBody_Map (Envelope ErrUpstream)).

Definition upstreamErrorPayload (err : failure) : object :=
  let apiErr :=
    match err with
    | UpstreamError status _ body => (NormalizeUpstreamError unmarshal_error status body).1
    | OtherError _ => ErrUpstream
    end in
  ErrorBody_Map (Envelope apiErr).

(** ** The upstream stream *)

Definition openUpstreamSSE (path : string) (reqBody : object) (b : streamBase) : (failure + sseReader) * streamBase :=
  let n := requests b in
  let b := act (Requested path reqBody) b in
  match se_open n path reqBody with
  | inl msg => (inl (OtherError msg), b)
  | inr resp =>
      if (sr_status resp <? 200) || (sr_status resp >=? 300) then
        (inl (UpstreamError (sr_status resp) (sr_header resp) (take (Z.to_nat MaxUpstreamErrorBodyBytes) (sr_body resp))), b)
      else
        let b := set_upstream (sr_header resp) b in
        let b := if b_headersWritten b then b else writeSSEHeaders (sr_header resp) b in
        (inr (newSSEReader (sr_body resp) (sr_err resp)), b)
  end.

(** The usage block, a nil map when nothing was counted, as the billing reads it. *)
Definition emit_billing (r : incoming) (modelName : string) (usage : option object) (b : streamBase) : streamBase :=
  let body : object := {["usage" := match usage with Some u => JObj u | None => JNull end]} in
  bill (emitBillingEvent se_now r (Some (MkResponse (Some body) (Some (default ∅ (b_upstreamHeaders b))) 0)) modelName true) b.

(** The usage header of a stream is a trailer. [None] is a panic. *)
Definition set_metrics (modelName : string) (usage : option object) (b : streamBase) : option streamBase :=
  if negb (b_usageMetricsRequested b) then Some b
  else
    formatted ← formatUsageMetrics se_ModelPricing (usageFromRaw (match usage with Some u => JObj u | None => JNull end)) modelName
      (Some (webSearchUsage (se_ModelPricing "websearch") (se_ModelPricing "pii-filter") (b_toolCalls b)));
    Some (if String.eqb formatted "" then b else set_header (Headers.header_set (b_header b) UsageMetricsResponseHeader formatted) b).

(** [s.streamAborted(s.writeErr)] *)
Definition latched (b : streamBase) : option returned := streamAborted (OtherError <$> b_writeErr b) b.
End Base.

(** ** Tool progress *)

Record toolProgressResult := MkProgress { tpr_sources : list toolCallSource; tpr_pii : option piiCheckResult }.
Definition noProgress : toolProgressResult := MkProgress [] None.

Record toolExecution := MkExecution {
  x_output : string;
  x_sources : list toolCallSource;
  x_pii : option piiCheckResult;
  x_piiBilling : serviceBilling
}.
Definition noExecution : toolExecution := MkExecution "" [] None (MkBilling 0 false).

Record toolProgressHandle := MkHandle { hd_id : string; hd_outputIndex : Z }.

Record toolPhaseConfig := MkPhases { idPrefix : string; preCallPhases : list string; completedPhase : string }.

Definition toolPhaseConfigs (tool : string) : toolPhaseConfig :=
  if String.eqb tool "search" then
    MkPhases "ws_" ["response.web_search_call.in_progress"; "response.web_search_call.searching"] "response.web_search_call.completed"
  else if String.eqb tool "fetch" then MkPhases "ws_" ["response.web_search_call.in_progress"] "response.web_search_call.completed"
  else MkPhases "" [] "".
Definition toolPhasesFor (name : string) : toolPhaseConfig := toolPhaseConfigs (dispatchRouterToolName name).

(** A streamer of a surface: the state it embeds and how it announces progress. *)
Class toolProgressEmitter (S : Type) := {
  base_of : S -> streamBase;
  with_base : streamBase -> S -> S;
  tp_open : string -> object -> S -> S * toolProgressHandle;
  tp_phase : toolProgressHandle -> string -> S -> S;
  tp_close : toolProgressHandle -> string -> object -> toolProgressResult -> string -> string -> S -> S
}.

Section Progress.
Context {SE : StreamEnv} {S : Type} `{!toolProgressEmitter S}.

Definition on_base (f : streamBase -> streamBase) (s : S) : S := with_base (f (base_of s)) s.

(** The call of a tool server, and its output with the citations recorded. *)
Definition call_server (session : Z) (toolName dispatchName : string) (args : option object) (s : S)
    : S * string * option json * option string :=
  let n := server_calls (base_of s) in
  let s := on_base (act (CalledServer session dispatchName args)) s in
  let '(output, structured, err) := callTool n session dispatchName args in
  match err with
  | Some _ => (s, output, structured, err)
  | None =>
      let '(state, output) := applyStructuredFormat toolName output structured (b_citations (base_of s)) in
      (on_base (set_citations state) s, output, structured, None)
  end.

Definition draw_id (prefix : string) (s : S) : string * S := (prefix +:+ e_uuid (b_uuids (base_of s)), on_base draw s).

Definition executeSingleToolWithProgress (session : Z) (call : toolCall) (args : option object) (dispatchName : string) (phases : toolPhaseConfig)
    (details : object) (s : S) : S * toolExecution * option string :=
  let '(id, s) := draw_id (idPrefix phases) s in
  let '(s, handle) := tp_open id details s in
  let s := foldl (fun s phase => tp_phase handle phase s) s (preCallPhases phases) in
  let '(s, output, structured, err) := call_server session (name call) dispatchName args s in
  let failed := match err with Some _ => true | None => false end in
  let billing := piiBillingFromStructured (name call) structured failed in
  match err with
  | Some e => (tp_close handle (name call) details noProgress "failed" (publicToolErrorReason true) s, MkExecution "" [] None billing, Some e)
  | None =>
      let sources := toolCallSourcesForResult (name call) structured output in
      let pii := piiCheckResultFromStructured e_ParseFloat e_int_out_of_range (name call) structured in
      let s := tp_phase handle (completedPhase phases) s in
      (tp_close handle (name call) details (MkProgress sources pii) "completed" "" s, MkExecution output sources pii billing, None)
  end.

(** The handles of a fetch, one for each URL, announced in order. *)
Fixpoint open_pages (phases : toolPhaseConfig) (urls : list string) (s : S) : S * list (toolProgressHandle * string) :=
  match urls with
  | [] => (s, [])
  | u :: urls =>
      let '(id, s) := draw_id (idPrefix phases) s in
      let '(s, handle) := tp_open id (open_page_action u) s in
      let s := foldl (fun s phase => tp_phase handle phase s) s (preCallPhases phases) in
      let '(s, handles) := open_pages phases urls s in
      (s, (handle, u) :: handles)
  end.

Definition plain_call (session : Z) (call : toolCall) (args : option object) (dispatchName : string) (s : S) : S * toolExecution * option string :=
  let '(s, output, _, err) := call_server session (name call) dispatchName args s in
  match err with
  | Some e => (s, noExecution, Some e)
  | None => (s, MkExecution output [] None (MkBilling 0 false), None)
  end.

Definition executeFetchWithProgress (session : Z) (call : toolCall) (args : option object) (dispatchName : string) (phases : toolPhaseConfig) (s : S)
    : S * toolExecution * option string :=
  match fetchArgumentURLs (default ∅ args) with
  | [] => plain_call session call args dispatchName s
  | urls =>
      let '(s, handles) := open_pages phases urls s in
      let '(s, output, structured, err) := call_server session (name call) dispatchName args s in
      match err with
      | Some e =>
          (foldl (fun s h => tp_close h.1 (name call) (open_page_action h.2) noProgress "failed" (publicToolErrorReason true) s) s handles,
           noExecution, Some e)
      | None =>
          let sources := toolCallSourcesForResult (name call) structured output in
          (foldl (fun s h =>
             tp_close h.1 (name call) (open_page_action h.2) (MkProgress (sourcesForURL sources h.2) None) "completed" ""
               (tp_phase h.1 (completedPhase phases) s)) s handles,
           MkExecution output sources None (MkBilling 0 false), None)
      end
  end.

Definition executeToolWithProgress (registry : sessionRegistry) (call : toolCall) (args : option object) (s : S) : S * toolExecution * option string :=
  match sessionFor registry (name call) with
  | None => (s, noExecution, Some ("no MCP session registered for tool " +:+ e_Quote (name call)))
  | Some session =>
      let dispatch := dispatchName registry (name call) in
      let phases := toolPhasesFor (name call) in
      if isRouterSearchToolName (name call) then
        let details : object := {["type" := JStr "search"; "query" := JStr (get_string "query" (default ∅ args))]} in
        executeSingleToolWithProgress session call args dispatch phases details s
      else if isRouterFetchToolName (name call) then executeFetchWithProgress session call args dispatch phases s
      else plain_call session call args dispatch s
  end.

(** The text the model is given, the call recorded. *)
Definition resolveStreamingRouterToolCall (registry : sessionRegistry) (call : toolCall) (opts : webSearchOptions) (schemas : gmap string Schema) (s : S)
    : S * string :=
  let args := prepare opts schemas (name call) (arguments call) in
  let shown := default ∅ args in
  let '(s, execution, err) := executeToolWithProgress registry call args s in
  match err with
  | Some e =>
      (on_base (record_call (MkRecord (name call) shown [] [] (publicToolErrorReason true) None (x_piiBilling execution))) s,
       humanize (name call) e shown)
  | None =>
      (on_base (record_call (MkRecord (name call) shown (toolCallSourceURLs (x_sources execution)) (x_sources execution) "" (x_pii execution)
         (x_piiBilling execution))) s, x_output execution)
  end.

(** The router's calls of a turn, one after the other, with the outputs. *)
Fixpoint run_stream_calls (registry : sessionRegistry) (opts : webSearchOptions) (schemas : gmap string Schema) (calls : list toolCall) (s : S)
    : S * list toolOutput :=
  match calls with
  | [] => (s, [])
  | call :: calls =>
      let '(s, output) := resolveStreamingRouterToolCall registry call opts schemas s in
      let '(s, outputs) := run_stream_calls registry opts schemas calls s in
      (s, MkOutput (id call) (name call) output :: outputs)
  end.
End Progress.

(** What a stream that has begun returns: nothing, or that it was aborted. *)
Lemma latched_ends `{StreamEnv} b : b_headersWritten b = true ->
  (b_writeErr b = None -> latched b = None) /\ (latched b = None \/ exists e, latched b = Some (StreamAborted e)).
Proof. unfold latched, streamAborted. intros ->. destruct (b_writeErr b); cbn; [split; [done|right; by eexists]|split; [done|by left]]. Qed.
