(* ===== verification/StreamToy.v ===== *)
(** * A small environment for streamed runs

    What the witnesses of the streamers run against: the n-th answer of the model
    is a body of lines [data: c], where the letter [c] stands for a chunk of a
    table and [!] for the end marker; an answer that is missing is a transport
    error.  Everything else is that of the loop's small environment. *)

From Stdlib Require Import Ascii.
From S2P Require Import Prelude Float64 Sha256 CacheSalt Json Coerce Session Events Sse ToolLoop ToolLoopSpec ToolLoopRuns StreamBase.
#[local] Open Scope string_scope.
#[local] Open Scope list_scope.
#[local] Open Scope Z_scope.

Definition toy_line (c : ascii) : bytes :=
  to_bytes "data: " ++ (if Ascii.eqb c "!"%char then to_bytes "[DONE]" else [c]) ++ [byte_of 10; byte_of 10].
Definition toy_body (frames : string) : bytes := concat (map toy_line (to_bytes frames)).

(** Letters from [a] on. *)
Definition toy_chunk (chunks : list object) (data : bytes) : option (option object) :=
  match data with
  | [c] => Some <$> chunks !! Z.to_nat (byte_val c - 97)
  | _ => None
  end.

(** [broken]: the write that fails, if any. *)
Definition toy_stream (chunks : list object) (answers : list string) (broken : option nat) : StreamEnv := {|
  se_env := toy_env (fun _ => None);
  se_open n _ _ := match answers !! n with Some frames => inr (MkStreamResponse 200 ∅ (toy_body frames) None) | None => inl "down" end;
  se_unmarshal := toy_chunk chunks;
  se_write n := match broken with Some k => if decide (n = k) then Some "gone" else None | None => None end;
  se_unix := 1700000000;
  se_now := 0;
  se_ModelPricing _ := None
|}.
