(* ===== verification/ResponsesStream.v ===== *)
(** * The Responses stream ([toolruntime/responses_stream.go])

    The streamer that shows a client one response across the turns of the tool
    loop: the pinned identity, the output items under indices of its own, the
    text that passes the citation emitters, the progress of the router's tools and
    the ways the stream ends.

    Events are decoded objects; the item of an event is the event's own object, so
    an argument string put back into it is in the event too.  [None] is a panic: a
    write to the nil map that the copy of a null event is. *)

From Stdlib Require Import Ascii.
From S2P Require Import Prelude Float64 Sha256 Strconv Utf8 CacheSalt Json Errors Autoroute TokenCount Headers Billing Coerce Quirks Citations Annotations Sse WebSearch Session Events Prompt ToolLoop Runtime StreamBase.
#[local] Open Scope string_scope.
#[local] Open Scope list_scope.
#[local] Open Scope Z_scope.

(** ** State *)

(** An emitter shares the citations of the stream and owns its text; a key is an
    item and a content index. *)
Record responsesStreamer := MkResponses {
  rs_base : streamBase;
  upstreamIDCaptured : bool;
  rs_responseID : string;
  rs_createdAt : Z;
  responseCreatedEmitted : bool;
  outputIndex : Z;
  sequenceNumber : Z;
  outputIndexMap : gmap Z Z;
  suppressedItems : gset Z;
  functionCallArguments : gmap Z string;
  emitters : gmap (string * Z) (text * nat);
  annotationCounts : gmap (string * Z) Z;
  finalOutput : list json;
  aggregatedUsage : option object;
  rs_ownedTools : gset string;
  rs_includeActionSources : bool
}.

Definition on_rs_base (f : streamBase -> streamBase) (s : responsesStreamer) : responsesStreamer :=
  MkResponses (f (rs_base s)) (upstreamIDCaptured s) (rs_responseID s) (rs_createdAt s) (responseCreatedEmitted s) (outputIndex s) (sequenceNumber s)
    (outputIndexMap s) (suppressedItems s) (functionCallArguments s) (emitters s) (annotationCounts s) (finalOutput s) (aggregatedUsage s)
    (rs_ownedTools s) (rs_includeActionSources s).
Definition set_response_id (id : string) (captured : bool) (s : responsesStreamer) : responsesStreamer :=
  MkResponses (rs_base s) captured id (rs_createdAt s) (responseCreatedEmitted s) (outputIndex s) (sequenceNumber s) (outputIndexMap s)
    (suppressedItems s) (functionCallArguments s) (emitters s) (annotationCounts s) (finalOutput s) (aggregatedUsage s) (rs_ownedTools s)
    (rs_includeActionSources s).
Definition set_created_at (created : Z) (s : responsesStreamer) : responsesStreamer :=
  MkResponses (rs_base s) (upstreamIDCaptured s) (rs_responseID s) created (responseCreatedEmitted s) (outputIndex s) (sequenceNumber s)
    (outputIndexMap s) (suppressedItems s) (functionCallArguments s) (emitters s) (annotationCounts s) (finalOutput s) (aggregatedUsage s)
    (rs_ownedTools s) (rs_includeActionSources s).
Definition mark_created  (s : responsesStreamer) : responsesStreamer :=
  MkResponses (rs_base s) (upstreamIDCaptured s) (rs_responseID s) (rs_createdAt s) true (outputIndex s) (sequenceNumber s) (outputIndexMap s)
    (suppressedItems s) (functionCallArguments s) (emitters s) (annotationCounts s) (finalOutput s) (aggregatedUsage s) (rs_ownedTools s)
    (rs_includeActionSources s).
Definition set_indices (n : Z) (m : gmap Z Z) (s : responsesStreamer) : responsesStreamer :=
  MkResponses (rs_base s) (upstreamIDCaptured s) (rs_responseID s) (rs_createdAt s) (responseCreatedEmitted s) n (sequenceNumber s) m
    (suppressedItems s) (functionCallArguments s) (emitters s) (annotationCounts s) (finalOutput s) (aggregatedUsage s) (rs_ownedTools s)
    (rs_includeActionSources s).
Definition set_sequence (n : Z) (s : responsesStreamer) : responsesStreamer :=
  MkResponses (rs_base s) (upstreamIDCaptured s) (rs_responseID s) (rs_createdAt s) (responseCreatedEmitted s) (outputIndex s) n (outputIndexMap s)
    (suppressedItems s) (functionCallArguments s) (emitters s) (annotationCounts s) (finalOutput s) (aggregatedUsage s) (rs_ownedTools s)
    (rs_includeActionSources s).
Definition suppress (k : Z) (s : responsesStreamer) : responsesStreamer :=
  MkResponses (rs_base s) (upstreamIDCaptured s) (rs_responseID s) (rs_createdAt s) (responseCreatedEmitted s) (outputIndex s) (sequenceNumber s)
    (outputIndexMap s) ({[k]} ∪ suppressedItems s) (functionCallArguments s) (emitters s) (annotationCounts s) (finalOutput s)
    (aggregatedUsage s) (rs_ownedTools s) (rs_includeActionSources s).
Definition set_argument_buffers (m : gmap Z string) (s : responsesStreamer) : responsesStreamer :=
  MkResponses (rs_base s) (upstreamIDCaptured s) (rs_responseID s) (rs_createdAt s) (responseCreatedEmitted s) (outputIndex s) (sequenceNumber s)
    (outputIndexMap s) (suppressedItems s) m (emitters s) (annotationCounts s) (finalOutput s) (aggregatedUsage s) (rs_ownedTools s)
    (rs_includeActionSources s).
Definition set_emitters (m : gmap (string * Z) (text * nat)) (s : responsesStreamer) : responsesStreamer :=
  MkResponses (rs_base s) (upstreamIDCaptured s) (rs_responseID s) (rs_createdAt s) (responseCreatedEmitted s) (outputIndex s) (sequenceNumber s)
    (outputIndexMap s) (suppressedItems s) (functionCallArguments s) m (annotationCounts s) (finalOutput s) (aggregatedUsage s)
    (rs_ownedTools s) (rs_includeActionSources s).
Definition set_annotationCounts (m : gmap (string * Z) Z) (s : responsesStreamer) : responsesStreamer :=
  MkResponses (rs_base s) (upstreamIDCaptured s) (rs_responseID s) (rs_createdAt s) (responseCreatedEmitted s) (outputIndex s) (sequenceNumber s)
    (outputIndexMap s) (suppressedItems s) (functionCallArguments s) (emitters s) m (finalOutput s) (aggregatedUsage s) (rs_ownedTools s)
    (rs_includeActionSources s).
Definition set_finalOutput (items : list json) (s : responsesStreamer) : responsesStreamer :=
  MkResponses (rs_base s) (upstreamIDCaptured s) (rs_responseID s) (rs_createdAt s) (responseCreatedEmitted s) (outputIndex s) (sequenceNumber s)
    (outputIndexMap s) (suppressedItems s) (functionCallArguments s) (emitters s) (annotationCounts s) items (aggregatedUsage s)
    (rs_ownedTools s) (rs_includeActionSources s).
Definition set_aggregatedUsage (u : option object) (s : responsesStreamer) : responsesStreamer :=
  MkResponses (rs_base s) (upstreamIDCaptured s) (rs_responseID s) (rs_createdAt s) (responseCreatedEmitted s) (outputIndex s) (sequenceNumber s)
    (outputIndexMap s) (suppressedItems s) (functionCallArguments s) (emitters s) (annotationCounts s) (finalOutput s) u (rs_ownedTools s)
    (rs_includeActionSources s).

(** [resetPerIterationState] *)
Definition resetPerIterationState  (s : responsesStreamer) : responsesStreamer :=
  MkResponses (rs_base s) (upstreamIDCaptured s) (rs_responseID s) (rs_createdAt s) (responseCreatedEmitted s) (outputIndex s) (sequenceNumber s) ∅ ∅
    (functionCallArguments s) (emitters s) (annotationCounts s) [] (aggregatedUsage s) (rs_ownedTools s) (rs_includeActionSources s).

Record responsesIterationResult := MkTurn { outputItems : list json; it_toolCalls : list toolCall; it_usage : option object }.
Definition noTurn : responsesIterationResult := MkTurn [] [] None.
Definition take_item (item : json) (r : responsesIterationResult) : responsesIterationResult :=
  MkTurn (outputItems r ++ [item]) (it_toolCalls r) (it_usage r).
Definition add_call (c : toolCall) (r : responsesIterationResult) : responsesIterationResult :=
  MkTurn (outputItems r) (it_toolCalls r ++ [c]) (it_usage r).
Definition with_usage (u : object) (r : responsesIterationResult) : responsesIterationResult := MkTurn (outputItems r) (it_toolCalls r) (Some u).

(** ** Reading events *)

(** [event["response"]] as an object. *)
Definition response_of (event : object) : option object := as_object (get "response" event).

Definition extractResponsesUsage (event : object) : option object := response_of event ≫= fun r => as_object (get "usage" r).

Definition extractResponsesErrorMessage (event : object) : string :=
  match response_of event with
  | None => ""
  | Some r =>
      let message := match get "error" r with JObj e => get_string "message" e | _ => "" end in
      if negb (String.eqb message "") then message
      else match get "incomplete_details" r with JObj d => get_string "reason" d | _ => "" end
  end.

(** The identifier of a call: its own, or the item's. *)
Definition call_id (item : object) : string :=
  if String.eqb (get_string "call_id" item) "" then get_string "id" item else get_string "call_id" item.

Section Responses.
Context {SE : StreamEnv}.

Definition upstream_index (event : object) : Z := int_of_f64 e_int_out_of_range (numberValue (get "output_index" event)).
Definition content_index (event : object) : Z := int_of_f64 e_int_out_of_range (numberValue (get "content_index" event)).

(** ** Writing *)

(** A number is used up by every write that is tried. *)
Definition emitEvent (eventType : string) (body : option object) (s : responsesStreamer) : responsesStreamer :=
  match b_writeErr (rs_base s) with
  | Some _ => s
  | None =>
      match body with
      | None => on_rs_base (write_frame (EventFrame eventType None)) s
      | Some m =>
          let m := <["sequence_number" := JInt (sequenceNumber s)]> m in
          on_rs_base (emit_encoded (EventFrame eventType (Some m)) m) (set_sequence (sequenceNumber s + 1) s)
      end
  end.

(** ** Identity *)

Definition streamResponseID (s : responsesStreamer) : responsesStreamer :=
  if String.eqb (rs_responseID s) "" then
    set_response_id ("resp_" +:+ e_uuid (b_uuids (rs_base s))) (upstreamIDCaptured s) (on_rs_base draw s)
  else s.
Definition streamCreatedAt (s : responsesStreamer) : responsesStreamer := if rs_createdAt s =? 0 then set_created_at se_unix s else s.
Definition responses_streamModel (s : responsesStreamer) : responsesStreamer := on_rs_base (fun b => (validateStreamModel "response.model" b).2) s.

Definition captureIdentity (event : object) (s : responsesStreamer) : responsesStreamer :=
  match response_of event with
  | None => s
  | Some response =>
      let id := get_string "id" response in
      let s := if negb (upstreamIDCaptured s) && negb (String.eqb id "") then set_response_id id true s else s in
      let created := int_of_f64 e_int_out_of_range (numberValue (get "created_at" response)) in
      let s := if (rs_createdAt s =? 0) && (created >? 0) then set_created_at created s else s in
      let model := get_string "model" response in
      if String.eqb (b_model (rs_base s)) "" && negb (String.eqb model "") then on_rs_base (set_model model) s else s
  end.

(** The identity fields of a response envelope, settled first. *)
Definition settle_identity (s : responsesStreamer) : responsesStreamer := responses_streamModel (streamCreatedAt (streamResponseID s)).
Definition envelope (status : string) (output : json) (s : responsesStreamer) : object :=
  {["id" := JStr (rs_responseID s); "object" := JStr "response"; "created_at" := JInt (rs_createdAt s); "status" := JStr status;
    "model" := JStr (b_model (rs_base s)); "output" := output]}.
Definition response_event (eventType : string) (response : object) : object := {["type" := JStr eventType; "response" := JObj response]}.

Definition ensureResponseCreated (s : responsesStreamer) : responsesStreamer :=
  if responseCreatedEmitted s then s
  else
    let s := settle_identity (mark_created s) in
    emitEvent "response.created" (Some (response_event "response.created" (envelope "in_progress" (JArr []) s))) s.

(** ** Items *)

Definition isRouterOwnedToolItem (item : option object) (s : responsesStreamer) : bool :=
  match item with
  | None => false
  | Some item => is_call_item item && bool_decide (get_string "name" item ∈ rs_ownedTools s)
  end.

(** [cloneJSONMap]; the copy of a null event is nil. *)
Definition clone_event (event : option object) : option object := event ≫= cloneJSONMap e_float_literal.

(** The index the client knows an item by, a fresh one when it has none. *)
Definition client_index (k : Z) (s : responsesStreamer) : Z * responsesStreamer :=
  match outputIndexMap s !! k with
  | Some ci => (ci, s)
  | None => (outputIndex s, set_indices (outputIndex s + 1) (<[k := outputIndex s]> (outputIndexMap s)) s)
  end.

(** A copy of the event under the client's index. *)
Definition emit_copy (eventType : string) (ci : Z) (event : option object) (s : responsesStreamer) : option responsesStreamer :=
  payload ← clone_event event;
  Some (emitEvent eventType (Some (<["output_index" := JInt ci]> payload)) s).

Definition handleOutputItemAdded (event : option object) (s : responsesStreamer) : option responsesStreamer :=
  let ev := default ∅ event in
  let k := upstream_index ev in
  if isRouterOwnedToolItem (as_object (get "item" ev)) s then Some (suppress k s)
  else
    let ci := outputIndex s in
    emit_copy "response.output_item.added" ci event (set_indices (ci + 1) (<[k := ci]> (outputIndexMap s)) s).

(** A router-owned call is recorded for the loop, its arguments put together
    from the fragments when the item has none. *)
Definition take_router_call (k : Z) (item : object) (s : responsesStreamer) (r : responsesIterationResult) : responsesStreamer * responsesIterationResult :=
  let arguments := parseArguments e_jsonBytesValid e_unmarshal_object (get "arguments" item) in
  let '(arguments, item) :=
    match functionCallArguments s !! k with
    | Some buf =>
        if bool_decide (default ∅ arguments = ∅) then
          (parseArguments e_jsonBytesValid e_unmarshal_object (JStr buf),
           if String.eqb (get_string "arguments" item) "" then <["arguments" := JStr buf]> item else item)
        else (arguments, item)
    | None => (arguments, item)
    end in
  (set_argument_buffers (delete k (functionCallArguments s)) s,
   add_call (MkCall (call_id item) (get_string "name" item) arguments) (take_item (JObj item) r)).

(** The arguments of a client-owned call, put together too. *)
Definition complete_arguments (k : Z) (item : object) (s : responsesStreamer) : object :=
  match functionCallArguments s !! k with
  | Some buf =>
      if String.eqb (get_string "arguments" item) "" && negb (String.eqb buf "") then <["arguments" := JStr buf]> item else item
  | None => item
  end.

Definition handleOutputItemDone (event : option object) (s : responsesStreamer) (r : responsesIterationResult)
    : option (responsesStreamer * responsesIterationResult) :=
  let ev := default ∅ event in
  let item := as_object (get "item" ev) in
  let k := upstream_index ev in
  if isRouterOwnedToolItem item s then Some (take_router_call k (default ∅ item) s r)
  else if bool_decide (k ∈ suppressedItems s) then Some (s, r)
  else
    let is_call := match item with Some item => is_call_item item | None => false end in
    let item := if is_call then (fun item => complete_arguments k item s) <$> item else item in
    let s := if is_call then set_argument_buffers (delete k (functionCallArguments s)) s else s in
    let event := match item with Some item => <["item" := JObj item]> <$> event | None => event end in
    let '(ci, s) := client_index k s in
    s ← emit_copy "response.output_item.done" ci event s;
    let raw := match item with Some item => JObj item | None => JNull end in
    let s := set_finalOutput (finalOutput s ++ [raw]) s in
    let r := take_item raw r in
    Some (s, if is_call then
               let item := default ∅ item in
               add_call (MkCall (call_id item) (get_string "name" item) (parseArguments e_jsonBytesValid e_unmarshal_object (get "arguments" item))) r
             else r).

Definition handleFunctionCallArgumentsDelta (event : object) (s : responsesStreamer) : responsesStreamer :=
  let k := upstream_index event in
  let delta := get_string "delta" event in
  if String.eqb delta "" then s
  else set_argument_buffers (<[k := default "" (functionCallArguments s !! k) +:+ delta]> (functionCallArguments s)) s.

(** ** Text *)

Definition annotation_event (ci : Z) (itemID : string) (contentIndex annotationIndex : Z) (m : Annotation) : object :=
  {["type" := JStr "response.output_text.annotation.added"; "output_index" := JInt ci; "item_id" := JStr itemID;
    "content_index" := JInt contentIndex; "annotation_index" := JInt annotationIndex; "annotation" := flat_annotation m]}.

Definition emitAnnotationEvents (matches : list Annotation) (ci : Z) (itemID : string) (contentIndex : Z) (s : responsesStreamer) : responsesStreamer :=
  foldl (fun s m =>
    let key := (itemID, contentIndex) in
    let n := default 0 (annotationCounts s !! key) in
    emitEvent "response.output_text.annotation.added" (Some (annotation_event ci itemID contentIndex n m))
      (set_annotationCounts (<[key := n + 1]> (annotationCounts s)) s)) s matches.

(** What an emitter released; [None] keeps the emitter as it was. *)
Definition release_text (released : option (Emitter * text * list Annotation)) (ci : Z) (itemID : string) (contentIndex : Z) (s : responsesStreamer)
    : responsesStreamer :=
  match released with
  | None => s
  | Some (e, out, annotations) =>
      let s := set_emitters (<[(itemID, contentIndex) := (e_text e, flushedRunes e)]> (emitters s)) s in
      let s := match out with
               | [] => s
               | _ => emitEvent "response.output_text.delta"
                        (Some {["type" := JStr "response.output_text.delta"; "output_index" := JInt ci; "item_id" := JStr itemID;
                                "content_index" := JInt contentIndex; "delta" := jtext out]}) s
               end in
      emitAnnotationEvents annotations ci itemID contentIndex s
  end.

Definition emitter_of (t : text * nat) (s : responsesStreamer) : Emitter := MkEmitter (Some (b_citations (rs_base s))) (fst t) (snd t).

Definition handleOutputTextDelta (event : object) (s : responsesStreamer) : responsesStreamer :=
  let k := upstream_index event in
  if bool_decide (k ∈ suppressedItems s) then s
  else
    let '(ci, s) := client_index k s in
    let itemID := get_string "item_id" event in
    let contentIndex := content_index event in
    let emitter := emitter_of (default ([], 0%nat) (emitters s !! (itemID, contentIndex))) s in
    release_text (Push e_Parse e_Query e_Encode e_Print e_ToLowerText emitter (text_of (get_string "delta" event))) ci itemID contentIndex s.

Definition handleOutputTextDone (event : option object) (s : responsesStreamer) : option responsesStreamer :=
  let ev := default ∅ event in
  let k := upstream_index ev in
  if bool_decide (k ∈ suppressedItems s) then Some s
  else
    let '(ci, s) := client_index k s in
    let itemID := get_string "item_id" ev in
    let contentIndex := content_index ev in
    let s := match emitters s !! (itemID, contentIndex) with
             | Some t =>
                 let s := release_text (Flush e_Parse e_Query e_Encode e_Print e_ToLowerText (emitter_of t s)) ci itemID contentIndex s in
                 set_emitters (delete (itemID, contentIndex) (emitters s)) s
             | None => s
             end in
    emit_copy "response.output_text.done" ci event s.

(** ** Everything else *)

Definition forwardEvent (eventType : string) (event : option object) (s : responsesStreamer) : option responsesStreamer :=
  match event with
  | Some m =>
      if bool_decide (is_Some (m !! "output_index")) then
        let k := upstream_index m in
        if bool_decide (k ∈ suppressedItems s) then Some s
        else
          match outputIndexMap s !! k with
          | Some ci => emit_copy eventType ci event s
          | None => Some (emitEvent eventType event s)
          end
      else Some (emitEvent eventType event s)
  | None => Some (emitEvent eventType event s)
  end.

(** [event["output_index"]] is not a suppressed item's. *)
Definition unless_suppressed (eventType : string) (event : option object) (s : responsesStreamer) : option responsesStreamer :=
  if bool_decide (upstream_index (default ∅ event) ∈ suppressedItems s) then Some s else forwardEvent eventType event s.

(** The progress of the router's tools is part of the standard stream. *)
Definition openWebSearchCallItem (id : string) (action : object) (s : responsesStreamer) : responsesStreamer * Z :=
  let ci := outputIndex s in
  let s := set_indices (ci + 1) (outputIndexMap s) s in
  (emitEvent "response.output_item.added"
     (Some {["type" := JStr "response.output_item.added"; "output_index" := JInt ci;
             "item" := JObj {["id" := JStr id; "type" := JStr "web_search_call"; "status" := JStr "in_progress"; "action" := JObj action]}]}) s, ci).

Definition emitToolCallPhase (eventType itemID : string) (ci : Z) : responsesStreamer -> responsesStreamer :=
  emitEvent eventType (Some {["type" := JStr eventType; "item_id" := JStr itemID; "output_index" := JInt ci]}).

Definition closeWebSearchCallItem (id : string) (ci : Z) (action : object) (status errorCode : string) (pii : option piiCheckResult)
    : responsesStreamer -> responsesStreamer :=
  emitEvent "response.output_item.done"
    (Some {["type" := JStr "response.output_item.done"; "output_index" := JInt ci; "item" := JObj (webSearchCallEvent id status errorCode action pii)]}).

#[export] Instance responses_emitter : toolProgressEmitter responsesStreamer := {|
  base_of := rs_base;
  with_base b s := on_rs_base (fun _ => b) s;
  tp_open id details s := let '(s, ci) := openWebSearchCallItem id details s in (s, MkHandle id ci);
  tp_phase handle phase s := emitToolCallPhase phase (hd_id handle) (hd_outputIndex handle) s;
  tp_close handle toolName details result status reason s :=
    let action :=
      if isRouterSearchToolName toolName && rs_includeActionSources s then
        match toActionSources (tpr_sources result) with [] => details | sources => <["sources" := JArr sources]> details end
      else details in
    closeWebSearchCallItem (hd_id handle) (hd_outputIndex handle) action status reason (tpr_pii result) s
|}.
(** ** One upstream stream *)

(** Where an event leaves the pump: it goes on, with a terminal event seen, or
    it gives up. *)
Inductive event_end := GoesOn (terminal : bool) | GivesUp (err : failure).

Definition record_usage (event : object) (s : responsesStreamer) (r : responsesIterationResult) : responsesStreamer * responsesIterationResult :=
  match extractResponsesUsage event with
  | Some u =>
      (on_rs_base (fun b => set_usage (ToolLoop.Add (b_usageTotals b) (Some {["usage" := JObj u]})) b) (set_aggregatedUsage (Some u) s), with_usage u r)
  | None => (s, r)
  end.

(** The switch on an event's type. *)
Definition handle_event (isFirst : bool) (eventType : string) (event : option object) (s : responsesStreamer) (r : responsesIterationResult)
    : option (responsesStreamer * responsesIterationResult * event_end) :=
  let ev := default ∅ event in
  let on_stream (o : option responsesStreamer) := s ← o; Some (s, r, GoesOn false) in
  if String.eqb eventType "response.created" then Some (if isFirst then ensureResponseCreated s else s, r, GoesOn false)
  else if String.eqb eventType "response.in_progress" then Some (s, r, GoesOn false)
  else if String.eqb eventType "response.output_item.added" then on_stream (handleOutputItemAdded event s)
  else if String.eqb eventType "response.output_item.done" then '(s, r) ← handleOutputItemDone event s r; Some (s, r, GoesOn false)
  else if String.eqb eventType "response.output_text.delta" then Some (handleOutputTextDelta ev s, r, GoesOn false)
  else if String.eqb eventType "response.output_text.done" then on_stream (handleOutputTextDone event s)
  else if String.eqb eventType "response.function_call_arguments.delta" then
    on_stream (unless_suppressed eventType event (handleFunctionCallArgumentsDelta ev s))
  else if String.eqb eventType "response.function_call_arguments.done" then on_stream (unless_suppressed eventType event s)
  else if String.eqb eventType "response.completed" then
    let '(s, r) := record_usage ev s r in Some (s, r, GoesOn true)
  else if String.eqb eventType "response.failed" || String.eqb eventType "response.incomplete" then
    let '(s, r) := record_usage ev s r in
    let message := extractResponsesErrorMessage ev in
    let message := if String.eqb message "" then "upstream response " +:+ eventType else message in
    Some (s, r, GivesUp (newUpstreamJSONError {["message" := JStr message]}))
  else on_stream (forwardEvent eventType event s).

(** The result of a pump: the streamer, the turn's items and the error. *)
Abbreviation pumped := (option (responsesStreamer * responsesIterationResult * option failure)).

(** The frames, one by one; a frame takes a line or more. *)
Fixpoint responses_pump (fuel : nat) (isFirst terminalSeen : bool) (reader : sseReader) (s : responsesStreamer) (r : responsesIterationResult) : pumped :=
  let eof (s : responsesStreamer) (r : responsesIterationResult) : pumped :=
    Some (s, r, if terminalSeen then None else Some (newUpstreamStreamError "upstream stream ended without a terminal response event")) in
  match fuel with
  | O => eof s r
  | S fuel =>
      match b_writeErr (rs_base s) with
      | Some err => Some (s, r, Some (OtherError err))
      | None =>
          match next reader with
          | (inr None, _) => eof s r
          | (inr (Some TooLong), _) => Some (s, r, Some (OtherError "bufio.Scanner: token too long"))
          | (inr (Some (ReadError msg)), _) => Some (s, r, Some (OtherError msg))
          | (inl f, reader) =>
              if bool_decide (f_data f = []) || bool_decide (f_data f = to_bytes "[DONE]") then responses_pump fuel isFirst terminalSeen reader s r
              else
                match se_unmarshal (f_data f) with
                | None => Some (s, r, Some (newUpstreamStreamError "upstream emitted malformed SSE JSON"))
                | Some event =>
                    let ev := default ∅ event in
                    let eventType := if String.eqb (get_string "type" ev) "" then of_bytes (f_event f) else get_string "type" ev in
                    '(s, r, e) ← handle_event isFirst eventType event (captureIdentity ev s) r;
                    match e with
                    | GivesUp err => Some (s, r, Some err)
                    | GoesOn terminal => responses_pump fuel isFirst (terminalSeen || terminal) reader s r
                    end
                end
          end
      end
  end.

Definition responses_runIteration (isFirst : bool) (reqBody : object) (s : responsesStreamer) : pumped :=
  let '(opened, b) := openUpstreamSSE "/v1/responses" reqBody (rs_base s) in
  let s := on_rs_base (fun _ => b) s in
  match opened with
  | inl err => Some (s, noTurn, Some err)
  | inr reader => responses_pump (S (length (r_lines reader))) isFirst false reader (set_argument_buffers ∅ (resetPerIterationState s)) noTurn
  end.

(** ** The end of the stream *)

Definition totalsBillingUsage (s : responsesStreamer) : option object :=
  match Accumulated (b_usageTotals (rs_base s)) with
  | Some totals => Some (responsesUsageMap totals)
  | None => aggregatedUsage s
  end.

(** How a run ends; [None] is a panic. *)
Definition responses_end : Type := option (responsesStreamer * option returned).

Section End.
Context (r : incoming) (modelName : string).

Definition final_usage (result : responsesIterationResult) (s : responsesStreamer) : option object :=
  match Accumulated (b_usageTotals (rs_base s)) with
  | Some totals => Some (responsesUsageMap totals)
  | None => match it_usage result with Some u => Some u | None => aggregatedUsage s end
  end.

(** The snapshot of the whole output, the calls of the router included. *)
Definition completed_output (s : responsesStreamer) : object * nat :=
  attachResponsesOutput e_uuid e_Parse e_Query e_Encode e_Print e_ToLowerText {["output" := JArr (finalOutput s)]} (b_citations (rs_base s))
    (b_toolCalls (rs_base s)) (rs_includeActionSources s) (b_uuids (rs_base s)).

Definition responses_finalize (result : responsesIterationResult) (s : responsesStreamer) : responses_end :=
  let s := ensureResponseCreated s in
  let s := set_emitters ∅ s in
  let usage := final_usage result s in
  let '(completedBody, n) := completed_output s in
  let s := settle_identity (on_rs_base (set_uuids n) s) in
  let completed := envelope "completed" (JArr (default [] (as_array (get "output" completedBody)))) s in
  let completed := match usage with Some u => <["usage" := JObj u]> completed | None => completed end in
  let s := emitEvent "response.completed" (Some (response_event "response.completed" completed)) s in
  b ← set_metrics modelName usage (rs_base s);
  let s := on_rs_base (fun _ => emit_billing r modelName usage b) s in
  Some (s, latched (rs_base s)).

(** The output so far, null when there is none. *)
Definition responses_terminate (err : failure) (s : responsesStreamer) : responsesStreamer * option returned :=
  if negb (b_headersWritten (rs_base s)) then (s, Some (ReturnedError err))
  else
    let s := settle_identity (ensureResponseCreated s) in
    let failed := <["error" := JObj (upstreamErrorPayload err)]> (envelope "failed" (match finalOutput s with [] => JNull | items => JArr items end) s) in
    let s := emitEvent "response.failed" (Some (response_event "response.failed" failed)) s in
    let s := on_rs_base (emit_billing r modelName (totalsBillingUsage s)) s in
    (s, latched (rs_base s)).
End End.

(** ** The run *)

Definition buildResponsesStreamRequest (body : object) (ts : list Tool) (prompt : list PromptMessage) : option object :=
  (fun b => <["stream" := JBool true]> b) <$> buildResponsesUpstreamRequest body ts prompt.

Section Run.
Context (registry : sessionRegistry) (opts : webSearchOptions) (schemas : gmap string Schema) (r : incoming) (modelName : string) (base : object).

(** A turn: the end of the run, or the next request with the input so far.
    Executing a call rewrites the arguments the item was given as an object. *)
Definition responses_turn (isFirst : bool) (reqBody : object) (input : list json) (s : responsesStreamer)
    : responses_end + (object * list json * responsesStreamer) :=
  match responses_runIteration isFirst reqBody s with
  | None => inl None
  | Some (s, result, Some err) => inl (Some (responses_terminate r modelName err s))
  | Some (s, result, None) =>
      match b_writeErr (rs_base s) with
      | Some _ => inl (Some (on_rs_base (emit_billing r modelName (totalsBillingUsage s)) s, None))
      | None =>
          let '(routerToolCalls, clientToolCalls) := splitToolCalls (rs_ownedTools s) (it_toolCalls result) in
          match routerToolCalls with
          | [] => inl (responses_finalize r modelName result s)
          | _ =>
              let '(s, outputs) := run_stream_calls registry opts schemas routerToolCalls s in
              match clientToolCalls with
              | _ :: _ => inl (responses_finalize r modelName result s)
              | [] =>
                  let items := map (rewrite_item (rs_ownedTools s) (fun n args => default args (prepare opts schemas n (Some args)))) (outputItems result) in
                  let input := input ++ normalizeResponsesOutputItems items ++ map output_item outputs in
                  match cloneJSONMap e_float_literal base with
                  | None => inl None
                  | Some reqBody => inr (<["input" := JArr input]> reqBody, input, s)
                  end
              end
          end
      end
  end.

Definition responses_final (reqBody : object) (s : responsesStreamer) : responses_end :=
  finalBody ← forcedFinalResponsesRequest e_float_literal reqBody;
  '(s, result, err) ← responses_runIteration false (<["stream" := JBool true]> finalBody) s;
  match err with
  | Some err => Some (responses_terminate r modelName err s)
  | None => responses_finalize r modelName result s
  end.

Fixpoint responses_turns (budget : nat) (isFirst : bool) (reqBody : object) (input : list json) (s : responsesStreamer) : responses_end :=
  match budget with
  | O => responses_final reqBody s
  | S budget =>
      match responses_turn isFirst reqBody input s with
      | inl res => res
      | inr (reqBody, input, s) => responses_turns budget false reqBody input s
      end
  end.
End Run.

(** [wh] is the writer's header as the caller left it. *)
Definition newResponsesStreamer (r : incoming) (modelName : string) (registry : sessionRegistry) (opts : webSearchOptions) (wh : Header) : responsesStreamer :=
  MkResponses (newBase (String.eqb (header_get (in_header r) UsageMetricsRequestHeader) "true") (isHarmonyModel modelName) wh) false "" 0 false 0 0 ∅ ∅ ∅ ∅ ∅ [] None
    (owned registry) (includeActionSources opts).

Definition runResponsesStreaming (r : incoming) (registry : sessionRegistry) (body : object) (modelName : string) (prompt : list PromptMessage)
    (routerOpts : option RouterOptions) (wh : Header) (flusher : bool) : responses_end :=
  let opts := parseResponsesWebSearchOptions e_ToLower e_ToUpper e_ParseFloat e_int_out_of_range e_parse_day e_parse_rfc3339 e_format_rfc3339 routerOpts body in
  let s := newResponsesStreamer r modelName registry opts wh in
  if negb flusher then Some (s, Some (ReturnedError (OtherError "streaming not supported")))
  else
    base ← buildResponsesStreamRequest body (tools registry) prompt;
    responses_turns registry opts (toolSchemas (tools registry)) r modelName base maxToolIterations true base
      (default [] (as_array (get "input" base))) s.
End Responses.
