(* ===== verification/ResponsesSpec.v ===== *)
(** * What a Responses stream is ([toolruntime/responses_stream.go])

    The invariant every operation of the streamer keeps: the events are numbered
    without a gap, the output items carry fresh indices in order, no call of a
    router-owned tool is shown, the response is created once and nothing terminal
    is sent before the end.  The theorems state it of whole runs. *)

From Stdlib Require Import Ascii.
From S2P Require Import Prelude Float64 Sha256 Strconv Utf8 CacheSalt Json Errors Autoroute TokenCount Billing Headers Coerce Quirks Citations Annotations Sse WebSearch Session Events Prompt ToolLoop ToolLoopRuns Runtime StreamBase StreamToy ResponsesStream.
#[local] Open Scope string_scope.
#[local] Open Scope list_scope.
#[local] Open Scope Z_scope.

(** ** What is observed *)

Definition frame_type (f : frame) : string := match f with EventFrame t _ => t | _ => "" end.
Definition frame_body (f : frame) : option object := match f with EventFrame _ b => b | DataFrame b => Some b | DoneFrame => None end.
Definition bodies (out : list frame) : list object := omap frame_body out.

Definition is_type (t : string) (f : frame) : bool := String.eqb (frame_type f) t.
Definition terminal (f : frame) : bool := is_type "response.completed" f || is_type "response.failed" f.
Definition item_types : list string := ["response.output_item.added"; "response.output_item.done"].

(** The indices of the items announced, in order. *)
Definition announced (out : list frame) : list json :=
  map (get "output_index") (bodies (List.filter (is_type "response.output_item.added") out)).

(** A frame that shows an item shows none of a router-owned call. *)
Definition shows_no_router_call (owned : gset string) (f : frame) : Prop :=
  frame_type f ∈ item_types ->
  match frame_body f with
  | Some m => match get "item" m with JObj item => is_call_item item && bool_decide (get_string "name" item ∈ owned) = false | _ => True end
  | None => True
  end.

(** The fields the invariant is about. *)
Record view := MkView {
  v_out : list frame;
  v_err : option string;
  v_events : list Billing.Event;
  v_sent : bool;
  v_number : Z;
  v_created : bool;
  v_next : Z;
  v_map : gmap Z Z;
  v_owned : gset string
}.

Definition view_of (s : responsesStreamer) : view :=
  MkView (b_out (rs_base s)) (b_writeErr (rs_base s)) (b_events (rs_base s)) (b_headersWritten (rs_base s)) (sequenceNumber s) (responseCreatedEmitted s)
    (outputIndex s) (outputIndexMap s) (rs_ownedTools s).

Definition numbered (out : list frame) : Prop := map (get "sequence_number") (bodies out) = map JInt (seqZ 0 (Z.of_nat (length (bodies out)))).
Definition created_in (out : list frame) : nat := length (List.filter (is_type "response.created") out).

(** [mine]: the tools of the router. *)
Section Spec.
Context (mine : gset string).

Record sound (v : view) : Prop := {
  sd_owned : v_owned v = mine;
  sd_numbered : numbered (v_out v);
  sd_number : v_err v = None -> v_number v = Z.of_nat (length (bodies (v_out v)));
  sd_announced : exists l, announced (v_out v) = map JInt l /\ StronglySorted Z.lt l /\ Forall (fun i => 0 <= i < v_next v) l;
  sd_next : 0 <= v_next v;
  sd_map : map_Forall (fun _ ci => 0 <= ci < v_next v) (v_map v);
  sd_hidden : Forall (shows_no_router_call (v_owned v)) (v_out v);
  sd_created : (created_in (v_out v) <= 1)%nat /\ (v_created v = false -> created_in (v_out v) = 0%nat)
    /\ (v_err v = None -> v_created v = true -> created_in (v_out v) = 1%nat)
}.

(** A stream that has begun and not ended. *)
Record is_open (v : view) : Prop := {
  op_sound : sound v;
  op_quiet : Forall (fun f => terminal f = false) (v_out v);
  op_unbilled : v_events v = [];
  op_sent : v_sent v = true
}.

(** ** Writing an event *)

Definition failed_view (e : string) (n : Z) (v : view) : view :=
  MkView (v_out v) (Some e) (v_events v) (v_sent v) n (v_created v) (v_next v) (v_map v) (v_owned v).
Definition wrote_view (f : frame) (n : Z) (v : view) : view :=
  MkView (v_out v ++ [f]) None (v_events v) (v_sent v) n (v_created v) (v_next v) (v_map v) (v_owned v).
Definition index_view (n : Z) (m : gmap Z Z) (v : view) : view :=
  MkView (v_out v) (v_err v) (v_events v) (v_sent v) (v_number v) (v_created v) n m (v_owned v).
Definition created_view (v : view) : view :=
  MkView (v_out v) (v_err v) (v_events v) (v_sent v) (v_number v) true (v_next v) (v_map v) (v_owned v).

Lemma sound_failed e n v : sound v -> sound (failed_view e n v).
Proof. intros [? ? ? ? ? ? ? (? & ? & ?)]. split; try done. Qed.

Lemma bodies_app a b : bodies (a ++ b) = bodies a ++ bodies b.
Proof. apply omap_app. Qed.

Lemma numbered_snoc out f : numbered out ->
  match frame_body f with Some m => get "sequence_number" m = JInt (Z.of_nat (length (bodies out))) | None => True end -> numbered (out ++ [f]).
Proof.
  unfold numbered. rewrite bodies_app. intros H Hf. unfold bodies at 2 4. cbn [omap list_omap].
  destruct (frame_body f) as [m|]; [|by rewrite !app_nil_r]. rewrite length_app, map_app, H. cbn [length map].
  rewrite Hf. replace (Z.of_nat (length (bodies out) + 1)) with (Z.of_nat (length (bodies out)) + 1) by lia.
  rewrite seqZ_app by lia. rewrite map_app. do 2 f_equal.
Qed.

Lemma announced_app a b : announced (a ++ b) = announced a ++ announced b.
Proof. unfold announced. by rewrite List.filter_app, bodies_app, map_app. Qed.
Lemma announced_other f : is_type "response.output_item.added" f = false -> announced [f] = [].
Proof. unfold announced. cbn [List.filter]. by intros ->. Qed.

Lemma created_app a b : created_in (a ++ b) = (created_in a + created_in b)%nat.
Proof. unfold created_in. by rewrite List.filter_app, length_app. Qed.
Lemma created_other f : is_type "response.created" f = false -> created_in [f] = 0%nat.
Proof. unfold created_in. cbn [List.filter]. by intros ->. Qed.

Lemma wrote_sound f n v : sound v -> v_err v = None ->
  is_type "response.output_item.added" f = false -> is_type "response.created" f = false -> shows_no_router_call (v_owned v) f ->
  match frame_body f with Some m => get "sequence_number" m = JInt (v_number v) /\ n = v_number v + 1 | None => n = v_number v end ->
  sound (wrote_view f n v).
Proof.
  intros [S0 S1 S2 (l & S3 & S3') S4 S5 S6 (S7 & S8 & S9)] He Ha Hc Hh Hb. specialize (S2 He). split; [done|..]; cbn [wrote_view v_out v_err v_number v_next v_map v_owned v_created].
  - apply numbered_snoc; [done|]. destruct (frame_body f); [|done]. destruct Hb as [-> _]. by rewrite S2.
  - intros _. rewrite bodies_app, length_app. unfold bodies at 2. cbn [omap list_omap]. destruct (frame_body f); cbn [length]; lia.
  - exists l. by rewrite announced_app, (announced_other f), app_nil_r.
  - done.
  - done.
  - apply Forall_app. by repeat constructor.
  - rewrite created_app, (created_other f) by done. rewrite Nat.add_0_r. repeat split; auto.
Qed.

Lemma StronglySorted_snoc_lt l x : StronglySorted Z.lt l -> Forall (fun i => 0 <= i < x) l -> StronglySorted Z.lt (l ++ [x]).
Proof.
  induction l as [|y l IH]; intros Hs Hf; [repeat constructor|]. inversion_clear Hs. inversion_clear Hf. cbn. constructor; [by apply IH|].
  apply Forall_app. split; [done|]. repeat constructor. lia.
Qed.

Lemma wrote_announced f n m' v m : sound v -> v_err v = None ->
  f = EventFrame "response.output_item.added" (Some m) -> get "sequence_number" m = JInt (v_number v) -> n = v_number v + 1 ->
  get "output_index" m = JInt (v_next v) -> shows_no_router_call (v_owned v) f -> map_Forall (fun _ ci => 0 <= ci < v_next v + 1) m' ->
  sound (wrote_view f n (index_view (v_next v + 1) m' v)).
Proof.
  intros [S0 S1 S2 (l & S3 & S3' & S3'') S4 S5 S6 (S7 & S8 & S9)] He Hf Hq -> Hi Hh Hm. specialize (S2 He).
  assert (created_in [f] = 0%nat) as Hc by (rewrite Hf; done).
  split; [done|..]; cbn [wrote_view index_view v_out v_err v_number v_next v_map v_owned v_created].
  - apply numbered_snoc; [done|]. rewrite Hf. cbn. by rewrite Hq, S2.
  - intros _. rewrite bodies_app, length_app, Hf. cbn. lia.
  - exists (l ++ [v_next v]). rewrite announced_app, S3, map_app. split_and!.
    + f_equal. rewrite Hf. unfold announced. cbn. by rewrite Hi.
    + by apply StronglySorted_snoc_lt.
    + apply Forall_app. split; [eapply Forall_impl; [exact S3''|]; cbn; lia|]. repeat constructor; lia.
  - lia.
  - done.
  - apply Forall_app. by repeat constructor.
  - rewrite created_app, Hc, Nat.add_0_r. repeat split; auto.
Qed.

Lemma sound_index v n m : sound v -> v_next v <= n -> map_Forall (fun _ ci => 0 <= ci < n) m -> sound (index_view n m v).
Proof.
  intros [S0 S1 S2 (l & S3 & S3' & S3'') S4 S5 S6 S7] Hn Hm. split; try done; cbn [index_view v_next]; [|lia].
  exists l. split_and!; try done. eapply Forall_impl; [exact S3''|]. cbn. lia.
Qed.

Definition stamp (n : Z) (m : object) : object := <["sequence_number" := JInt n]> m.

(** A created event, for a stream without one. *)
Lemma wrote_created m v e : sound v -> v_created v = false ->
  let f := EventFrame "response.created" (Some (stamp (v_number v) m)) in
  (v_err v = None -> sound (wrote_view f (v_number v + 1) (created_view v))) /\ sound (failed_view e (v_number v + 1) (created_view v))
  /\ (v_err v <> None -> sound (created_view v)) /\ sound (failed_view e (v_number v) (created_view v)).
Proof.
  intros [S0 S1 S2 (l & S3) S4 S5 S6 (S7 & S8 & S9)] Hc f. specialize (S8 Hc).
  assert (forall e' n, sound (failed_view e' n (created_view v))) as Hfail.
  { intros e' n. split; try done; by exists l. }
  split_and!; try apply Hfail.
  - intros He. specialize (S2 He). split; [done|..]; cbn [wrote_view created_view v_out v_err v_number v_next v_map v_owned v_created].
    + apply numbered_snoc; [done|]. cbn. unfold stamp. by rewrite get_insert, S2.
    + intros _. rewrite bodies_app, length_app. cbn. lia.
    + exists l. by rewrite announced_app, (announced_other f), app_nil_r.
    + done.
    + done.
    + apply Forall_app. split; [done|]. repeat constructor. intros Ht. exfalso. cbn in Ht. set_solver.
    + rewrite created_app, S8. by cbn.
  - intros He. destruct v as [out [e'|]]; [|done]. apply (Hfail e' v_number0).
Qed.

Section Emitting.
Context {SE : StreamEnv}.

(** What writing an event comes to. *)
Lemma emit_view t body s : let v := view_of s in
  (v_err v <> None /\ view_of (emitEvent t body s) = v)
  \/ (v_err v = None /\ let n := match body with Some _ => v_number v + 1 | None => v_number v end in
      (exists e, view_of (emitEvent t body s) = failed_view e n v)
      \/ view_of (emitEvent t body s) = wrote_view (EventFrame t (stamp (v_number v) <$> body)) n v).
Proof.
  cbn zeta. unfold emitEvent. cbn [view_of v_err]. destruct (b_writeErr (rs_base s)) as [e|] eqn:Ee; [by left|right; split; [done|]].
  assert (forall f s', b_writeErr (rs_base s') = None -> (exists e, view_of (on_rs_base (write_frame f) s') = failed_view e (sequenceNumber s') (view_of s'))
    \/ view_of (on_rs_base (write_frame f) s') = wrote_view f (sequenceNumber s') (view_of s')) as Hw.
  { intros f s' Hs'. unfold view_of, on_rs_base, write_frame. cbn [rs_base sequenceNumber responseCreatedEmitted outputIndex outputIndexMap rs_ownedTools].
    rewrite Hs'. destruct (se_write _); [left; eexists; reflexivity|by right]. }
  destruct body as [m|]; [|by apply Hw]. cbn [fmap option_fmap option_map]. fold (stamp (sequenceNumber s) m).
  set (s1 := set_sequence (sequenceNumber s + 1) s). unfold emit_encoded.
  destruct (encodable e_float_literal (JObj (stamp (sequenceNumber s) m))) eqn:Een.
  - replace (view_of (on_rs_base _ s1)) with (view_of (on_rs_base (write_frame (EventFrame t (Some (stamp (sequenceNumber s) m)))) s1)).
    + apply (Hw _ s1 Ee).
    + unfold view_of, on_rs_base. cbn [rs_base]. change (rs_base s1) with (rs_base s). by rewrite Ee.
  - left. exists "json". unfold view_of, on_rs_base. cbn [rs_base]. change (rs_base s1) with (rs_base s). by rewrite Ee.
Qed.

(** An event that is neither a creation nor an announcement. *)
Lemma emit_sound t body s : sound (view_of s) -> t <> "response.created" -> t <> "response.output_item.added" ->
  (t = "response.output_item.done" -> shows_no_router_call (rs_ownedTools s) (EventFrame t body)) -> sound (view_of (emitEvent t body s)).
Proof.
  intros Hs H1 H2 H3. destruct (emit_view t body s) as [[_ ->]|[He [[e ->]| ->]]]; [done|by apply sound_failed|].
  apply wrote_sound; try done.
  - by apply String.eqb_neq.
  - by apply String.eqb_neq.
  - cbn [view_of v_owned]. intros Ht. cbn in Ht. unfold item_types in Ht. assert (t = "response.output_item.done") as Hd by set_solver.
    specialize (H3 Hd). specialize (H3 ltac:(by apply Ht)). cbn in H3 |- *. destruct body as [m|]; [|done]. cbn [fmap option_fmap option_map].
    unfold stamp. by rewrite get_insert_ne.
  - destruct body; [|done]. cbn. split; [|done]. unfold stamp. by rewrite get_insert.
Qed.
(** *** The open stream *)

Definition fixed_types : list string := ["response.created"; "response.output_item.added"; "response.completed"; "response.failed"].

Lemma open_same v v' : is_open v -> v_out v' = v_out v -> v_events v' = v_events v -> v_sent v' = v_sent v -> sound v' -> is_open v'.
Proof. intros [? ? ? ?] Ho Hb Hs ?. split; congruence. Qed.

Lemma open_wrote f n v : is_open v -> terminal f = false -> sound (wrote_view f n v) -> is_open (wrote_view f n v).
Proof. intros [? Hq ? ?] Ht Hs. split; try done. cbn. apply Forall_app. split; [done|]. by repeat constructor. Qed.

Lemma emit_open t body s : is_open (view_of s) -> t ∉ fixed_types ->
  (t = "response.output_item.done" -> shows_no_router_call (rs_ownedTools s) (EventFrame t body)) -> is_open (view_of (emitEvent t body s)).
Proof.
  intros Ho Ht Hh. assert (t <> "response.created" /\ t <> "response.output_item.added" /\ t <> "response.completed" /\ t <> "response.failed") as (H1 & H2 & H3 & H4)
    by (unfold fixed_types in Ht; set_solver).
  pose proof (emit_sound t body s (op_sound _ Ho) H1 H2 Hh) as Hs.
  destruct (emit_view t body s) as [[_ E]|[_ [[e E]|E]]]; rewrite E in Hs |- *.
  - done.
  - by eapply open_same.
  - apply open_wrote; [done| |done]. unfold terminal, is_type. cbn [frame_type]. by rewrite !(proj2 (String.eqb_neq _ _)).
Qed.

Lemma emit_announced m m' s : is_open (view_of s) -> get "output_index" m = JInt (outputIndex s) ->
  shows_no_router_call (rs_ownedTools s) (EventFrame "response.output_item.added" (Some m)) -> map_Forall (fun _ ci => 0 <= ci < outputIndex s + 1) m' ->
  is_open (view_of (emitEvent "response.output_item.added" (Some m) (set_indices (outputIndex s + 1) m' s))).
Proof.
  intros Ho Hi Hh Hm. set (s1 := set_indices (outputIndex s + 1) m' s). change (outputIndex s) with (v_next (view_of s)) in *.
  assert (view_of s1 = index_view (v_next (view_of s) + 1) m' (view_of s)) as E1 by done.
  assert (is_open (view_of s1)) as Ho1.
  { eapply open_same; [exact Ho|done|done|done|]. rewrite E1. apply sound_index; [by apply op_sound|lia|done]. }
  destruct (emit_view "response.output_item.added" (Some m) s1) as [[_ E]|[He [[e E]|E]]]; rewrite E.
  - done.
  - eapply open_same; [exact Ho1|done..|]. by apply sound_failed, op_sound.
  - apply open_wrote; [done|done|]. rewrite E1. eapply wrote_announced; try done.
    + by apply op_sound.
    + unfold stamp. by rewrite get_insert.
    + unfold stamp. by rewrite get_insert_ne.
    + intros Ht. specialize (Hh Ht). cbn in Hh |- *. unfold stamp. by rewrite get_insert_ne.
Qed.

Lemma open_indices s n m : is_open (view_of s) -> outputIndex s <= n -> map_Forall (fun _ ci => 0 <= ci < n) m -> is_open (view_of (set_indices n m s)).
Proof.
  intros Ho Hn Hm. eapply open_same; [exact Ho|done..|]. change (view_of (set_indices n m s)) with (index_view n m (view_of s)).
  by apply sound_index; [apply op_sound|..].
Qed.

Lemma map_index_insert s k : is_open (view_of s) -> map_Forall (fun _ ci => 0 <= ci < outputIndex s + 1) (<[k := outputIndex s]> (outputIndexMap s)).
Proof.
  intros [[_ _ _ _ Hn Hm _ _] _ _ _]. cbn in *. intros k' ci. destruct (decide (k' = k)) as [->|]; [rewrite lookup_insert_eq; intros [= <-]; lia|].
  rewrite lookup_insert_ne by done. intros H. specialize (Hm _ _ H). cbn in Hm. lia.
Qed.

Lemma client_index_open k s : is_open (view_of s) -> is_open (view_of (client_index k s).2).
Proof.
  intros Ho. unfold client_index. destruct (outputIndexMap s !! k); [done|]. cbn [snd]. apply open_indices; [done|lia|by apply map_index_insert].
Qed.

Lemma client_index_owned k s : rs_ownedTools (client_index k s).2 = rs_ownedTools s.
Proof. unfold client_index. by destruct (outputIndexMap s !! k). Qed.

(** *** Copies *)

Lemma clone_fields event m : clone_event event = Some m -> exists ev, event = Some ev /\ m = reread e_float_literal <$> ev.
Proof.
  unfold clone_event. destruct event as [ev|]; [|done]. cbn [mbind option_bind]. intros ->%cloneJSONMap_Some. by exists ev.
Qed.

(** A copy shows what the event shows. *)
Lemma copy_hidden owned t ev k v : k <> "item" ->
  (match get "item" ev with JObj item => is_call_item item && bool_decide (get_string "name" item ∈ owned) = false | _ => True end) ->
  shows_no_router_call owned (EventFrame t (Some (<[k := v]> (reread e_float_literal <$> ev)))).
Proof.
  intros Hk Hi _. cbn. rewrite get_insert_ne, get_reread by done. destruct (get "item" ev) as [| | | | | |l|item]; try done.
  rewrite reread_obj. unfold is_call_item. rewrite !reread_string_field. done.
Qed.

Lemma emit_copy_open t ci event s s' : is_open (view_of s) -> t ∉ fixed_types ->
  (t = "response.output_item.done" ->
   match get "item" (default ∅ event) with JObj item => is_call_item item && bool_decide (get_string "name" item ∈ rs_ownedTools s) = false | _ => True end) ->
  emit_copy t ci event s = Some s' -> is_open (view_of s').
Proof.
  intros Ho Ht Hi. unfold emit_copy. destruct (clone_event event) as [m|] eqn:Em; [|done]. cbn [mbind option_bind]. intros [= <-].
  apply clone_fields in Em as (ev & -> & ->). apply emit_open; [done..|]. intros Hd. apply copy_hidden; [done|]. by apply Hi.
Qed.
End Emitting.

(** ** The operations *)

Section Operations.
Context {SE : StreamEnv}.

Lemma settle_view s : view_of (settle_identity s) = view_of s
  \/ (v_err (view_of s) = None /\ exists e, view_of (settle_identity s) = failed_view e (v_number (view_of s)) (view_of s)).
Proof.
  assert (view_of (streamResponseID s) = view_of s) as E1 by (unfold streamResponseID; by destruct (String.eqb _ _)).
  assert (view_of (streamCreatedAt (streamResponseID s)) = view_of (streamResponseID s)) as E2 by (unfold streamCreatedAt; by destruct (_ =? _)).
  rewrite <- E1, <- E2. unfold settle_identity, responses_streamModel. set (s1 := streamCreatedAt _). clearbody s1.
  unfold validateStreamModel, view_of, on_rs_base. cbn [rs_base snd v_err v_number]. destruct (b_writeErr (rs_base s1)) eqn:Ee; [left; by rewrite Ee|].
  destruct (String.eqb _ _); [right; split; [done|by eexists]|left; by rewrite Ee].
Qed.

Lemma settle_open s : is_open (view_of s) -> is_open (view_of (settle_identity s)).
Proof.
  intros Ho. destruct (settle_view s) as [->|[_ [e ->]]]; [done|]. eapply open_same; [exact Ho|done..|]. by apply sound_failed, op_sound.
Qed.

Lemma ensure_open s : is_open (view_of s) -> is_open (view_of (ensureResponseCreated s)).
Proof.
  intros Ho. unfold ensureResponseCreated. destruct (responseCreatedEmitted s) eqn:Ec; [done|]. cbn zeta.
  set (s1 := settle_identity (mark_created s)). set (m := response_event _ _). clearbody m.
  pose proof (fun e => wrote_created m (view_of s) e (op_sound _ Ho) Ec) as Hw.
  assert (view_of (mark_created s) = created_view (view_of s)) as Em by done.
  assert (forall v', sound v' -> v_out v' = v_out (view_of s) -> v_events v' = [] -> v_sent v' = true -> is_open v') as Hsame.
  { intros v' H1 H2 H3 H4. eapply open_same; [exact Ho|done|..|done]; [by rewrite H3; symmetry; apply op_unbilled|by rewrite H4; symmetry; apply op_sent]. }
  pose proof (op_unbilled _ Ho) as Hb. pose proof (op_sent _ Ho) as Hsent.
  destruct (settle_view (mark_created s)) as [Es|[He [e Es]]]; fold s1 in Es; rewrite Em in *.
  - destruct (emit_view "response.created" (Some m) s1) as [[He E]|[He [[e E]|E]]]; rewrite E, Es in *.
    + apply Hsame; try done. by apply (Hw "").
    + apply Hsame; try done. apply Hw.
    + split; [by apply (Hw "")| |done|done]. cbn. apply Forall_app. split; [exact (op_quiet _ Ho)|]. by repeat constructor.
  - destruct (emit_view "response.created" (Some m) s1) as [[He' E]|[He' _]]; [|by rewrite Es in He'].
    rewrite E, Es. apply Hsame; try done. apply Hw.
Qed.
Lemma not_owned item s : isRouterOwnedToolItem (as_object item) s = false ->
  match item with JObj item => is_call_item item && bool_decide (get_string "name" item ∈ rs_ownedTools s) = false | _ => True end.
Proof. by destruct item. Qed.

Lemma added_open event s s' : is_open (view_of s) -> handleOutputItemAdded event s = Some s' -> is_open (view_of s').
Proof.
  intros Ho. unfold handleOutputItemAdded. destruct (isRouterOwnedToolItem _ s) eqn:Eo; [by intros [= <-]|]. unfold emit_copy.
  destruct (clone_event event) as [m|] eqn:Em; [|done]. cbn [mbind option_bind]. intros [= <-]. apply clone_fields in Em as (ev & -> & ->).
  apply emit_announced; [done|by rewrite get_insert| |by apply map_index_insert]. apply copy_hidden; [done|]. by apply not_owned.
Qed.

Lemma complete_item k item s : get_string "type" (complete_arguments k item s) = get_string "type" item
  /\ get_string "name" (complete_arguments k item s) = get_string "name" item.
Proof.
  unfold complete_arguments. destruct (functionCallArguments s !! k); [|done]. destruct (_ && _); [|done]. unfold get_string. by rewrite !get_insert_ne.
Qed.

Lemma done_open event s r s' r' : is_open (view_of s) -> handleOutputItemDone event s r = Some (s', r') -> is_open (view_of s').
Proof.
  intros Ho. unfold handleOutputItemDone. set (ev := default ∅ event). set (k := upstream_index ev).
  destruct (isRouterOwnedToolItem _ s) eqn:Eo.
  { unfold take_router_call. match goal with |- context [let '(_, _) := ?p in _] => destruct p as [args item] end. by intros [= <- _]. }
  case_bool_decide; [by intros [= <- _]|].
  set (is_call := match as_object _ with Some _ => _ | None => _ end).
  set (s1 := if is_call then set_argument_buffers (delete k (functionCallArguments s)) s else s).
  set (item := if is_call then _ <$> _ else _). set (event1 := match item with Some o => <["item" := JObj o]> <$> event | None => event end).
  assert (view_of s1 = view_of s) as E1 by (subst s1; by destruct is_call). assert (rs_ownedTools s1 = rs_ownedTools s) as W1 by (subst s1; by destruct is_call).
  destruct (client_index k s1) as [ci s2] eqn:Ei. assert (is_open (view_of s2)) as Ho2.
  { pose proof (client_index_open k s1 ltac:(by rewrite E1)) as H'. by rewrite Ei in H'. }
  assert (rs_ownedTools s2 = rs_ownedTools s) as W2 by (rewrite <- W1, <- (client_index_owned k s1), Ei; done).
  destruct (emit_copy _ ci event1 s2) as [s3|] eqn:Ec; [|done]. cbn [mbind option_bind]. intros [= <- _].
  change (is_open (view_of s3)). eapply emit_copy_open; [exact Ho2| | |exact Ec]; [unfold fixed_types; set_solver|]. intros _. rewrite W2.
  apply not_owned in Eo. subst event1 item is_call. destruct (get "item" ev) as [| | | | | | |o] eqn:Eg; cbn [as_object];
    try (fold ev; by rewrite Eg).
  destruct (is_call_item o) eqn:Eco; cbn [fmap option_fmap option_map].
  - destruct event as [ev'|]; [|done]. match goal with |- context [default ∅ (?f <$> Some ?x)] => change (default ∅ (f <$> Some x)) with (f x) end.
    rewrite get_insert.
    destruct (complete_item k o s) as [Ht Hn]. unfold is_call_item in *. by rewrite Ht, Hn, Eco.
  - destruct event as [ev'|]; [|done]. match goal with |- context [default ∅ (?f <$> Some ?x)] => change (default ∅ (f <$> Some x)) with (f x) end.
    rewrite get_insert. by rewrite Eco.
Qed.

Lemma annotations_open matches ci itemID contentIndex : forall s, is_open (view_of s) -> is_open (view_of (emitAnnotationEvents matches ci itemID contentIndex s)).
Proof.
  unfold emitAnnotationEvents. induction matches as [|m matches IH]; intros s Ho; [done|]. cbn [foldl]. apply IH.
  apply emit_open; [done|unfold fixed_types; set_solver|done].
Qed.

Lemma release_open released ci itemID contentIndex s : is_open (view_of s) -> is_open (view_of (release_text released ci itemID contentIndex s)).
Proof.
  intros Ho. unfold release_text. destruct released as [[[e out] anns]|]; [|done]. apply annotations_open. destruct out; [done|].
  apply emit_open; [done|unfold fixed_types; set_solver|done].
Qed.

Lemma text_delta_open event s : is_open (view_of s) -> is_open (view_of (handleOutputTextDelta event s)).
Proof.
  intros Ho. unfold handleOutputTextDelta. case_bool_decide; [done|]. pose proof (client_index_open (upstream_index event) s Ho) as H'.
  destruct (client_index _ s) as [ci s1]. by apply release_open.
Qed.

Lemma text_done_open event s s' : is_open (view_of s) -> handleOutputTextDone event s = Some s' -> is_open (view_of s').
Proof.
  intros Ho. unfold handleOutputTextDone. case_bool_decide; [by intros [= <-]|]. pose proof (client_index_open (upstream_index (default ∅ event)) s Ho) as H'.
  destruct (client_index _ s) as [ci s1]. cbn [snd] in H'. apply emit_copy_open; [|unfold fixed_types; set_solver|done].
  destruct (emitters s1 !! _); [|done].
  match goal with |- is_open (view_of (set_emitters _ ?x)) => change (is_open (view_of x)) end. by apply release_open.
Qed.

Lemma forward_open t event s s' : is_open (view_of s) -> t ∉ fixed_types -> t <> "response.output_item.done" ->
  forwardEvent t event s = Some s' -> is_open (view_of s').
Proof.
  intros Ho Ht Hd. unfold forwardEvent. assert (is_open (view_of (emitEvent t event s))) as He by (by apply emit_open).
  destruct event as [m|]; [|by intros [= <-]]. case_bool_decide; [|by intros [= <-]]. case_bool_decide; [by intros [= <-]|].
  destruct (outputIndexMap s !! _); [|by intros [= <-]]. by apply emit_copy_open.
Qed.
Lemma usage_view ev s r : view_of (record_usage ev s r).1 = view_of s.
Proof. unfold record_usage. by destruct (extractResponsesUsage ev). Qed.

Lemma capture_view ev s : view_of (captureIdentity ev s) = view_of s.
Proof.
  unfold captureIdentity. destruct (response_of ev) as [m|]; [|done]. destruct (_ && _), (_ && _), (_ && _); done.
Qed.

Lemma handle_open isFirst t event s r s' r' e : is_open (view_of s) -> handle_event isFirst t event s r = Some (s', r', e) -> is_open (view_of s').
Proof.
  intros Ho. unfold handle_event.
  assert (forall o, (forall x, o = Some x -> is_open (view_of x)) -> (s0 ← o; Some (s0, r, GoesOn false)) = Some (s', r', e) -> is_open (view_of s')) as Hs.
  { intros [x|] Hx; [|done]. cbn [mbind option_bind]. intros [= <- _ _]. by apply Hx. }
  destruct (String.eqb_spec t "response.created"); [intros [= <- _ _]; destruct isFirst; [by apply ensure_open|done]|].
  destruct (String.eqb_spec t "response.in_progress"); [by intros [= <- _ _]|].
  destruct (String.eqb_spec t "response.output_item.added"); [apply Hs; intros x; by apply added_open|].
  destruct (String.eqb_spec t "response.output_item.done").
  { destruct (handleOutputItemDone event s r) as [[s1 r1]|] eqn:E; [|done]. cbn [mbind option_bind]. intros [= <- _ _]. by eapply done_open. }
  destruct (String.eqb_spec t "response.output_text.delta"); [intros [= <- _ _]; by apply text_delta_open|].
  destruct (String.eqb_spec t "response.output_text.done"); [apply Hs; intros x; by apply text_done_open|].
  assert (forall s0 x, view_of s0 = view_of s -> t <> "response.completed" -> t <> "response.failed" -> unless_suppressed t event s0 = Some x -> is_open (view_of x)) as Hu.
  { intros s0 x E0 H1 H2. unfold unless_suppressed. rewrite <- E0 in Ho. case_bool_decide; [by intros [= <-]|]. apply forward_open; try done.
    unfold fixed_types. set_solver. }
  destruct (String.eqb_spec t "response.function_call_arguments.delta").
  { apply Hs. intros x. subst t. apply Hu; try done. unfold handleFunctionCallArgumentsDelta. by destruct (String.eqb _ _). }
  destruct (String.eqb_spec t "response.function_call_arguments.done"); [apply Hs; intros x; subst t; by apply Hu|].
  pose proof (usage_view (default ∅ event) s r) as Hr. destruct (record_usage _ s r) as [s1 r1]. cbn [fst] in Hr.
  destruct (String.eqb_spec t "response.completed"); [intros [= <- _ _]; by rewrite Hr|].
  destruct (String.eqb_spec t "response.failed"); cbn [orb]; [intros [= <- _ _]; by rewrite Hr|].
  destruct (String.eqb_spec t "response.incomplete"); [intros [= <- _ _]; by rewrite Hr|].
  apply Hs. intros x. apply forward_open; try done. unfold fixed_types. set_solver.
Qed.

Lemma pump_open isFirst : forall fuel terminalSeen reader s r s' r' e, is_open (view_of s) ->
  responses_pump fuel isFirst terminalSeen reader s r = Some (s', r', e) -> is_open (view_of s').
Proof.
  induction fuel as [|fuel IH]; intros seen reader s r s' r' e Ho; cbn [responses_pump]; [by intros [= <- _ _]|].
  destruct (b_writeErr (rs_base s)); [by intros [= <- _ _]|]. destruct (next reader) as [[f|[[|]|]] reader']; try by intros [= <- _ _].
  destruct (_ || _); [by apply IH|]. destruct (se_unmarshal (f_data f)) as [event|]; [|by intros [= <- _ _]]. cbn zeta.
  destruct (handle_event _ _ event _ r) as [[[s1 r1] e1]|] eqn:Eh; [|done]. cbn [mbind option_bind].
  apply handle_open in Eh; [|by rewrite capture_view]. destruct e1; [by apply IH|by intros [= <- _ _]].
Qed.

(** A stream nothing has been written to. *)
Record unopened (v : view) : Prop := {
  un_owned : v_owned v = mine;
  un_out : v_out v = [];
  un_err : v_err v = None;
  un_events : v_events v = [];
  un_sent : v_sent v = false;
  un_number : v_number v = 0;
  un_created : v_created v = false;
  un_next : v_next v = 0;
  un_map : v_map v = ∅
}.

Definition sent_view (v : view) : view :=
  MkView (v_out v) (v_err v) (v_events v) true (v_number v) (v_created v) (v_next v) (v_map v) (v_owned v).

Lemma unopened_open v : unopened v -> is_open (sent_view v).
Proof.
  intros [E0 E1 E2 E3 E4 E5 E6 E7 E8]. destruct v; cbn in *; subst. split; [split| | |]; cbn; try done; [by exists []; repeat constructor|lia..].
Qed.

Lemma open_sse_view path reqBody s : let '(opened, b) := openUpstreamSSE path reqBody (rs_base s) in
  let s' := on_rs_base (fun _ => b) s in
  match opened with inl _ => view_of s' = view_of s | inr _ => view_of s' = sent_view (view_of s) end.
Proof.
  unfold openUpstreamSSE. destruct (se_open _ _ _) as [msg|resp]; [done|]. destruct (_ || _); [done|]. cbn zeta.
  unfold view_of, sent_view, on_rs_base. cbn [rs_base]. destruct (b_headersWritten _) eqn:E; cbn; [by rewrite <- E|done].
Qed.

Lemma iteration_view isFirst reqBody s s' r e : unopened (view_of s) \/ is_open (view_of s) ->
  responses_runIteration isFirst reqBody s = Some (s', r, e) ->
  is_open (view_of s') \/ (unopened (view_of s') /\ e <> None).
Proof.
  intros Hs. unfold responses_runIteration. pose proof (open_sse_view "/v1/responses" reqBody s) as Hv. destruct (openUpstreamSSE _ _ _) as [opened b].
  cbn zeta in Hv |- *. destruct opened as [err|reader].
  - intros [= <- _ <-]. rewrite Hv. destruct Hs; [by right|by left].
  - intros Hp. left. eapply pump_open; [|exact Hp].
    match goal with |- is_open ?v => change v with (index_view (v_next (view_of (on_rs_base (fun _ => b) s))) ∅ (view_of (on_rs_base (fun _ => b) s))) end.
    assert (is_open (view_of (on_rs_base (fun _ => b) s))) as Ho.
    { rewrite Hv. destruct Hs as [Hs|Hs]; [by apply unopened_open|]. destruct Hs as [[] ? ? Hsent]. destruct (view_of s); cbn in *; subst. by split; [split| | |]. }
    eapply open_same; [exact Ho|done..|]. apply sound_index; [by apply op_sound|lia|done].
Qed.
(** *** The router's tools *)

Lemma item_open id details s : is_open (view_of s) -> is_open (view_of (tp_open id details s).1).
Proof.
  intros Ho. cbn [tp_open responses_emitter]. unfold openWebSearchCallItem. cbn [fst]. apply emit_announced; [done|done| |].
  - by intros _.
  - intros k ci Hk. pose proof (sd_map _ (op_sound _ Ho) k ci Hk) as H. cbn in *. lia.
Qed.

Lemma phase_open handle t s : is_open (view_of s) -> t ∉ fixed_types -> is_open (view_of (tp_phase handle t s)).
Proof. intros Ho Ht. cbn [tp_phase responses_emitter]. apply emit_open; [done|done|]. by intros _ _. Qed.

Lemma close_open handle n details result status reason s : is_open (view_of s) -> is_open (view_of (tp_close handle n details result status reason s)).
Proof.
  intros Ho. cbn [tp_close responses_emitter]. apply emit_open; [done|unfold fixed_types; set_solver|]. intros _ _. cbn [frame_body].
  match goal with |- context [get "item" ?m] => assert (exists a, get "item" m = JObj (webSearchCallEvent (hd_id handle) status reason a (tpr_pii result))) as [a ->]
    by (eexists; reflexivity) end.
  unfold is_call_item, webSearchCallEvent. by rewrite set_some_type.
Qed.

Lemma phases_plain t : Forall (fun p => p ∉ fixed_types) (preCallPhases (toolPhasesFor t)) /\ completedPhase (toolPhasesFor t) ∉ fixed_types.
Proof.
  unfold toolPhasesFor, toolPhaseConfigs, fixed_types. destruct (String.eqb _ "search"); [|destruct (String.eqb _ "fetch")]; cbn [preCallPhases completedPhase];
    (split; [repeat constructor; set_solver|set_solver]).
Qed.

Lemma pre_phases_open handle ps : forall s, Forall (fun p => p ∉ fixed_types) ps -> is_open (view_of s) ->
  is_open (view_of (foldl (fun s phase => tp_phase handle phase s) s ps)).
Proof. induction ps as [|p ps IH]; intros s Hp Ho; [done|]. inversion_clear Hp. cbn [foldl]. apply IH; [done|]. by apply phase_open. Qed.

Lemma call_server_view session n dispatch args (s : responsesStreamer) : view_of (call_server session n dispatch args s).1.1.1 = view_of s.
Proof.
  unfold call_server. cbn zeta. destruct (callTool _ _ _ _) as [[output structured] [err|]]; [done|].
  by destruct (applyStructuredFormat _ _ _ _).
Qed.

Lemma single_open session call args dispatch phases details (s : responsesStreamer) : is_open (view_of s) ->
  Forall (fun p => p ∉ fixed_types) (preCallPhases phases) -> completedPhase phases ∉ fixed_types ->
  is_open (view_of (executeSingleToolWithProgress session call args dispatch phases details s).1.1).
Proof.
  intros Ho Hp Hc. unfold executeSingleToolWithProgress. cbn [draw_id]. set (s1 := on_base draw s). assert (is_open (view_of s1)) as H1 by done.
  pose proof (item_open (idPrefix phases +:+ e_uuid (b_uuids (base_of s))) details s1 H1) as H2. destruct (tp_open _ details s1) as [s2 handle]. cbn [fst] in H2.
  pose proof (pre_phases_open handle _ s2 Hp H2) as H3. set (s3 := foldl _ s2 _) in *. pose proof (call_server_view session (name call) dispatch args s3) as H4.
  destruct (call_server _ _ _ _ s3) as [[[s4 output] structured] err]. cbn [fst] in H4. rewrite <- H4 in H3.
  destruct err; cbn [fst]; apply close_open; [done|]. by apply phase_open.
Qed.

Lemma pages_open phases urls : forall s : responsesStreamer, is_open (view_of s) -> Forall (fun p => p ∉ fixed_types) (preCallPhases phases) ->
  is_open (view_of (open_pages phases urls s).1).
Proof.
  induction urls as [|u urls IH]; intros s Ho Hp; [done|]. cbn [open_pages draw_id]. set (s1 := on_base draw s). assert (is_open (view_of s1)) as H1 by done.
  pose proof (item_open (idPrefix phases +:+ e_uuid (b_uuids (base_of s))) (open_page_action u) s1 H1) as H2. destruct (tp_open _ _ s1) as [s2 handle]. cbn [fst] in H2.
  pose proof (pre_phases_open handle _ s2 Hp H2) as H3. specialize (IH _ H3 Hp). destruct (open_pages phases urls _) as [s4 handles]. done.
Qed.

Lemma foldl_open {B} (f : responsesStreamer -> B -> responsesStreamer) l : (forall s x, is_open (view_of s) -> is_open (view_of (f s x))) ->
  forall s, is_open (view_of s) -> is_open (view_of (foldl f s l)).
Proof. intros Hf. induction l as [|x l IH]; intros s Ho; [done|]. cbn [foldl]. apply IH. by apply Hf. Qed.

Lemma plain_open session call args dispatch (s : responsesStreamer) : is_open (view_of s) -> is_open (view_of (plain_call session call args dispatch s).1.1).
Proof.
  intros Ho. unfold plain_call. pose proof (call_server_view session (name call) dispatch args s) as H.
  destruct (call_server _ _ _ _ s) as [[[s4 output] structured] [err|]]; cbn [fst] in *; by rewrite H.
Qed.

Lemma fetch_open session call args dispatch phases (s : responsesStreamer) : is_open (view_of s) ->
  Forall (fun p => p ∉ fixed_types) (preCallPhases phases) -> completedPhase phases ∉ fixed_types ->
  is_open (view_of (executeFetchWithProgress session call args dispatch phases s).1.1).
Proof.
  intros Ho Hp Hc. unfold executeFetchWithProgress. destruct (fetchArgumentURLs _) as [|u urls]; [by apply plain_open|].
  pose proof (pages_open phases (u :: urls) s Ho Hp) as H1. destruct (open_pages _ _ s) as [s1 handles]. cbn [fst] in H1.
  pose proof (call_server_view session (name call) dispatch args s1) as H2. destruct (call_server _ _ _ _ s1) as [[[s2 output] structured] [err|]]; cbn [fst] in *;
    (apply foldl_open; [|by rewrite H2]); intros s' h Hs'; apply close_open; [done|by apply phase_open].
Qed.

Lemma resolve_open registry call opts schemas (s : responsesStreamer) : is_open (view_of s) ->
  is_open (view_of (resolveStreamingRouterToolCall registry call opts schemas s).1).
Proof.
  intros Ho. unfold resolveStreamingRouterToolCall. cbn zeta. set (args := prepare _ _ _ _).
  assert (is_open (view_of (executeToolWithProgress registry call args s).1.1)) as H.
  { unfold executeToolWithProgress. destruct (sessionFor _ _); [|done]. destruct (phases_plain (name call)) as [Hp Hc].
    destruct (isRouterSearchToolName _); [by apply single_open|]. destruct (isRouterFetchToolName _); [by apply fetch_open|by apply plain_open]. }
  destruct (executeToolWithProgress _ _ _ s) as [[s1 execution] [err|]]; done.
Qed.

Lemma run_calls_open registry opts schemas calls : forall s : responsesStreamer, is_open (view_of s) ->
  is_open (view_of (run_stream_calls registry opts schemas calls s).1).
Proof.
  induction calls as [|call calls IH]; intros s Ho; [done|]. cbn [run_stream_calls]. pose proof (resolve_open registry call opts schemas s Ho) as H1.
  destruct (resolveStreamingRouterToolCall _ _ _ _ s) as [s1 output]. cbn [fst] in H1. specialize (IH s1 H1).
  by destruct (run_stream_calls _ _ _ _ s1) as [s2 outputs].
Qed.
(** *** The end *)

(** A stream that has ended, unless a write failed with its terminal event. *)
Record ended (v : view) : Prop := {
  en_sound : sound v;
  en_sent : v_sent v = true;
  en_end : exists pre tail, v_out v = pre ++ tail /\ Forall (fun f => terminal f = false) pre /\ (tail = [] \/ exists f, tail = [f] /\ terminal f = true);
  en_complete : v_err v = None -> created_in (v_out v) = 1%nat /\ exists pre f, v_out v = pre ++ [f] /\ terminal f = true
}.

Lemma open_ended v : is_open v -> v_err v <> None -> ended v.
Proof. intros [Hs Hq _ Hsent] He. split; [done|done| |done]. exists (v_out v), []. rewrite app_nil_r. split_and!; [done|done|by left]. Qed.

Lemma emit_terminal t body s : is_open (view_of s) -> responseCreatedEmitted s = true -> t = "response.completed" \/ t = "response.failed" ->
  ended (view_of (emitEvent t body s)) /\ v_events (view_of (emitEvent t body s)) = [].
Proof.
  intros Ho Hc Ht. assert (sound (view_of (emitEvent t body s))) as Hs.
  { apply emit_sound; [by apply op_sound|by destruct Ht as [-> | ->]..|]. by destruct Ht as [-> | ->]. }
  assert (forall b, terminal (EventFrame t b) = true) as Hterm by (intros b; by destruct Ht as [-> | ->]).
  pose proof (op_quiet _ Ho) as Hq. pose proof (op_sent _ Ho) as Hsent. pose proof (op_unbilled _ Ho) as Hb.
  destruct (emit_view t body s) as [[He E]|[He [[e E]|E]]]; rewrite E in Hs |- *.
  - split; [by apply open_ended|done].
  - split; [|done]. split; [done|done| |done]. exists (v_out (view_of s)), []. rewrite app_nil_r. split_and!; [done|done|by left].
  - split; [|done]. split; [done|done| |].
    + do 2 eexists. split; [reflexivity|]. split; [done|]. right. by eexists.
    + intros _. split; [|do 2 eexists; split; [reflexivity|done]]. pose proof (proj2 (proj2 (sd_created _ Hs))) as Hc'. by apply Hc'.
Qed.

Lemma ensure_emitted s : responseCreatedEmitted (ensureResponseCreated s) = true.
Proof.
  unfold ensureResponseCreated. destruct (responseCreatedEmitted s) eqn:E; [done|]. cbn zeta.
  set (s1 := settle_identity (mark_created s)). set (m := response_event _ _). clearbody m.
  assert (v_created (view_of s1) = true) as H1. { subst s1. by destruct (settle_view (mark_created s)) as [-> |[_ [e ->]]]. }
  change (v_created (view_of (emitEvent "response.created" (Some m) s1)) = true).
  by destruct (emit_view "response.created" (Some m) s1) as [[_ ->]|[_ [[e ->]| ->]]].
Qed.

Lemma settle_emitted s : responseCreatedEmitted (settle_identity s) = responseCreatedEmitted s.
Proof. change (v_created (view_of (settle_identity s)) = v_created (view_of s)). by destruct (settle_view s) as [-> |[_ [e ->]]]. Qed.

Section Ends.
Context (r : incoming) (modelName : string).

(** The one event of a run, for the usage of all its turns when there is any. *)
Definition responses_billed (s : responsesStreamer) : Prop :=
  exists usage h, b_events (rs_base s) = emitBillingEvent se_now r
      (Some (MkResponse (Some {["usage" := match usage with Some u => JObj u | None => JNull end]}) (Some h) 0)) modelName true
    /\ (forall totals, Accumulated (b_usageTotals (rs_base s)) = Some totals -> usage = Some (responsesUsageMap totals)).

(** How a run that has begun ends. *)
Definition ends_well (s : responsesStreamer) (ret : option returned) : Prop :=
  ended (view_of s) /\ responses_billed s /\ (b_writeErr (rs_base s) = None -> ret = None) /\ (ret = None \/ exists e, ret = Some (StreamAborted e)).

Lemma ended_bill usage s : ended (view_of s) -> ended (view_of (on_rs_base (emit_billing r modelName usage) s)).
Proof. intros [[] ? ? ?]. split; [by split|done..]. Qed.

Lemma bill_ends usage s : ended (view_of s) -> b_events (rs_base s) = [] ->
  (forall totals, Accumulated (b_usageTotals (rs_base s)) = Some totals -> usage = Some (responsesUsageMap totals)) ->
  let s' := on_rs_base (emit_billing r modelName usage) s in ends_well s' (latched (rs_base s')).
Proof.
  intros He Hb Hu s'. pose proof (en_sent _ He) as Hsent. pose proof (latched_ends (rs_base s') Hsent) as [H1 H2].
  split_and!; [by apply ended_bill| |done|done]. exists usage, (default ∅ (b_upstreamHeaders (rs_base s))). split; [|exact Hu].
  subst s'. unfold emit_billing, bill, on_rs_base. cbn [rs_base b_events]. by rewrite Hb.
Qed.

Lemma totals_usage s totals : Accumulated (b_usageTotals (rs_base s)) = Some totals -> totalsBillingUsage s = Some (responsesUsageMap totals).
Proof. unfold totalsBillingUsage. by intros ->. Qed.

Lemma metrics_view usage b b' : set_metrics modelName usage b = Some b' ->
  forall s, view_of (on_rs_base (fun _ => b') s) = view_of (on_rs_base (fun _ => b) s) /\ b_usageTotals b' = b_usageTotals b.
Proof.
  unfold set_metrics. destruct (negb _); [by intros [= <-]|]. destruct (formatUsageMetrics _ _ _ _) as [f|]; [|done]. cbn [mbind option_bind].
  intros [= <-] s. by destruct (String.eqb f "").
Qed.

Lemma settle_totals s : b_usageTotals (rs_base (settle_identity s)) = b_usageTotals (rs_base s).
Proof.
  unfold settle_identity, responses_streamModel, streamCreatedAt, streamResponseID, validateStreamModel.
  destruct (String.eqb (rs_responseID s) ""), (_ =? 0); cbn; repeat case_match; done.
Qed.

Lemma emit_totals t body s : b_usageTotals (rs_base (emitEvent t body s)) = b_usageTotals (rs_base s).
Proof.
  unfold emitEvent. destruct (b_writeErr (rs_base s)); [done|]. destruct body; cbn; unfold emit_encoded, write_frame; repeat case_match; done.
Qed.

Lemma ensure_totals s : b_usageTotals (rs_base (ensureResponseCreated s)) = b_usageTotals (rs_base s).
Proof. unfold ensureResponseCreated. destruct (responseCreatedEmitted s); [done|]. cbn zeta. by rewrite emit_totals, settle_totals. Qed.

Lemma finalize_ends result s s' ret : is_open (view_of s) -> responses_finalize r modelName result s = Some (s', ret) -> ends_well s' ret.
Proof.
  intros Ho. unfold responses_finalize. pose proof (ensure_open s Ho) as H1. pose proof (ensure_emitted s) as C1. pose proof (ensure_totals s) as T1.
  set (s1 := ensureResponseCreated s) in *. clearbody s1. destruct (completed_output _) as [completedBody n]. cbn zeta.
  set (usage := final_usage result (set_emitters ∅ s1)). set (s2 := settle_identity _).
  assert (is_open (view_of s2)) as H2 by (by apply settle_open). assert (responseCreatedEmitted s2 = true) as C2 by (unfold s2; by rewrite settle_emitted).
  assert (b_usageTotals (rs_base s2) = b_usageTotals (rs_base s1)) as T2 by (unfold s2; by rewrite settle_totals). clearbody s2.
  set (m := response_event _ _). clearbody m. pose proof (emit_terminal "response.completed" (Some m) s2 H2 C2 ltac:(by left)) as [H3 B3].
  pose proof (emit_totals "response.completed" (Some m) s2) as T3. set (s3 := emitEvent _ _ s2) in *. clearbody s3.
  destruct (set_metrics modelName usage (rs_base s3)) as [b|] eqn:Em; [|done]. cbn [mbind option_bind]. intros [= <- <-].
  destruct (metrics_view _ _ _ Em s3) as [V4 T4]. assert (on_rs_base (fun _ => rs_base s3) s3 = s3) as Eid by (by destruct s3). rewrite Eid in V4.
  pose proof (bill_ends usage (on_rs_base (fun _ => b) s3)) as Hend. cbn zeta in Hend. apply Hend.
  - by rewrite V4.
  - change (v_events (view_of (on_rs_base (fun _ => b) s3)) = []). by rewrite V4.
  - intros totals. cbn [rs_base on_rs_base]. rewrite T4, T3, T2. intros Ha. unfold usage, final_usage. cbn [rs_base set_emitters]. by rewrite Ha.
Qed.

Lemma terminate_ends err s s' ret : is_open (view_of s) -> responses_terminate r modelName err s = (s', ret) -> ends_well s' ret.
Proof.
  intros Ho. unfold responses_terminate. pose proof (op_sent _ Ho) as Hsent. cbn in Hsent. rewrite Hsent. cbn [negb].
  pose proof (ensure_open s Ho) as H1. pose proof (ensure_emitted s) as C1. set (s1 := ensureResponseCreated s) in *. clearbody s1.
  set (s2 := settle_identity s1). assert (is_open (view_of s2)) as H2 by (by apply settle_open).
  assert (responseCreatedEmitted s2 = true) as C2 by (unfold s2; by rewrite settle_emitted). clearbody s2.
  set (m := response_event _ _). clearbody m. pose proof (emit_terminal "response.failed" (Some m) s2 H2 C2 ltac:(by right)) as [H3 B3].
  set (s3 := emitEvent _ _ s2) in *. clearbody s3. intros [= <- <-]. apply bill_ends; [done|done|]. apply totals_usage.
Qed.
(** *** The run *)

(** A run that could not begin reports an error and wrote nothing; any other
    ends well. *)
Definition run_end (s : responsesStreamer) (ret : option returned) : Prop :=
  (unopened (view_of s) /\ exists e, ret = Some (ReturnedError e)) \/ ends_well s ret.

Definition live_stream (s : responsesStreamer) : Prop := unopened (view_of s) \/ is_open (view_of s).

Lemma terminate_run err s s' ret : live_stream s -> responses_terminate r modelName err s = (s', ret) -> run_end s' ret.
Proof.
  intros [Hu|Ho] H; [|right; by eapply terminate_ends]. unfold responses_terminate in H. pose proof (un_sent _ Hu) as Hs. cbn in Hs. rewrite Hs in H.
  cbn [negb] in H. injection H as <- <-. left. split; [done|by eexists].
Qed.

Section Turns.
Context (registry : sessionRegistry) (opts : webSearchOptions) (schemas : gmap string Schema) (base : object).
Abbreviation turn := (responses_turn registry opts schemas r modelName base).

Lemma turn_run isFirst reqBody input s : live_stream s ->
  match turn isFirst reqBody input s with
  | inl (Some (s', ret)) => run_end s' ret
  | inl None => True
  | inr (_, _, s') => is_open (view_of s')
  end.
Proof.
  intros Hs. unfold responses_turn. destruct (responses_runIteration isFirst reqBody s) as [[[s1 result] e]|] eqn:Ei; [|done].
  apply iteration_view in Ei; [|exact Hs]. destruct e as [err|].
  { destruct (responses_terminate r modelName err s1) as [s' ret] eqn:Et. eapply terminate_run; [|exact Et]. destruct Ei as [|[? _]]; [by right|by left]. }
  destruct Ei as [Ho|[_ ?]]; [|done]. destruct (b_writeErr (rs_base s1)) eqn:Ew.
  { right. pose proof (op_unbilled _ Ho) as Hb. pose proof (open_ended _ Ho) as He. cbn in He. rewrite Ew in He. specialize (He ltac:(done)).
    pose proof (bill_ends (totalsBillingUsage s1) s1 He Hb (totals_usage s1)) as (H1 & H2 & _ & _). split_and!; [exact H1|exact H2|done|by left]. }
  assert (forall s2, is_open (view_of s2) -> match responses_finalize r modelName result s2 with Some (s', ret) => run_end s' ret | None => True end) as Hf.
  { intros s2 H2. destruct (responses_finalize r modelName result s2) as [[s' ret]|] eqn:E; [|done]. right. by eapply finalize_ends. }
  destruct (splitToolCalls _ _) as [routerCalls clientCalls]. destruct routerCalls as [|c cs]; [by apply Hf|].
  pose proof (run_calls_open registry opts schemas (c :: cs) s1 Ho) as Hc. destruct (run_stream_calls _ _ _ _ s1) as [s2 outputs]. cbn [fst] in Hc.
  destruct clientCalls; [|by apply Hf]. by destruct (cloneJSONMap _ _).
Qed.

Lemma final_run reqBody s s' ret : live_stream s -> responses_final r modelName reqBody s = Some (s', ret) -> run_end s' ret.
Proof.
  intros Hs. unfold responses_final. destruct (forcedFinalResponsesRequest _ _); [|done]. cbn [mbind option_bind].
  destruct (responses_runIteration _ _ s) as [[[s1 result] e]|] eqn:Ei; [|done]. cbn [mbind option_bind]. apply iteration_view in Ei; [|exact Hs].
  destruct e as [err|].
  - intros Ht. apply (inj Some) in Ht. eapply terminate_run; [|exact Ht]. destruct Ei as [|[? _]]; [by right|by left].
  - destruct Ei as [Ho|[_ ?]]; [|done]. intros Hf. right. by eapply finalize_ends.
Qed.

Lemma turns_run budget : forall isFirst reqBody input s s' ret, live_stream s ->
  responses_turns registry opts schemas r modelName base budget isFirst reqBody input s = Some (s', ret) -> run_end s' ret.
Proof.
  induction budget as [|budget IH]; intros isFirst reqBody input s s' ret Hs; cbn [responses_turns]; [by apply final_run|].
  pose proof (turn_run isFirst reqBody input s Hs) as Ht. destruct (turn isFirst reqBody input s) as [[[s1 ret1]|]|[[reqBody1 input1] s1]].
  - intros [= <- <-]. exact Ht.
  - done.
  - apply IH. by right.
Qed.
End Turns.
End Ends.

(** What an event of a router-owned item comes to: nothing. *)
Lemma suppressed_silent isFirst t ev s r s' r' e :
  upstream_index ev ∈ suppressedItems s -> is_Some (ev !! "output_index") -> t <> "response.created" -> t <> "response.output_item.added" ->
  handle_event isFirst t (Some ev) s r = Some (s', r', e) -> b_out (rs_base s') = b_out (rs_base s).
Proof.
  intros Hk Hi H1 H2. unfold handle_event. cbn [default from_option id].
  rewrite (proj2 (String.eqb_neq t "response.created") H1), (proj2 (String.eqb_neq t "response.output_item.added") H2).
  assert (forwardEvent t (Some ev) s = Some s) as Hf by (unfold forwardEvent; by rewrite !bool_decide_true).
  destruct (String.eqb_spec t "response.in_progress"); [by intros [= <- _ _]|].
  destruct (String.eqb t "response.output_item.done").
  { unfold handleOutputItemDone. destruct (isRouterOwnedToolItem _ s).
    - cbn [mbind option_bind]. destruct (take_router_call _ _ s r) as [s1 r1] eqn:E. unfold take_router_call in E.
      match type of E with (let '(_, _) := ?p in _) = _ => destruct p end. intros [= <- _ _]. injection E as <- _. done.
    - rewrite bool_decide_true by done. by intros [= <- _ _]. }
  destruct (String.eqb t "response.output_text.delta"); [unfold handleOutputTextDelta; rewrite bool_decide_true by done; by intros [= <- _ _]|].
  destruct (String.eqb t "response.output_text.done"); [unfold handleOutputTextDone; rewrite bool_decide_true by done; by intros [= <- _ _]|].
  destruct (String.eqb t "response.function_call_arguments.delta").
  { unfold unless_suppressed, handleFunctionCallArgumentsDelta. cbn [default from_option id].
    destruct (String.eqb _ _); rewrite bool_decide_true by done; by intros [= <- _ _]. }
  destruct (String.eqb t "response.function_call_arguments.done"); [unfold unless_suppressed; rewrite bool_decide_true by done; by intros [= <- _ _]|].
  pose proof (usage_view ev s r) as Hr. destruct (record_usage _ s r) as [s1 r1]. cbn [fst] in Hr.
  assert (b_out (rs_base s1) = b_out (rs_base s)) as Ho by (change (v_out (view_of s1) = v_out (view_of s)); by rewrite Hr).
  destruct (String.eqb t "response.completed"); [by intros [= <- _ _]|]. destruct (_ || _); [by intros [= <- _ _]|]. rewrite Hf. by intros [= <- _ _].
Qed.
End Operations.
End Spec.

(** ** Theorems *)

Section Theorems.
Context {SE : StreamEnv}.

Lemma started_unopened r modelName registry opts wh : unopened (owned registry) (view_of (newResponsesStreamer r modelName registry opts wh)).
Proof. by split. Qed.

Lemma run_ok r registry body modelName prompt routerOpts wh flusher s ret :
  runResponsesStreaming r registry body modelName prompt routerOpts wh flusher = Some (s, ret) -> run_end (owned registry) r modelName s ret.
Proof.
  unfold runResponsesStreaming. cbn zeta. set (s0 := newResponsesStreamer _ _ _ _ _). pose proof (started_unopened r modelName registry) as Hs.
  destruct (negb flusher); [intros [= <- <-]; left; split; [apply Hs|by eexists]|].
  destruct (buildResponsesStreamRequest _ _ _) as [base|]; [|done]. cbn [mbind option_bind]. apply turns_run. left. apply Hs.
Qed.



(** A streamed Responses request is billed once. A run that opened its
    stream adds exactly one event under the caller's key (none without a key),
    whether it completed, failed mid-stream or lost its client, for the usage
    summed over all its turns; a run that could not open it adds none. *)
Theorem responses_run_billed_once r registry body modelName prompt routerOpts wh flusher s ret :
  runResponsesStreaming r registry body modelName prompt routerOpts wh flusher = Some (s, ret) ->
  if b_headersWritten (rs_base s) then
    exists usage h, b_events (rs_base s) = emitBillingEvent se_now r
        (Some (MkResponse (Some {["usage" := match usage with Some u => JObj u | None => JNull end]}) (Some h) 0)) modelName true
      /\ length (b_events (rs_base s)) = (if String.eqb (BearerToken (header_get (in_header r) "Authorization")) "" then 0%nat else 1%nat)
      /\ (forall totals, Accumulated (b_usageTotals (rs_base s)) = Some totals -> usage = Some (responsesUsageMap totals))
  else b_events (rs_base s) = [].
Proof.
  intros H%run_ok. destruct H as [[Hu _]|(He & (usage & h & Hb & Hu) & _)].
  - pose proof (un_sent _ _ Hu) as Hs. cbn in Hs. rewrite Hs. exact (un_events _ _ Hu).
  - pose proof (en_sent _ _ He) as Hs. cbn in Hs. rewrite Hs. exists usage, h. split; [done|]. split; [|done]. rewrite Hb.
    unfold emitBillingEvent. by destruct (String.eqb _ "").
Qed.
End Theorems.

(** ** Panics *)

Section Panics.
Context {SE : StreamEnv}.

Lemma forallb_ext_elem {A} (f g : A -> bool) l : (forall x, x ∈ l -> f x = g x) -> forallb f l = forallb g l.
Proof. induction l as [|x l IH]; intros H; [done|]. cbn [forallb]. rewrite H, IH; [done| |left]. intros y Hy. apply H. by right. Qed.

Lemma encodable_enough n : forall v, (json_size v <= n)%nat -> encodable_fuel e_float_literal n v = encodable e_float_literal v.
Proof.
  assert (forall n m v, (json_size v <= n)%nat -> (json_size v <= m)%nat -> encodable_fuel e_float_literal n v = encodable_fuel e_float_literal m v) as H.
  2:{ intros v Hv. unfold encodable. by apply H. }
  clear n. induction n as [|n IH]; intros m v Hn Hm; [pose proof (json_size_pos v); lia|].
  destruct m as [|m]; [pose proof (json_size_pos v); lia|]. destruct v as [| | | | | |l|o]; try done; cbn [encodable_fuel].
  - apply forallb_ext_elem. intros x Hx%json_size_elem. simpl in *. apply IH; lia.
  - apply forallb_ext_elem. intros [k x] Hx. apply elem_of_map_to_list, json_size_lookup in Hx. simpl in *. apply IH; lia.
Qed.

Lemma encodable_obj (m : object) : encodable e_float_literal (JObj m) = true <-> map_Forall (fun _ v => encodable e_float_literal v = true) m.
Proof.
  unfold encodable at 1. cbn [json_size encodable_fuel]. rewrite forallb_forall. split.
  - intros H k v Hk. specialize (H (k, v)). cbn in H. rewrite <- H by (apply list_elem_of_In; by apply elem_of_map_to_list).
    symmetry. apply encodable_enough. apply json_size_lookup in Hk. cbn in Hk. lia.
  - intros H [k v] Hk%list_elem_of_In. apply elem_of_map_to_list in Hk. cbn. rewrite <- (H k v Hk). apply encodable_enough.
    apply json_size_lookup in Hk. cbn in Hk. lia.
Qed.

Lemma encodable_insert k v (m : object) : encodable e_float_literal (JObj m) = true -> encodable e_float_literal v = true ->
  encodable e_float_literal (JObj (<[k := v]> m)) = true.
Proof. rewrite !encodable_obj. intros Hm Hv. by apply map_Forall_insert_2. Qed.

Lemma encodable_get k (m : object) : encodable e_float_literal (JObj m) = true -> encodable e_float_literal (get k m) = true.
Proof. rewrite encodable_obj. intros Hm. unfold get. destruct (m !! k) eqn:E; [by eapply Hm|done]. Qed.

Lemma emit_copy_total t ci ev s : encodable e_float_literal (JObj ev) = true -> is_Some (emit_copy t ci (Some ev) s).
Proof.
  intros He. unfold emit_copy, clone_event. cbn [mbind option_bind]. unfold cloneJSONMap. rewrite He, reread_obj. cbn. by eexists.
Qed.
Lemma complete_encodable k item s : encodable e_float_literal (JObj item) = true -> encodable e_float_literal (JObj (complete_arguments k item s)) = true.
Proof.
  intros Hi. unfold complete_arguments. destruct (functionCallArguments s !! k); [|done]. destruct (_ && _); [|done]. by apply encodable_insert.
Qed.

Lemma done_total ev s r : encodable e_float_literal (JObj ev) = true -> handleOutputItemDone (Some ev) s r <> None.
Proof.
  intros He. unfold handleOutputItemDone. change (default ∅ (Some ev)) with ev. destruct (isRouterOwnedToolItem _ s); [by destruct (take_router_call _ _ s r)|].
  case_bool_decide; [done|]. set (is_call := match as_object _ with Some _ => _ | None => _ end).
  set (s1 := if is_call then _ else s). set (item := if is_call then _ <$> _ else _).
  destruct (client_index _ s1) as [ci s2].
  assert (is_Some (emit_copy "response.output_item.done" ci (match item with Some o => <["item" := JObj o]> <$> Some ev | None => Some ev end) s2)) as [s3 E].
  { pose proof (encodable_get "item" ev He) as Hg. subst item. clearbody s1 is_call. destruct (get "item" ev) as [| | | | | | |o]; cbn [as_object];
      try (destruct is_call; by apply emit_copy_total).
    assert (encodable e_float_literal (JObj (complete_arguments (upstream_index ev) o s)) = true) by (by apply complete_encodable).
    destruct is_call; cbn [fmap option_fmap option_map]; apply emit_copy_total; by apply encodable_insert. }
  rewrite E. done.
Qed.

(** C21: the only event that panics the router is null. With decoded numbers
    finite, as JSON numbers are, an event is handled whatever its fields hold or
    lack, except a null one under the name of an item's or a text's event, whose
    copy is a nil map that is written to; an item or text at a suppressed index is
    dropped before that. *)
Theorem only_null_events_panic isFirst t event s r :
  (forall ev, event = Some ev -> encodable e_float_literal (JObj ev) = true) ->
  handle_event isFirst t event s r = None <->
  event = None /\ (t = "response.output_item.added"
    \/ (t = "response.output_item.done" \/ t = "response.output_text.done") /\ upstream_index ∅ ∉ suppressedItems s).
Proof.
  intros He.
  assert (forall o : option responsesStreamer, (s0 ← o; Some (s0, r, GoesOn false)) = None <-> o = None) as Hb by (by intros []).
  assert (forall t ci s0, emit_copy t ci event s0 = None <-> event = None) as Hcopy.
  { intros t' ci s0. destruct event as [ev|]; [|done]. destruct (emit_copy_total t' ci ev s0 (He ev eq_refl)) as [x ->]. done. }
  assert (forall s0, forwardEvent t event s0 <> None) as Hfwd.
  { intros s0 H. unfold forwardEvent in H. destruct event as [ev|]; [|done]. case_bool_decide; [|done]. case_bool_decide; [done|].
    destruct (outputIndexMap s0 !! _); [|done]. by apply Hcopy in H. }
  assert (forall s0, unless_suppressed t event s0 <> None) as Hun.
  { intros s0 H. unfold unless_suppressed in H. case_bool_decide; [done|]. by apply Hfwd in H. }
  unfold handle_event.
  destruct (String.eqb_spec t "response.created"); [split; [done|naive_solver]|].
  destruct (String.eqb_spec t "response.in_progress"); [split; [done|naive_solver]|].
  destruct (String.eqb_spec t "response.output_item.added").
  { rewrite Hb. unfold handleOutputItemAdded. destruct event as [ev|]; [|split; [naive_solver|done]]. split; [|by intros [? _]].
    destruct (isRouterOwnedToolItem _ s); [done|]. by intros H%Hcopy. }
  destruct (String.eqb_spec t "response.output_item.done").
  { destruct event as [ev|].
    - split; [|by intros [? _]]. destruct (handleOutputItemDone _ s r) as [[s1 r1]|] eqn:E; [done|]. by apply done_total in E; [|apply He].
    - cbn [default from_option id]. unfold handleOutputItemDone. cbn [default from_option id].
      change (isRouterOwnedToolItem (as_object (get "item" ∅)) s) with false. cbn iota.
      case_bool_decide; [split; [done|naive_solver]|]. change (as_object (get "item" ∅)) with (@None object). cbn iota.
      destruct (client_index _ s) as [ci s1]. split; [naive_solver|]. intros _. by rewrite (proj2 (Hcopy _ ci s1) eq_refl). }
  destruct (String.eqb_spec t "response.output_text.delta"); [split; [done|naive_solver]|].
  destruct (String.eqb_spec t "response.output_text.done").
  { rewrite Hb. unfold handleOutputTextDone. case_bool_decide; [split; [done|]; destruct event; naive_solver|].
    destruct (client_index _ s) as [ci s1]. rewrite Hcopy. destruct event; naive_solver. }
  destruct (String.eqb_spec t "response.function_call_arguments.delta"); [rewrite Hb; split; [by intros ?%Hun|naive_solver]|].
  destruct (String.eqb_spec t "response.function_call_arguments.done"); [rewrite Hb; split; [by intros ?%Hun|naive_solver]|].
  destruct (record_usage _ s r) as [s1 r1].
  destruct (String.eqb_spec t "response.completed"); [split; [done|naive_solver]|].
  destruct (_ || _); [split; [done|naive_solver]|]. rewrite Hb. split; [by intros ?%Hfwd|naive_solver].
Qed.
End Panics.

(** ** Small runs *)

(** The model's first turn is a search, its second an answer. *)
Definition at_index (i : Z) (m : object) : object := <["output_index" := JFloat (f64_of_int i)]> m.
Definition event_at (i : Z) (t : string) (m : object) : object := at_index i (<["type" := JStr t]> m).
Definition search_item (args : string) : json :=
  JObj {["type" := JStr "function_call"; "name" := JStr "router_search"; "call_id" := JStr "c1"; "arguments" := JStr args]}.
Definition message_item : json := JObj {["type" := JStr "message"; "id" := JStr "m1"]}.
Definition identity (m : object) : json := JObj (<["model" := JStr "m"]> m).

Definition sample_events : list object :=
  [{["type" := JStr "response.created"; "response" := identity {["id" := JStr "r1"]}]};
   event_at 0 "response.output_item.added" {["item" := search_item ""]};
   event_at 0 "response.function_call_arguments.delta" {["delta" := JStr "{}"]};
   event_at 0 "response.output_item.done" {["item" := search_item ""]};
   {["type" := JStr "response.completed"; "response" := identity {["usage" := JObj (some_usage 10 5 15)]}]};
   event_at 0 "response.output_item.added" {["item" := message_item]};
   event_at 0 "response.output_text.delta" {["item_id" := JStr "m1"; "delta" := JStr "hi"]};
   event_at 0 "response.output_text.done" {["item_id" := JStr "m1"; "text" := JStr "hi"]};
   event_at 0 "response.output_item.done" {["item" := message_item]};
   event_at 1 "response.reasoning_summary_part.added" ∅;
   {["type" := JStr "response.created"; "response" := identity ∅]};
   {["type" := JStr "response.completed"; "response" := identity {["id" := JStr "r9"]}]};
   event_at 0 "response.output_text.delta" {["item_id" := JStr "m1"; "delta" := JStr "[a】(https://x.y)"]};
   event_at 0 "response.output_text.done" {["item_id" := JStr "m1"; "text" := JStr "[a】(https://x.y)"]}].

Definition sample_incoming : incoming :=
  MkIncoming "/v1/responses" (header_set ∅ "Authorization" "Bearer key") (MkContext None None).

Definition sample_run (answers : list string) (broken : option nat) : responses_end :=
  let SE := toy_stream sample_events answers broken in
  runResponsesStreaming sample_incoming cache_registry {["input" := JArr []]} "m" [] None ∅ true.

Definition empty_streamer : responsesStreamer := let SE := toy_stream [] [] None in newResponsesStreamer sample_incoming "m" cache_registry cache_only_options ∅.
Definition sample_end (answers : list string) (broken : option nat) : responsesStreamer * option returned := default (empty_streamer, None) (sample_run answers broken).
Definition sample_types (answers : list string) (broken : option nat) : list string := map frame_type (b_out (rs_base (sample_end answers broken).1)).

Lemma sample_ran answers broken : match sample_run answers broken with Some _ => true | None => false end = true ->
  let SE := toy_stream sample_events answers broken in
  runResponsesStreaming sample_incoming cache_registry {["input" := JArr []]} "m" [] None ∅ true
    = Some ((sample_end answers broken).1, (sample_end answers broken).2).
Proof. intros H SE. unfold sample_end. change (runResponsesStreaming _ _ _ _ _ _ _ _) with (sample_run answers broken). by destruct (sample_run answers broken) as [[s ret]|]. Qed.



(** The client is gone at the third write. *)
Lemma responses_run_billed_once_witness :
  (sample_end ["abcde"; "afghie"] (Some 2%nat)).2 = Some (StreamAborted (OtherError "gone"))
  /\ length (b_events (rs_base (sample_end ["abcde"; "afghie"] (Some 2%nat)).1)) = 1%nat.
Proof.
  split; [vm_compute; reflexivity|]. pose (SE := toy_stream sample_events ["abcde"; "afghie"] (Some 2%nat)).
  pose proof (responses_run_billed_once sample_incoming cache_registry {["input" := JArr []]} "m" [] None ∅ true _ _
    (sample_ran ["abcde"; "afghie"] (Some 2%nat) ltac:(vm_compute; reflexivity))) as H.
  assert (b_headersWritten (rs_base (sample_end ["abcde"; "afghie"] (Some 2%nat)).1) = true) as Hs by (vm_compute; reflexivity). rewrite Hs in H.
  destruct H as (usage & h & _ & Hl & _). rewrite Hl. vm_compute. reflexivity.
Defined.

Lemma only_null_events_panic_witness :
  let SE := toy_stream sample_events [] None in
  handle_event true "response.output_item.added" None empty_streamer noTurn = None.
Proof.
  intros SE. apply (only_null_events_panic true "response.output_item.added" None empty_streamer noTurn); [done|]. split; [done|by left].
Defined.

(** An identifier the router minted for the creation is replaced by a later one
    of the upstream, so the two envelopes differ. *)
Example response_id_changes :
  map (fun m => match get "response" m with JObj r => get_string "id" r | _ => "" end)
    (List.filter (fun m => bool_decide (get_string "type" m ∈ ["response.created"; "response.completed"])) (bodies (b_out (rs_base (sample_end ["kl"] None).1))))
  = ["resp_id"; "r9"].
Proof. vm_compute. reflexivity. Qed.

(** An event for an index that no item was announced under keeps the upstream's
    index, here that of another item. *)
Example unannounced_index_relayed :
  map (fun m => (get_string "type" m, get "output_index" m)) (bodies (b_out (rs_base (sample_end ["abcde"; "fje"] None).1)))
  !! 7%nat = Some ("response.reasoning_summary_part.added", JFloat (f64_of_int 1))
  /\ announced (b_out (rs_base (sample_end ["abcde"; "fje"] None).1)) = [JInt 0; JInt 1].
Proof. vm_compute. by split. Qed.

(** The done event repeats the text as the model wrote it, not as the deltas
    carried it. *)
Example done_text_not_rewritten :
  omap (fun m => match get_string "delta" m, get_string "text" m with "", "" => None | d, t => Some (d, t) end)
    (bodies (b_out (rs_base (sample_end ["afmnie"] None).1)))
  = [("[a](https://x.y)", ""); ("", "[a】(https://x.y)")].
Proof. vm_compute. reflexivity. Qed.
