(* ===== verification/ChatStream.v ===== *)
(** * The Chat Completions stream ([toolruntime/chat_stream.go])

    The streamer that shows a client one chat completion across the turns of the
    tool loop: the pinned identity, the content that passes the citation emitter,
    the tool-call deltas that are assembled for the loop and forwarded when they
    are the client's, and the ways the stream ends.

    The forwarder's operations return the deltas they emit, which the streamer
    writes; the emitter's text is part of the streamer's state and shares its
    citations. *)

From Stdlib Require Import Ascii.
From S2P Require Import Prelude Float64 Sha256 Strconv Utf8 CacheSalt Json Errors Autoroute TokenCount Headers Billing Coerce Quirks Citations Annotations Sse WebSearch Session Events Prompt ToolLoop Runtime StreamBase.
#[local] Open Scope string_scope.
#[local] Open Scope list_scope.
#[local] Open Scope Z_scope.

Definition chatReasoningField := "reasoning".
Definition chatReasoningContentField := "reasoning_content".

(** ** Forwarding the client's tool calls *)

Inductive clientToolCallForwardMode := ForwardPending | ForwardLive | ForwardDrop.

Record clientToolCallDeltaState := MkDeltaState { pending : list object; mode : clientToolCallForwardMode }.

Record clientToolCallDeltaForwarder := MkForwarder {
  fwd_state : gmap Z clientToolCallDeltaState;
  clientIndexByUpstream : gmap Z Z;
  nextClientIndex : Z;
  streamedIDs : gset string;
  streamedWithoutIDs : gmap string Z
}.

Definition newClientToolCallDeltaForwarder : clientToolCallDeltaForwarder := MkForwarder ∅ ∅ 0 ∅ ∅.

Definition resetIteration (f : clientToolCallDeltaForwarder) : clientToolCallDeltaForwarder :=
  MkForwarder ∅ ∅ (nextClientIndex f) (streamedIDs f) ∅.

Definition delta_state (f : clientToolCallDeltaForwarder) (i : Z) : clientToolCallDeltaState := default (MkDeltaState [] ForwardPending) (fwd_state f !! i).
Definition set_delta_state (i : Z) (st : clientToolCallDeltaState) (f : clientToolCallDeltaForwarder) : clientToolCallDeltaForwarder :=
  MkForwarder (<[i := st]> (fwd_state f)) (clientIndexByUpstream f) (nextClientIndex f) (streamedIDs f) (streamedWithoutIDs f).

Definition clientIndex (i : Z) (f : clientToolCallDeltaForwarder) : Z * clientToolCallDeltaForwarder :=
  match clientIndexByUpstream f !! i with
  | Some ci => (ci, f)
  | None =>
      let ci := nextClientIndex f in
      (ci, MkForwarder (fwd_state f) (<[i := ci]> (clientIndexByUpstream f)) (ci + 1) (streamedIDs f) (streamedWithoutIDs f))
  end.

(** [forward]: the delta the client gets. *)
Definition forward (i : Z) (rawDelta : object) (f : clientToolCallDeltaForwarder) : clientToolCallDeltaForwarder * object :=
  let '(ci, f) := clientIndex i f in
  let forwarded : object := {["index" := JInt ci]} in
  let id := get_string "id" rawDelta in
  let f :=
    if String.eqb id "" then f
    else MkForwarder (fwd_state f) (clientIndexByUpstream f) (nextClientIndex f) ({[id]} ∪ streamedIDs f) (streamedWithoutIDs f) in
  let forwarded := if String.eqb id "" then forwarded else <["id" := JStr id]> forwarded in
  let t := get_string "type" rawDelta in
  let forwarded := if String.eqb t "" then forwarded else <["type" := JStr t]> forwarded in
  let forwarded :=
    match get "function" rawDelta with
    | JObj fn => if bool_decide (fn = ∅) then forwarded else <["function" := JObj fn]> forwarded
    | _ => forwarded
    end in
  (f, forwarded).

Fixpoint forward_all (i : Z) (deltas : list object) (f : clientToolCallDeltaForwarder) : clientToolCallDeltaForwarder * list object :=
  match deltas with
  | [] => (f, [])
  | d :: deltas =>
      let '(f, x) := forward i d f in
      let '(f, xs) := forward_all i deltas f in
      (f, x :: xs)
  end.

(** [ingest], with the deltas emitted. *)
Definition forwarder_ingest (ownedTools : gset string) (i : Z) (toolName : string) (rawDelta : object) (f : clientToolCallDeltaForwarder)
    : clientToolCallDeltaForwarder * list object :=
  let st := delta_state f i in
  match mode st with
  | ForwardLive => let '(f, x) := forward i rawDelta (set_delta_state i st f) in (f, [x])
  | ForwardDrop => (set_delta_state i st f, [])
  | ForwardPending =>
      if String.eqb toolName "" then (set_delta_state i (MkDeltaState (pending st ++ [rawDelta]) ForwardPending) f, [])
      else if bool_decide (toolName ∈ ownedTools) then (set_delta_state i (MkDeltaState [] ForwardDrop) f, [])
      else forward_all i (pending st ++ [rawDelta]) (set_delta_state i (MkDeltaState [] ForwardLive) f)
  end.

(** ** Assembling the tool calls *)

Record chatToolCallEntry := MkEntry { te_id : string; te_type : string; te_name : string; te_arguments : bytes }.
Definition newEntry : chatToolCallEntry := MkEntry "" "" "" [].

(** The entry with a delta merged. *)
Definition merge_delta (m : object) (e : chatToolCallEntry) : chatToolCallEntry :=
  let keep (old new : string) := if String.eqb new "" then old else new in
  let e := MkEntry (keep (te_id e) (get_string "id" m)) (keep (te_type e) (get_string "type" m)) (te_name e) (te_arguments e) in
  match get "function" m with
  | JObj fn => MkEntry (te_id e) (te_type e) (keep (te_name e) (get_string "name" fn)) (te_arguments e ++ to_bytes (get_string "arguments" fn))
  | _ => e
  end.

Section Assembly.
Context (int_out_of_range : float64 -> Z).

Definition delta_index (m : object) : Z := int_of_f64 int_out_of_range (numberValue (get "index" m)).

(** One delta of a chunk; [None] of an item that is skipped. *)
Definition ingest_delta (ownedTools : gset string) (item : json) (acc : list chatToolCallEntry * clientToolCallDeltaForwarder)
    : list chatToolCallEntry * clientToolCallDeltaForwarder * list object :=
  let '(entries, f) := acc in
  match item with
  | JObj m =>
      let idx := delta_index m in
      if idx <? 0 then (entries, f, [])
      else
        let k := Z.to_nat idx in
        let entries := entries ++ replicate (S k - length entries) newEntry in
        let entry := merge_delta m (default newEntry (entries !! k)) in
        let '(f, out) := forwarder_ingest ownedTools idx (te_name entry) m f in
        (<[k := entry]> entries, f, out)
  | _ => (entries, f, [])
  end.

Fixpoint ingest (ownedTools : gset string) (rawCalls : list json) (entries : list chatToolCallEntry) (f : clientToolCallDeltaForwarder)
    : list chatToolCallEntry * clientToolCallDeltaForwarder * list object :=
  match rawCalls with
  | [] => (entries, f, [])
  | item :: rawCalls =>
      let '(entries, f, out) := ingest_delta ownedTools item (entries, f) in
      let '(entries, f, outs) := ingest ownedTools rawCalls entries f in
      (entries, f, out ++ outs)
  end.
End Assembly.

(** [recordStreamedWithoutIDs]; the entries are indexed from [i]. *)
Fixpoint recordStreamedWithoutIDs (i : Z) (entries : list chatToolCallEntry) (f : clientToolCallDeltaForwarder) : clientToolCallDeltaForwarder :=
  match entries with
  | [] => f
  | e :: entries =>
      let live := match fwd_state f !! i with Some st => match mode st with ForwardLive => true | _ => false end | None => false end in
      let f :=
        if String.eqb (te_id e) "" && live then
          MkForwarder (fwd_state f) (clientIndexByUpstream f) (nextClientIndex f) (streamedIDs f)
            (<[te_name e := default 0 (streamedWithoutIDs f !! te_name e) + 1]> (streamedWithoutIDs f))
        else f in
      recordStreamedWithoutIDs (i + 1) entries f
  end.

Fixpoint unstreamed_loop (calls : list toolCall) (f : clientToolCallDeltaForwarder) : list toolCall * clientToolCallDeltaForwarder :=
  match calls with
  | [] => ([], f)
  | call :: calls =>
      if negb (String.eqb (id call) "") && bool_decide (id call ∈ streamedIDs f) then unstreamed_loop calls f
      else
        let n := default 0 (streamedWithoutIDs f !! name call) in
        if String.eqb (id call) "" && (n >? 0) then
          unstreamed_loop calls (MkForwarder (fwd_state f) (clientIndexByUpstream f) (nextClientIndex f) (streamedIDs f)
            (<[name call := n - 1]> (streamedWithoutIDs f)))
        else let '(out, f) := unstreamed_loop calls f in (call :: out, f)
  end.

Definition unstreamed (calls : list toolCall) (f : clientToolCallDeltaForwarder) : list toolCall * clientToolCallDeltaForwarder :=
  if bool_decide (streamedIDs f = ∅) && bool_decide (streamedWithoutIDs f = ∅) then (calls, f) else unstreamed_loop calls f.

(** [raw] *)
Definition raw_call (e : chatToolCallEntry) : object :=
  {["id" := JStr (te_id e); "type" := JStr (if String.eqb (te_type e) "" then "function" else te_type e);
    "function" := JObj {["name" := JStr (te_name e); "arguments" := JStr (of_bytes (te_arguments e))]}]}.
Definition named_entries (entries : list chatToolCallEntry) : list chatToolCallEntry := List.filter (fun e => negb (String.eqb (te_name e) "")) entries.
Definition raw_calls (entries : list chatToolCallEntry) : list object := map raw_call (named_entries entries).

Definition rawToolCallMatchesParsed (source : object) (call : toolCall) : bool :=
  match get "function" source with
  | JObj fn => String.eqb (get_string "name" fn) (name call) && (String.eqb (id call) "" || String.eqb (get_string "id" source) (id call))
  | _ => false
  end.

(** The raw calls of the parsed ones, in order, with their client indices. *)
Fixpoint rawToolCallsFromParsedAt (parsed : list toolCall) (raw : list object) (index : Z) : list object :=
  match raw, parsed with
  | source :: raw, call :: parsed' =>
      if rawToolCallMatchesParsed source call then
        {["index" := JInt index; "id" := get "id" source; "type" := get "type" source; "function" := get "function" source]}
          :: rawToolCallsFromParsedAt parsed' raw (index + 1)
      else rawToolCallsFromParsedAt parsed raw index
  | _, _ => []
  end.

(** ** The streamer *)

Record chatStreamer := MkStreamer {
  cs_base : streamBase;
  cs_clientRequestedUsage : bool;
  cs_events : bool;
  cs_text : text;
  cs_flushed : nat;
  cs_roleEmitted : bool;
  cs_id : string;
  cs_created : Z;
  cs_identityPinned : bool;
  cs_ownedTools : gset string;
  cs_forwarder : clientToolCallDeltaForwarder
}.

Definition on_cs_base (f : streamBase -> streamBase) (s : chatStreamer) : chatStreamer :=
  MkStreamer (f (cs_base s)) (cs_clientRequestedUsage s) (cs_events s) (cs_text s) (cs_flushed s) (cs_roleEmitted s) (cs_id s) (cs_created s)
    (cs_identityPinned s) (cs_ownedTools s) (cs_forwarder s).
Definition set_identity (id : string) (created : Z) (pinned : bool) (s : chatStreamer) : chatStreamer :=
  MkStreamer (cs_base s) (cs_clientRequestedUsage s) (cs_events s) (cs_text s) (cs_flushed s) (cs_roleEmitted s) id created pinned (cs_ownedTools s)
    (cs_forwarder s).
Definition set_role (s : chatStreamer) : chatStreamer :=
  MkStreamer (cs_base s) (cs_clientRequestedUsage s) (cs_events s) (cs_text s) (cs_flushed s) true (cs_id s) (cs_created s)
    (cs_identityPinned s) (cs_ownedTools s) (cs_forwarder s).
Definition set_text (t : text) (n : nat) (s : chatStreamer) : chatStreamer :=
  MkStreamer (cs_base s) (cs_clientRequestedUsage s) (cs_events s) t n (cs_roleEmitted s) (cs_id s) (cs_created s)
    (cs_identityPinned s) (cs_ownedTools s) (cs_forwarder s).
Definition set_forwarder (f : clientToolCallDeltaForwarder) (s : chatStreamer) : chatStreamer :=
  MkStreamer (cs_base s) (cs_clientRequestedUsage s) (cs_events s) (cs_text s) (cs_flushed s) (cs_roleEmitted s) (cs_id s) (cs_created s)
    (cs_identityPinned s) (cs_ownedTools s) f.

Record chatIterationResult := MkResult {
  res_content : string;
  reasoning_content : string;
  reasoning : string;
  res_toolCalls : list toolCall;
  rawToolCalls : list object;
  finishReason : string;
  res_usage : option object
}.
Definition noResult : chatIterationResult := MkResult "" "" "" [] [] "" None.

Definition assistantMessage (r : chatIterationResult) : object :=
  let m : object := {["role" := JStr "assistant"; "content" := JStr (res_content r)]} in
  let m := if String.eqb (reasoning_content r) "" then m else <[chatReasoningContentField := JStr (reasoning_content r)]> m in
  let m := if String.eqb (reasoning r) "" then m else <[chatReasoningField := JStr (reasoning r)]> m in
  match rawToolCalls r with [] => m | raw => <["tool_calls" := JArr (map JObj raw)]> m end.

Definition nestedAnnotationsFromMatches (matches : list Annotation) : list json := map nested_annotation matches.

Section Chat.
Context {SE : StreamEnv}.

(** [toolCalls] *)
Definition entry_call (e : chatToolCallEntry) : toolCall :=
  MkCall (te_id e) (te_name e)
    (match te_arguments e with
     | [] => Some ∅
     | args => match e_unmarshal_object (of_bytes (fst (sanitizeToolCallArgumentsJSON e_jsonBytesValid args))) with Some parsed => parsed | None => Some ∅ end
     end).
Definition entry_calls (entries : list chatToolCallEntry) : list toolCall := map entry_call (named_entries entries).

(** *** Identity *)

Definition ensureStreamIdentity (chunk : object) (s : chatStreamer) : chatStreamer :=
  if cs_identityPinned s then s
  else
    let id := if String.eqb (cs_id s) "" then get_string "id" chunk else cs_id s in
    let created := if cs_created s =? 0 then Z.max 0 (int_of_f64 e_int_out_of_range (numberValue (get "created" chunk))) else cs_created s in
    let b := cs_base s in
    let model := if String.eqb (b_model b) "" then get_string "model" chunk else b_model b in
    let s := on_cs_base (set_model model) s in
    set_identity id created (negb (String.eqb id "") && negb (created =? 0) && negb (String.eqb model "")) s.

Definition streamID (s : chatStreamer) : chatStreamer :=
  if String.eqb (cs_id s) "" then
    set_identity ("chatcmpl-" +:+ e_uuid (b_uuids (cs_base s))) (cs_created s) (cs_identityPinned s) (on_cs_base draw s)
  else s.
Definition streamCreated (s : chatStreamer) : chatStreamer :=
  if cs_created s =? 0 then set_identity (cs_id s) se_unix (cs_identityPinned s) s else s.
Definition streamModel (s : chatStreamer) : chatStreamer := on_cs_base (fun b => (validateStreamModel "chunk.model" b).2) s.

Definition chunk_of (s : chatStreamer) (partial : object) : object :=
  partial ∪ {["id" := JStr (cs_id s); "object" := JStr "chat.completion.chunk"; "created" := JInt (cs_created s); "model" := JStr (b_model (cs_base s))]}.

Definition writeChunk (partial : object) (s : chatStreamer) : chatStreamer :=
  let s := streamModel (streamCreated (streamID s)) in
  on_cs_base (emitData (chunk_of s partial)) s.

(** The chunk of the one choice with a delta. *)
Definition delta_chunk (delta : object) : object := {["choices" := JArr [JObj {["index" := JInt 0; "delta" := JObj delta]}]]}.
Definition write_delta (delta : object) : chatStreamer -> chatStreamer := writeChunk (delta_chunk delta).

Definition ensureRoleEmitted (s : chatStreamer) : chatStreamer :=
  if cs_roleEmitted s then s else write_delta {["role" := JStr "assistant"]} (set_role s).

(** *** Content *)

(** What the emitter released. *)
Definition release (released : option (Emitter * text * list Annotation)) (s : chatStreamer) : chatStreamer :=
  match released with
  | None => s
  | Some (e, out, annotations) =>
      let s := set_text (e_text e) (flushedRunes e) s in
      let s := match out with [] => s | _ => write_delta {["content" := JStr (string_of out)]} s end in
      match annotations with [] => s | _ => write_delta {["annotations" := JArr (nestedAnnotationsFromMatches annotations)]} s end
  end.

Definition cs_emitter (s : chatStreamer) : Emitter := MkEmitter (Some (b_citations (cs_base s))) (cs_text s) (cs_flushed s).

Definition emitContentDelta (fragment : string) (s : chatStreamer) : chatStreamer :=
  release (Push e_Parse e_Query e_Encode e_Print e_ToLowerText (cs_emitter s) (text_of fragment)) s.
Definition flushCitations (s : chatStreamer) : chatStreamer := release (Flush e_Parse e_Query e_Encode e_Print e_ToLowerText (cs_emitter s)) s.

Definition emitReasoningDelta (delta : object) (s : chatStreamer) : chatStreamer :=
  let add (k : string) (m : object) := let v := get_string k delta in if String.eqb v "" then m else <[k := JStr v]> m in
  let d := add chatReasoningField (add chatReasoningContentField ∅) in
  if bool_decide (d = ∅) then s else write_delta d s.

Definition emitClientToolCallDelta (forwarded : object) (s : chatStreamer) : chatStreamer :=
  if bool_decide (forwarded = ∅) then s else write_delta {["tool_calls" := JArr [JObj forwarded]]} s.

Definition emitTinfoilEventMarker (id status : string) (action : object) (reason : string) (sources : list toolCallSource) (pii : option piiCheckResult)
    (s : chatStreamer) : chatStreamer :=
  if negb (cs_events s) then s
  else write_delta {["content" := JStr (string_of (tinfoilEventMarker e_Marshal id status action reason sources pii))]} s.

#[export] Instance chat_emitter : toolProgressEmitter chatStreamer := {|
  base_of := cs_base;
  with_base b s := on_cs_base (fun _ => b) s;
  tp_open id details s := (emitTinfoilEventMarker id "in_progress" details "" [] None s, MkHandle id 0);
  tp_phase _ _ s := s;
  tp_close handle _ details result status reason s := emitTinfoilEventMarker (hd_id handle) status details reason (tpr_sources result) (tpr_pii result) s
|}.

(** *** One upstream stream *)

(** The end of a pump: done, the upstream's failure, or the client's. *)
Inductive pump_end := PumpDone (doneSeen : bool) | PumpFailed (err : failure) | PumpClientGone (err : string).

Record pump_state := MkPump { p_streamer : chatStreamer; p_result : chatIterationResult; p_entries : list chatToolCallEntry }.

Definition accumulate (f : chatStreamer -> chatStreamer) (g : chatIterationResult -> chatIterationResult) (p : pump_state) : pump_state :=
  MkPump (f (p_streamer p)) (g (p_result p)) (p_entries p).

Definition first_choice (chunk : object) : option object :=
  match get "choices" chunk with JArr (c :: _) => as_object c | _ => None end.

(** A delta: reasoning first, then content, then tool calls. *)
Definition pump_delta (delta : object) (p : pump_state) : pump_state :=
  let p := accumulate (emitReasoningDelta delta)
    (fun r => MkResult (res_content r) (reasoning_content r +:+ get_string chatReasoningContentField delta) (reasoning r +:+ get_string chatReasoningField delta)
       (res_toolCalls r) (rawToolCalls r) (finishReason r) (res_usage r)) p in
  let content := get_string "content" delta in
  let p :=
    if String.eqb content "" then p
    else accumulate (emitContentDelta content)
      (fun r => MkResult (res_content r +:+ content) (reasoning_content r) (reasoning r) (res_toolCalls r) (rawToolCalls r) (finishReason r) (res_usage r)) p in
  match get "tool_calls" delta with
  | JArr rawCalls =>
      let s := p_streamer p in
      let '(entries, f, out) := ingest e_int_out_of_range (cs_ownedTools s) rawCalls (p_entries p) (cs_forwarder s) in
      MkPump (foldl (fun s x => emitClientToolCallDelta x s) (set_forwarder f s) out) (p_result p) entries
  | _ => p
  end.

Definition pump_chunk (chunk : object) (p : pump_state) : pump_state :=
  let p := accumulate (fun s => ensureRoleEmitted (ensureStreamIdentity chunk s))
    (fun r => MkResult (res_content r) (reasoning_content r) (reasoning r) (res_toolCalls r) (rawToolCalls r) (finishReason r)
       (match get "usage" chunk with JObj u => Some u | _ => res_usage r end)) p in
  match first_choice chunk with
  | None => p
  | Some choice =>
      let reason := get_string "finish_reason" choice in
      let p :=
        if String.eqb reason "" then p
        else accumulate (fun s => s)
          (fun r => MkResult (res_content r) (reasoning_content r) (reasoning r) (res_toolCalls r) (rawToolCalls r) reason (res_usage r)) p in
      match get "delta" choice with JObj delta => pump_delta delta p | _ => p end
  end.

(** The frames, one by one; a frame takes a line or more. *)
Fixpoint pump_loop (fuel : nat) (reader : sseReader) (p : pump_state) : pump_state * pump_end :=
  match fuel with
  | O => (p, PumpDone false)
  | S fuel =>
      match b_writeErr (cs_base (p_streamer p)) with
      | Some err => (p, PumpClientGone err)
      | None =>
          match next reader with
          | (inr None, _) => (p, PumpDone false)
          | (inr (Some TooLong), _) => (p, PumpFailed (OtherError "bufio.Scanner: token too long"))
          | (inr (Some (ReadError msg)), _) => (p, PumpFailed (OtherError msg))
          | (inl f, reader) =>
              if bool_decide (f_data f = to_bytes "[DONE]") then (p, PumpDone true)
              else
                match f_data f with
                | [] => pump_loop fuel reader p
                | data =>
                    match se_unmarshal data with
                    | None => (p, PumpFailed (newUpstreamStreamError "upstream emitted malformed SSE JSON"))
                    | Some chunk =>
                        let chunk := default ∅ chunk in
                        match get "error" chunk with
                        | JObj errObj => (p, PumpFailed (newUpstreamJSONError errObj))
                        | _ => pump_loop fuel reader (pump_chunk chunk p)
                        end
                    end
                end
          end
      end
  end.

(** [s.usageTotals.Add], deferred to every exit of the pump. *)
Definition fold_usage (r : chatIterationResult) (s : chatStreamer) : chatStreamer :=
  match res_usage r with
  | None => s
  | Some u => on_cs_base (fun b => set_usage (Add (b_usageTotals b) (Some {["usage" := JObj u]})) b) s
  end.

(** The streamer, the turn's result and the error, if any. *)
Definition pumpUpstream (reader : sseReader) (s : chatStreamer) : chatStreamer * chatIterationResult * option failure :=
  let p := MkPump (set_forwarder (resetIteration (cs_forwarder s)) s) noResult [] in
  let '(p, e) := pump_loop (S (length (r_lines reader))) reader p in
  let s := fold_usage (p_result p) (p_streamer p) in
  let r := p_result p in
  match e with
  | PumpClientGone err => (s, r, Some (OtherError err))
  | PumpFailed err => (s, r, Some err)
  | PumpDone doneSeen =>
      let r := MkResult (res_content r) (reasoning_content r) (reasoning r) (entry_calls (p_entries p)) (raw_calls (p_entries p)) (finishReason r) (res_usage r) in
      if negb doneSeen then (s, r, Some (newUpstreamStreamError "upstream stream ended without a terminal [DONE] marker"))
      else (set_forwarder (recordStreamedWithoutIDs 0 (p_entries p) (cs_forwarder s)) s, r, None)
  end.

Definition runIteration (reqBody : object) (s : chatStreamer) : chatStreamer * chatIterationResult * option failure :=
  let '(opened, b) := openUpstreamSSE "/v1/chat/completions" reqBody (cs_base s) in
  let s := on_cs_base (fun _ => b) s in
  match opened with
  | inl err => (s, noResult, Some err)
  | inr reader => pumpUpstream reader s
  end.

(** *** The end of the stream *)

Definition finalUsage (s : chatStreamer) : option object := chatUsageMap <$> Accumulated (b_usageTotals (cs_base s)).

Definition write_done (s : chatStreamer) : chatStreamer := on_cs_base (write_frame DoneFrame) s.

(** The client calls no delta was sent for. *)
Definition send_unstreamed (r : chatIterationResult) (clientToolCalls : list toolCall) (s : chatStreamer) : chatStreamer :=
  match clientToolCalls with
  | [] => s
  | _ =>
      let '(rest, f) := unstreamed clientToolCalls (cs_forwarder s) in
      let s := set_forwarder f s in
      match rest with
      | [] => s
      | _ =>
          let raw := rawToolCallsFromParsedAt rest (rawToolCalls r) (nextClientIndex f) in
          let s := set_forwarder (MkForwarder (fwd_state f) (clientIndexByUpstream f) (nextClientIndex f + Z.of_nat (length raw)) (streamedIDs f) (streamedWithoutIDs f)) s in
          match raw with [] => s | _ => write_delta {["tool_calls" := JArr (map JObj raw)]} s end
      end
  end.

Definition finish_chunk (reason : string) : object :=
  {["choices" := JArr [JObj {["index" := JInt 0; "delta" := JObj ∅; "finish_reason" := JStr reason]}]]}.

Definition chat_finalize (r : incoming) (modelName : string) (result : chatIterationResult) (clientToolCalls : list toolCall) (s : chatStreamer)
    : option (chatStreamer * option returned) :=
  let s := send_unstreamed result clientToolCalls (flushCitations (ensureRoleEmitted s)) in
  let reason := match clientToolCalls with _ :: _ => "tool_calls" | [] => if String.eqb (finishReason result) "" then "stop" else finishReason result end in
  let s := writeChunk (finish_chunk reason) s in
  let usage := finalUsage s in
  let s := match usage with
           | Some u => if cs_clientRequestedUsage s then writeChunk {["choices" := JArr []; "usage" := JObj u]} s else s
           | None => s
           end in
  let s := write_done s in
  b ← set_metrics modelName usage (cs_base s);
  let s := on_cs_base (fun _ => emit_billing r modelName usage b) s in
  Some (s, latched (cs_base s)).

Definition terminateWithError (r : incoming) (modelName : string) (err : failure) (s : chatStreamer) : chatStreamer * option returned :=
  if negb (b_headersWritten (cs_base s)) then (s, Some (ReturnedError err))
  else
    let s := flushCitations s in
    let s := on_cs_base (emitData {["error" := JObj (upstreamErrorPayload err)]}) s in
    let s := write_done s in
    let s := on_cs_base (emit_billing r modelName (finalUsage s)) s in
    (s, latched (cs_base s)).

(** *** The run *)

Definition streamUsageOptions : json := JObj {["include_usage" := JBool true; "continuous_usage_stats" := JBool true]}.
Definition stream_request (b : object) : object := <["stream_options" := streamUsageOptions]> (<["stream" := JBool true]> b).

Definition buildChatStreamRequest (body : object) (ts : list Tool) (prompt : list PromptMessage) : option object :=
  stream_request <$> buildChatUpstreamRequest body ts prompt.

Section Run.
Context (registry : sessionRegistry) (opts : webSearchOptions) (schemas : gmap string Schema) (r : incoming) (modelName : string).

(** How a run ends; [None] is a panic. *)
Definition stream_end : Type := option (chatStreamer * option returned).

Definition stream_turn (reqBody : object) (s : chatStreamer) : stream_end + (object * chatStreamer) :=
  let reqBody := chat_preIteration reqBody in
  let '(s, result, err) := runIteration reqBody s in
  match err with
  | Some err => inl (Some (terminateWithError r modelName err s))
  | None =>
      match b_writeErr (cs_base s) with
      | Some _ => inl (Some (on_cs_base (emit_billing r modelName (finalUsage s)) s, None))
      | None =>
          let '(routerToolCalls, clientToolCalls) := splitToolCalls (cs_ownedTools s) (res_toolCalls result) in
          match routerToolCalls with
          | [] => inl (chat_finalize r modelName result clientToolCalls s)
          | _ =>
              let '(s, outputs) := run_stream_calls registry opts schemas routerToolCalls s in
              match clientToolCalls with
              | _ :: _ => inl (chat_finalize r modelName result clientToolCalls s)
              | [] =>
                  let messages := default [] (as_array (get "messages" reqBody)) in
                  inr (<["messages" := JArr (messages ++ JObj (assistantMessage result) :: map tool_message outputs)]> reqBody, s)
              end
          end
      end
  end.

Definition stream_final (reqBody : object) (s : chatStreamer) : stream_end :=
  finalBody ← forcedFinalChatRequest e_float_literal reqBody;
  let '(s, result, err) := runIteration (stream_request finalBody) s in
  match err with
  | Some err => Some (terminateWithError r modelName err s)
  | None => chat_finalize r modelName result [] s
  end.

Fixpoint stream_turns (budget : nat) (reqBody : object) (s : chatStreamer) : stream_end :=
  match budget with
  | O => stream_final reqBody s
  | S budget => match stream_turn reqBody s with inl res => res | inr (reqBody, s) => stream_turns budget reqBody s end
  end.
End Run.

(** [wh] is the writer's header as the caller left it. *)
Definition newChatStreamer (r : incoming) (modelName : string) (registry : sessionRegistry) (wh : Header) : chatStreamer :=
  MkStreamer (newBase (String.eqb (header_get (in_header r) UsageMetricsRequestHeader) "true") (isHarmonyModel modelName) wh)
    (String.eqb (header_get (in_header r) ClientRequestedUsageHeader) "true") (parseTinfoilEventFlags (header_get (in_header r) tinfoilEventsHeader))
    [] 0 false "" 0 false (owned registry) newClientToolCallDeltaForwarder.

Definition runChatStreaming (r : incoming) (registry : sessionRegistry) (body : object) (modelName : string) (prompt : list PromptMessage)
    (routerOpts : option RouterOptions) (wh : Header) (flusher : bool) : stream_end :=
  let s := newChatStreamer r modelName registry wh in
  if negb flusher then Some (s, Some (ReturnedError (OtherError "streaming not supported")))
  else
    let opts := parseChatWebSearchOptions e_ToLower e_ToUpper e_ParseFloat e_int_out_of_range e_parse_day e_parse_rfc3339 e_format_rfc3339 routerOpts body in
    reqBody ← buildChatStreamRequest body (tools registry) prompt;
    stream_turns registry opts (toolSchemas (tools registry)) r modelName maxToolIterations reqBody s.
End Chat.
