(* ===== verification/ChatForward.v ===== *)
(** * What a client makes of the forwarded tool calls ([toolruntime/chat_stream.go])

    A turn's deltas are assembled by the router and, for the client's own tools,
    forwarded.  The client assembles what it gets with the same rules; this file
    shows that it ends up with the router's entries of the client's tools and
    nothing else. *)

From Stdlib Require Import Ascii.
From S2P Require Import Prelude Float64 Sha256 Strconv Utf8 CacheSalt Json Coerce Quirks WebSearch Session Events ToolLoop StreamBase StreamToy ChatStream.
#[local] Open Scope string_scope.
#[local] Open Scope list_scope.
#[local] Open Scope Z_scope.

(** ** The client *)

(** The index the router gave a forwarded delta. *)
Definition given_index (x : object) : Z := match get "index" x with JInt n => n | _ => 0 end.

Definition assemble (acc : gmap Z chatToolCallEntry) (x : object) : gmap Z chatToolCallEntry :=
  <[given_index x := merge_delta x (default newEntry (acc !! given_index x))]> acc.
Definition reassembled (out : list object) : gmap Z chatToolCallEntry := foldl assemble ∅ out.

(** The tool name a delta carries. *)
Definition delta_name (m : object) : string := match get "function" m with JObj fn => get_string "name" fn | _ => "" end.

(** ** A forwarded delta *)

Lemma merge_name m e : te_name (merge_delta m e) = if String.eqb (delta_name m) "" then te_name e else delta_name m.
Proof. unfold merge_delta, delta_name. destruct (get "function" m); try done. Qed.

Lemma merge_id m e : te_id (merge_delta m e) = if String.eqb (get_string "id" m) "" then te_id e else get_string "id" m.
Proof. unfold merge_delta. by destruct (get "function" m). Qed.

Lemma get_string_insert_ne k k' v (m : object) : k <> k' -> get_string k' (<[k := v]> m) = get_string k' m.
Proof. intros. unfold get_string. by rewrite get_insert_ne. Qed.

Lemma get_string_insert k s (m : object) : get_string k (<[k := JStr s]> m) = s.
Proof. unfold get_string. by rewrite get_insert. Qed.

(** What [forward] does, in one view: the index, the bookkeeping, and a delta
    that merges as the raw one does. *)
Record forwards_as (i : Z) (d : object) (f f' : clientToolCallDeltaForwarder) (x : object) (ci : Z) : Prop := {
  fa_index : given_index x = ci;
  fa_merge : forall e, merge_delta x e = merge_delta d e;
  fa_state : fwd_state f' = fwd_state f;
  fa_noids : streamedWithoutIDs f' = streamedWithoutIDs f;
  fa_ids : streamedIDs f' = if String.eqb (get_string "id" d) "" then streamedIDs f else {[get_string "id" d]} ∪ streamedIDs f;
  fa_known : clientIndexByUpstream f' = <[i := ci]> (clientIndexByUpstream f);
  fa_next : match clientIndexByUpstream f !! i with
            | Some c => ci = c /\ nextClientIndex f' = nextClientIndex f
            | None => ci = nextClientIndex f /\ nextClientIndex f' = nextClientIndex f + 1
            end
}.

Lemma forward_spec i d f : let '(f', x) := forward i d f in forwards_as i d f f' x (given_index x).
Proof.
  unfold forward, clientIndex.
  assert (forall ci f1, clientIndexByUpstream f1 = <[i := ci]> (clientIndexByUpstream f) -> fwd_state f1 = fwd_state f ->
    streamedWithoutIDs f1 = streamedWithoutIDs f -> streamedIDs f1 = streamedIDs f ->
    match clientIndexByUpstream f !! i with
    | Some c => ci = c /\ nextClientIndex f1 = nextClientIndex f
    | None => ci = nextClientIndex f /\ nextClientIndex f1 = nextClientIndex f + 1
    end ->
    let x0 : object := {["index" := JInt ci]} in
    let x1 := if String.eqb (get_string "id" d) "" then x0 else <["id" := JStr (get_string "id" d)]> x0 in
    let x2 := if String.eqb (get_string "type" d) "" then x1 else <["type" := JStr (get_string "type" d)]> x1 in
    let x3 := match get "function" d with JObj fn => if bool_decide (fn = ∅) then x2 else <["function" := JObj fn]> x2 | _ => x2 end in
    forwards_as i d f
      (if String.eqb (get_string "id" d) "" then f1
       else MkForwarder (fwd_state f1) (clientIndexByUpstream f1) (nextClientIndex f1) ({[get_string "id" d]} ∪ streamedIDs f1) (streamedWithoutIDs f1))
      x3 (given_index x3)) as H.
  2: { destruct (clientIndexByUpstream f !! i) as [ci|] eqn:Ei.
       - apply (H ci f); try done. by rewrite insert_id.
       - by apply (H (nextClientIndex f) (MkForwarder (fwd_state f) (<[i := nextClientIndex f]> (clientIndexByUpstream f)) (nextClientIndex f + 1)
           (streamedIDs f) (streamedWithoutIDs f))). }
  intros ci f1 H1 H2 H3 H4 H5 x0 x1 x2 x3.
  assert (get "index" x3 = JInt ci) as Hidx.
  { subst x3 x2 x1 x0. repeat case_match; rewrite ?get_insert_ne by done; unfold get; by rewrite lookup_singleton_eq. }
  assert (given_index x3 = ci) as Hci by (unfold given_index; by rewrite Hidx).
  assert (get_string "id" x3 = get_string "id" d) as Hid.
  { subst x3 x2 x1 x0. destruct (String.eqb_spec (get_string "id" d) "") as [->|]; repeat case_match;
      rewrite ?get_string_insert_ne by done; rewrite ?get_string_insert; try done; unfold get_string, get; by rewrite lookup_singleton_ne. }
  assert (get_string "type" x3 = get_string "type" d) as Hty.
  { subst x3 x2 x1 x0. destruct (String.eqb_spec (get_string "type" d) "") as [->|]; repeat case_match;
      rewrite ?get_string_insert_ne by done; rewrite ?get_string_insert; try done; unfold get_string, get; by rewrite lookup_singleton_ne. }
  assert (get "function" x2 = JNull) as Hfn.
  { subst x2 x1 x0. repeat case_match; rewrite ?get_insert_ne by done; unfold get; by rewrite lookup_singleton_ne. }
  assert (forall (P : clientToolCallDeltaForwarder -> Prop), P f1 ->
    P (MkForwarder (fwd_state f1) (clientIndexByUpstream f1) (nextClientIndex f1) ({[get_string "id" d]} ∪ streamedIDs f1) (streamedWithoutIDs f1)) ->
    P (if String.eqb (get_string "id" d) "" then f1 else
       MkForwarder (fwd_state f1) (clientIndexByUpstream f1) (nextClientIndex f1) ({[get_string "id" d]} ∪ streamedIDs f1) (streamedWithoutIDs f1))) as Hif
    by (intros; by destruct (String.eqb _ _)).
  rewrite Hci. split.
  - done.
  - intros e. unfold merge_delta. rewrite Hid, Hty. subst x3. destruct (get "function" d) as [| | | | | | |fn]; rewrite ?Hfn; try done.
    case_bool_decide as Ef; [|by rewrite get_insert]. rewrite Hfn. subst fn. destruct e; cbn. by rewrite app_nil_r.
  - by apply (Hif (fun g => fwd_state g = _)).
  - by apply (Hif (fun g => streamedWithoutIDs g = _)).
  - destruct (String.eqb (get_string "id" d) ""); cbn [streamedIDs]; congruence.
  - by apply (Hif (fun g => clientIndexByUpstream g = _)).
  - by apply (Hif (fun g => match clientIndexByUpstream f !! i with Some c => _ /\ nextClientIndex g = _ | None => _ /\ nextClientIndex g = _ end)).
Qed.

Definition merge_all (ds : list object) (e : chatToolCallEntry) : chatToolCallEntry := foldl (fun e d => merge_delta d e) e ds.

Lemma merge_all_id ds : forall e, te_id (merge_all ds e) <> "" -> te_id (merge_all ds e) = te_id e \/ exists d, d ∈ ds /\ get_string "id" d = te_id (merge_all ds e).
Proof.
  induction ds as [|d ds IH]; intros e He; [by left|]. cbn [merge_all foldl] in *. destruct (IH (merge_delta d e) He) as [Hi|(d' & Hd' & Hi)].
  - rewrite merge_id in Hi. destruct (String.eqb_spec (get_string "id" d) ""); [by left|right]. exists d. split; [left|done].
  - right. exists d'. split; [by right|done].
Qed.

Lemma forward_all_spec i : forall ds f, ds <> [] ->
  let '(f', xs) := forward_all i ds f in
  exists ci, fwd_state f' = fwd_state f /\ streamedWithoutIDs f' = streamedWithoutIDs f
    /\ streamedIDs f ⊆ streamedIDs f' /\ Forall (fun d => get_string "id" d <> "" -> get_string "id" d ∈ streamedIDs f') ds
    /\ clientIndexByUpstream f' = <[i := ci]> (clientIndexByUpstream f)
    /\ match clientIndexByUpstream f !! i with
       | Some c => ci = c /\ nextClientIndex f' = nextClientIndex f
       | None => ci = nextClientIndex f /\ nextClientIndex f' = nextClientIndex f + 1
       end
    /\ forall acc, foldl assemble acc xs = <[ci := merge_all ds (default newEntry (acc !! ci))]> acc.
Proof.
  induction ds as [|d ds IH]; intros f Hne; [done|]. cbn [forward_all]. pose proof (forward_spec i d f) as Hf.
  destruct (forward i d f) as [f1 x]. set (ci := given_index x) in *. destruct Hf as [Hx Hm Hs Hn Hi Hk Hnext].
  assert (streamedIDs f ⊆ streamedIDs f1 /\ (get_string "id" d <> "" -> get_string "id" d ∈ streamedIDs f1)) as [Hsub Hin].
  { rewrite Hi. destruct (String.eqb_spec (get_string "id" d) ""); [done|]. split; [set_solver|]. intros _. set_solver. }
  destruct ds as [|d2 ds].
  - exists ci. split_and!; try done; [by constructor|]. intros acc. cbn [foldl]. unfold assemble. fold ci. by rewrite Hm.
  - specialize (IH f1 ltac:(done)). destruct (forward_all i (d2 :: ds) f1) as [f2 xs]. destruct IH as (c2 & S2 & N2 & Sub2 & F2 & K2 & X2 & A2).
    rewrite Hk, lookup_insert_eq in X2. destruct X2 as [-> X2]. exists ci. rewrite S2, N2, K2, Hk, insert_insert_eq, X2. split_and!; try done.
    + set_solver.
    + constructor; [|done]. intros Hd. apply Sub2. by apply Hin.
    + intros acc. cbn [foldl]. rewrite A2. unfold assemble at 1 2. fold ci. rewrite lookup_insert_eq, insert_insert_eq. cbn [default from_option id merge_all foldl].
      by rewrite Hm.
Qed.

(** ** A turn *)

Section Turn.
Context (int_out_of_range : float64 -> Z) (ownedTools : gset string) (name_of : Z -> string) (n0 : Z).
Abbreviation ingest_delta := (ingest_delta int_out_of_range).
Abbreviation ingest := (ingest int_out_of_range).
Abbreviation delta_index := (delta_index int_out_of_range).

(** The deltas of an index that carry a name carry the same one. *)
Definition consistent (item : json) : Prop :=
  match item with JObj m => delta_name m = "" \/ delta_name m = name_of (delta_index m) | _ => True end.

Definition entry_at (entries : list chatToolCallEntry) (k : Z) : chatToolCallEntry := default newEntry (entries !! Z.to_nat k).

Record turn_inv (entries : list chatToolCallEntry) (f : clientToolCallDeltaForwarder) (out : list object) : Prop := {
  ti_mode : forall k, 0 <= k ->
    let e := entry_at entries k in
    match mode (delta_state f k) with
    | ForwardPending => te_name e = "" /\ e = merge_all (pending (delta_state f k)) newEntry /\ clientIndexByUpstream f !! k = None
    | ForwardLive =>
        te_name e = name_of k /\ name_of k <> "" /\ name_of k ∉ ownedTools
        /\ (te_id e <> "" -> te_id e ∈ streamedIDs f)
        /\ exists ci, clientIndexByUpstream f !! k = Some ci /\ reassembled out !! ci = Some e
    | ForwardDrop => te_name e = name_of k /\ name_of k <> "" /\ name_of k ∈ ownedTools /\ clientIndexByUpstream f !! k = None
    end;
  ti_range : forall k ci, clientIndexByUpstream f !! k = Some ci -> 0 <= k /\ n0 <= ci < nextClientIndex f;
  ti_next : n0 <= nextClientIndex f;
  ti_inj : forall k k' ci, clientIndexByUpstream f !! k = Some ci -> clientIndexByUpstream f !! k' = Some ci -> k = k';
  ti_dom : forall ci e, reassembled out !! ci = Some e -> exists k, clientIndexByUpstream f !! k = Some ci
}.

Lemma entry_at_insert entries k e j :
  0 <= k -> 0 <= j ->
  entry_at (<[Z.to_nat k := e]> (entries ++ replicate (S (Z.to_nat k) - length entries) newEntry)) j = if decide (j = k) then e else entry_at entries j.
Proof.
  intros Hk Hj. unfold entry_at. destruct (decide (j = k)) as [->|Hne].
  - rewrite list_lookup_insert_eq; [done|]. rewrite length_app, length_replicate. lia.
  - rewrite list_lookup_insert_ne by lia. destruct (decide (Z.to_nat j < length entries)%nat) as [Hl|Hl].
    + by rewrite lookup_app_l.
    + rewrite lookup_app_r by lia. rewrite (lookup_ge_None_2 entries) by lia.
      destruct (replicate _ _ !! _) as [x|] eqn:E; [|done]. apply lookup_replicate in E as [-> _]. done.
Qed.

Lemma entry_at_grown entries k : entry_at (entries ++ replicate (S (Z.to_nat k) - length entries) newEntry) k = entry_at entries k.
Proof.
  unfold entry_at. destruct (decide (Z.to_nat k < length entries)%nat) as [Hl|Hl]; [by rewrite lookup_app_l|].
  rewrite lookup_app_r by lia. rewrite (lookup_ge_None_2 entries) by lia. destruct (replicate _ _ !! _) as [x|] eqn:E; [|done].
  by apply lookup_replicate in E as [-> _].
Qed.

Lemma delta_state_set k st f j : delta_state (set_delta_state k st f) j = if decide (j = k) then st else delta_state f j.
Proof.
  unfold delta_state, set_delta_state. cbn [fwd_state]. destruct (decide (j = k)) as [->|]; [by rewrite lookup_insert_eq|by rewrite lookup_insert_ne].
Qed.

Lemma reassembled_app out xs : reassembled (out ++ xs) = foldl assemble (reassembled out) xs.
Proof. unfold reassembled. by rewrite foldl_app. Qed.

(** The invariant after index [k] alone changed. *)
Lemma turn_inv_step entries f out k e f' out' st' :
  turn_inv entries f out -> 0 <= k ->
  (forall j, delta_state f' j = if decide (j = k) then st' else delta_state f j) ->
  (forall j, j <> k -> clientIndexByUpstream f' !! j = clientIndexByUpstream f !! j) ->
  (forall ci, (forall j, clientIndexByUpstream f !! j = Some ci -> j <> k) -> (exists j, clientIndexByUpstream f !! j = Some ci) ->
     reassembled out' !! ci = reassembled out !! ci) ->
  streamedIDs f ⊆ streamedIDs f' -> nextClientIndex f <= nextClientIndex f' ->
  (forall ci, clientIndexByUpstream f' !! k = Some ci ->
     (clientIndexByUpstream f !! k = Some ci \/ nextClientIndex f <= ci < nextClientIndex f')) ->
  (forall ci x, reassembled out' !! ci = Some x -> is_Some (reassembled out !! ci) \/ clientIndexByUpstream f' !! k = Some ci) ->
  (forall ci, clientIndexByUpstream f !! k = Some ci -> clientIndexByUpstream f' !! k = Some ci) ->
  (match mode st' with
   | ForwardPending => te_name e = "" /\ e = merge_all (pending st') newEntry /\ clientIndexByUpstream f' !! k = None
   | ForwardLive => te_name e = name_of k /\ name_of k <> "" /\ name_of k ∉ ownedTools /\ (te_id e <> "" -> te_id e ∈ streamedIDs f')
       /\ exists ci, clientIndexByUpstream f' !! k = Some ci /\ reassembled out' !! ci = Some e
   | ForwardDrop => te_name e = name_of k /\ name_of k <> "" /\ name_of k ∈ ownedTools /\ clientIndexByUpstream f' !! k = None
   end) ->
  turn_inv (<[Z.to_nat k := e]> (entries ++ replicate (S (Z.to_nat k) - length entries) newEntry)) f' out'.
Proof.
  intros [Hm Hr Hn Hi Hd] Hk Hst Hix Hout Hids Hnx Hnew Hdom Hkeep Hmode. split.
  - intros j Hj. cbn zeta. rewrite entry_at_insert by done. rewrite Hst. destruct (decide (j = k)) as [->|Hne]; [done|].
    specialize (Hm j Hj). cbn zeta in Hm. rewrite Hix by done. destruct (mode (delta_state f j)); [done| |done].
    destruct Hm as (M1 & M2 & M3 & M4 & ci & M5 & M6). split_and!; [done..|by intros ?%M4%Hids|]. exists ci. split; [done|].
    rewrite Hout; [done| |by exists j]. intros j' Hj' ->. by apply Hne, (Hi _ _ ci).
  - intros j ci Hj. destruct (decide (j = k)) as [->|Hne]; [|rewrite Hix in Hj by done; apply Hr in Hj; lia].
    destruct (Hnew ci Hj) as [Ho|Ho]; [apply Hr in Ho; lia|lia].
  - lia.
  - intros j j' ci Hj Hj'.
    assert (forall j, j <> k -> clientIndexByUpstream f' !! j = Some ci -> clientIndexByUpstream f' !! k = Some ci -> False) as Hbad.
    { intros i Hne Hi1 Hi2. rewrite Hix in Hi1 by done. destruct (Hnew ci Hi2) as [Ho|Ho]; [by apply Hne, (Hi _ _ ci)|]. apply Hr in Hi1. lia. }
    destruct (decide (j = k)) as [->|Hne], (decide (j' = k)) as [->|Hne']; [done| | |].
    + by destruct (Hbad j').
    + by destruct (Hbad j).
    + rewrite Hix in Hj, Hj' by done. by eapply Hi.
  - intros ci x Hx. destruct (Hdom ci x Hx) as [[y Hy]|Hy]; [|by exists k]. destruct (Hd ci y Hy) as [j Hj].
    exists j. destruct (decide (j = k)) as [->|]; [by apply Hkeep|by rewrite Hix].
Qed.

Lemma delta_state_same f f' j : fwd_state f' = fwd_state f -> delta_state f' j = delta_state f j.
Proof. intros H. unfold delta_state. by rewrite H. Qed.

(** Where an index has a client index, the client has its entry. *)
Lemma live_entry entries f out k ci : turn_inv entries f out -> clientIndexByUpstream f !! k = Some ci ->
  mode (delta_state f k) = ForwardLive /\ reassembled out !! ci = Some (entry_at entries k).
Proof.
  intros [Hm Hr _ _ _] Hk. pose proof (proj1 (Hr _ _ Hk)) as H0. specialize (Hm k H0). cbn zeta in Hm.
  destruct (mode (delta_state f k)); [naive_solver| |naive_solver]. split; [done|]. destruct Hm as (_ & _ & _ & _ & c & Hc & He). congruence.
Qed.

(** The deltas [ds] of index [k], now the client's, are sent. *)
Lemma turn_inv_forward entries f out k ds f0 m st' :
  turn_inv entries f out -> 0 <= k -> ds <> [] -> mode st' = ForwardLive ->
  (forall j, delta_state f0 j = if decide (j = k) then st' else delta_state f j) ->
  clientIndexByUpstream f0 = clientIndexByUpstream f -> nextClientIndex f0 = nextClientIndex f -> streamedIDs f0 = streamedIDs f ->
  let e := merge_delta m (entry_at entries k) in
  te_name e = name_of k -> name_of k <> "" -> name_of k ∉ ownedTools ->
  (forall ci, clientIndexByUpstream f !! k = Some ci -> merge_all ds (entry_at entries k) = e) ->
  (clientIndexByUpstream f !! k = None -> merge_all ds newEntry = e) ->
  (te_id e <> "" -> (exists d, d ∈ ds /\ get_string "id" d = te_id e) \/ te_id e ∈ streamedIDs f) ->
  turn_inv (<[Z.to_nat k := e]> (entries ++ replicate (S (Z.to_nat k) - length entries) newEntry)) (forward_all k ds f0).1 (out ++ (forward_all k ds f0).2).
Proof.
  intros Hinv Hk Hds Hmode Hst Hix Hnx Hid e Hname Hne Hown Hmk Hmn Hids. pose proof (forward_all_spec k ds f0 Hds) as Hf.
  destruct (forward_all k ds f0) as [f' xs]. cbn [fst snd]. destruct Hf as (ci & S1 & _ & Sub & Fd & K1 & X1 & A1). rewrite Hix in K1, X1.
  pose proof Hinv as [Hm Hr Hn Hi Hd].
  assert (reassembled (out ++ xs) = <[ci := e]> (reassembled out)) as Hout.
  { rewrite reassembled_app, A1. f_equal. destruct (clientIndexByUpstream f !! k) as [c|] eqn:Ek.
    - destruct X1 as [-> _]. destruct (live_entry _ _ _ _ _ Hinv Ek) as [_ ->]. cbn. by eapply Hmk.
    - destruct X1 as [-> _]. destruct (reassembled out !! nextClientIndex f0) as [x|] eqn:Ex; cbn; [|by apply Hmn].
      destruct (Hd _ _ Ex) as [j Hj]. apply Hr in Hj. lia. }
  eapply turn_inv_step with (st' := st'); try done.
  - intros j. rewrite (delta_state_same f0) by done. apply Hst.
  - intros j Hj. by rewrite K1, lookup_insert_ne.
  - intros c Hc [j Hj]. rewrite Hout, lookup_insert_ne; [done|]. intros ->. destruct (clientIndexByUpstream f !! k) as [c'|] eqn:Ek.
    + destruct X1 as [-> _]. by apply (Hc k Ek).
    + destruct X1 as [-> _]. apply Hr in Hj. lia.
  - by rewrite <- Hid.
  - destruct (clientIndexByUpstream f !! k); destruct X1 as [_ ->]; lia.
  - intros c. rewrite K1, lookup_insert_eq. intros [= <-]. destruct (clientIndexByUpstream f !! k); [left; by destruct X1 as [-> _]|right; lia].
  - intros c x. rewrite Hout, K1, lookup_insert_eq. destruct (decide (c = ci)) as [->|]; [by right|]. rewrite lookup_insert_ne by done. by left.
  - intros c Hc. rewrite Hc in X1. destruct X1 as [-> _]. by rewrite K1, lookup_insert_eq.
  - rewrite Hmode. split_and!; [done..| |].
    + intros Hte. destruct (Hids Hte) as [(d & Hin & Hd')|Hin]; [|apply Sub; by rewrite Hid].
      rewrite Forall_forall in Fd. rewrite <- Hd'. apply Fd; [done|]. by rewrite Hd'.
    + exists ci. by rewrite K1, Hout, !lookup_insert_eq.
Qed.

Lemma ingest_delta_inv entries f out item :
  turn_inv entries f out -> consistent item ->
  let '(entries', f', xs) := ingest_delta ownedTools item (entries, f) in turn_inv entries' f' (out ++ xs).
Proof.
  intros Hinv Hc. unfold ChatStream.ingest_delta. destruct item as [| | | | | | |m]; try (by rewrite app_nil_r).
  cbn [consistent] in Hc. set (k := delta_index m) in *. destruct (Z.ltb_spec k 0) as [|Hk]; [by rewrite app_nil_r|].
  change (default newEntry ((entries ++ replicate (S (Z.to_nat k) - length entries) newEntry) !! Z.to_nat k))
    with (entry_at (entries ++ replicate (S (Z.to_nat k) - length entries) newEntry) k).
  rewrite entry_at_grown. set (e := merge_delta m (entry_at entries k)).
  assert (te_name e = if String.eqb (delta_name m) "" then te_name (entry_at entries k) else delta_name m) as Hn by apply merge_name.
  pose proof Hinv as [Hm Hr Hnx Hi Hd]. pose proof (Hm k Hk) as Hmk. cbn zeta in Hmk. unfold forwarder_ingest.
  set (st := delta_state f k) in *.
  assert (forall j, delta_state (set_delta_state k st f) j = if decide (j = k) then st else delta_state f j) as Hsame by (intros; apply delta_state_set).
  destruct (mode st) eqn:Est.
  - destruct Hmk as (M1 & M2 & M3).
    assert (te_name e = "" \/ (te_name e = name_of k /\ te_name e <> "")) as Hname.
    { rewrite Hn, M1. destruct (String.eqb_spec (delta_name m) ""); [by left|right]. destruct Hc as [|Hc]; [done|]. by rewrite Hc in *. }
    assert (merge_all (pending st ++ [m]) newEntry = e) as Hall by (unfold merge_all; rewrite foldl_app; cbn; unfold e; by rewrite M2).
    destruct (String.eqb_spec (te_name e) "") as [E0|E0].
    + rewrite app_nil_r. eapply turn_inv_step with (st' := MkDeltaState (pending st ++ [m]) ForwardPending); try done; try (cbn; lia).
      * intros j. apply delta_state_set.
      * intros ci Hci. by left.
      * intros ci x Hx. left. by exists x.
    + destruct Hname as [|[Hname _]]; [done|].
      destruct (bool_decide (te_name e ∈ ownedTools)) eqn:Eo; [apply bool_decide_eq_true in Eo|apply bool_decide_eq_false in Eo].
      * rewrite app_nil_r. eapply turn_inv_step with (st' := MkDeltaState [] ForwardDrop); try done; try (cbn; lia).
        -- intros j. apply delta_state_set.
        -- intros ci Hci. by left.
        -- intros ci x Hx. left. by exists x.
        -- cbn [mode set_delta_state clientIndexByUpstream]. rewrite <- Hname. by split_and!.
      * pose proof (turn_inv_forward entries f out k (pending st ++ [m]) (set_delta_state k (MkDeltaState [] ForwardLive) f) m
          (MkDeltaState [] ForwardLive) Hinv Hk) as H.
        destruct (forward_all k (pending st ++ [m]) (set_delta_state k (MkDeltaState [] ForwardLive) f)) as [f' xs]. apply H; try done.
        -- by destruct (pending st).
        -- intros j. apply delta_state_set.
        -- congruence.
        -- congruence.
        -- intros ci. congruence.
        -- intros Hid. fold e in Hid. left. fold e. rewrite <- Hall in Hid |- *. destruct (merge_all_id _ _ Hid) as [|H']; [done|exact H'].
  - destruct Hmk as (M1 & M2 & M3 & M4 & ci & M5 & M6).
    pose proof (turn_inv_forward entries f out k [m] (set_delta_state k st f) m st Hinv Hk ltac:(done) Est) as H.
    cbn [forward_all] in H. destruct (forward k m (set_delta_state k st f)) as [f' x]. apply H; try done.
    + fold e. rewrite Hn, M1. destruct (String.eqb_spec (delta_name m) ""); [done|]. by destruct Hc.
    + intros Hnone. congruence.
    + fold e. intros Hid. unfold e in Hid |- *. rewrite merge_id in *. destruct (String.eqb_spec (get_string "id" m) "").
      * right. by apply M4.
      * left. exists m. split; [by left|done].
  - destruct Hmk as (M1 & M2 & M3 & M4). rewrite app_nil_r. eapply turn_inv_step with (st' := st); try done; try (cbn; lia).
    + intros ci Hci. by left.
    + intros ci x Hx. left. by exists x.
    + rewrite Est. cbn [set_delta_state clientIndexByUpstream]. split_and!; try done.
      rewrite Hn, M1. destruct (String.eqb_spec (delta_name m) ""); [done|]. by destruct Hc.
Qed.

Lemma ingest_inv deltas : forall entries f out,
  turn_inv entries f out -> Forall consistent deltas ->
  let '(entries', f', xs) := ingest ownedTools deltas entries f in turn_inv entries' f' (out ++ xs).
Proof.
  induction deltas as [|item deltas IH]; intros entries f out Hinv Hc; cbn [ChatStream.ingest]; [by rewrite app_nil_r|].
  inversion_clear Hc as [|? ? H1 H2]. pose proof (ingest_delta_inv entries f out item Hinv H1) as Hs.
  destruct (ingest_delta ownedTools item (entries, f)) as [[entries1 f1] x]. specialize (IH entries1 f1 (out ++ x) Hs H2).
  destruct (ingest ownedTools deltas entries1 f1) as [[entries2 f2] xs]. by rewrite <- app_assoc in IH.
Qed.

Lemma turn_start f : nextClientIndex f = n0 -> turn_inv [] (resetIteration f) [].
Proof. intros Hn. split; cbn; try done; try lia. Qed.

(** Forwarding leaves the count of nameless calls alone. *)
Lemma forwarder_ingest_noids k n m f : streamedWithoutIDs (forwarder_ingest ownedTools k n m f).1 = streamedWithoutIDs f.
Proof.
  unfold forwarder_ingest. destruct (mode (delta_state f k)).
  - destruct (String.eqb n ""); [done|]. case_bool_decide; [done|].
    set (f0 := set_delta_state k _ f). pose proof (forward_all_spec k (pending (delta_state f k) ++ [m]) f0 ltac:(by destruct (pending _))) as Hf.
    destruct (forward_all k _ f0) as [f1 xs]. cbn [fst]. destruct Hf as (ci & _ & -> & _). done.
  - pose proof (forward_spec k m (set_delta_state k (delta_state f k) f)) as H. destruct (forward k m _) as [f1 x]. cbn [fst]. by rewrite (fa_noids _ _ _ _ _ _ H).
  - done.
Qed.

Lemma ingest_noids deltas : forall entries f, streamedWithoutIDs (ingest ownedTools deltas entries f).1.2 = streamedWithoutIDs f.
Proof.
  induction deltas as [|item deltas IH]; intros entries f; [done|]. cbn [ChatStream.ingest].
  destruct (ingest_delta ownedTools item (entries, f)) as [[entries1 f1] x] eqn:E. specialize (IH entries1 f1).
  destruct (ingest ownedTools deltas entries1 f1) as [[entries2 f2] xs]. cbn [fst snd] in *. rewrite IH.
  unfold ChatStream.ingest_delta in E. destruct item as [| | | | | | |m]; simplify_eq; try done. destruct (_ <? 0); simplify_eq; [done|].
  match type of E with context [forwarder_ingest ?o ?k ?n ?m ?f] => pose proof (forwarder_ingest_noids k n m f) as H; destruct (forwarder_ingest o k n m f) end.
  by simplify_eq.
Qed.
End Turn.

(** ** Calls that were not streamed *)

(** The calls of a name without an identifier. *)
Definition nameless (n : string) (calls : list toolCall) : nat :=
  length (List.filter (fun c => String.eqb (id c) "" && String.eqb (name c) n) calls).
Definition counted (n : string) (f : clientToolCallDeltaForwarder) : Z := default 0 (streamedWithoutIDs f !! n).

Lemma unstreamed_loop_none calls : forall f,
  Forall (fun c => id c <> "" -> id c ∈ streamedIDs f) calls -> (forall n, Z.of_nat (nameless n calls) <= counted n f) -> (unstreamed_loop calls f).1 = [].
Proof.
  induction calls as [|c calls IH]; intros f Hid Hn; [done|]. inversion_clear Hid as [|? ? H1 H2]. cbn [unstreamed_loop].
  destruct (String.eqb_spec (id c) "") as [E|E]; cbn [negb andb].
  - assert (Z.of_nat (nameless (name c) (c :: calls)) <= counted (name c) f) as Hc by apply Hn.
    unfold nameless in Hc. cbn [List.filter] in Hc. rewrite E, !String.eqb_refl in Hc. cbn [andb length] in Hc.
    fold (counted (name c) f). destruct (Z.gtb_spec (counted (name c) f) 0); [|lia]. apply IH; [done|].
    intros n. specialize (Hn n). unfold nameless, counted in *. cbn [List.filter streamedWithoutIDs] in *. rewrite E, String.eqb_refl in Hn. cbn [andb] in Hn.
    destruct (String.eqb_spec (name c) n) as [Hnm|Hnm]; [rewrite <- Hnm in *; rewrite lookup_insert_eq; cbn in *; lia|by rewrite lookup_insert_ne].
  - rewrite bool_decide_true by auto. apply IH; [done|]. intros n. specialize (Hn n). unfold nameless in *. cbn [List.filter] in Hn.
    destruct (String.eqb_spec (id c) ""); [done|]. done.
Qed.

Lemma unstreamed_none calls f :
  Forall (fun c => id c <> "" -> id c ∈ streamedIDs f) calls -> (forall n, Z.of_nat (nameless n calls) <= counted n f) -> (unstreamed calls f).1 = [].
Proof.
  intros Hid Hn. unfold unstreamed. case_bool_decide as E1; case_bool_decide as E2; cbn [andb]; try by apply unstreamed_loop_none.
  destruct calls as [|c calls]; [done|]. exfalso. inversion_clear Hid as [|? ? H1 _]. rewrite E1 in H1.
  assert (id c = "") as E. { destruct (String.eqb_spec (id c) "") as [|Hne]; [done|]. by apply H1, not_elem_of_empty in Hne. }
  specialize (Hn (name c)). unfold nameless, counted in Hn. rewrite E2, lookup_empty in Hn. cbn [List.filter] in Hn.
  rewrite E, !String.eqb_refl in Hn. cbn in Hn. lia.
Qed.

(** Every nameless call of a live index is counted. *)
Lemma recorded_counts (keep : string -> bool) n entries : forall i f,
  (forall j e, entries !! j = Some e -> keep (te_name e) = true -> mode (delta_state f (i + Z.of_nat j)) = ForwardLive) ->
  let f' := recordStreamedWithoutIDs i entries f in
  streamedIDs f' = streamedIDs f
  /\ counted n f + Z.of_nat (length (List.filter (fun e => String.eqb (te_id e) "" && (keep (te_name e) && String.eqb (te_name e) n)) entries)) <= counted n f'.
Proof.
  induction entries as [|e entries IH]; intros i f Hl; cbn [recordStreamedWithoutIDs List.filter]; [split; [done|cbn; lia]|].
  set (live := match fwd_state f !! i with Some st => _ | None => false end).
  set (f1 := if String.eqb (te_id e) "" && live then _ else f).
  assert (fwd_state f1 = fwd_state f /\ streamedIDs f1 = streamedIDs f) as [Hs Hi] by (subst f1; by destruct (_ && live)).
  destruct (IH (i + 1) f1) as [IH1 IH2].
  { intros j e' Hj Hk. rewrite (delta_state_same f f1) by done. replace (i + 1 + Z.of_nat j) with (i + Z.of_nat (S j)) by lia. by eapply Hl. }
  split; [by rewrite IH1|]. etransitivity; [|exact IH2].
  assert (keep (te_name e) = true -> live = true) as Hlive.
  { intros Hk. specialize (Hl 0%nat e eq_refl Hk). rewrite Z.add_0_r in Hl. subst live. unfold delta_state in Hl.
    destruct (fwd_state f !! i) as [st|]; cbn in Hl; [by rewrite Hl|done]. }
  assert (counted n f <= counted n f1) as Hmono.
  { subst f1. destruct (_ && live); [|lia]. unfold counted. cbn [streamedWithoutIDs].
    destruct (decide (te_name e = n)) as [->|]; [rewrite lookup_insert_eq; cbn; lia|by rewrite lookup_insert_ne]. }
  destruct (String.eqb (te_id e) "" && (keep (te_name e) && String.eqb (te_name e) n)) eqn:E; [|lia].
  bool_simp. subst f1. rewrite Hlive by done. match goal with H : String.eqb (te_id e) "" = true |- _ => rewrite H end. cbn [andb length].
  match goal with H : String.eqb (te_name e) n = true |- _ => apply String.eqb_eq in H as -> end.
  match goal with |- _ <= counted n ?g + _ => assert (counted n g = counted n f + 1) as -> end; [|lia].
  unfold counted. cbn [streamedWithoutIDs]. by rewrite lookup_insert_eq.
Qed.

(** ** A turn, as the client sees it *)

Section Reassembly.
Context {SE : StreamEnv} (ownedTools : gset string) (name_of : Z -> string).

(** The entries of the client's tools. *)
Definition clients (e : chatToolCallEntry) : bool := negb (String.eqb (te_name e) "") && negb (bool_decide (te_name e ∈ ownedTools)).

Lemma client_calls entries : snd (splitToolCalls ownedTools (entry_calls entries)) = map entry_call (List.filter clients entries).
Proof.
  unfold splitToolCalls, entry_calls, named_entries, clients. cbn [snd]. induction entries as [|e entries IH]; [done|]. cbn [List.filter].
  destruct (String.eqb_spec (te_name e) ""); cbn [negb andb]; [done|]. cbn [map List.filter]. cbn [name entry_call]. rewrite IH.
  by destruct (negb _).
Qed.

Lemma nameless_entries n entries :
  nameless n (map entry_call (List.filter clients entries))
  = length (List.filter (fun e => String.eqb (te_id e) "" && (clients e && String.eqb (te_name e) n)) entries).
Proof.
  unfold nameless. induction entries as [|e entries IH]; [done|]. cbn [List.filter]. destruct (clients e); cbn [andb].
  - cbn [map List.filter]. cbn [id name entry_call]. destruct (_ && _); cbn [length]; by rewrite IH.
  - by rewrite andb_false_r.
Qed.

Lemma client_live n0 entries f out k e :
  turn_inv ownedTools name_of n0 entries f out ->
  0 <= k -> entries !! Z.to_nat k = Some e -> clients e = true -> mode (delta_state f k) = ForwardLive.
Proof.
  intros Hi Hk He Hc. pose proof (ti_mode _ _ _ _ _ _ Hi k Hk) as Hm. unfold entry_at in Hm. rewrite He in Hm. cbn in Hm.
  unfold clients in Hc. apply andb_true_iff in Hc as [H1 H2]. destruct (mode (delta_state f k)); [|done|].
  - destruct Hm as [Hm _]. by rewrite Hm in H1.
  - destruct Hm as (Hm & _ & Ho & _). rewrite Hm in H2. by rewrite bool_decide_true in H2.
Qed.

(** C18: the client tool calls a turn forwards are exactly the router's.  Over
    any sequence of deltas in which the named deltas of an index agree on the
    name, the client that assembles the forwarded deltas with the same rules ends
    up with the assembled entry of every named call of a tool that is not the
    router's, and with no other; its indices are fresh and distinct, and the turn
    leaves no client call unstreamed, with or without identifiers, so that the
    finalizer repeats none. *)
Theorem client_reassembles_calls deltas f0 entries f out :
  Forall (consistent e_int_out_of_range name_of) deltas ->
  ingest e_int_out_of_range ownedTools deltas [] (resetIteration f0) = (entries, f, out) ->
  (forall ci e, reassembled out !! ci = Some e <->
     exists k, clientIndexByUpstream f !! k = Some ci /\ entries !! Z.to_nat k = Some e /\ clients e = true)
  /\ (forall k e, entries !! k = Some e -> clients e = true -> is_Some (clientIndexByUpstream f !! Z.of_nat k))
  /\ (forall k k' ci, clientIndexByUpstream f !! k = Some ci -> clientIndexByUpstream f !! k' = Some ci -> k = k' /\ nextClientIndex f0 <= ci < nextClientIndex f)
  /\ fst (unstreamed (snd (splitToolCalls ownedTools (entry_calls entries))) (recordStreamedWithoutIDs 0 entries f)) = [].
Proof.
  intros Hc Hrun. pose proof (ingest_inv e_int_out_of_range ownedTools name_of (nextClientIndex f0) deltas [] (resetIteration f0) []
    (turn_start ownedTools name_of _ f0 eq_refl) Hc) as Hinv.
  pose proof (ingest_noids e_int_out_of_range ownedTools deltas [] (resetIteration f0)) as Hno.
  rewrite Hrun in Hinv, Hno. cbn [fst snd app] in Hinv, Hno.
  assert (forall k ci, clientIndexByUpstream f !! k = Some ci -> exists e, reassembled out !! ci = Some e /\ entries !! Z.to_nat k = Some e /\ clients e = true) as Hix.
  { intros k ci Hk. destruct (live_entry _ _ _ _ _ _ _ _ Hinv Hk) as [Hl He]. exists (entry_at entries k). split; [done|].
    pose proof (ti_mode _ _ _ _ _ _ Hinv k (proj1 (ti_range _ _ _ _ _ _ Hinv k ci Hk))) as Hm. cbn zeta in Hm. rewrite Hl in Hm. destruct Hm as (M1 & M2 & M3 & _).
    split.
    - unfold entry_at in M1 |- *. destruct (entries !! Z.to_nat k); [done|]. cbn in M1. congruence.
    - unfold clients. rewrite M1, bool_decide_false by done. by destruct (String.eqb_spec (name_of k) ""). }
  assert (forall k e, entries !! k = Some e -> clients e = true -> mode (delta_state f (Z.of_nat k)) = ForwardLive) as Hlive.
  { intros k e He Hcl. eapply client_live; [exact Hinv|lia| |exact Hcl]. by rewrite Nat2Z.id. }
  split_and!.
  - intros ci e. split.
    + intros He. destruct (ti_dom _ _ _ _ _ _ Hinv ci e He) as [k Hk]. exists k. destruct (Hix k ci Hk) as (e' & H1 & H2 & H3).
      rewrite He in H1. by injection H1 as <-.
    + intros (k & Hk & He & _). destruct (Hix k ci Hk) as (e' & H1 & H2 & _). congruence.
  - intros k e He Hcl. pose proof (ti_mode _ _ _ _ _ _ Hinv (Z.of_nat k) ltac:(lia)) as Hm. cbn zeta in Hm. rewrite (Hlive k e He Hcl) in Hm.
    destruct Hm as (_ & _ & _ & _ & ci & -> & _). by eexists.
  - intros k k' ci H1 H2. split; [exact (ti_inj _ _ _ _ _ _ Hinv _ _ _ H1 H2)|exact (proj2 (ti_range _ _ _ _ _ _ Hinv _ _ H1))].
  - rewrite client_calls. pose proof (fun n => recorded_counts (fun s => negb (String.eqb s "") && negb (bool_decide (s ∈ ownedTools))) n entries 0 f) as Hrec.
    cbn zeta in Hrec. assert (forall n, _) as Hrec' by (intros n; apply (Hrec n); exact Hlive). clear Hrec. apply unstreamed_none.
    + apply Forall_forall. intros c (e & -> & He)%list_elem_of_fmap. intros Hid. apply list_elem_of_In, filter_In in He as [He Hcl].
      apply list_elem_of_In, list_elem_of_lookup in He as [k He]. rewrite (proj1 (Hrec' "")). cbn [id entry_call] in *.
      pose proof (ti_mode _ _ _ _ _ _ Hinv (Z.of_nat k) ltac:(lia)) as Hm. cbn zeta in Hm. rewrite (Hlive k e He Hcl) in Hm.
      unfold entry_at in Hm. rewrite Nat2Z.id, He in Hm. by apply Hm.
    + intros n. rewrite nameless_entries. pose proof (proj2 (Hrec' n)) as Hn. unfold counted at 1 in Hn. rewrite Hno in Hn. cbn in Hn. exact Hn.
Qed.
End Reassembly.

(** A call of the client's whose name comes late, and one of the router's. *)
Definition witness_deltas : list json :=
  [JObj {["id" := JStr "c1"]};
   JObj {["index" := JFloat (f64_of_int 1); "id" := JStr "r1"; "function" := JObj {["name" := JStr "search"]}]};
   JObj {["type" := JStr "function"; "function" := JObj {["name" := JStr "mine"; "arguments" := JStr "{"]}]};
   JObj {["function" := JObj {["arguments" := JStr "}"]}]}].
Definition witness_name (k : Z) : string := if k =? 0 then "mine" else "search".

Lemma client_reassembles_calls_witness :
  let SE := toy_stream [] [] None in
  let run := ingest e_int_out_of_range {["search"]} witness_deltas [] (resetIteration newClientToolCallDeltaForwarder) in
  map_to_list (reassembled run.2) = [(0, MkEntry "c1" "function" "mine" (to_bytes "{}"))] /\
  fst (unstreamed (snd (splitToolCalls {["search"]} (entry_calls run.1.1))) (recordStreamedWithoutIDs 0 run.1.1 run.1.2)) = [].
Proof.
  intros SE run. split; [vm_compute; reflexivity|].
  apply (client_reassembles_calls {["search"]} witness_name witness_deltas newClientToolCallDeltaForwarder run.1.1 run.1.2 run.2).
  - repeat apply Forall_cons_2; [..|apply Forall_nil_2]; vm_compute; [by left|by right|by right|by left].
  - subst run. by destruct (ingest _ _ _ _ _) as [[? ?] ?].
Defined.
