(* ===== verification/ChatSpec.v ===== *)
(** * What a Chat stream is ([toolruntime/chat_stream.go])

    The invariant every operation of the streamer keeps: all chunks carry one
    identity, the role comes first and once, and until the end every chunk is a
    delta.  The theorems state it of whole runs. *)

From Stdlib Require Import Ascii.
From S2P Require Import Prelude Float64 Sha256 Strconv Utf8 CacheSalt Json Errors Autoroute TokenCount Billing Headers Coerce Quirks Citations Annotations Sse WebSearch Session Events Prompt ToolLoop ToolLoopRuns Runtime StreamBase StreamToy ChatStream.
#[local] Open Scope string_scope.
#[local] Open Scope list_scope.
#[local] Open Scope Z_scope.

(** ** What is observed *)

Definition stream_identity (id : string) (created : Z) (model : string) : object :=
  {["id" := JStr id; "object" := JStr "chat.completion.chunk"; "created" := JInt created; "model" := JStr model]}.

(** A chunk with a delta, under the identity of the stream. *)
Definition chunk_frame (id : string) (created : Z) (model : string) (delta : object) : frame :=
  DataFrame (delta_chunk delta ∪ stream_identity id created model).

Definition role_delta : object := {["role" := JStr "assistant"]}.
Definition no_role (d : object) : Prop := d !! "role" = None.

(** The role first, and once. *)
Definition role_first (ds : list object) : Prop := ds = [] \/ exists rest, ds = role_delta :: rest /\ Forall no_role rest.

Record chat_view := MkChatView {
  c_out : list frame;
  c_err : option string;
  c_events : list Billing.Event;
  c_sent : bool;
  c_id : string;
  c_created : Z;
  c_model : string;
  c_role : bool;
  c_text : text
}.

Definition chat_view_of (s : chatStreamer) : chat_view :=
  MkChatView (b_out (cs_base s)) (b_writeErr (cs_base s)) (b_events (cs_base s)) (b_headersWritten (cs_base s)) (cs_id s) (cs_created s)
    (b_model (cs_base s)) (cs_roleEmitted s) (cs_text s).

Definition settled_identity (v : chat_view) : Prop := c_id v <> "" /\ c_created v <> 0 /\ c_model v <> "".

(** A stream that has begun and not ended, with the deltas sent. *)
Record chat_open (ds : list object) (v : chat_view) : Prop := {
  co_out : c_out v = map (chunk_frame (c_id v) (c_created v) (c_model v)) ds;
  co_role : role_first ds;
  co_started : c_role v = false -> ds = [] /\ c_text v = [];
  co_lost : c_role v = true -> ds = [] -> c_err v <> None;
  co_identity : ds <> [] -> settled_identity v;
  co_unbilled : c_events v = [];
  co_sent : c_sent v = true
}.

Definition opened (s : chatStreamer) : Prop := exists ds, chat_open ds (chat_view_of s).
(** The role has been sent, or could not be. *)
Definition begun (s : chatStreamer) : Prop := opened s /\ cs_roleEmitted s = true.

Definition err_view (e : string) (v : chat_view) : chat_view :=
  MkChatView (c_out v) (Some e) (c_events v) (c_sent v) (c_id v) (c_created v) (c_model v) (c_role v) (c_text v).
Definition sent_frames (fs : list frame) (v : chat_view) : chat_view :=
  MkChatView (c_out v ++ fs) None (c_events v) (c_sent v) (c_id v) (c_created v) (c_model v) (c_role v) (c_text v).

Section Writing.
Context {SE : StreamEnv}.

Lemma base_write f b : b_writeErr b = None ->
  (exists e, write_frame f b = set_out (b_out b) (S (b_writes b)) (Some e) b) \/ write_frame f b = set_out (b_out b ++ [f]) (S (b_writes b)) None b.
Proof. intros He. unfold write_frame. rewrite He. destruct (se_write _); [left; by eexists|by right]. Qed.

(** What sending a body comes to. *)
Lemma send_view f body s : let v := chat_view_of s in let v' := chat_view_of (on_cs_base (emit_encoded f body) s) in
  (c_err v <> None /\ v' = v) \/ (c_err v = None /\ ((exists e, v' = err_view e v) \/ v' = sent_frames [f] v)).
Proof.
  cbn zeta. unfold chat_view_of, on_cs_base, emit_encoded. cbn [c_err cs_base cs_id cs_created cs_roleEmitted cs_text].
  destruct (b_writeErr (cs_base s)) as [e|] eqn:He; [left; by rewrite He|right; split; [done|]].
  destruct (encodable _ _); [|left; exists "json"; unfold err_view; cbn; done].
  destruct (base_write f (cs_base s) He) as [[e ->]| ->]; [left; by exists e|by right].
Qed.

Lemma done_view s : let v := chat_view_of s in let v' := chat_view_of (write_done s) in
  (c_err v <> None /\ v' = v) \/ (c_err v = None /\ ((exists e, v' = err_view e v) \/ v' = sent_frames [DoneFrame] v)).
Proof.
  cbn zeta. unfold write_done, chat_view_of, on_cs_base. cbn [c_err cs_base cs_id cs_created cs_roleEmitted cs_text].
  destruct (b_writeErr (cs_base s)) as [e|] eqn:He; [left; split; [done|]; unfold write_frame; by rewrite He, He|right; split; [done|]].
  destruct (base_write DoneFrame (cs_base s) He) as [[e ->]| ->]; [left; by exists e|by right].
Qed.

Lemma open_err ds e v : chat_open ds v -> chat_open ds (err_view e v).
Proof. intros []. by split. Qed.

(** A chunk under a settled identity. *)
Lemma chunk_view partial s : settled_identity (chat_view_of s) ->
  let f := DataFrame (partial ∪ stream_identity (cs_id s) (cs_created s) (b_model (cs_base s))) in
  let v := chat_view_of s in let v' := chat_view_of (writeChunk partial s) in
  (c_err v <> None /\ v' = v) \/ (c_err v = None /\ ((exists e, v' = err_view e v) \/ v' = sent_frames [f] v)).
Proof.
  intros (H1 & H2 & H3). cbn in H1, H2, H3. cbn zeta. unfold writeChunk.
  assert (streamModel (streamCreated (streamID s)) = s) as ->.
  { unfold streamID. rewrite (proj2 (String.eqb_neq _ _) H1). unfold streamCreated. rewrite (proj2 (Z.eqb_neq _ _) H2).
    unfold streamModel, on_cs_base, validateStreamModel. rewrite (proj2 (String.eqb_neq _ _) H3). destruct s as [b]. cbn. by destruct (b_writeErr b). }
  apply (send_view (DataFrame (chunk_of s partial)) (chunk_of s partial) s).
Qed.

(** Settling the identity touches nothing else. *)
Record same_but_identity (v v' : chat_view) : Prop := {
  sb_out : c_out v' = c_out v;
  sb_err : c_err v' = c_err v;
  sb_events : c_events v' = c_events v;
  sb_sent : c_sent v' = c_sent v;
  sb_role : c_role v' = c_role v;
  sb_text : c_text v' = c_text v
}.

Lemma minted_view s : same_but_identity (chat_view_of s) (chat_view_of (streamCreated (streamID s))).
Proof. unfold streamCreated, streamID. destruct (String.eqb _ _); cbn; destruct (_ =? _); by split. Qed.

Lemma chunk_stopped partial s : c_err (chat_view_of s) <> None -> same_but_identity (chat_view_of s) (chat_view_of (writeChunk partial s)).
Proof.
  intros He. pose proof (minted_view s) as Hm. unfold writeChunk. set (s1 := streamCreated (streamID s)) in *. clearbody s1.
  assert (c_err (chat_view_of s1) <> None) as He1 by (by rewrite (sb_err _ _ Hm)).
  assert (streamModel s1 = s1) as E.
  { unfold streamModel, on_cs_base, validateStreamModel. cbn in He1. destruct (b_writeErr (cs_base s1)); [by destruct s1|done]. }
  rewrite E. destruct (send_view (DataFrame (chunk_of s1 partial)) (chunk_of s1 partial) s1) as [[_ H]|[? _]]; [|done]. change (emitData (chunk_of s1 partial)) with (emit_encoded (DataFrame (chunk_of s1 partial)) (chunk_of s1 partial)).
  by rewrite H.
Qed.

Lemma open_lost v v' : chat_open [] v -> same_but_identity v v' -> chat_open [] v'.
Proof.
  intros [H1 H2 H3 H4 H5 H6 H7] [E1 E2 E3 E4 E5 E6]. split; try done; [by rewrite E1, H1|rewrite E5, E6; by apply H3|rewrite E5, E2; by apply H4|congruence|congruence].
Qed.

Lemma role_first_snoc ds d : role_first ds -> ds <> [] -> no_role d -> role_first (ds ++ [d]).
Proof.
  intros [->|(rest & -> & Hr)] Hne Hd; [done|]. right. exists (rest ++ [d]). split; [done|]. apply Forall_app. split; [done|by repeat constructor].
Qed.

Lemma open_sent ds d v : chat_open ds v -> ds <> [] -> no_role d ->
  chat_open (ds ++ [d]) (sent_frames [chunk_frame (c_id v) (c_created v) (c_model v) d] v).
Proof.
  intros [H1 H2 H3 H4 H5 H6 H7] Hne Hd. split; cbn [sent_frames c_out c_err c_events c_sent c_id c_created c_model c_role c_text]; try done.
  - by rewrite map_app, H1.
  - by apply role_first_snoc.
  - intros Hf. by destruct (H3 Hf).
  - by destruct ds.
  - intros _. by apply H5.
Qed.

(** A delta after the role. *)
Lemma delta_begun d s : begun s -> no_role d -> begun (write_delta d s).
Proof.
  intros [[ds Ho] Hr] Hd. unfold write_delta. destruct (decide (ds = [])) as [->|Hne].
  - pose proof (chunk_stopped (delta_chunk d) s (co_lost _ _ Ho Hr eq_refl)) as Hs.
    split; [exists []; by eapply open_lost|]. change (c_role (chat_view_of (writeChunk (delta_chunk d) s)) = true). by rewrite (sb_role _ _ Hs).
  - assert (forall v', (exists ds', chat_open ds' v') -> c_role v' = true -> chat_view_of (writeChunk (delta_chunk d) s) = v' -> begun (writeChunk (delta_chunk d) s)) as Hb.
    { intros v' H1 H2 <-. by split. }
    destruct (chunk_view (delta_chunk d) s (co_identity _ _ Ho Hne)) as [[_ H]|[_ [[e H]|H]]]; eapply Hb; try exact H; try done.
    + by exists ds.
    + exists ds. by apply open_err.
    + exists (ds ++ [d]). by apply (open_sent ds d (chat_view_of s)).
Qed.
(** *** The role and the identity *)

Lemma minted_settled s : se_unix <> 0 -> let s1 := streamCreated (streamID s) in cs_id s1 <> "" /\ cs_created s1 <> 0 /\ b_model (cs_base s1) = b_model (cs_base s).
Proof.
  intros Hu. cbn zeta. unfold streamCreated, streamID. destruct (String.eqb_spec (cs_id s) ""); cbn;
    (destruct (Z.eqb_spec (cs_created s) 0); cbn; split_and!; done).
Qed.

Lemma role_begun s : se_unix <> 0 -> opened s -> begun (ensureRoleEmitted s).
Proof.
  intros Hu [ds Ho]. unfold ensureRoleEmitted. destruct (cs_roleEmitted s) eqn:Er; [split; [by exists ds|done]|].
  pose proof (co_started _ _ Ho Er) as [-> Htext]. set (s1 := set_role s). pose proof (minted_view s1) as Hm. pose proof (minted_settled s1 Hu) as (H1 & H2 & H3).
  unfold write_delta, writeChunk. set (s2 := streamCreated (streamID s1)) in *. clearbody s2.
  assert (c_role (chat_view_of s2) = true) as Hr2 by (by rewrite (sb_role _ _ Hm)).
  assert (forall v', c_out v' = [] -> c_err v' <> None -> c_events v' = [] -> c_sent v' = true -> c_role v' = true -> chat_open [] v') as Hlost
    by (intros v' E1 E2 E3 E4 E5; split; try done; [by left|by rewrite E5]).
  assert (c_out (chat_view_of s2) = [] /\ c_events (chat_view_of s2) = [] /\ c_sent (chat_view_of s2) = true) as (O2 & V2 & S2).
  { destruct Ho as [E1 _ _ _ _ E6 E7]. rewrite (sb_out _ _ Hm), (sb_events _ _ Hm), (sb_sent _ _ Hm). done. }
  destruct (c_err (chat_view_of s2)) as [e|] eqn:Ee; [|destruct (String.eqb_spec (b_model (cs_base s2)) "") as [Em|Em]].
  - assert (streamModel s2 = s2) as ->.
    { cbn in Ee. unfold streamModel, on_cs_base, validateStreamModel. destruct s2 as [b]. cbn in *. by rewrite Ee. }
    match goal with |- begun (on_cs_base (emitData ?m) s2) => destruct (send_view (DataFrame m) m s2) as [[_ H]|[Hn _]]; [|congruence];
      assert (chat_view_of (on_cs_base (emitData m) s2) = chat_view_of s2) as H' by exact H end.
    split; [exists []; rewrite H'; apply Hlost; try done; by rewrite Ee|].
    match goal with |- cs_roleEmitted ?x = true => change (c_role (chat_view_of x) = true) end. by rewrite H'.
  - set (s3 := streamModel s2). assert (chat_view_of s3 = err_view "upstream stream missing chunk.model field" (chat_view_of s2)) as E3.
    { subst s3. destruct s2 as [b]. cbn in Ee, Em. unfold streamModel, on_cs_base, validateStreamModel, chat_view_of. cbn.
      rewrite Ee, Em. cbn. by rewrite Em. }
    match goal with |- begun (on_cs_base (emitData ?m) s3) => destruct (send_view (DataFrame m) m s3) as [[_ H]|[H _]]; [|by rewrite E3 in H];
      assert (chat_view_of (on_cs_base (emitData m) s3) = chat_view_of s3) as H' by exact H end.
    split; [exists []; rewrite H', E3; by apply Hlost|].
    match goal with |- cs_roleEmitted ?x = true => change (c_role (chat_view_of x) = true) end. by rewrite H', E3.
  - assert (streamModel s2 = s2) as ->.
    { unfold streamModel, on_cs_base, validateStreamModel. destruct s2 as [b]. cbn in *. by rewrite Ee, (proj2 (String.eqb_neq _ _) Em). }
    match goal with |- begun (on_cs_base (emitData ?m) s2) => destruct (send_view (DataFrame m) m s2) as [[H _]|[_ H]]; [by rewrite Ee in H|];
      change (emitData m) with (emit_encoded (DataFrame m) m) end.
    match goal with |- begun ?x => assert (c_role (chat_view_of x) = true /\ exists ds', chat_open ds' (chat_view_of x)) as [Hr Hx]; [|by split] end.
    destruct H as [[e ->]| ->]; (split; [exact Hr2|]).
    + exists []. by apply Hlost.
    + exists [role_delta]. split; cbn [sent_frames c_out c_err c_events c_sent c_id c_created c_model c_role c_text]; try done.
      * by rewrite O2.
      * right. by exists [].
      * by rewrite Hr2.
Qed.

Lemma opened_identity s s' : opened s -> same_but_identity (chat_view_of s) (chat_view_of s') ->
  (settled_identity (chat_view_of s) -> chat_view_of s' = chat_view_of s) -> opened s'.
Proof.
  intros [ds Ho] Hs Hi. destruct (decide (ds = [])) as [->|Hne]; [exists []; by eapply open_lost|]. exists ds. rewrite Hi; [done|]. by apply Ho.
Qed.

Lemma capture_opened chunk s : opened s -> opened (ensureStreamIdentity chunk s).
Proof.
  intros Ho. eapply opened_identity; [exact Ho|..].
  - unfold ensureStreamIdentity. destruct (cs_identityPinned s); by split.
  - intros (H1 & H2 & H3). cbn in H1, H2, H3. unfold ensureStreamIdentity. destruct (cs_identityPinned s); [done|].
    rewrite (proj2 (String.eqb_neq _ _) H1), (proj2 (Z.eqb_neq _ _) H2), (proj2 (String.eqb_neq _ _) H3). done.
Qed.
(** *** Content *)

Lemma set_text_begun t n s : begun s -> begun (set_text t n s).
Proof.
  intros [[ds [H1 H2 H3 H4 H5 H6 H7]] Hr]. split; [|done]. exists ds. split; try done. intros Hf. exfalso. cbn in Hf. congruence.
Qed.

Lemma forwarder_view f s : chat_view_of (set_forwarder f s) = chat_view_of s.
Proof. done. Qed.

Lemma set_forwarder_begun f s : begun s -> begun (set_forwarder f s).
Proof. done. Qed.

Lemma release_begun released s : begun s -> begun (release released s).
Proof.
  intros Hb. unfold release. destruct released as [[[e out] anns]|]; [|done].
  assert (begun (set_text (e_text e) (flushedRunes e) s)) as H1 by (by apply set_text_begun).
  set (s1 := set_text _ _ s) in *. clearbody s1. destruct out as [|r out].
  - destruct anns; [done|]. by apply delta_begun.
  - assert (begun (write_delta {["content" := JStr (string_of (r :: out))]} s1)) by (by apply delta_begun).
    destruct anns; [done|]. by apply delta_begun.
Qed.

Lemma content_begun fragment s : begun s -> begun (emitContentDelta fragment s).
Proof. apply release_begun. Qed.

Lemma reasoning_begun delta s : begun s -> begun (emitReasoningDelta delta s).
Proof.
  intros Hb. unfold emitReasoningDelta. cbn zeta. case_bool_decide; [done|]. apply delta_begun; [done|]. unfold no_role, chatReasoningField, chatReasoningContentField.
  destruct (String.eqb _ _), (String.eqb _ _); rewrite ?lookup_insert_ne by done; apply lookup_empty.
Qed.

Lemma tool_delta_begun x s : begun s -> begun (emitClientToolCallDelta x s).
Proof. intros Hb. unfold emitClientToolCallDelta. case_bool_decide; [done|]. by apply delta_begun. Qed.

Lemma marker_begun id status action reason sources pii s : begun s -> begun (emitTinfoilEventMarker id status action reason sources pii s).
Proof. intros Hb. unfold emitTinfoilEventMarker. destruct (negb (cs_events s)); [done|]. by apply delta_begun. Qed.

Lemma flush_opened s : opened s -> opened (flushCitations s).
Proof.
  intros [ds Ho]. destruct (cs_roleEmitted s) eqn:Er.
  - assert (begun s) as Hb by (split; [by exists ds|done]). apply (release_begun _ s Hb).
  - destruct (co_started _ _ Ho Er) as [-> Ht]. cbn in Ht. unfold flushCitations, Flush, drain, cs_emitter. rewrite Ht. cbn [e_text flushedRunes length Nat.sub].
    unfold resolveHarmonyTokens. cbn [e_state e_text flushedRunes length Nat.leb]. rewrite orb_true_r. cbn [drain_loop e_text flushedRunes length Nat.leb release].
    exists []. destruct Ho as [H1 H2 H3 H4 H5 H6 H7]. by split.
Qed.

(** *** The pump *)

Lemma tools_begun out : forall s, begun s -> begun (foldl (fun s x => emitClientToolCallDelta x s) s out).
Proof. induction out as [|x out IH]; intros s Hb; [done|]. cbn [foldl]. apply IH. by apply tool_delta_begun. Qed.

Lemma pump_delta_begun delta p : begun (p_streamer p) -> begun (p_streamer (pump_delta delta p)).
Proof.
  intros Hb. unfold pump_delta. set (p1 := accumulate (emitReasoningDelta delta) _ p). assert (begun (p_streamer p1)) as H1 by (by apply reasoning_begun).
  clearbody p1. set (p2 := if String.eqb _ "" then p1 else _). assert (begun (p_streamer p2)) as H2 by (subst p2; destruct (String.eqb _ ""); [done|by apply content_begun]).
  clearbody p2. cbn zeta. destruct (get "tool_calls" delta); try done. destruct (ingest _ _ _ _ _) as [[entries f] out]. cbn [p_streamer]. by apply tools_begun.
Qed.

Lemma pump_chunk_begun chunk p : se_unix <> 0 -> opened (p_streamer p) -> begun (p_streamer (pump_chunk chunk p)).
Proof.
  intros Hu Ho. unfold pump_chunk. set (p1 := accumulate _ _ p).
  assert (begun (p_streamer p1)) as H1 by (by apply role_begun, capture_opened). clearbody p1. destruct (first_choice chunk) as [choice|]; [|done]. cbn zeta.
  set (p2 := if String.eqb _ "" then p1 else _). assert (begun (p_streamer p2)) as H2 by (subst p2; by destruct (String.eqb _ "")). clearbody p2.
  destruct (get "delta" choice); try done. by apply pump_delta_begun.
Qed.

Lemma fold_usage_view r s : chat_view_of (fold_usage r s) = chat_view_of s.
Proof. unfold fold_usage. by destruct (res_usage r). Qed.

(** *** Turns *)

(** What is assembled was announced by a chunk, so the role is out. *)
Definition pumping (p : pump_state) : Prop := opened (p_streamer p) /\ (p_entries p <> [] -> cs_roleEmitted (p_streamer p) = true).

Lemma pump_loop_pumping fuel : forall reader p, se_unix <> 0 -> pumping p -> pumping (pump_loop fuel reader p).1.
Proof.
  induction fuel as [|fuel IH]; intros reader p Hu Hp; cbn [pump_loop]; [done|]. destruct (b_writeErr _); [done|].
  destruct (next reader) as [[f|[[|]|]] reader']; try done. case_bool_decide; [done|]. destruct (f_data f); [by apply IH|].
  destruct (se_unmarshal _) as [chunk|]; [|done]. cbn zeta.
  destruct (get "error" _); try done; (apply IH; [done|]; destruct (pump_chunk_begun (default ∅ chunk) p Hu (proj1 Hp)); by split).
Qed.

Lemma pump_opened reader s : se_unix <> 0 -> opened s ->
  let '(s', r, _) := pumpUpstream reader s in opened s' /\ (res_toolCalls r <> [] -> begun s').
Proof.
  intros Hu Ho. unfold pumpUpstream. set (p := MkPump _ _ _). assert (pumping p) as Hp0 by (by split).
  assert (res_toolCalls (p_result p) = []) as Hr0 by done.
  assert (forall fuel reader p, res_toolCalls (p_result p) = [] -> res_toolCalls (p_result (pump_loop fuel reader p).1) = []) as Hr.
  { clear. induction fuel as [|fuel IH]; intros reader p Hr; cbn [pump_loop]; [done|]. destruct (b_writeErr _); [done|].
    destruct (next reader) as [[f|[[|]|]] reader']; try done. case_bool_decide; [done|]. destruct (f_data f); [by apply IH|].
    destruct (se_unmarshal _) as [chunk|]; [|done]. cbn zeta. assert (forall c, res_toolCalls (p_result (pump_chunk c p)) = []) as Hc.
    { intros c. unfold pump_chunk, pump_delta. cbn zeta. destruct (first_choice c) as [choice|]; [|done].
      destruct (String.eqb (get_string "finish_reason" choice) ""); destruct (get "delta" choice); try done;
        destruct (String.eqb (get_string "content" _) ""); destruct (get "tool_calls" _); try done; by destruct (ingest _ _ _ _ _) as [[? ?] ?]. }
    destruct (get "error" _); try done; by apply IH. }
  pose proof (pump_loop_pumping (S (length (r_lines reader))) reader p Hu Hp0) as [H1 H2]. specialize (Hr (S (length (r_lines reader))) reader p Hr0).
  destruct (pump_loop _ reader p) as [p' e]. cbn [fst] in *. cbn zeta.
  assert (opened (fold_usage (p_result p') (p_streamer p'))) as Hf by (unfold opened; by rewrite fold_usage_view).
  destruct e; [|by rewrite Hr..]. destruct (negb doneSeen).
  - split; [done|]. cbn [res_toolCalls]. intros Hc. split; [done|]. change (c_role (chat_view_of (fold_usage (p_result p') (p_streamer p'))) = true).
    rewrite fold_usage_view. apply H2. intros E. by rewrite E in Hc.
  - split; [done|]. cbn [res_toolCalls]. intros Hc. split; [done|].
    change (c_role (chat_view_of (fold_usage (p_result p') (p_streamer p'))) = true). rewrite fold_usage_view. apply H2. intros E. by rewrite E in Hc.
Qed.

(** A stream nothing has been written to. *)
Record chat_unopened (v : chat_view) : Prop := {
  cu_out : c_out v = [];
  cu_err : c_err v = None;
  cu_events : c_events v = [];
  cu_sent : c_sent v = false;
  cu_role : c_role v = false;
  cu_text : c_text v = []
}.

Lemma iteration_chat reqBody s : se_unix <> 0 -> chat_unopened (chat_view_of s) \/ opened s ->
  let '(s', r, e) := runIteration reqBody s in
  (opened s' /\ (res_toolCalls r <> [] -> begun s')) \/ (chat_unopened (chat_view_of s') /\ e <> None).
Proof.
  intros Hu Hs. unfold runIteration.
  assert (let '(opened', b) := openUpstreamSSE "/v1/chat/completions" reqBody (cs_base s) in let s' := on_cs_base (fun _ => b) s in
    match opened' with inl _ => chat_view_of s' = chat_view_of s | inr _ => opened s' end) as Hv.
  { unfold openUpstreamSSE. destruct (se_open _ _ _) as [msg|resp]; [done|]. destruct (_ || _); [done|]. cbn zeta.
    set (s1 := on_cs_base _ s). assert (c_sent (chat_view_of s1) = true /\ (c_out (chat_view_of s1) = c_out (chat_view_of s) /\ c_err (chat_view_of s1) = c_err (chat_view_of s)
      /\ c_events (chat_view_of s1) = c_events (chat_view_of s)) /\ (c_id (chat_view_of s1) = c_id (chat_view_of s) /\ c_created (chat_view_of s1) = c_created (chat_view_of s)
      /\ c_model (chat_view_of s1) = c_model (chat_view_of s)) /\ c_role (chat_view_of s1) = c_role (chat_view_of s) /\ c_text (chat_view_of s1) = c_text (chat_view_of s))
      as (E1 & (E2 & E3 & E4) & (E5 & E6 & E7) & E8 & E9).
    { subst s1. unfold chat_view_of, on_cs_base. cbn [cs_base]. destruct (b_headersWritten _) eqn:E; cbn; [by rewrite <- E|done]. }
    destruct Hs as [[F1 F2 F3 F4 F5 F6]|[ds [H1 H2 H3 H4 H5 H6 H7]]].
    - exists []. split; [by rewrite E2|by left|by rewrite E9|by rewrite E8, F5|done|by rewrite E4|done].
    - exists ds. split; [by rewrite E2, E5, E6, E7|done|by rewrite E8, E9|by rewrite E8, E3| |by rewrite E4|done].
      intros Hne. specialize (H5 Hne). unfold settled_identity. by rewrite E5, E6, E7. }
  destruct (openUpstreamSSE _ _ _) as [[err|reader] b]; cbn zeta in Hv.
  - destruct Hs as [Hs|Hs]; [right; by rewrite Hv|left]. split; [unfold opened; by rewrite Hv|done].
  - pose proof (pump_opened reader _ Hu Hv) as Hp. destruct (pumpUpstream _ _) as [[s' r] e]. by left.
Qed.

(** *** The router's tools *)

Lemma call_server_chat session n dispatch args (s : chatStreamer) : chat_view_of (call_server session n dispatch args s).1.1.1 = chat_view_of s.
Proof.
  unfold call_server. cbn zeta. destruct (callTool _ _ _ _) as [[output structured] [err|]]; [done|].
  by destruct (applyStructuredFormat _ _ _ _).
Qed.

Lemma begun_view s s' : chat_view_of s' = chat_view_of s -> begun s -> begun s'.
Proof. intros E [[ds Ho] Hr]. split; [exists ds; by rewrite E|]. change (c_role (chat_view_of s') = true). by rewrite E. Qed.

Lemma item_begun id details (s : chatStreamer) : begun s -> begun (tp_open id details s).1.
Proof. intros Hb. cbn [tp_open chat_emitter fst]. by apply marker_begun. Qed.
Lemma close_begun handle n details result status reason (s : chatStreamer) : begun s -> begun (tp_close handle n details result status reason s).
Proof. intros Hb. cbn [tp_close chat_emitter]. by apply marker_begun. Qed.

Lemma foldl_begun {B} (f : chatStreamer -> B -> chatStreamer) l : (forall s x, begun s -> begun (f s x)) -> forall s, begun s -> begun (foldl f s l).
Proof. intros Hf. induction l as [|x l IH]; intros s Hb; [done|]. cbn [foldl]. apply IH. by apply Hf. Qed.

Lemma single_begun session call args dispatch phases details (s : chatStreamer) : begun s ->
  begun (executeSingleToolWithProgress session call args dispatch phases details s).1.1.
Proof.
  intros Hb. unfold executeSingleToolWithProgress. cbn [draw_id]. set (s1 := on_base draw s). assert (begun s1) as H1 by done.
  pose proof (item_begun (idPrefix phases +:+ e_uuid (b_uuids (base_of s))) details s1 H1) as H2. destruct (tp_open _ details s1) as [s2 handle]. cbn [fst] in H2.
  assert (begun (foldl (fun s phase => tp_phase handle phase s) s2 (preCallPhases phases))) as H3 by (by apply foldl_begun). set (s3 := foldl _ s2 _) in *.
  pose proof (call_server_chat session (name call) dispatch args s3) as H4. destruct (call_server _ _ _ _ s3) as [[[s4 output] structured] err]. cbn [fst] in H4.
  pose proof (begun_view _ _ H4 H3). destruct err; cbn [fst]; by apply close_begun.
Qed.

Lemma pages_begun phases urls : forall s : chatStreamer, begun s -> begun (open_pages phases urls s).1.
Proof.
  induction urls as [|u urls IH]; intros s Hb; [done|]. cbn [open_pages draw_id]. set (s1 := on_base draw s). assert (begun s1) as H1 by done.
  pose proof (item_begun (idPrefix phases +:+ e_uuid (b_uuids (base_of s))) (open_page_action u) s1 H1) as H2. destruct (tp_open _ _ s1) as [s2 handle]. cbn [fst] in H2.
  assert (begun (foldl (fun s phase => tp_phase handle phase s) s2 (preCallPhases phases))) as H3 by (by apply foldl_begun). specialize (IH _ H3).
  by destruct (open_pages phases urls _) as [s4 handles].
Qed.

Lemma resolve_begun registry call opts schemas (s : chatStreamer) : begun s -> begun (resolveStreamingRouterToolCall registry call opts schemas s).1.
Proof.
  intros Hb. unfold resolveStreamingRouterToolCall. cbn zeta. set (args := prepare _ _ _ _).
  assert (forall session dispatch, begun (plain_call session call args dispatch s).1.1) as Hplain.
  { intros session dispatch. unfold plain_call. pose proof (call_server_chat session (name call) dispatch args s) as H.
    destruct (call_server _ _ _ _ s) as [[[s4 output] structured] [err|]]; cbn [fst] in *; by apply (begun_view s). }
  assert (begun (executeToolWithProgress registry call args s).1.1) as H.
  { unfold executeToolWithProgress. destruct (sessionFor _ _) as [session|]; [|done]. destruct (isRouterSearchToolName _); [by apply single_begun|].
    destruct (isRouterFetchToolName _); [|done]. unfold executeFetchWithProgress. destruct (fetchArgumentURLs _) as [|u urls]; [done|].
    pose proof (pages_begun (toolPhasesFor (name call)) (u :: urls) s Hb) as H1. destruct (open_pages _ _ s) as [s1 handles]. cbn [fst] in H1.
    pose proof (call_server_chat session (name call) (dispatchName registry (name call)) args s1) as H2.
    destruct (call_server _ _ _ _ s1) as [[[s2 output] structured] [err|]]; cbn [fst] in *; apply (begun_view _ _ H2) in H1;
      (apply foldl_begun; [|done]); intros s' h Hs'; by apply close_begun. }
  destruct (executeToolWithProgress _ _ _ s) as [[s1 execution] [err|]]; done.
Qed.

Lemma run_calls_begun registry opts schemas calls : forall s : chatStreamer, begun s -> begun (run_stream_calls registry opts schemas calls s).1.
Proof.
  induction calls as [|call calls IH]; intros s Hb; [done|]. cbn [run_stream_calls]. pose proof (resolve_begun registry call opts schemas s Hb) as H1.
  destruct (resolveStreamingRouterToolCall _ _ _ _ s) as [s1 output]. cbn [fst] in H1. specialize (IH s1 H1).
  by destruct (run_stream_calls _ _ _ _ s1) as [s2 outputs].
Qed.

(** *** The end *)

(** [v'] is [v] with some of the frames sent, all of them unless a write failed. *)
Record advances (fs : list frame) (v v' : chat_view) : Prop := {
  ad_out : exists p, p `prefix_of` fs /\ c_out v' = c_out v ++ p /\ (c_err v' = None -> c_err v = None /\ p = fs) /\ (c_err v <> None -> p = []);
  ad_events : c_events v' = c_events v;
  ad_sent : c_sent v' = c_sent v;
  ad_identity : settled_identity v -> c_id v' = c_id v /\ c_created v' = c_created v /\ c_model v' = c_model v
}.

Lemma advances_same fs v v' : c_err v <> None -> same_but_identity v v' -> (settled_identity v -> v' = v) -> advances fs v v'.
Proof.
  intros He [E1 E2 E3 E4 E5 E6] Hi. split; [|done|done|by intros ->%Hi]. exists []. rewrite app_nil_r. split_and!; [by apply prefix_nil|done| |done].
  rewrite E2. done.
Qed.

Lemma advances_step f v v' : (c_err v <> None /\ v' = v) \/ (c_err v = None /\ ((exists e, v' = err_view e v) \/ v' = sent_frames [f] v)) -> advances [f] v v'.
Proof.
  intros [[He ->]|[He [[e ->]| ->]]].
  - by apply advances_same.
  - split; try done. exists []. rewrite app_nil_r. split_and!; [by apply prefix_nil|done|done|done].
  - split; try done. exists [f]. by split_and!.
Qed.

Lemma advances_app fs1 fs2 v v1 v2 : advances fs1 v v1 -> advances fs2 v1 v2 -> advances (fs1 ++ fs2) v v2.
Proof.
  intros [(p1 & P1 & O1 & N1 & S1) E1 T1 I1] [(p2 & P2 & O2 & N2 & S2) E2 T2 I2].
  split; [|congruence|congruence|].
  - destruct (c_err v1) as [e|] eqn:Ee.
    + rewrite S2, app_nil_r in O2 by done. exists p1. split_and!; [by apply prefix_app_r|congruence| |done]. intros H. by destruct (N2 H).
    + destruct (N1 eq_refl) as [Hv ->]. exists (fs1 ++ p2). split_and!; [by apply prefix_app|by rewrite O2, O1, app_assoc| |congruence].
      intros H. destruct (N2 H) as [_ ->]. done.
  - intros Hi. destruct (I1 Hi) as (A1 & A2 & A3). destruct I2 as (B1 & B2 & B3); [|by rewrite B1, B2, B3]. unfold settled_identity in *. by rewrite A1, A2, A3.
Qed.

Lemma advances_ready fs v v' : advances fs v v' -> settled_identity v \/ c_err v <> None -> settled_identity v' \/ c_err v' <> None.
Proof.
  intros [(p & _ & _ & N & _) _ _ I] [Hs|He].
  - left. destruct (I Hs) as (A1 & A2 & A3). unfold settled_identity in *. by rewrite A1, A2, A3.
  - right. intros H. by destruct (N H).
Qed.

Lemma chunk_advances partial s : settled_identity (chat_view_of s) \/ c_err (chat_view_of s) <> None ->
  advances [DataFrame (partial ∪ stream_identity (cs_id s) (cs_created s) (b_model (cs_base s)))] (chat_view_of s) (chat_view_of (writeChunk partial s)).
Proof.
  intros [Hs|He]; [by apply advances_step, chunk_view|]. apply advances_same; [done|by apply chunk_stopped|]. intros Hs.
  destruct (chunk_view partial s Hs) as [[_ H]|[H _]]; [exact H|done].
Qed.

(** The frames that end a stream. *)
Definition finish_frames (id : string) (created : Z) (model : string) (reason : string) (usage : option object) : list frame :=
  DataFrame (finish_chunk reason ∪ stream_identity id created model)
  :: match usage with Some u => [DataFrame ({["choices" := JArr []; "usage" := JObj u]} ∪ stream_identity id created model)] | None => [] end
  ++ [DoneFrame].
Definition failure_frames (err : failure) : list frame := [DataFrame {["error" := JObj (upstreamErrorPayload err)]}; DoneFrame].

(** A stream that has ended: deltas, then as much of [fs] as could be sent. With
    [started] nothing is complete without the role. *)
Definition ended_with (started : bool) (fs : list frame) (v : chat_view) : Prop :=
  exists ds p, c_out v = map (chunk_frame (c_id v) (c_created v) (c_model v)) ds ++ p /\ role_first ds /\ p `prefix_of` fs
    /\ (c_err v = None -> p = fs /\ (started = true -> ds <> [])) /\ c_sent v = true.

Lemma advanced_end started fs ds v v' : chat_open ds v -> (started = true -> c_role v = true) -> advances fs v v' ->
  ended_with started fs v' /\ c_events v' = [].
Proof.
  intros Ho Hst [(p & P & O & N & S) E T I]. pose proof (co_unbilled _ _ Ho) as Hb. split; [|congruence]. exists ds, p. split_and!; [|by apply Ho|done| |by rewrite T; apply Ho].
  - rewrite O, (co_out _ _ Ho). destruct ds as [|d ds]; [done|]. destruct (I (co_identity _ _ Ho ltac:(done))) as (-> & -> & ->). done.
  - intros H. destruct (N H) as [He ->]. split; [done|]. intros Hs ->. by apply (co_lost _ _ Ho (Hst Hs)).
Qed.

Lemma unstreamed_begun r calls s : begun s -> begun (send_unstreamed r calls s).
Proof.
  intros Hb. unfold send_unstreamed. destruct calls as [|c cs]; [done|]. destruct (unstreamed _ _) as [rest f]. cbn zeta. destruct rest; [done|].
  set (raw := rawToolCallsFromParsedAt _ _ _). destruct raw; [done|]. apply delta_begun; [|done]. by apply set_forwarder_begun.
Qed.

Lemma advances_any fs fs' v v' : c_err v <> None -> advances fs v v' -> advances fs' v v'.
Proof.
  intros He [(p & P & O & N & S) E T I]. split; [|done..]. exists p. rewrite (S He) in *. split_and!; [apply prefix_nil|done| |done].
  intros H. by destruct (N H).
Qed.

Lemma begun_ready s : begun s -> settled_identity (chat_view_of s) \/ c_err (chat_view_of s) <> None.
Proof. intros [[ds Ho] Hr]. destruct (decide (ds = [])) as [->|Hne]; [right; by apply (co_lost _ _ Ho)|left; by apply (co_identity _ _ Ho)]. Qed.

Lemma flush_begun s : begun s -> begun (flushCitations s).
Proof. apply release_begun. Qed.

(** The frames of [finalize] after the client's calls. *)
Definition closing (reason : string) (s : chatStreamer) : chatStreamer * option object :=
  let s := writeChunk (finish_chunk reason) s in
  let usage := finalUsage s in
  (write_done (match usage with
               | Some u => if cs_clientRequestedUsage s then writeChunk {["choices" := JArr []; "usage" := JObj u]} s else s
               | None => s
               end), usage).

Definition shown_usage (s : chatStreamer) (usage : option object) : option object := if cs_clientRequestedUsage s then usage else None.

Lemma write_requested partial s : cs_clientRequestedUsage (writeChunk partial s) = cs_clientRequestedUsage s.
Proof. unfold writeChunk, streamModel, streamCreated, streamID. cbn. repeat case_match; done. Qed.

Lemma frame_totals f b : b_usageTotals (write_frame f b) = b_usageTotals b.
Proof. unfold write_frame. repeat case_match; done. Qed.
Lemma send_totals f body b : b_usageTotals (emit_encoded f body b) = b_usageTotals b.
Proof. unfold emit_encoded. repeat case_match; try done. apply frame_totals. Qed.
Lemma write_totals partial s : b_usageTotals (cs_base (writeChunk partial s)) = b_usageTotals (cs_base s).
Proof.
  unfold writeChunk. cbn [on_cs_base cs_base]. unfold emitData. rewrite send_totals. unfold streamModel, streamCreated, streamID, validateStreamModel.
  destruct (String.eqb (cs_id s) ""), (cs_created s =? 0); cbn; repeat case_match; done.
Qed.

Lemma closing_advances reason s : begun s ->
  let '(s', usage) := closing reason s in
  advances (finish_frames (cs_id s') (cs_created s') (b_model (cs_base s')) reason (shown_usage s' usage)) (chat_view_of s) (chat_view_of s')
  /\ usage = chatUsageMap <$> Accumulated (b_usageTotals (cs_base s)) /\ b_usageTotals (cs_base s') = b_usageTotals (cs_base s).
Proof.
  intros Hb. pose proof (begun_ready s Hb) as Hready. unfold closing. cbn zeta. set (s1 := writeChunk (finish_chunk reason) s).
  pose proof (chunk_advances (finish_chunk reason) s Hready) as A1. fold s1 in A1. pose proof (advances_ready _ _ _ A1 Hready) as R1.
  assert (cs_clientRequestedUsage s1 = cs_clientRequestedUsage s) as Q1 by apply write_requested.
  assert (b_usageTotals (cs_base s1) = b_usageTotals (cs_base s)) as T1 by apply write_totals.
  assert (finalUsage s1 = chatUsageMap <$> Accumulated (b_usageTotals (cs_base s))) as -> by (unfold finalUsage; by rewrite T1).
  set (usage := chatUsageMap <$> _). set (s2 := match usage with Some _ => _ | None => s1 end).
  assert (b_usageTotals (cs_base s2) = b_usageTotals (cs_base s)) as T2.
  { subst s2. destruct usage; [|done]. destruct (cs_clientRequestedUsage s1); [|done]. by rewrite write_totals. }
  assert (advances (match shown_usage s usage with Some u => [DataFrame ({["choices" := JArr []; "usage" := JObj u]}
      ∪ stream_identity (cs_id s1) (cs_created s1) (b_model (cs_base s1)))] | None => [] end) (chat_view_of s1) (chat_view_of s2)) as A2.
  { subst s2. unfold shown_usage. rewrite <- Q1. assert (advances [] (chat_view_of s1) (chat_view_of s1)) as Hn.
    { split; try done. exists []. by rewrite app_nil_r. }
    destruct usage; [|by destruct (cs_clientRequestedUsage s1)]. destruct (cs_clientRequestedUsage s1); [by apply chunk_advances|done]. }
  pose proof (advances_step DoneFrame _ _ (done_view s2)) as A3.
  pose proof (advances_app _ _ _ _ _ A1 (advances_app _ _ _ _ _ A2 A3)) as A.
  split_and!; [|done|]; [|unfold write_done; cbn [on_cs_base cs_base]; by rewrite frame_totals].
  destruct Hready as [Hs|He]; [|by eapply advances_any]. assert (shown_usage (write_done s2) usage = shown_usage s usage) as ->.
  { unfold shown_usage. f_equal. change (cs_clientRequestedUsage (write_done s2)) with (cs_clientRequestedUsage s2). subst s2.
    destruct usage; [|by rewrite Q1]. destruct (cs_clientRequestedUsage s1) eqn:Eq; [by rewrite write_requested, Eq, <- Q1|by rewrite Eq, <- Q1]. }
  destruct (ad_identity _ _ _ A Hs) as (K1 & K2 & K3). assert (cs_id (write_done s2) = cs_id s) as -> by exact K1.
  assert (cs_created (write_done s2) = cs_created s) as -> by exact K2. assert (b_model (cs_base (write_done s2)) = b_model (cs_base s)) as -> by exact K3.
  destruct (ad_identity _ _ _ A1 Hs) as (I1 & I2 & I3).
  assert (cs_id s1 = cs_id s) as J1 by exact I1. assert (cs_created s1 = cs_created s) as J2 by exact I2.
  assert (b_model (cs_base s1) = b_model (cs_base s)) as J3 by exact I3. rewrite J1, J2, J3 in A. exact A.
Qed.

Section Ends.
Context (r : incoming) (modelName : string).

(** The one event of a run, for the usage of all its turns. *)
Definition chat_billed (s : chatStreamer) : Prop :=
  exists h, b_events (cs_base s) = emitBillingEvent se_now r
    (Some (MkResponse (Some {["usage" := match chatUsageMap <$> Accumulated (b_usageTotals (cs_base s)) with Some u => JObj u | None => JNull end]}) (Some h) 0))
    modelName true.

(** How a run that has begun ends: with a finish, with a failure, or with its
    client gone. *)
Inductive chat_ends (s : chatStreamer) (ret : option returned) : Prop :=
  | Finished reason : ended_with true (finish_frames (cs_id s) (cs_created s) (b_model (cs_base s)) reason
      (shown_usage s (chatUsageMap <$> Accumulated (b_usageTotals (cs_base s))))) (chat_view_of s) ->
      ret = latched (cs_base s) -> chat_ends s ret
  | Terminated err : ended_with false (failure_frames err) (chat_view_of s) -> ret = latched (cs_base s) -> chat_ends s ret
  | ClientGone : ended_with false [] (chat_view_of s) -> b_writeErr (cs_base s) <> None -> ret = None -> chat_ends s ret.

Lemma ended_base started fs b s : (forall x, x = chat_view_of (on_cs_base (fun _ => b) s) -> c_out x = c_out (chat_view_of s) /\ c_err x = c_err (chat_view_of s)
    /\ c_sent x = c_sent (chat_view_of s) /\ c_model x = c_model (chat_view_of s)) ->
  ended_with started fs (chat_view_of s) -> ended_with started fs (chat_view_of (on_cs_base (fun _ => b) s)).
Proof.
  intros Hx (ds & p & H1 & H2 & H3 & H4 & H5). destruct (Hx _ eq_refl) as (E1 & E2 & E3 & E4). exists ds, p. rewrite E1, E2, E3, E4. by split_and!.
Qed.

Lemma finalize_chat result calls s s' ret : se_unix <> 0 -> opened s -> chat_finalize r modelName result calls s = Some (s', ret) ->
  chat_ends s' ret /\ chat_billed s'.
Proof.
  intros Hu Ho. unfold chat_finalize. cbn zeta. set (s1 := send_unstreamed _ _ _).
  assert (begun s1) as Hb by (by apply unstreamed_begun, flush_begun, role_begun). clearbody s1.
  set (reason := match calls with _ :: _ => _ | [] => _ end). clearbody reason. pose proof (closing_advances reason s1 Hb) as Hc.
  unfold closing in Hc. cbn zeta in Hc. set (s2 := write_done _) in *. set (usage := finalUsage _) in *.
  destruct Hc as (A & Hus & Ht). clearbody s2 usage. destruct Hb as [[ds Hop] Hr]. destruct (advanced_end true _ _ _ _ Hop ltac:(done) A) as [He Hev].
  destruct (set_metrics modelName usage (cs_base s2)) as [b|] eqn:Em; [|done]. cbn [mbind option_bind]. intros [= <- <-].
  assert (b_out b = b_out (cs_base s2) /\ b_writeErr b = b_writeErr (cs_base s2) /\ b_headersWritten b = b_headersWritten (cs_base s2) /\ b_model b = b_model (cs_base s2)
    /\ b_usageTotals b = b_usageTotals (cs_base s2) /\ b_events b = b_events (cs_base s2)) as (B1 & B2 & B3 & B4 & B5 & B6).
  { unfold set_metrics in Em. destruct (negb _); [by injection Em as <-|]. destruct (formatUsageMetrics _ _ _ _) as [f|]; [|done]. cbn [mbind option_bind] in Em.
    injection Em as <-. by destruct (String.eqb f ""). }
  split.
  - apply (Finished _ _ reason); [|done]. cbn [on_cs_base cs_base cs_id cs_created emit_billing bill b_model b_usageTotals]. rewrite B4, B5, Ht, <- Hus.
    change (shown_usage (on_cs_base _ s2) usage) with (shown_usage s2 usage). apply ended_base; [|exact He]. intros x ->. cbn. by rewrite B1, B2, B3, B4.
  - exists (default ∅ (b_upstreamHeaders b)). cbn [on_cs_base cs_base emit_billing bill b_events b_usageTotals]. rewrite B6, B5, Ht, <- Hus.
    change (b_events (cs_base s2)) with (c_events (chat_view_of s2)). by rewrite Hev.
Qed.

Lemma terminate_chat err s s' ret : opened s -> terminateWithError r modelName err s = (s', ret) -> chat_ends s' ret /\ chat_billed s'.
Proof.
  intros Ho. unfold terminateWithError. destruct (flush_opened s Ho) as [ds Hf]. destruct Ho as [ds0 Ho].
  pose proof (co_sent _ _ Ho) as Hs. cbn in Hs. rewrite Hs. cbn [negb]. set (s1 := flushCitations s) in *. clearbody s1. cbn zeta.
  set (m := ({["error" := JObj (upstreamErrorPayload err)]} : object)).
  pose proof (advances_step (DataFrame m) _ _ (send_view (DataFrame m) m s1)) as A1. change (emit_encoded (DataFrame m) m) with (emitData m) in A1.
  set (s2 := on_cs_base (emitData m) s1) in *. pose proof (advances_step DoneFrame _ _ (done_view s2)) as A2. set (s3 := write_done s2) in *. clearbody s3 s2.
  pose proof (advances_app _ _ _ _ _ A1 A2) as A. destruct (advanced_end false _ _ _ _ Hf ltac:(done) A) as [He Hev]. intros [= <- <-]. split.
  - apply (Terminated _ _ err); [|done]. apply ended_base; [|exact He]. by intros x ->.
  - eexists. cbn [on_cs_base cs_base emit_billing bill b_events b_usageTotals finalUsage]. change (b_events (cs_base s3)) with (c_events (chat_view_of s3)). by rewrite Hev.
Qed.

(** *** The run *)

Definition chat_run_end (s : chatStreamer) (ret : option returned) : Prop :=
  (chat_unopened (chat_view_of s) /\ exists e, ret = Some (ReturnedError e)) \/ (chat_ends s ret /\ chat_billed s).

Lemma terminate_any err s s' ret : chat_unopened (chat_view_of s) \/ opened s -> terminateWithError r modelName err s = (s', ret) -> chat_run_end s' ret.
Proof.
  intros [Hu|Ho] H; [|right; by eapply terminate_chat]. unfold terminateWithError in H. pose proof (cu_sent _ Hu) as Hs. cbn in Hs. rewrite Hs in H.
  cbn [negb] in H. injection H as <- <-. left. split; [done|by eexists].
Qed.

Section Turns.
Context (registry : sessionRegistry) (opts : webSearchOptions) (schemas : gmap string Schema) (unix_set : se_unix <> 0).

Lemma split_router owned calls : (splitToolCalls owned calls).1 <> [] -> calls <> [].
Proof. by destruct calls. Qed.

Lemma turn_chat reqBody s : chat_unopened (chat_view_of s) \/ opened s ->
  match stream_turn registry opts schemas r modelName reqBody s with
  | inl (Some (s', ret)) => chat_run_end s' ret
  | inl None => True
  | inr (_, s') => opened s'
  end.
Proof.
  intros Hs. unfold stream_turn. pose proof (iteration_chat (chat_preIteration reqBody) s unix_set Hs) as Hi.
  destruct (runIteration _ s) as [[s1 result] [err|]].
  { destruct (terminateWithError r modelName err s1) as [s' ret] eqn:Et. eapply terminate_any; [|exact Et]. destruct Hi as [[? _]|[? _]]; [by right|by left]. }
  destruct Hi as [[Ho Hc]|[_ ?]]; [|done]. destruct (b_writeErr (cs_base s1)) eqn:Ew.
  { right. destruct Ho as [ds Ho]. split.
    - apply ClientGone; [|by cbn; rewrite Ew|done]. exists ds, []. destruct Ho as [H1 H2 H3 H4 H5 H6 H7]. rewrite app_nil_r.
      split_and!; [exact H1|done|apply prefix_nil| |exact H7]. cbn. by rewrite Ew.
    - eexists. pose proof (co_unbilled _ _ Ho) as Hb. cbn in Hb. cbn [on_cs_base cs_base emit_billing bill b_events b_usageTotals finalUsage]. by rewrite Hb. }
  assert (forall calls s2, opened s2 -> match chat_finalize r modelName result calls s2 with Some (s', ret) => chat_run_end s' ret | None => True end) as Hf.
  { intros calls s2 H2. destruct (chat_finalize r modelName result calls s2) as [[s' ret]|] eqn:E; [|done]. right. by eapply finalize_chat. }
  pose proof (split_router (cs_ownedTools s1) (res_toolCalls result)) as Hne. destruct (splitToolCalls _ _) as [routerCalls clientCalls]. cbn [fst] in Hne.
  destruct routerCalls as [|c cs]; [by apply Hf|]. assert (begun s1) as Hb by (apply Hc, Hne; done).
  pose proof (run_calls_begun registry opts schemas (c :: cs) s1 Hb) as [Hr _]. destruct (run_stream_calls _ _ _ _ s1) as [s2 outputs]. cbn [fst] in Hr.
  destruct clientCalls; [done|by apply Hf].
Qed.

Lemma turns_chat budget : forall reqBody s s' ret, chat_unopened (chat_view_of s) \/ opened s ->
  stream_turns registry opts schemas r modelName budget reqBody s = Some (s', ret) -> chat_run_end s' ret.
Proof.
  induction budget as [|budget IH]; intros reqBody s s' ret Hs; cbn [stream_turns].
  - unfold stream_final. destruct (forcedFinalChatRequest _ _) as [body|]; [|done]. cbn [mbind option_bind].
    pose proof (iteration_chat (stream_request body) s unix_set Hs) as Hi. destruct (runIteration _ s) as [[s1 result] [err|]].
    + intros Ht. apply (inj Some) in Ht. eapply terminate_any; [|exact Ht]. destruct Hi as [[? _]|[? _]]; [by right|by left].
    + destruct Hi as [[Ho _]|[_ ?]]; [|done]. intros Hf. right. by eapply finalize_chat.
  - pose proof (turn_chat reqBody s Hs) as Ht. destruct (stream_turn _ _ _ _ _ reqBody s) as [[[s1 ret1]|]|[reqBody1 s1]].
    + intros [= <- <-]. exact Ht.
    + done.
    + apply IH. by right.
Qed.
End Turns.
End Ends.

Lemma chat_run_ok r registry body modelName prompt routerOpts wh flusher s ret : se_unix <> 0 ->
  runChatStreaming r registry body modelName prompt routerOpts wh flusher = Some (s, ret) -> chat_run_end r modelName s ret.
Proof.
  intros Hu. unfold runChatStreaming. cbn zeta. set (s0 := newChatStreamer _ _ _ _). assert (chat_unopened (chat_view_of s0)) as Hs by by split.
  destruct (negb flusher); [intros [= <- <-]; left; split; [done|by eexists]|].
  destruct (buildChatStreamRequest _ _ _) as [reqBody|]; [|done]. cbn [mbind option_bind]. apply turns_chat; [done|by left].
Qed.
End Writing.

(** ** Theorems *)

Section Theorems.
Context {SE : StreamEnv}.

Lemma ended_sent started fs s : ended_with started fs (chat_view_of s) -> b_headersWritten (cs_base s) = true.
Proof. by intros (ds & p & _ & _ & _ & _ & ?). Qed.

(** C22: the client of a streamed chat completion sees one completion. Over any
    run, its turns and tool calls included, every chunk carries the same
    identifier, creation time and model; the role comes in the first chunk and in
    no other; the finishing chunk, the usage the client asked for and the end
    marker come once and last, or else one error and the end marker; unless a
    write fails nothing of this is missing. A run that could not begin wrote
    nothing and returns its error, and one that has begun never returns a plain
    error. *)
Theorem chat_stream_coherent r registry body modelName prompt routerOpts wh flusher s ret : se_unix <> 0 ->
  runChatStreaming r registry body modelName prompt routerOpts wh flusher = Some (s, ret) ->
  let one := chunk_frame (cs_id s) (cs_created s) (b_model (cs_base s)) in
  if b_headersWritten (cs_base s) then
    (exists ds ending sent, b_out (cs_base s) = map one ds ++ sent /\ role_first ds /\ sent `prefix_of` ending
      /\ (b_writeErr (cs_base s) = None -> sent = ending)
      /\ ((exists reason, ending = finish_frames (cs_id s) (cs_created s) (b_model (cs_base s)) reason
             (shown_usage s (chatUsageMap <$> Accumulated (b_usageTotals (cs_base s)))) /\ (b_writeErr (cs_base s) = None -> ds <> []))
          \/ (exists err, ending = failure_frames err) \/ (ending = [] /\ b_writeErr (cs_base s) <> None)))
    /\ (b_writeErr (cs_base s) = None -> ret = None) /\ (ret = None \/ exists e, ret = Some (StreamAborted e))
  else b_out (cs_base s) = [] /\ exists e, ret = Some (ReturnedError e).
Proof.
  intros Hu H%chat_run_ok; [|done]. cbn zeta. destruct H as [[Hn He]|[[reason He Hr|err He Hr|He Hw Hr] _]].
  - pose proof (cu_sent _ Hn) as Hs. cbn in Hs. rewrite Hs. split; [exact (cu_out _ Hn)|done].
  - rewrite (ended_sent _ _ _ He). destruct He as (ds & p & H1 & H2 & H3 & H4 & H5). split.
    + exists ds. eexists. exists p. split_and!; [exact H1|done|exact H3|by intros Hw; apply H4|]. left. exists reason. split; [done|]. intros Hw. by apply H4.
    + rewrite Hr. apply latched_ends. exact H5.
  - rewrite (ended_sent _ _ _ He). destruct He as (ds & p & H1 & H2 & H3 & H4 & H5). split.
    + exists ds. eexists. exists p. split_and!; [exact H1|done|exact H3|by intros Hw; apply H4|]. right. left. by exists err.
    + rewrite Hr. apply latched_ends. exact H5.
  - rewrite (ended_sent _ _ _ He). destruct He as (ds & p & H1 & H2 & H3 & H4 & H5). split; [|by rewrite Hr; split; [|left]].
    exists ds, [], p. split_and!; [exact H1|done|exact H3|by intros Hw'|]. by right; right.
Qed.

(** A streamed chat completion is billed once. A run that opened its stream
    adds exactly one event under the caller's key (none without a key), whether
    it finished, failed mid-stream or lost its client, for the usage summed over
    all its turns; a run that could not open it adds none. *)
Theorem chat_run_billed_once r registry body modelName prompt routerOpts wh flusher s ret : se_unix <> 0 ->
  runChatStreaming r registry body modelName prompt routerOpts wh flusher = Some (s, ret) ->
  if b_headersWritten (cs_base s) then
    exists h, b_events (cs_base s) = emitBillingEvent se_now r
        (Some (MkResponse (Some {["usage" := match chatUsageMap <$> Accumulated (b_usageTotals (cs_base s)) with Some u => JObj u | None => JNull end]}) (Some h) 0))
        modelName true
      /\ length (b_events (cs_base s)) = (if String.eqb (BearerToken (header_get (in_header r) "Authorization")) "" then 0%nat else 1%nat)
  else b_events (cs_base s) = [].
Proof.
  intros Hu H%chat_run_ok; [|done]. destruct H as [[Hn He]|[He [h Hb]]].
  - pose proof (cu_sent _ Hn) as Hs. cbn in Hs. rewrite Hs. exact (cu_events _ Hn).
  - assert (b_headersWritten (cs_base s) = true) as -> by (destruct He as [reason He _|err He _|He _ _]; exact (ended_sent _ _ _ He)).
    exists h. split; [done|]. rewrite Hb. unfold emitBillingEvent. by destruct (String.eqb _ "").
Qed.
End Theorems.

(** ** Small runs *)

(** The model's first turn is a search, its second an answer. *)
Definition chat_choice (delta : object) (reason : string) : object :=
  {["choices" := JArr [JObj (if String.eqb reason "" then {["delta" := JObj delta]} else {["delta" := JObj delta; "finish_reason" := JStr reason]})]]}.

Definition sample_chunks : list object :=
  [<["id" := JStr "u1"]> (<["model" := JStr "m"]> (chat_choice {["role" := JStr "assistant"]} ""));
   chat_choice {["tool_calls" := JArr [JObj {["id" := JStr "c1"; "function" := JObj {["name" := JStr "router_search"; "arguments" := JStr "{}"]}]}]]} "";
   <["usage" := JObj (some_usage 10 5 15)]> (chat_choice ∅ "tool_calls");
   <["id" := JStr "u2"]> (chat_choice {["content" := JStr "hi"]} "");
   chat_choice ∅ "stop"].

Definition chat_incoming : incoming := MkIncoming "/v1/chat/completions" (header_set ∅ "Authorization" "Bearer key") (MkContext None None).

Definition chat_sample (answers : list string) (broken : option nat) : stream_end :=
  let SE := toy_stream sample_chunks answers broken in
  runChatStreaming chat_incoming cache_registry {["messages" := JArr []]} "m" [] None ∅ true.

Definition chat_sample_end (answers : list string) (broken : option nat) : chatStreamer * option returned :=
  default (let SE := toy_stream [] [] None in newChatStreamer chat_incoming "m" cache_registry ∅, None) (chat_sample answers broken).

Lemma chat_sample_ran answers broken : match chat_sample answers broken with Some _ => true | None => false end = true ->
  let SE := toy_stream sample_chunks answers broken in
  runChatStreaming chat_incoming cache_registry {["messages" := JArr []]} "m" [] None ∅ true
    = Some ((chat_sample_end answers broken).1, (chat_sample_end answers broken).2).
Proof. intros H SE. unfold chat_sample_end. change (runChatStreaming _ _ _ _ _ _ _ _) with (chat_sample answers broken). by destruct (chat_sample answers broken) as [[s ret]|]. Qed.

Lemma chat_stream_coherent_witness :
  map (fun f => match f with DataFrame m => get "choices" m | _ => JNull end) (b_out (cs_base (chat_sample_end ["abc!"; "de!"] None).1))
  = [JArr [JObj {["index" := JInt 0; "delta" := JObj role_delta]}]; JArr [JObj {["index" := JInt 0; "delta" := JObj {["content" := JStr "hi"]}]}];
     JArr [JObj {["index" := JInt 0; "delta" := JObj ∅; "finish_reason" := JStr "stop"]}]; JNull]
  /\ (chat_sample_end ["abc!"; "de!"] None).2 = None.
Proof.
  split; [vm_compute; reflexivity|]. pose (SE := toy_stream sample_chunks ["abc!"; "de!"] None). assert (@se_unix SE <> 0) as Hu by (vm_compute; discriminate).
  pose proof (chat_stream_coherent chat_incoming cache_registry {["messages" := JArr []]} "m" [] None ∅ true _ _ Hu
    (chat_sample_ran ["abc!"; "de!"] None ltac:(vm_compute; reflexivity))) as H. cbn zeta in H.
  assert (b_headersWritten (cs_base (chat_sample_end ["abc!"; "de!"] None).1) = true) as Hs by (vm_compute; reflexivity). rewrite Hs in H.
  destruct H as (_ & H & _). apply H. vm_compute. reflexivity.
Defined.

(** The second turn's stream breaks off. *)
Lemma chat_run_billed_once_witness :
  length (b_out (cs_base (chat_sample_end ["abc!"; "d"] None).1)) = 4%nat
  /\ length (b_events (cs_base (chat_sample_end ["abc!"; "d"] None).1)) = 1%nat.
Proof.
  split; [vm_compute; reflexivity|]. pose (SE := toy_stream sample_chunks ["abc!"; "d"] None). assert (@se_unix SE <> 0) as Hu by (vm_compute; discriminate).
  pose proof (chat_run_billed_once chat_incoming cache_registry {["messages" := JArr []]} "m" [] None ∅ true _ _ Hu
    (chat_sample_ran ["abc!"; "d"] None ltac:(vm_compute; reflexivity))) as H.
  assert (b_headersWritten (cs_base (chat_sample_end ["abc!"; "d"] None).1) = true) as Hs by (vm_compute; reflexivity). rewrite Hs in H.
  destruct H as (h & _ & Hl). rewrite Hl. vm_compute. reflexivity.
Defined.
