(* ===== verification/Handle.v ===== *)
(** * The tool runtime, end to end ([Handle] of [toolruntime/runtime.go], its caller in [main.go])

    A request with router-owned tools: the sessions are opened and their tools
    merged, the request is run on its surface, streamed or not, and whatever
    happens the sessions are closed, the usage is billed and the client is
    answered.

    The world is a [StreamEnv]; dialing a profile, listing a session's tools and
    encoding an error envelope are parameters.  The header of the response writer
    is as the caller left it; writes of whole responses succeed. *)

From Stdlib Require Import Ascii.
From S2P Require Import Prelude Float64 Sha256 Strconv Utf8 CacheSalt Json Errors Autoroute TokenCount Billing Headers Coerce Quirks Citations Annotations Sse WebSearch Session Events Prompt ToolLoop ToolLoopSpec ToolLoopRuns Runtime StreamBase StreamToy ResponsesStream ResponsesSpec ChatStream ChatSpec.
#[local] Open Scope string_scope.
#[local] Open Scope list_scope.
#[local] Open Scope Z_scope.

(** Why [Handle] returns an error; [Aborted] is a [StreamAbortedError]. *)
Inductive handle_error :=
  | NoRegistry (e : registry_error)
  | RunError (e : failure)
  | Aborted (e : failure)
  | UnsupportedRoute (path : string).

(** What came of a request: the events for billing, the sessions closed, the
    frames of the event stream when its header went out, the whole responses
    written, the error returned, and whether the handler panicked. *)
Record tool_answer := MkAnswer {
  an_events : list Billing.Event;
  an_closed : list Z;
  an_stream : option (list frame);
  an_written : list written;
  an_error : option handle_error;
  an_panicked : bool
}.

Section Handle.
Context {SE : StreamEnv}.
Context (dial : Profile -> option Z) (ListTools : Z -> option (list Tool)) (marshal_envelope : ErrorBody -> bytes) (flusher : bool).

Definition searchOptions (path : string) (opts : RouterOptions) (body : object) : webSearchOptions :=
  parseWebSearchOptions e_ToLower e_ToUpper e_ParseFloat e_int_out_of_range e_parse_day e_parse_rfc3339 e_format_rfc3339 path (Some opts) body.

Definition open_sessions (path : string) (profiles : list Profile) (opts : RouterOptions) (body : object) : registry_error * list Z + sessionRegistry :=
  buildSessionRegistry (disabledRouterTools (searchOptions path opts body)) dial ListTools profiles.

(** [writeUpstreamError] of what a run returned. *)
Definition report (wh : Header) (ret : returned) : handle_error + written :=
  match ret with
  | StreamAborted e => inl (Aborted e)
  | ReturnedError e => match writeUpstreamError marshal_envelope wh e with inl e => inl (RunError e) | inr w => inr w end
  end.

Definition panicked (events : list Billing.Event) (closed : list Z) : tool_answer := MkAnswer events closed None [] None true.

Definition answered_with (events : list Billing.Event) (closed : list Z) (stream : option (list frame)) (result : handle_error + written) : tool_answer :=
  match result with
  | inl e => MkAnswer events closed stream [] (Some e) false
  | inr w => MkAnswer events closed stream [w] None false
  end.

(** A streamed run, from its base. *)
Definition stream_answer (closed : list Z) (b : streamBase) (ret : option returned) : tool_answer :=
  let stream := if b_headersWritten b then Some (b_out b) else None in
  match ret with
  | None => MkAnswer (b_events b) closed stream [] None false
  | Some ret => answered_with (b_events b) closed stream (report (b_header b) ret)
  end.

(** A run that does not stream. *)
Definition loop_answer {A} `{toolLoopAdapter A} (wh : Header) (r : incoming) (modelName : string) (registry : sessionRegistry) (adapter : A) : tool_answer :=
  let webSearch := parseTinfoilEventFlags (header_get (in_header r) tinfoilEventsHeader) in
  let '(e, st) := runToolLoop registry webSearch (isHarmonyModel modelName) adapter in
  let o := answer_run marshal_envelope se_ModelPricing se_now wh r modelName (se_ModelPricing "websearch") (se_ModelPricing "pii-filter") (l_log st) e in
  match oc_result o with
  | None => panicked (oc_events o) (CloseAll registry)
  | Some result => answered_with (oc_events o) (CloseAll registry) None (match result with inl e => inl (RunError e) | inr w => inr w end)
  end.

Definition Handle (r : incoming) (wh : Header) (profiles : list Profile) (body : object) (modelName : string) (opts : RouterOptions) : tool_answer :=
  let path := in_path r in
  match open_sessions path profiles opts body with
  | inl (e, closed) => MkAnswer [] closed None [] (Some (NoRegistry e)) false
  | inr registry =>
      let prompt := buildRouterPrompt (isHarmonyModel modelName) (profileNames registry) (owned registry) in
      let closed := CloseAll registry in
      if String.eqb path "/v1/chat/completions" then
        if isStream body then
          match runChatStreaming r registry body modelName prompt (Some opts) wh flusher with
          | None => panicked [] closed
          | Some (s, ret) => stream_answer closed (cs_base s) ret
          end
        else loop_answer wh r modelName registry (newChatLoopAdapter body prompt (tools registry) (owned registry) (Some opts))
      else if String.eqb path "/v1/responses" then
        if isStream body then
          match runResponsesStreaming r registry body modelName prompt (Some opts) wh flusher with
          | None => panicked [] closed
          | Some (s, ret) => stream_answer closed (rs_base s) ret
          end
        else loop_answer wh r modelName registry (newResponsesLoopAdapter body prompt (tools registry) (owned registry) (Some opts))
      else MkAnswer [] closed None [] (Some (UnsupportedRoute path)) false
  end.

(** The handler of main.go: an error that was not reported in the stream is
    answered, by [WriteAPIError]. *)
Definition error_page (wh : Header) : written :=
  let '(status, _, envelope) := WriteAPIError ErrUpstream in
  MkWritten (header_set wh "Content-Type" "application/json") status (marshal_envelope envelope).

Definition serve_tools (r : incoming) (wh : Header) (profiles : list Profile) (body : object) (modelName : string) (opts : RouterOptions) : tool_answer :=
  let a := Handle r wh profiles body modelName opts in
  match an_error a with
  | None | Some (Aborted _) => a
  | Some _ => MkAnswer (an_events a) (an_closed a) (an_stream a) (an_written a ++ [error_page wh]) (an_error a) (an_panicked a)
  end.

(** ** Lemmas *)

Abbreviation key_of r := (BearerToken (header_get (in_header r) "Authorization")).

(** The events of a request: at most one, under the caller's key. *)
Definition bills (r : incoming) (modelName : string) (evs : list Billing.Event) : Prop :=
  (length evs <= 1)%nat /\ Forall (fun e => ev_APIKey e = key_of r /\ ev_APIKey e <> "" /\ ev_CustomerRequests e = CustomerRequests (in_ctx r)
    /\ ev_RequestPath e = in_path r) evs.

Lemma bills_nothing r modelName : bills r modelName [].
Proof. split; [cbn; lia|constructor]. Qed.

Lemma bills_emitted r modelName response streaming : bills r modelName (emitBillingEvent se_now r response modelName streaming).
Proof.
  split; [unfold emitBillingEvent; destruct response; [destruct (String.eqb _ "")|]; cbn; lia|].
  eapply Forall_impl; [apply emitBillingEvent_key|]. cbn. tauto.
Qed.

Lemma bills_present r modelName response streaming : key_of r <> "" -> length (emitBillingEvent se_now r (Some response) modelName streaming) = 1%nat.
Proof. intros Hk. unfold emitBillingEvent. by apply String.eqb_neq in Hk as ->. Qed.

(** A request is settled: unless it panicked the client is answered once, by a
    stream or by one response; it is billed as it should be; and the sessions
    that were opened are closed. *)
Record settled (r : incoming) (modelName : string) (closed : list Z) (a : tool_answer) : Prop := {
  st_once : an_panicked a = false ->
    (exists fs, an_stream a = Some fs /\ an_written a = [] /\ (an_error a = None \/ exists e, an_error a = Some (Aborted e)))
    \/ (an_stream a = None /\ ((exists w, an_written a = [w] /\ an_error a = None)
          \/ (an_written a = [] /\ exists e, an_error a = Some e /\ forall e', e <> Aborted e')));
  st_bills : bills r modelName (an_events a);
  st_streamed : forall fs, an_stream a = Some fs -> key_of r <> "" -> length (an_events a) = 1%nat;
  st_closed : an_closed a = closed
}.

Lemma report_cases wh e : (exists w, report wh (ReturnedError e) = inr w) \/ exists f, report wh (ReturnedError e) = inl (RunError f).
Proof. unfold report. destruct (writeUpstreamError _ wh e); eauto. Qed.

(** A streamed run that begins bills one event and returns no plain error; one
    that cannot begin bills none and returns its error. *)
Lemma stream_settled r modelName closed b ret :
  (if b_headersWritten b then
     (exists response, b_events b = emitBillingEvent se_now r (Some response) modelName true) /\ (ret = None \/ exists e, ret = Some (StreamAborted e))
   else b_events b = [] /\ exists e, ret = Some (ReturnedError e)) ->
  settled r modelName closed (stream_answer closed b ret).
Proof.
  intros H. unfold stream_answer. destruct (b_headersWritten b).
  - destruct H as [[response He] H]. rewrite He.
    destruct H as [->|[e ->]]; cbn -[emitBillingEvent]; (split; cbn -[emitBillingEvent]; [intros _; left; eexists; split_and!; eauto|apply bills_emitted|intros fs _; apply bills_present|done]).
  - destruct H as [He [e ->]]. rewrite He. destruct (report_cases (b_header b) e) as [[w Hw]|[f Hf]]; rewrite ?Hw, ?Hf; cbn -[emitBillingEvent].
    + split; cbn -[emitBillingEvent]; [intros _; right; split; [done|left; by exists w]|apply bills_nothing|done|done].
    + split; cbn -[emitBillingEvent]; [intros _; right; split; [done|right; split; [done|eexists; by split]]|apply bills_nothing|done|done].
Qed.

Lemma loop_settled {A} `{toolLoopAdapter A} wh r modelName registry (adapter : A) :
  settled r modelName (CloseAll registry) (loop_answer wh r modelName registry adapter).
Proof.
  unfold loop_answer. destruct (runToolLoop _ _ _ adapter) as [e st]. set (o := answer_run _ _ _ _ _ _ _ _ _ e).
  assert (bills r modelName (oc_events o)) as Hb.
  { subst o. destruct e; cbn -[emitBillingEvent]; [apply bills_emitted|apply bills_emitted|apply bills_nothing]. }
  destruct (oc_result o) as [[f|w]|]; split; try done; cbn.
  - intros _. right. split; [done|]. right. split; [done|]. eexists. by split.
  - intros _. right. split; [done|]. left. by exists w.
Qed.

Lemma handle_settled r wh profiles body modelName opts : se_unix <> 0 ->
  settled r modelName (match open_sessions (in_path r) profiles opts body with inl (_, closed) => closed | inr registry => CloseAll registry end)
    (Handle r wh profiles body modelName opts).
Proof.
  intros Hu. unfold Handle. destruct (open_sessions _ _ _ _) as [[e closed]|registry].
  { split; cbn; [|apply bills_nothing|done|done]. intros _. right. split; [done|]. right. split; [done|]. eexists. by split. }
  set (prompt := buildRouterPrompt _ _ _). cbv zeta.
  assert (settled r modelName (CloseAll registry) (panicked [] (CloseAll registry))) as Hp by (split; cbn; [done|apply bills_nothing|done|done]).
  destruct (String.eqb (in_path r) "/v1/chat/completions"); [|destruct (String.eqb (in_path r) "/v1/responses")].
  - destruct (isStream body); [|apply loop_settled]. destruct (runChatStreaming _ _ _ _ _ _ _ _) as [[s ret]|] eqn:E; [|exact Hp].
    apply stream_settled. apply chat_run_ok in E; [|done]. destruct E as [[Hn He]|[He [h Hb]]].
    + pose proof (cu_sent _ Hn) as Hs. cbn in Hs. rewrite Hs. split; [exact (cu_events _ Hn)|done].
    + assert (b_headersWritten (cs_base s) = true) as Hs by (destruct He as [? He _|? He _|He _ _]; exact (ended_sent _ _ _ He)). rewrite Hs.
      split; [by eexists|]. destruct He as [? _ ->|? _ ->|_ _ ->]; [by apply latched_ends|by apply latched_ends|by left].
  - destruct (isStream body); [|apply loop_settled]. destruct (runResponsesStreaming _ _ _ _ _ _ _ _) as [[s ret]|] eqn:E; [|exact Hp].
    apply stream_settled. apply run_ok in E. destruct E as [[Hn He]|(He & (usage & h & Hb & _) & _ & Hr)].
    + pose proof (un_sent _ _ Hn) as Hs. cbn in Hs. rewrite Hs. split; [exact (un_events _ _ Hn)|done].
    + pose proof (en_sent _ _ He) as Hs. cbn in Hs. rewrite Hs. split; [by eexists|exact Hr].
  - split; cbn; [|apply bills_nothing|done|done]. intros _. right. split; [done|]. right. split; [done|]. eexists. by split.
Qed.

(** ** Properties *)


End Handle.

(** ** Small requests *)

(** A search and an answer, streamed; and one whose second turn breaks off. *)
Definition small_tools (flusher : bool) (answers : list string) : tool_answer :=
  let SE := toy_stream sample_chunks answers None in
  serve_tools (fun _ => Some 7) (fun _ => Some [MkTool "search" "" JNull]) (fun _ => []) flusher chat_incoming ∅ [WebSearch]
    {["messages" := JArr []; "stream" := JBool true]} "m" (MkRouterOptions None false).


